(* ===== verification/_CoqProject ===== *)
-Q . S2P
Prelude.v
PyDict.v
PyStr.v
Json.v
PyText.v
Base64.v
Utf8.v
Message.v
Security.v
PeerRegistry.v
VectorClock.v
BroadcastNode.v
BroadcastFacts.v
NodeLifecycle.v
Membership.v
EventLog.v
Snapshot.v
Presence.v
Durability.v
Coordinator.v
CoordinatorKeeps.v
CoordinatorFacts.v
MembershipRouter.v
Demo.v
Deployment.v
CausalCheck.v
PeerRuntime.v
LogWire.v
StoredMessage.v
MessageStore.v
MessageStoreFacts.v
MessageHistory.v
Recovery.v
RecoveryFacts.v
ControlServer.v
ControlFacts.v
Driver.v
DriverFacts.v
Report.v
ReportTable.v
Chaos.v
ChaosFacts.v
DiscoveryProtocol.v
Discovery.v
Schedulers.v
DiscoveryFacts.v
FirstContact.v
ChatService.v
ChatFacts.v
WebApp.v
Logging.v
Program.v
ProgramFacts.v
Terminal.v
