(* ===== verification/Prelude.v ===== *)
(** * PeerChat: a verification development

    PeerChat is a serverless group chat.  Every peer floods signed messages to the peers
    it knows, shows them in causal order, keeps them on disk, and runs a replicated log of
    membership events; a joiner finds the room through a seed peer or through the DNS of a
    cluster, and fetches the history it missed from the others.  This library translates
    the Python sources into executable definitions and proves what each part promises and
    what the parts achieve together.

    ** Files

    Shared ground: this file (results, the state and exception monad, lists),
    [PyDict.v] (dictionaries with their order), [PyStr.v] (text and addresses), [Json.v],
    [PyText.v] ([str], [repr] and format specifications), [Base64.v], [Utf8.v].

    The message plane, [distribution/] and [security/]:
    - [Message.v] models [message.py]; [VectorClock.v] models [vector_clock.py] (clock,
      hold-back queue); [PeerRegistry.v] models [peer_registry.py], the interface as a
      class with laws; [Security.v] models [message_integrity.py],
      [payload_encryption.py], [key_storage.py], [keyring_key_storage.py] and
      [key_bootstrap.py];
    - [BroadcastNode.v] models [broadcast_node.py]: [Node] is the object's state,
      [_receive], [_do_broadcast], [_send_with_retry] and the others are its coroutines,
      [handle] one step of the event loop, [run] a history of it.  [BroadcastFacts.v] has
      the theorems.  [NodeLifecycle.v] adds [start], [stop] and the thread between them.
    - [MembershipRouter.v] models [membership_router.py], a registry fed by the membership
      service.

    The membership plane, [peer_discovery/membership/] and [membership_integration/]:
    [Membership.v] ([models.py]), [EventLog.v] ([event_log.py]), [Snapshot.v]
    ([snapshot.py]), [Presence.v] ([presence.py], [duplicate_guard.py]), [Durability.v]
    ([durability.py]) and [Coordinator.v] ([coordinator.py], [service.py], [tracer.py],
    [notifier.py]).  [CoordinatorKeeps.v] reduces an invariant of the coordinator to the
    four places it writes; [CoordinatorFacts.v] has the theorems.  [Demo.v] is the script
    [demo_membership.py], run on the coordinator.

    Discovery, [peer_discovery/network/]: [DiscoveryProtocol.v] ([protocol.py]),
    [Discovery.v] ([discovery_node.py], [gossip.py], [heartbeat.py], [bootstrap.py],
    [config.py]) and [DiscoveryFacts.v]; [FirstContact.v] joins the pre-verification hook
    of the discovery node to the broadcast node.  [Schedulers.v] has the threads: the tick
    scheduler of [service.py] and those of [heartbeat.py].  [Logging.v] is
    [logging_setup.py].

    History, [message_history/storage/]: [StoredMessage.v] ([models.py]), [MessageStore.v]
    ([local_message_store.py]), [MessageStoreFacts.v] (its invariant), [MessageHistory.v]
    (the abstract history it refines), [Recovery.v] ([recovery_stream.py],
    [recovery_fanout.py], [node_setup.py], [history_service.py]), [RecoveryFacts.v].
    [Terminal.v] is the terminal client, [message_history/demo_history.py].

    Deployment and test harness: [Deployment.v] ([deploy/identity.py],
    [deploy/dns_registry.py]); [CausalCheck.v] ([harness/causal_check.py]);
    [PeerRuntime.v] (the delivery log and recovery gate of [deploy/peer_node.py]) and
    [ControlServer.v] (the pod as a whole, its threads and its HTTP routes), with
    [ControlFacts.v]; [LogWire.v], the JSON the pods and the driver exchange, as a class
    both sides are proved against; [Driver.v] ([harness/driver.py]) with [DriverFacts.v];
    [Report.v], the report as the driver prints it; [ReportTable.v]
    ([harness/summarize.py]); [Chaos.v] ([harness/chaos.py]) with [ChaosFacts.v].

    The web interface: [ChatService.v] models [ui/services/service.py] (and the mock
    service), on top of [Discovery.v] and [Recovery.v]; [ChatFacts.v] has the theorems and
    joins it to the broadcast node.  [WebApp.v] models the routes of [ui/app.py].
    [Program.v] models [main.py], [net_utils.py] and [persistent_key_storage.py]: it builds
    the page, the service, the node and the history and follows a message from the form to
    the wire; [ProgramFacts.v] has the theorems.

    ** What is proved

    - Messages: causal delivery, from any state of the node, and at-most-once delivery over
      every run of the event loop, restarts of the node included; what stopping a node ends
      and what it keeps; the effect of receiving, sending and retrying on every branch; a
      message owed to a peer stays owed until acknowledged; with signatures enforced only
      authenticated messages are accepted; signing, encryption and the wire format
      round-trip; the hold-back queue's [drain] terminates and is right.
    - Membership: the snapshot is always the projection of the log; it follows the
      documented state machine; joins, the life cycle, failure detection and refused
      leaves; log, snapshot and checkpoint round-trip; a crash during a checkpoint loses
      nothing; a restart resumes; the router's table is a function of the membership.
    - Discovery: the join handshake from request to success; gossip is applied once and
      never echoed, and what it cannot convey; the memory of seen events is an LRU window;
      a newcomer's first message is verified, and the first key of an address stays.
    - History: from an empty disk, under saves, snapshots, restarts and crashes, the store
      refines a set of messages with its queries; the recovery cursor is exact on any disk;
      one exchange completes a history.
    - Deployment: pods agree on their names; the DNS registry answers with resolutions;
      the checker accepts exactly the causal logs, and the log a peer runtime writes over a
      causal delivery passes it, which links the harness to the theorem on delivery.
    - The pod: it is ready exactly when enough peers answered and recovery has settled,
      which it does in bounded time; every answer of the control server is a JSON document
      that reads back as what was answered.
    - The harness: the driver ends, its plan is fair, its exit status is the verdict of the
      checker on what it collected; driver, control server, node and checker composed, a
      cluster whose pods keep causal logs passes; the report of any run reads back from
      the standard output and has a table; the chaos run deletes no pod twice and accounts
      for every violation of the report once.
    - The terminal client: it prints each chat message it is handed, once, and [show] lists
      what it keeps.
    - The web interface: the window shows chat and only chat, connecting replays the
      history, silence changes no routes, and a message shown from a peer is not relayed;
      a page that says it is connected has a discovery node.
    - The program: it starts, with one key for signing and advertising; a text sent from
      the page is shown, stored, and on its way to every peer, who can verify it.

    ** How the code is read

    A Python method is a definition with the method's name; its state is a record passed
    through the monad [M], whose failures are the exception classes of [exn] (an exception
    keeps the state reached, as in Python).  Calls between components are calls between
    definitions.  Components the code reaches through an interface are classes with laws
    ([PeerRegistry]; [Respected] for what the coordinator keeps), and theorems are proved
    against the class.  Code outside the repository is a parameter: [Crypto] with
    [CryptoLaws] (the [cryptography] package), [Keyring] (the OS keyring), [Archive]
    (gzip, SHA-256), [Dns] (resolver and [getaddrinfo]), [Host] (the driver's clock and
    network), [Cluster] (what the chaos run starts and reads), [Templates] (Flask's pages),
    [Platform] (ports and addresses of the machine).
    Hypotheses about them state documented behaviour and are instantiated in the witnesses.

    - Time is a whole number of microseconds.  An operation reads the clock once, and the
      wall clock and the monotonic clock are the same argument.
    - Random draws, uuids, and what a peer replies are arguments of the operation or event.
    - Integers are unbounded, as Python's are.  Floats occur only as time stamps with
      microsecond resolution.
    - Text holds the code points 0 to 255.  Where the code stores a value of any type in a
      typed field, the model refuses ill-typed ones with [TypeError].
    - A coroutine is atomic between its awaits; an awaited send is an event of its own.
      Methods that hold a lock are atomic.  Interleavings are sequences of events.  The
      requests of the driver's thread pool are made in the order of their results.
    - A task of the event loop runs in a copy of its creator's context, so a message sent
      from a page is shown inside Flask's application context and one from a peer is not.
    - A subscriber's callback is recorded when it is called; the callbacks that matter,
      those of the router, the gossip dispatcher and the chat service, are then run on what
      was recorded, which is the order of the code since none touches the coordinator.
    - A disk is a dictionary from names to texts; renaming is atomic; disk errors do not
      occur, and a crash may stop a save or a checkpoint at each of its writes.

    ** Fuel

    [drain_loop] runs at most one turn more than there are held messages, since every turn
    but the last releases one ([VectorClock.drain_correct] shows that it ends by itself);
    the JSON decoder has fuel of twice the length of the text, and decoding what was
    encoded is shown to succeed.  The loops of the driver that wait have fuel of one turn
    per second of the first time-out and one per two seconds of the second, and two to
    spare ([DriverFacts.driver_ends] shows that this is never used up).  All other
    recursion is structural.

    ** Not modelled

    Sockets and the set-up of threads and event loops; starting a broadcast node that is
    running; the text of log lines; the driver's progress lines and its dump of the raw
    logs; the templates; command lines; [demo_lan.py] and [demo_comprehensive.py], which
    print around calls that are modelled and start processes whose entry point is
    deprecated; [get_external_ip], which nothing calls.  The discovery hook that [connect]
    sets on the broadcast node is treated in [FirstContact.v], not in the
    composition of [Program.v], which follows sending only.  Text outside the code points
    0 to 255, [NaN], and JSON nested beyond Python's recursion limit. *)

From stdpp Require Import prelude gmap strings.
From Stdlib Require Sorting.Sorted.

(** Time stamps.  Python's [time.time()] and [time.monotonic()] are modelled at
    microsecond resolution: a time is the integer number of microseconds. *)
Abbreviation time := Z.

(** [seconds n] is the duration written [n.0] in the source. *)
Definition seconds (n : Z) : time := (n * 1000000)%Z.

(** ** Exceptions and results *)

(** The exception classes the modelled code raises or catches. *)
Inductive exn :=
  | StaleTermError | KeyError | ValueError | TypeError | AttributeError
  | IndexError | JSONDecodeError | ProtocolError | RuntimeError | OSError
  | IdentityError | PayloadEncryptionError | MissingKeyError | InvalidKeyError
  | PersistentKeyStorageError | ConnectionError | TimeoutError
  | OverflowError | InvalidSignature | DecryptionError | UnicodeError | NameError | ZeroDivisionError | ImportError.

#[export] Instance exn_eq_dec : EqDecision exn.
Proof. solve_decision. Defined.

(** The outcome of a Python expression: a value or a raised exception. *)
Inductive result (A : Type) :=
  | Ok (a : A)
  | Raise (e : exn).
Arguments Ok {A} a.
Arguments Raise {A} e.

#[export] Instance result_ret : MRet result := λ A, Ok.
#[export] Instance result_bind : MBind result := λ A B k r,
  match r with Ok a => k a | Raise e => Raise e end.
#[export] Instance result_fmap : FMap result := λ A B f r,
  match r with Ok a => Ok (f a) | Raise e => Raise e end.

Definition is_Ok {A} (r : result A) : bool :=
  match r with Ok _ => true | Raise _ => false end.

(** [d[k]]: a missing key raises. *)
Definition of_option {A} (e : exn) (o : option A) : result A :=
  match o with Some a => Ok a | None => Raise e end.

(** List comprehensions whose body may raise: the first exception wins. *)
Fixpoint mapR {A B} (f : A → result B) (l : list A) : result (list B) :=
  match l with
  | [] => Ok []
  | x :: l => y ← f x; ys ← mapR f l; mret (y :: ys)
  end.

Lemma mapR_ok {A B} (f : A → result B) (g : A → B) l :
  (∀ x, x ∈ l → f x = Ok (g x)) → mapR f l = Ok (g <$> l).
Proof.
  induction l as [|x l IH]; intros H; [done|]; cbn.
  rewrite H by set_solver. cbn. rewrite IH by set_solver. done.
Qed.

(** ** A state and exception monad: [self] is threaded, and a raised exception
    keeps the mutations made before it, as in Python. *)
Definition M (S A : Type) : Type := S → result A * S.

#[export] Instance M_ret {S} : MRet (M S) := λ A a s, (Ok a, s).
#[export] Instance M_bind {S} : MBind (M S) := λ A B k m s,
  match m s with
  | (Ok a, s') => k a s'
  | (Raise e, s') => (Raise e, s')
  end.

Definition get {S} : M S S := λ s, (Ok s, s).
Definition put {S} (s' : S) : M S unit := λ _, (Ok tt, s').
Definition modify {S} (f : S → S) : M S unit := λ s, (Ok tt, f s).
Definition lift {S A} (r : result A) : M S A := λ s, (r, s).
(** [try: m except Exception: h] *)
Definition try_except {S A} (m : M S A) (h : exn → M S A) : M S A := λ s,
  match m s with
  | (Ok a, s') => (Ok a, s')
  | (Raise e, s') => h e s'
  end.

(** [for x in l: f x] *)
Fixpoint forM {S A} (l : list A) (f : A → M S unit) : M S unit :=
  match l with
  | [] => mret tt
  | x :: l => f x ≫= λ _, forM l f
  end.

Lemma forM_cons {S A} (x : A) (l : list A) (f : A → M S unit) s :
  forM (x :: l) f s = match f x s with
                      | (Ok _, s') => forM l f s'
                      | (Raise e, s') => (Raise e, s')
                      end.
Proof. cbn. unfold mbind, M_bind. by destruct (f x s) as [[[]|e] s']. Qed.

Lemma bind_run {S A B} (m : M S A) (k : A → M S B) s :
  (m ≫= k) s = match m s with (Ok a, s') => k a s' | (Raise e, s') => (Raise e, s') end.
Proof. done. Qed.

Lemma forM_app {S A} (l1 l2 : list A) (f : A → M S unit) s :
  forM (l1 ++ l2) f s = (forM l1 f ≫= λ _, forM l2 f) s.
Proof.
  revert s; induction l1 as [|x l1 IH]; intros s; [done|].
  cbn. unfold mbind, M_bind. destruct (f x s) as [[[]|e] s']; [|done].
  rewrite IH. done.
Qed.

(** An invariant every iteration keeps is kept by the loop, exceptions included. *)
Lemma forM_inv {S A} (P : S → Prop) (l : list A) (f : A → M S unit) :
  (∀ x s, x ∈ l → P s → P (f x s).2) → ∀ s, P s → P (forM l f s).2.
Proof.
  induction l as [|x l IH]; intros Hf s Hs; [done|].
  cbn. unfold mbind, M_bind. pose proof (Hf x s ltac:(set_solver) Hs) as Hx.
  destruct (f x s) as [[[]|e] s']; [|done].
  apply IH; [set_solver|done].
Qed.

(** [keeps R m]: whatever [m] does, and however it ends, it moves the state along
    [R].  The rules follow the constructs of the monad. *)
Definition keeps {S A} (R : relation S) (m : M S A) : Prop := ∀ s, R s (m s).2.

Section Keeps.
Context {S : Type} (R : relation S) `{!PreOrder R}.

Lemma keeps_ret {A} (a : A) : keeps R (mret a).
Proof. intros s. cbn. reflexivity. Qed.
Lemma keeps_lift {A} (r : result A) : keeps R (lift r).
Proof. intros s. cbn. reflexivity. Qed.
Lemma keeps_get : keeps R get.
Proof. intros s. cbn. reflexivity. Qed.
Lemma keeps_modify f : (∀ s, R s (f s)) → keeps R (modify f).
Proof. intros H s. apply H. Qed.
Lemma keeps_bind {A B} (m : M S A) (k : A → M S B) :
  keeps R m → (∀ a, keeps R (k a)) → keeps R (m ≫= k).
Proof.
  intros Hm Hk s. unfold mbind, M_bind. specialize (Hm s). destruct (m s) as [[a|e] s']; [|done].
  cbn in Hm. etransitivity; [done|]. apply Hk.
Qed.
Lemma keeps_tail {A B} (m : M S A) (k : A → M S B) s :
  (∀ a, keeps R (k a)) → R (m s).2 ((m ≫= k) s).2.
Proof.
  intros Hk. unfold mbind, M_bind. destruct (m s) as [[a|e] s']; [apply Hk|reflexivity].
Qed.
(** After [get] the continuation runs in the very state it was given. *)
Lemma keeps_get_bind {B} (k : S → M S B) : (∀ s, R s (k s s).2) → keeps R (get ≫= k).
Proof. intros H s. apply H. Qed.
Lemma keeps_try {A} (m : M S A) h : keeps R m → (∀ e, keeps R (h e)) → keeps R (try_except m h).
Proof.
  intros Hm Hh s. unfold try_except. specialize (Hm s). destruct (m s) as [[a|e] s']; [done|].
  cbn in Hm. etransitivity; [done|]. apply Hh.
Qed.
Lemma keeps_forM {A} (l : list A) f : (∀ x, keeps R (f x)) → keeps R (forM l f).
Proof.
  intros Hf. induction l as [|x l IH]; [apply keeps_ret|]. cbn.
  apply keeps_bind; [apply Hf|]. intros []. apply IH.
Qed.
End Keeps.

Create HintDb keeps discriminated.
#[export] Hint Resolve keeps_ret keeps_lift keeps_get keeps_modify keeps_bind keeps_try keeps_forM : keeps.

(** ** Tactics *)

(** Run the monad's primitives on the state at hand. *)
Ltac mrun := unfold mbind, M_bind, get, put, modify, mret, M_ret, lift.
Tactic Notation "mrun" "in" hyp(H) := unfold mbind, M_bind, get, put, modify, mret, M_ret, lift in H.

(** One rule of [keeps] per construct, splitting the conditionals on the way. *)
Ltac keeps_tac :=
  repeat match goal with
  | |- ∀ _, _ => intros ?
  | |- keeps _ (_ ≫= _) => apply keeps_bind; [typeclasses eauto| |]
  | |- keeps _ (mret _) => apply keeps_ret; typeclasses eauto
  | |- keeps _ (lift _) => apply keeps_lift; typeclasses eauto
  | |- keeps _ get => apply keeps_get; typeclasses eauto
  | |- keeps _ (try_except _ _) => apply keeps_try; [typeclasses eauto| |]
  | |- keeps _ (forM _ _) => apply keeps_forM; [typeclasses eauto|]
  | |- keeps _ (let _ := _ in _) => cbv zeta
  | |- keeps _ (match ?x with _ => _ end) => destruct x eqn:?
  | |- keeps _ (modify _) => apply keeps_modify
  | |- keeps _ _ => solve [eauto with keeps]
  end.

(** Case analysis on the scrutinee of a [match] or [if] in the goal. *)
Ltac case_goal :=
  match goal with
  | |- context [match ?x with _ => _ end] =>
    lazymatch x with context [match _ with _ => _ end] => fail | _ => idtac end;
    destruct x eqn:?
  end.
Ltac case_hyp H :=
  match type of H with
  | context [match ?x with _ => _ end] =>
    lazymatch x with context [match _ with _ => _ end] => fail | _ => idtac end;
    destruct x eqn:?
  end.
(** Decide every [decide] in sight, closing the goals the equalities settle. *)
Ltac dec_solve :=
  cbn in *; repeat (case_decide; cbn in *; subst; try done; try congruence).
Ltac inv H := inversion H; clear H; subst.

(** Boolean tests of the code, as the propositions they decide. *)
Ltac zbool :=
  repeat match goal with
  | H : (_ && _)%bool = true |- _ => apply andb_true_iff in H as [? ?]
  | H : (_ || _)%bool = false |- _ => apply orb_false_iff in H as [? ?]
  | H : negb _ = true |- _ => apply negb_true_iff in H
  | H : negb _ = false |- _ => apply negb_false_iff in H
  | H : (_ =? _)%Z = true |- _ => apply Z.eqb_eq in H
  | H : (_ =? _)%Z = false |- _ => apply Z.eqb_neq in H
  | H : (_ <=? _)%Z = true |- _ => apply Z.leb_le in H
  | H : (_ <=? _)%Z = false |- _ => apply Z.leb_gt in H
  | H : (_ <? _)%Z = true |- _ => apply Z.ltb_lt in H
  | H : (_ <? _)%Z = false |- _ => apply Z.ltb_ge in H
  | H : bool_decide _ = true |- _ => apply bool_decide_eq_true in H
  | H : bool_decide _ = false |- _ => apply bool_decide_eq_false in H
  end.

(** ** Lists *)

Lemma forallb_Forall_true {A} (f : A → bool) l :
  forallb f l = true ↔ Forall (λ x, f x = true) l.
Proof. rewrite forallb_forall, List.Forall_forall. done. Qed.

Lemma foldl_inv {A B} (P : B → Prop) (f : B → A → B) (l : list A) b :
  P b → (∀ x b, x ∈ l → P b → P (f b x)) → P (foldl f b l).
Proof.
  revert b; induction l as [|x l IH]; intros b Hb Hf; cbn; [done|].
  apply IH; [apply Hf; set_solver|set_solver].
Qed.

Lemma NoDup_snoc {A} (l : list A) x : NoDup l → x ∉ l → NoDup (l ++ [x]).
Proof.
  intros. apply NoDup_app. split_and!; [done| |apply NoDup_singleton]. set_solver.
Qed.

Lemma submseteq_NoDup {A} (l k : list A) : l ⊆+ k → NoDup k → NoDup l.
Proof. intros [k' ->]%submseteq_Permutation. by intros [? _]%NoDup_app. Qed.

Lemma filter_none {A} (f : A → bool) l : Forall (λ x, f x = false) l → List.filter f l = [].
Proof. induction 1 as [|x l E _ IH]; [done|]. cbn. by rewrite E. Qed.

Lemma Forall_sub {A} (P : A → Prop) l k : k `sublist_of` l → Forall P l → Forall P k.
Proof.
  rewrite !Forall_forall. intros Hs Hl x Hx. apply Hl. by eapply elem_of_sublist.
Qed.

Lemma list_filter_sub {A} (f : A → bool) (l : list A) : List.filter f l `sublist_of` l.
Proof. induction l as [|x l IH]; cbn; [done|]. destruct (f x); by constructor. Qed.

(** [l.sort(key=key)]: stable. *)
Fixpoint insert_on {A} (key : A → Z) (x : A) (l : list A) : list A :=
  match l with
  | [] => [x]
  | y :: l => if (key x <=? key y)%Z then x :: y :: l else y :: insert_on key x l
  end.
Definition sort_on {A} (key : A → Z) (l : list A) : list A := foldr (insert_on key) [] l.

Lemma insert_on_perm {A} (key : A → Z) x l : insert_on key x l ≡ₚ x :: l.
Proof.
  induction l as [|y l IH]; [done|]. cbn. destruct (_ <=? _)%Z; [done|]. rewrite IH. constructor.
Qed.

Lemma sort_on_perm {A} (key : A → Z) l : sort_on key l ≡ₚ l.
Proof. induction l as [|x l IH]; [done|]. cbn. by rewrite insert_on_perm, IH. Qed.

Definition sorted_on {A} (key : A → Z) (l : list A) : Prop :=
  Sorted.StronglySorted (λ x y, (key x <= key y)%Z) l.

Lemma sort_on_id {A} (key : A → Z) l : sorted_on key l → sort_on key l = l.
Proof.
  induction 1 as [|x l Hs IH Hx]; [done|].
  change (sort_on key (x :: l)) with (insert_on key x (sort_on key l)). rewrite IH. destruct l as [|y l]; [done|]. cbn.
  apply Forall_inv in Hx. by rewrite (proj2 (Z.leb_le _ _) Hx).
Qed.

Lemma insert_on_sorted {A} (key : A → Z) x l : sorted_on key l → sorted_on key (insert_on key x l).
Proof.
  induction 1 as [|y l Hs IH Hy]; cbn; [by repeat constructor|].
  destruct (Z.leb_spec (key x) (key y)).
  - constructor; [by constructor|]. constructor; [done|].
    eapply Forall_impl; [done|]. intros z Hz. cbn in *. lia.
  - constructor; [done|]. rewrite insert_on_perm. constructor; [lia|done].
Qed.

Lemma sort_on_sorted {A} (key : A → Z) l : sorted_on key (sort_on key l).
Proof. induction l as [|x l IH]; cbn; [constructor|]. by apply insert_on_sorted. Qed.
