(* ===== verification/PyDict.v ===== *)
(** * Python dictionaries with their iteration order

    A [dict] whose iteration order the code relies on is an association list:
    assigning to a present key keeps its position, a new key goes to the end,
    and deleting removes the entry.  [OrderedDict] adds [move_to_end] and
    [popitem(last=False)]. *)

From stdpp Require Import prelude gmap strings.
From S2P Require Import Prelude.

Definition pydict (K V : Type) : Type := list (K * V).

Section PyDict.
Context {K V : Type} `{EqDecision K}.
Implicit Types (d : pydict K V) (k : K) (v : V).

(** [d.get(k)] *)
Fixpoint dget (k : K) (d : pydict K V) : option V :=
  match d with
  | [] => None
  | (k', v) :: d => if decide (k = k') then Some v else dget k d
  end.

(** [k in d] *)
Definition dmem (k : K) (d : pydict K V) : bool :=
  match dget k d with Some _ => true | None => false end.

(** [d[k] = v] *)
Fixpoint dset (k : K) (v : V) (d : pydict K V) : pydict K V :=
  match d with
  | [] => [(k, v)]
  | (k', v') :: d => if decide (k = k') then (k', v) :: d else (k', v') :: dset k v d
  end.

(** [d.pop(k, None)], [del d[k]] *)
Fixpoint ddel (k : K) (d : pydict K V) : pydict K V :=
  match d with
  | [] => []
  | (k', v') :: d => if decide (k = k') then ddel k d else (k', v') :: ddel k d
  end.

Definition dkeys (d : pydict K V) : list K := d.*1.
Definition dvalues (d : pydict K V) : list V := d.*2.

(** The representation invariant of a dictionary: no key twice. *)
Definition dwf (d : pydict K V) : Prop := NoDup (dkeys d).

(** [OrderedDict.popitem(last=False)]: drop the oldest entry. *)
Definition dpop_first (d : pydict K V) : pydict K V := tail d.

(** [OrderedDict.move_to_end(k)] *)
Definition dmove_to_end (k : K) (d : pydict K V) : pydict K V :=
  match dget k d with
  | Some v => ddel k d ++ [(k, v)]
  | None => d
  end.

Lemma dget_dset d k k' v :
  dget k' (dset k v d) = if decide (k' = k) then Some v else dget k' d.
Proof.
  induction d as [|[k0 v0] d IH]; dec_solve.
Qed.

Lemma dget_dset_eq d k v : dget k (dset k v d) = Some v.
Proof. rewrite dget_dset. by rewrite decide_True. Qed.

Lemma dget_dset_ne d k k' v : k' ≠ k → dget k' (dset k v d) = dget k' d.
Proof. intros. rewrite dget_dset. by rewrite decide_False. Qed.

Lemma dget_ddel d k k' :
  dget k' (ddel k d) = if decide (k' = k) then None else dget k' d.
Proof.
  induction d as [|[k0 v0] d IH]; dec_solve.
Qed.

Lemma dget_ddel_eq d k : dget k (ddel k d) = None.
Proof. rewrite dget_ddel. by rewrite decide_True. Qed.

Lemma dget_ddel_ne d k k' : k' ≠ k → dget k' (ddel k d) = dget k' d.
Proof. intros. rewrite dget_ddel. by rewrite decide_False. Qed.

Lemma dget_None d k : dget k d = None ↔ k ∉ dkeys d.
Proof.
  induction d as [|[k0 v0] d IH]; cbn.
  - split; [set_solver|done].
  - case_decide; [subst; split; [done|set_solver]|]. rewrite IH. set_solver.
Qed.

Lemma dget_is_Some d k : is_Some (dget k d) ↔ k ∈ dkeys d.
Proof.
  destruct (dget k d) eqn:E.
  - split; [|eauto]. intros _. destruct (decide (k ∈ dkeys d)) as [|N]; [done|].
    apply dget_None in N. congruence.
  - apply dget_None in E. split; [intros [? ?]; congruence|done].
Qed.

Lemma dmem_true d k : dmem k d = true ↔ k ∈ dkeys d.
Proof.
  rewrite <- dget_is_Some. unfold dmem.
  destruct (dget k d); split; naive_solver.
Qed.

Lemma dmem_false d k : dmem k d = false ↔ k ∉ dkeys d.
Proof. rewrite <- dmem_true. by destruct (dmem k d). Qed.

Lemma dget_elem d k v : dget k d = Some v → (k, v) ∈ d.
Proof.
  induction d as [|[k0 v0] d IH]; cbn; [done|].
  case_decide; [intros [= ->]; subst; apply list_elem_of_here|].
  intros. by apply list_elem_of_further, IH.
Qed.

Lemma elem_dget d k v : dwf d → (k, v) ∈ d → dget k d = Some v.
Proof.
  induction d as [|[k0 v0] d IH]; unfold dwf; cbn; [set_solver|].
  intros [Hk Hd]%NoDup_cons [[= -> ->]|Hin]%elem_of_cons; [by rewrite decide_True|].
  rewrite decide_False; [by apply IH|].
  intros ->. apply Hk. apply list_elem_of_fmap. by exists (k0, v).
Qed.

Lemma dkeys_dset d k v :
  dkeys (dset k v d) = if decide (k ∈ dkeys d) then dkeys d else dkeys d ++ [k].
Proof.
  unfold dkeys. induction d as [|[k0 v0] d IH]; cbn; [dec_solve; set_solver|].
  destruct (decide (k = k0)) as [->|Hne]; cbn.
  { rewrite (decide_True (P := k0 ∈ k0 :: d.*1)); [done|set_solver]. }
  rewrite IH. destruct (decide (k ∈ d.*1)) as [Hk|Hk].
  - rewrite decide_True; [done|set_solver].
  - rewrite decide_False; [done|set_solver].
Qed.

Lemma dwf_dset d k v : dwf d → dwf (dset k v d).
Proof.
  unfold dwf. rewrite dkeys_dset. case_decide; [done|]. intros. by apply NoDup_snoc.
Qed.

Lemma dkeys_ddel d k : dkeys (ddel k d) = filter (.≠ k) (dkeys d).
Proof.
  induction d as [|[k0 v0] d IH]; [done|]. unfold dkeys in *; cbn.
  destruct (decide (k = k0)) as [->|Hne]; cbn; rewrite ?IH.
  - rewrite decide_False; naive_solver.
  - rewrite decide_True; naive_solver.
Qed.

Lemma dwf_ddel d k : dwf d → dwf (ddel k d).
Proof. unfold dwf. rewrite dkeys_ddel. apply NoDup_filter. Qed.

Lemma dwf_nil : dwf [].
Proof. apply NoDup_nil_2. Qed.

Lemma ddel_absent d k : k ∉ dkeys d → ddel k d = d.
Proof.
  induction d as [|[k0 v0] d IH]; [done|]. unfold dkeys in *; cbn. intros H.
  rewrite decide_False by set_solver. rewrite IH; [done|set_solver].
Qed.

Lemma elem_ddel d k k' v : (k', v) ∈ ddel k d ↔ (k', v) ∈ d ∧ k' ≠ k.
Proof.
  induction d as [|[k0 v0] d IH]; cbn; [set_solver|].
  case_decide; subst; rewrite ?elem_of_cons, IH; naive_solver.
Qed.

Lemma length_dset d k v :
  length (dset k v d) = if decide (k ∈ dkeys d) then length d else S (length d).
Proof.
  transitivity (length (dkeys (dset k v d))).
  { symmetry; apply length_fmap. }
  rewrite dkeys_dset. unfold dkeys.
  case_decide; rewrite ?length_app, length_fmap; cbn; lia.
Qed.

Lemma dset_present d k v v' :
  dwf d → dget k d = Some v' → dset k v d =
    (λ kv, if decide (kv.1 = k) then (k, v) else kv) <$> d.
Proof.
  induction d as [|[k0 v0] d IH]; [done|]. unfold dwf; cbn.
  intros [Hn Hd]%NoDup_cons Hg. case_decide; cbn.
  - subst. rewrite decide_True by done. f_equal.
    rewrite <- (list_fmap_id d) at 1. apply list_fmap_ext. intros i [k1 v1] Hi; cbn.
    rewrite decide_False; [done|]. intros ->. apply Hn.
    apply list_elem_of_fmap. exists (k0, v1). split; [done|].
    by eapply list_elem_of_lookup_2.
  - rewrite decide_False by done. f_equal. by apply IH.
Qed.
End PyDict.

Create HintDb pydict discriminated.
#[export] Hint Resolve dwf_dset dwf_ddel dwf_nil : pydict.
#[export] Hint Rewrite @dget_dset_eq @dget_ddel_eq : pydict.
#[export] Hint Rewrite @dget_dset_ne @dget_ddel_ne using (assumption || congruence) : pydict.
