(* ===== verification/PyStr.v ===== *)
(** * Python strings

    A [str] is a [string] whose characters are the code points 0 to 255.  This
    file holds the string operations the sources use: prefix and substring
    tests, [strip], [rsplit(sep, 1)], [int(s)], [str(n)], the ["host:port"]
    addresses every component exchanges, and their round trips. *)

From stdpp Require Import prelude gmap strings.
From Stdlib Require Import Ascii DecimalString DecimalZ DecimalN DecimalFacts.
From S2P Require Import Prelude.

Local Open Scope string_scope.

#[global] Arguments String.append !_ _ / : simpl nomatch.

(** ** Characters *)

Definition code (a : ascii) : N := N_of_ascii a.
Definition chr (n : N) : ascii := ascii_of_N n.

Definition is_digit (a : ascii) : bool := ((48 <=? code a) && (code a <=? 57))%N.

(** The characters [str.strip] and [int] treat as blank. *)
Definition is_blank (a : ascii) : bool :=
  let n := code a in
  (((9 <=? n) && (n <=? 13)) || ((28 <=? n) && (n <=? 32)) || (n =? 133) || (n =? 160))%N.

Fixpoint sforall (f : ascii → bool) (s : string) : bool :=
  match s with
  | "" => true
  | String a s => f a && sforall f s
  end.

Lemma sforall_app f s1 s2 : sforall f (s1 +:+ s2) = sforall f s1 && sforall f s2.
Proof. induction s1 as [|a s1 IH]; cbn; [done|]. rewrite IH. by rewrite andb_assoc. Qed.

Lemma sforall_impl (f g : ascii → bool) s :
  (∀ a, f a = true → g a = true) → sforall f s = true → sforall g s = true.
Proof.
  intros Hfg. induction s as [|a s IH]; cbn; [done|].
  intros [Ha Hs]%andb_true_iff. by rewrite (Hfg a), IH.
Qed.

Lemma string_app_nil_r (s : string) : s +:+ "" = s.
Proof. induction s as [|a s IH]; cbn; [done|]. by rewrite IH. Qed.

Lemma string_app_assoc (s1 s2 s3 : string) : s1 +:+ (s2 +:+ s3) = (s1 +:+ s2) +:+ s3.
Proof. induction s1 as [|a s1 IH]; cbn; [done|]. by rewrite IH. Qed.

Lemma string_length_app (s1 s2 : string) :
  String.length (s1 +:+ s2) = String.length s1 + String.length s2.
Proof. induction s1 as [|a s1 IH]; cbn; [done|]. by rewrite IH. Qed.

(** ** Tests and splitting *)

(** [s.startswith(p)] *)
Definition startswith (p s : string) : bool := String.prefix p s.

(** [sub in s] *)
Fixpoint contains (sub s : string) : bool :=
  String.prefix sub s ||
  match s with
  | "" => false
  | String _ s => contains sub s
  end.

(** [s[n:]] and [s[:n]] *)
Fixpoint str_drop (n : nat) (s : string) : string :=
  match n, s with
  | S n, String _ s => str_drop n s
  | _, _ => s
  end.
Fixpoint str_take (n : nat) (s : string) : string :=
  match n, s with
  | S n, String a s => String a (str_take n s)
  | _, _ => ""
  end.

(** [s.rsplit(c, 1)] as a pair; [None] when [c] does not occur. *)
Fixpoint rsplit1 (c : ascii) (s : string) : option (string * string) :=
  match s with
  | "" => None
  | String a s =>
    match rsplit1 c s with
    | Some (h, t) => Some (String a h, t)
    | None => if decide (a = c) then Some ("", s) else None
    end
  end.

(** [s.split(c)] *)
Fixpoint str_split (c : ascii) (s : string) : list string :=
  match s with
  | "" => [""]
  | String a s =>
    if decide (a = c) then "" :: str_split c s
    else match str_split c s with
         | w :: ws => String a w :: ws
         | [] => [String a ""]
         end
  end.

Fixpoint lstrip (s : string) : string :=
  match s with
  | String a s' => if is_blank a then lstrip s' else s
  | "" => ""
  end.

Fixpoint rstrip (s : string) : string :=
  match s with
  | "" => ""
  | String a s =>
    match rstrip s with
    | "" => if is_blank a then "" else String a ""
    | s' => String a s'
    end
  end.

(** [s.strip()] *)
Definition strip (s : string) : string := rstrip (lstrip s).

(** [s.lower()] *)
Definition lower_char (a : ascii) : ascii :=
  let n := nat_of_ascii a in
  if ((65 <=? n) && (n <=? 90) || (192 <=? n) && (n <=? 222) && negb (n =? 215))%nat
  then ascii_of_nat (n + 32) else a.
Fixpoint lower (s : string) : string :=
  match s with "" => "" | String a s => String (lower_char a) (lower s) end.

Definition no_char (c : ascii) (s : string) : bool :=
  sforall (λ a, negb (bool_decide (a = c))) s.

Lemma rsplit1_none c s : no_char c s = true → rsplit1 c s = None.
Proof.
  induction s as [|a s IH]; cbn; [done|].
  intros [Ha Hs]%andb_true_iff. rewrite (IH Hs).
  apply negb_true_iff, bool_decide_eq_false in Ha. by rewrite decide_False.
Qed.

Lemma rsplit1_app c h t :
  no_char c t = true → rsplit1 c (h +:+ String c t) = Some (h, t).
Proof.
  intros Ht. induction h as [|a h IH]; cbn.
  - rewrite rsplit1_none by done. by rewrite decide_True.
  - by rewrite IH.
Qed.

Lemma rsplit1_inv c s h t : rsplit1 c s = Some (h, t) → s = h +:+ String c t.
Proof.
  revert h t; induction s as [|a s IH]; cbn; [done|]. intros h t.
  destruct (rsplit1 c s) as [[h' t']|].
  - intros [= <- <-]. cbn. f_equal. by apply IH.
  - case_decide; [|done]. intros [= <- <-]. by subst.
Qed.

Lemma rstrip_id s : sforall (λ a, negb (is_blank a)) s = true → rstrip s = s.
Proof.
  induction s as [|a s IH]; cbn; [done|]. intros [Ha Hs]%andb_true_iff.
  rewrite (IH Hs). apply negb_true_iff in Ha. rewrite Ha. by destruct s.
Qed.

Lemma strip_id s : sforall (λ a, negb (is_blank a)) s = true → strip s = s.
Proof.
  unfold strip. destruct s as [|a s]; [done|]; cbn.
  intros [Ha Hs]%andb_true_iff. apply negb_true_iff in Ha. rewrite Ha.
  apply rstrip_id. cbn. by rewrite Ha, Hs.
Qed.

(** ** Integers *)

(** [str(n)] *)
Definition string_of_Z (z : Z) : string := NilZero.string_of_int (Z.to_int z).

(** PEP 515 underscores: one between two digits, nowhere else. *)
Fixpoint drop_underscores (after_digit : bool) (s : string) : option string :=
  match s with
  | "" => if after_digit then Some "" else None
  | String a s =>
    if decide (a = "_"%char)
    then if after_digit then drop_underscores false s else None
    else String a <$> drop_underscores true s
  end.

(** [int(s)] for a string; [None] is the [ValueError]. *)
Definition py_int (s : string) : option Z :=
  let s := strip s in
  let '(neg, digits) := match s with
    | String "-" r => (true, r)
    | String "+" r => (false, r)
    | _ => (false, s)
    end in
  d ← drop_underscores false digits;
  u ← NilZero.uint_of_string d;
  let z := Z.of_uint u in
  Some (if neg then (- z)%Z else z).

Lemma uint_digits u : sforall is_digit (NilEmpty.string_of_uint u) = true.
Proof. induction u; cbn; done. Qed.

Lemma uint_digits0 u : sforall is_digit (NilZero.string_of_uint u) = true.
Proof. destruct u; try done; apply (uint_digits (_ _)). Qed.

Lemma uint_string_nonempty u : NilZero.string_of_uint u ≠ "".
Proof. by destruct u. Qed.

Lemma drop_underscores_digits s b :
  sforall is_digit s = true → s ≠ "" → drop_underscores b s = Some s.
Proof.
  revert b. induction s as [|a s IH]; intros b; [done|]; cbn.
  intros [Ha Hs]%andb_true_iff _. rewrite decide_False by (intros ->; done).
  destruct (decide (s = "")) as [->|Hne]; [done|]. by rewrite IH.
Qed.

Lemma digit_not_blank a : is_digit a = true → negb (is_blank a) = true.
Proof.
  unfold is_digit, is_blank. intros [H1%N.leb_le H2%N.leb_le]%andb_true_iff.
  apply negb_true_iff. repeat (apply orb_false_iff; split).
  - apply andb_false_iff. right. apply N.leb_gt. lia.
  - apply andb_false_iff. right. apply N.leb_gt. lia.
  - apply N.eqb_neq. lia.
  - apply N.eqb_neq. lia.
Qed.

Lemma digits_head_sign s :
  sforall is_digit s = true →
  match s with
  | String "-" r => (true, r) | String "+" r => (false, r) | _ => (false, s)
  end = (false, s).
Proof.
  destruct s as [|a s]; [done|]; cbn. intros [Ha _]%andb_true_iff.
  destruct a as [[] [] [] [] [] [] [] []]; try done; by vm_compute in Ha.
Qed.

Lemma uint_of_string_of_uint u :
  u ≠ Decimal.Nil → NilZero.uint_of_string (NilZero.string_of_uint u) = Some u.
Proof. apply NilZero.usu. Qed.

Lemma Pos_to_uint_nonnil p : Pos.to_uint p ≠ Decimal.Nil.
Proof. apply DecimalPos.Unsigned.to_uint_nonnil. Qed.

(** [int(str(n)) == n] *)
Lemma py_int_string_of_Z z : py_int (string_of_Z z) = Some z.
Proof.
  unfold py_int, string_of_Z. destruct z as [|p|p]; [done| |]; cbn [Z.to_int NilZero.string_of_int].
  - pose proof (uint_digits0 (Pos.to_uint p)) as Hd.
    rewrite strip_id by (eapply sforall_impl, Hd; apply digit_not_blank).
    rewrite digits_head_sign by done.
    rewrite drop_underscores_digits by (done || apply uint_string_nonempty). cbn.
    rewrite uint_of_string_of_uint by apply Pos_to_uint_nonnil. cbn.
    f_equal. exact (DecimalZ.of_to (Z.pos p)).
  - pose proof (uint_digits0 (Pos.to_uint p)) as Hd.
    rewrite strip_id.
    2:{ cbn. rewrite (sforall_impl is_digit _ _ digit_not_blank Hd). done. }
    rewrite drop_underscores_digits by (done || apply uint_string_nonempty). cbn.
    rewrite uint_of_string_of_uint by apply Pos_to_uint_nonnil. cbn.
    f_equal. exact (DecimalZ.of_to (Z.neg p)).
Qed.

Lemma string_of_Z_inj z1 z2 : string_of_Z z1 = string_of_Z z2 → z1 = z2.
Proof.
  intros H. pose proof (py_int_string_of_Z z1) as H1. rewrite H, py_int_string_of_Z in H1. congruence.
Qed.

(** ** Addresses *)

(** [f"{host}:{port}"] *)
Definition addr (host : string) (port : Z) : string := host +:+ ":" +:+ string_of_Z port.

(** [host, port_str = a.rsplit(":", 1); port = int(port_str)]: both failures
    raise [ValueError]. *)
Definition parse_host_port (a : string) : result (string * Z) :=
  match rsplit1 ":" a with
  | None => Raise ValueError
  | Some (host, port_str) =>
    match py_int port_str with
    | None => Raise ValueError
    | Some port => Ok (host, port)
    end
  end.

Lemma string_of_Z_no_colon z : no_char ":" (string_of_Z z) = true.
Proof.
  assert (∀ s, sforall is_digit s = true → no_char ":" s = true) as Hd.
  { intros s. apply sforall_impl. intros a Ha. apply negb_true_iff, bool_decide_eq_false.
    intros ->. done. }
  unfold string_of_Z. destruct z as [|p|p]; [done| |]; cbn [Z.to_int NilZero.string_of_int].
  - apply Hd, uint_digits0.
  - unfold no_char; cbn. apply Hd, uint_digits0.
Qed.

Lemma parse_addr host port : parse_host_port (addr host port) = Ok (host, port).
Proof.
  unfold parse_host_port, addr.
  change (host +:+ ":" +:+ string_of_Z port) with (host +:+ String ":" (string_of_Z port)).
  rewrite rsplit1_app by apply string_of_Z_no_colon. by rewrite py_int_string_of_Z.
Qed.

Lemma addr_inj h1 p1 h2 p2 : addr h1 p1 = addr h2 p2 → h1 = h2 ∧ p1 = p2.
Proof.
  intros H. pose proof (parse_addr h1 p1) as H1. rewrite H, parse_addr in H1. by inv H1.
Qed.

(** ** Slices of a concatenation, prefixes and suffixes *)

Lemma str_take_app s t : str_take (String.length s) (s +:+ t) = s.
Proof. induction s as [|a s IH]; cbn; [by destruct t|]. by rewrite IH. Qed.

Lemma str_drop_app s t : str_drop (String.length s) (s +:+ t) = t.
Proof. induction s as [|a s IH]; cbn; [by destruct t|]. done. Qed.

(** [s.removesuffix(suf)] when [s] ends with [suf]. *)
Definition strip_suffix (suf s : string) : option string :=
  let k := (String.length s - String.length suf)%nat in
  if decide (str_drop k s = suf) then Some (str_take k s) else None.

Definition strip_prefix (p s : string) : option string :=
  if startswith p s then Some (str_drop (String.length p) s) else None.

Lemma strip_suffix_app s suf : strip_suffix suf (s +:+ suf) = Some s.
Proof.
  unfold strip_suffix. rewrite string_length_app.
  replace (String.length s + String.length suf - String.length suf)%nat with (String.length s) by lia.
  rewrite str_drop_app, str_take_app. by rewrite decide_True.
Qed.

Lemma startswith_app p s : startswith p (p +:+ s) = true.
Proof.
  unfold startswith. induction p as [|a p IH]; cbn; [by destruct s|].
  by destruct (ascii_dec a a).
Qed.

Lemma strip_prefix_app p s : strip_prefix p (p +:+ s) = Some s.
Proof. unfold strip_prefix. by rewrite startswith_app, str_drop_app. Qed.

Fixpoint last_char (s : string) : option ascii :=
  match s with "" => None | String a "" => Some a | String _ s => last_char s end.

Lemma last_char_app s t : t ≠ "" → last_char (s +:+ t) = last_char t.
Proof.
  intros Ht. induction s as [|a s IH]; [done|]. cbn [String.append]. rewrite <- IH.
  cbn [last_char]. by destruct s, t.
Qed.

Lemma last_char_drop k s : str_drop k s ≠ "" → last_char (str_drop k s) = last_char s.
Proof.
  revert s. induction k as [|k IH]; intros [|a s]; cbn [str_drop]; try done. intros Hne.
  rewrite IH by done. destruct s; [by destruct k|done].
Qed.

(** ** [sorted] on the string keys of pairs *)

(** [sorted(d.items())]: by key, the keys being distinct. *)
Fixpoint insert_key {A} (kv : string * A) (l : list (string * A)) : list (string * A) :=
  match l with
  | [] => [kv]
  | x :: l' => if String.leb kv.1 x.1 then kv :: l else x :: insert_key kv l'
  end.

Definition sort_keys {A} (l : list (string * A)) : list (string * A) := foldr insert_key [] l.

Lemma insert_key_perm {A} (kv : string * A) l : insert_key kv l ≡ₚ kv :: l.
Proof. induction l as [|x l IH]; [done|]. cbn. destruct (String.leb _ _); [done|]. rewrite IH. constructor. Qed.

Lemma sort_keys_perm {A} (l : list (string * A)) : sort_keys l ≡ₚ l.
Proof. induction l as [|x l IH]; [done|]. cbn. by rewrite insert_key_perm, IH. Qed.
