(* ===== verification/Json.v ===== *)
(** * The JSON values and the text codec of Python's [json] module

    Every frame, log line, index and envelope of PeerChat goes through
    [json.dumps] and [json.loads].  This file models the values, the encoder with
    its two separator styles (the default one and the compact one), the
    [ensure_ascii] escapes, and the decoder, and proves that decoding an encoded
    value returns it.  Numbers: an [int] is a [Z]; a [float] is a whole number of
    microseconds (six decimals), which is all the sources store.  [NaN] and the
    infinities are not modelled: the decoder refuses them. *)

From stdpp Require Import prelude gmap strings.
From Stdlib Require Import Ascii DecimalString DecimalZ DecimalN DecimalFacts.
From S2P Require Import Prelude PyDict PyStr.

Local Open Scope string_scope.

Inductive json :=
  | JNull
  | JBool (b : bool)
  | JInt (z : Z)
  | JFloat (us : Z)
  | JStr (s : string)
  | JList (l : list json)
  | JObj (d : list (string * json)).

(** Induction through lists and objects. *)
Lemma json_nested_ind (P : json → Prop) :
  P JNull → (∀ b, P (JBool b)) → (∀ z, P (JInt z)) → (∀ us, P (JFloat us)) →
  (∀ s, P (JStr s)) → (∀ l, Forall P l → P (JList l)) →
  (∀ d, Forall (λ kv, P kv.2) d → P (JObj d)) → ∀ j, P j.
Proof.
  intros H1 H2 H3 H4 H5 Hl Ho. fix IH 1. intros [| | | | |l|d].
  - done. - apply H2. - apply H3. - apply H4. - apply H5.
  - apply Hl. induction l as [|j l IHl]; constructor; [apply IH|apply IHl].
  - apply Ho. induction d as [|[k j] d IHd]; constructor; [apply IH|apply IHd].
Qed.

(** Keys are not repeated in any object: what a Python [dict] can hold. *)
Fixpoint json_wf (j : json) : Prop :=
  match j with
  | JList l => (fix go l := match l with [] => True | x :: l => json_wf x ∧ go l end) l
  | JObj d => dwf d ∧
      (fix go d := match d with [] => True | (_, x) :: d => json_wf x ∧ go d end) d
  | _ => True
  end.

Lemma json_wf_list l : json_wf (JList l) ↔ Forall json_wf l.
Proof.
  cbn. induction l as [|x l IH]; [done|]. rewrite Forall_cons, <- IH. done.
Qed.

Lemma json_wf_obj d : json_wf (JObj d) ↔ dwf d ∧ Forall (λ kv, json_wf kv.2) d.
Proof.
  cbn. f_equiv. induction d as [|[k x] d IH]; [done|]. rewrite Forall_cons, <- IH. done.
Qed.

(** ** Encoding *)

Definition hex_digit (n : N) : ascii :=
  chr (if (n <? 10)%N then 48 + n else 87 + n)%N.

(** [json.encoder.ESCAPE_ASCII] *)
Definition escape_char (a : ascii) : string :=
  let n := code a in
  if (n =? 34)%N then "\" +:+ String a ""
  else if (n =? 92)%N then "\\"
  else if (n =? 8)%N then "\b"
  else if (n =? 9)%N then "\t"
  else if (n =? 10)%N then "\n"
  else if (n =? 12)%N then "\f"
  else if (n =? 13)%N then "\r"
  else if ((32 <=? n) && (n <=? 126))%N then String a ""
  else "\u00" +:+ String (hex_digit (n / 16)) (String (hex_digit (n mod 16)) "").

Fixpoint escape (s : string) : string :=
  match s with
  | "" => ""
  | String a s => escape_char a +:+ escape s
  end.

Definition dquote : string := String (chr 34) "".
Definition quote (s : string) : string := dquote +:+ escape s +:+ dquote.

Definition digit_char (z : Z) : ascii := chr (48 + Z.to_N z).

(** The decimals of a microsecond count, trailing zeros dropped. *)
Fixpoint print_frac (k : nat) (f : Z) : string :=
  match k with
  | 0 => ""
  | S k => String (digit_char (f / 10 ^ Z.of_nat k))
             (if (f mod 10 ^ Z.of_nat k =? 0)%Z then "" else print_frac k (f mod 10 ^ Z.of_nat k))
  end.

Definition string_of_float (us : Z) : string :=
  (if (us <? 0)%Z then "-" else "") +:+
  string_of_Z (Z.abs us / 1000000) +:+ "." +:+ print_frac 6 (Z.abs us mod 1000000).

(** The [separators] and [indent] arguments of [json.dumps]. *)
Record style := Style { item_sep : string; key_sep : string; indent : option nat }.
Definition default_style : style := Style ", " ": " None.
Definition compact : style := Style "," ":" None.
Definition indented (n : nat) : style := Style "," ": " (Some n).

Fixpoint spaces (n : nat) : string := match n with 0 => "" | S n => String " " (spaces n) end.
(** A new line at nesting level [lvl], when the style has lines. *)
Definition line (sty : style) (lvl : nat) : string :=
  match indent sty with None => "" | Some n => String (chr 10) (spaces (n * lvl)) end.

Section Dumps.
Variable sty : style.

Definition sep (lvl : nat) : string :=
  match indent sty with None => item_sep sty | Some _ => item_sep sty +:+ line sty lvl end.

(** The inside of a bracket at level [lvl]: an empty one stays on its line. *)
Definition inside {A} (lvl : nat) (l : list A) (body : string) : string :=
  match indent sty with
  | None => body
  | Some _ => match l with [] => body | _ => line sty (S lvl) +:+ body +:+ line sty lvl end
  end.

Fixpoint dump (lvl : nat) (j : json) : string :=
  match j with
  | JNull => "null"
  | JBool true => "true"
  | JBool false => "false"
  | JInt z => string_of_Z z
  | JFloat us => string_of_float us
  | JStr s => quote s
  | JList l =>
    "[" +:+ inside lvl l ((fix go l := match l with
      | [] => ""
      | [x] => dump (S lvl) x
      | x :: l => dump (S lvl) x +:+ sep (S lvl) +:+ go l
      end) l) +:+ "]"
  | JObj d =>
    "{" +:+ inside lvl d ((fix go d := match d with
      | [] => ""
      | [(k, x)] => quote k +:+ key_sep sty +:+ dump (S lvl) x
      | (k, x) :: d => quote k +:+ key_sep sty +:+ dump (S lvl) x +:+ sep (S lvl) +:+ go d
      end) d) +:+ "}"
  end.
Definition dumps : json → string := dump 0.

Section Level.
Variable lvl : nat.
Fixpoint dumps_items (l : list json) : string :=
  match l with
  | [] => ""
  | [x] => dump lvl x
  | x :: l => dump lvl x +:+ sep lvl +:+ dumps_items l
  end.

Fixpoint dumps_members (d : list (string * json)) : string :=
  match d with
  | [] => ""
  | [(k, x)] => quote k +:+ key_sep sty +:+ dump lvl x
  | (k, x) :: d => quote k +:+ key_sep sty +:+ dump lvl x +:+ sep lvl +:+ dumps_members d
  end.
End Level.

Lemma dump_list lvl l : dump lvl (JList l) = "[" +:+ inside lvl l (dumps_items (S lvl) l) +:+ "]".
Proof. done. Qed.
Lemma dump_obj lvl d : dump lvl (JObj d) = "{" +:+ inside lvl d (dumps_members (S lvl) d) +:+ "}".
Proof. done. Qed.
Lemma dumps_obj d : dumps (JObj d) = "{" +:+ inside 0 d (dumps_members 1 d) +:+ "}".
Proof. done. Qed.
End Dumps.

(** ** Decoding *)

Definition is_ws (a : ascii) : bool :=
  let n := code a in ((n =? 32) || (n =? 9) || (n =? 10) || (n =? 13))%N.

Fixpoint skip_ws (s : string) : string :=
  match s with
  | String a s' => if is_ws a then skip_ws s' else s
  | "" => ""
  end.

Fixpoint span_digits (s : string) : string * string :=
  match s with
  | String a s' =>
    if is_digit a then let '(d, r) := span_digits s' in (String a d, r) else ("", s)
  | "" => ("", "")
  end.

Definition digit_val (a : ascii) : Z := Z.of_N (code a) - 48.

(** The first [k] decimals, as a number of [10^-k]. *)
Fixpoint frac_val (k : nat) (fd : string) : Z :=
  match k, fd with
  | S k, String a fd => digit_val a * 10 ^ Z.of_nat k + frac_val k fd
  | _, _ => 0
  end.

Fixpoint digits_val (acc : Z) (s : string) : Z :=
  match s with
  | "" => acc
  | String a s => digits_val (10 * acc + digit_val a) s
  end.

(** The number token: an optional sign and an integer part without leading
    zeros, then an optional fraction and an optional exponent. *)
Definition scan_int (s : string) : option (bool * string * string) :=
  let '(neg, s1) := match s with String "-" r => (true, r) | _ => (false, s) end in
  let '(ip, r) := span_digits s1 in
  match ip with
  | "" => None
  | String "0" (String _ _) => None
  | _ => Some (neg, ip, r)
  end.

Definition scan_frac (s : string) : option (string * string) :=
  match s with
  | String "." r =>
    match span_digits r with
    | ("", _) => None
    | p => Some p
    end
  | _ => None
  end.

Definition scan_exp (s : string) : option (Z * string) :=
  match s with
  | String e r =>
    if (bool_decide (e = "e"%char) || bool_decide (e = "E"%char))%bool then
      let '(neg, r1) := match r with
        | String "-" r' => (true, r') | String "+" r' => (false, r') | _ => (false, r) end in
      match span_digits r1 with
      | ("", _) => None
      | (d, r2) => Some ((if neg then - digits_val 0 d else digits_val 0 d)%Z, r2)
      end
    else None
  | "" => None
  end.

Definition signed (neg : bool) (z : Z) : Z := if neg then (- z)%Z else z.

Definition scale10 (m : Z) (e : Z) : Z :=
  (if 0 <=? e then m * 10 ^ e else m / 10 ^ (- e))%Z.

Definition scan_number (s : string) : option (json * string) :=
  '(neg, ip, r) ← scan_int s;
  let '(fd, r1) := default ("", r) (scan_frac r) in
  match scan_exp r1 with
  | Some (e, r2) =>
    let m := digits_val (digits_val 0 ip) fd in
    Some (JFloat (signed neg (scale10 m (6 + e - Z.of_nat (String.length fd)))), r2)
  | None =>
    match fd with
    | "" => Some (JInt (signed neg (digits_val 0 ip)), r1)
    | _ => Some (JFloat (signed neg (digits_val 0 ip * 1000000 + frac_val 6 fd)), r1)
    end
  end.

Definition hex_val (a : ascii) : option N :=
  let n := code a in
  if is_digit a then Some (n - 48)%N
  else if ((97 <=? n) && (n <=? 102))%N then Some (n - 87)%N
  else if ((65 <=? n) && (n <=? 70))%N then Some (n - 55)%N
  else None.

Definition hex4 (a b c d : ascii) : option N :=
  a ← hex_val a; b ← hex_val b; c ← hex_val c; d ← hex_val d;
  Some (((a * 16 + b) * 16 + c) * 16 + d)%N.

(** The characters of a string literal after the opening quote. *)
Fixpoint scan_string (s : string) : option (string * string) :=
  match s with
  | "" => None
  | String a s =>
    if (code a =? 34)%N then Some ("", s)
    else if (code a =? 92)%N then
      match s with
      | String "u" (String h1 (String h2 (String h3 (String h4 r)))) =>
        n ← hex4 h1 h2 h3 h4;
        if (n <? 256)%N
        then '(t, r') ← scan_string r; Some (String (chr n) t, r')
        else None
      | String e r =>
        n ← (if (code e =? 34)%N then Some 34 else if (code e =? 92)%N then Some 92
             else if (code e =? 47)%N then Some 47 else if (code e =? 98)%N then Some 8
             else if (code e =? 102)%N then Some 12 else if (code e =? 110)%N then Some 10
             else if (code e =? 114)%N then Some 13 else if (code e =? 116)%N then Some 9
             else None)%N;
        '(t, r') ← scan_string r; Some (String (chr n) t, r')
      | "" => None
      end
    else if (code a <? 32)%N then None
    else '(t, r) ← scan_string s; Some (String a t, r)
  end.

(** Recursive descent, with fuel: every value costs at most two units per
    character of its text. *)
Fixpoint pvalue (fuel : nat) (s : string) {struct fuel} : option (json * string) :=
  match fuel with
  | 0 => None
  | S n =>
    match s with
    | "" => None
    | String a r =>
      if (code a =? 34)%N then '(t, r') ← scan_string r; Some (JStr t, r')
      else if (code a =? 91)%N then
        match skip_ws r with
        | String "]" r' => Some (JList [], r')
        | r' => pitems n [] r'
        end
      else if (code a =? 123)%N then
        match skip_ws r with
        | String "}" r' => Some (JObj [], r')
        | r' => pmembers n [] r'
        end
      else if String.prefix "null" s then Some (JNull, str_drop 4 s)
      else if String.prefix "true" s then Some (JBool true, str_drop 4 s)
      else if String.prefix "false" s then Some (JBool false, str_drop 5 s)
      else scan_number s
    end
  end
with pitems (fuel : nat) (acc : list json) (s : string) {struct fuel} : option (json * string) :=
  match fuel with
  | 0 => None
  | S n =>
    '(v, r) ← pvalue n s;
    match skip_ws r with
    | String a r' =>
      if (code a =? 44)%N then pitems n (acc ++ [v]) (skip_ws r')
      else if (code a =? 93)%N then Some (JList (acc ++ [v]), r')
      else None
    | "" => None
    end
  end
with pmembers (fuel : nat) (acc : pydict string json) (s : string) {struct fuel} : option (json * string) :=
  match fuel with
  | 0 => None
  | S n =>
    match s with
    | String q r =>
      if (code q =? 34)%N then
        '(k, r1) ← scan_string r;
        match skip_ws r1 with
        | String c r2 =>
          if (code c =? 58)%N then
            '(v, r3) ← pvalue n (skip_ws r2);
            match skip_ws r3 with
            | String a r4 =>
              if (code a =? 44)%N then pmembers n (dset k v acc) (skip_ws r4)
              else if (code a =? 125)%N then Some (JObj (dset k v acc), r4)
              else None
            | "" => None
            end
          else None
        | "" => None
        end
      else None
    | "" => None
    end
  end.

(** [json.loads(s)]; [None] is the [JSONDecodeError]. *)
Definition loads (s : string) : option json :=
  '(j, r) ← pvalue (2 * String.length s) (skip_ws s);
  match skip_ws r with "" => Some j | _ => None end.

(** ** Round trip: strings *)

Lemma scan_string_escape_char a t :
  scan_string (escape_char a +:+ t) =
    '(s, r) ← scan_string t; Some (String a s, r).
Proof. destruct a as [[] [] [] [] [] [] [] []]; reflexivity. Qed.

Lemma scan_string_escape s rest :
  scan_string (escape s +:+ dquote +:+ rest) = Some (s, rest).
Proof.
  induction s as [|a s IH]; [done|]. cbn [escape].
  rewrite <- string_app_assoc, scan_string_escape_char, IH. done.
Qed.

(** ** Round trip: numbers *)

(** What may follow a value inside a document. *)
Definition is_end (a : ascii) : bool :=
  is_ws a || ((code a =? 44) || (code a =? 93) || (code a =? 125))%N.
Definition ends (rest : string) : Prop :=
  match rest with "" => True | String a _ => is_end a = true end.

Lemma span_digits_app d rest :
  sforall is_digit d = true →
  match rest with "" => True | String a _ => is_digit a = false end →
  span_digits (d +:+ rest) = (d, rest).
Proof.
  intros Hd Hr. induction d as [|a d IH]; cbn in *.
  - destruct rest as [|a r]; [done|]. cbn. by rewrite Hr.
  - apply andb_true_iff in Hd as [-> Hd]. by rewrite IH.
Qed.

Lemma is_end_not_digit a : is_end a = true → is_digit a = false.
Proof. destruct a as [[] [] [] [] [] [] [] []]; done. Qed.

Lemma ends_no_digit rest :
  ends rest → match rest with "" => True | String a _ => is_digit a = false end.
Proof. destruct rest; [done|]. apply is_end_not_digit. Qed.

Lemma scan_frac_ends rest : ends rest → scan_frac rest = None.
Proof.
  destruct rest as [|a r]; [done|]. cbn [ends]. intros Ha.
  destruct a as [[] [] [] [] [] [] [] []]; try reflexivity; by vm_compute in Ha.
Qed.

Lemma scan_exp_ends rest : ends rest → scan_exp rest = None.
Proof.
  destruct rest as [|a r]; [done|]. cbn [ends]. intros Ha.
  destruct a as [[] [] [] [] [] [] [] []]; try reflexivity; by vm_compute in Ha.
Qed.

Lemma digits_val_acc d acc :
  digits_val (Zpos acc) (NilEmpty.string_of_uint d) = Zpos (Pos.of_uint_acc d acc).
Proof.
  revert acc; induction d; intros acc;
    cbn [NilEmpty.string_of_uint digits_val Pos.of_uint_acc]; [done|..]; rewrite <- IHd; f_equal.
  all: match goal with |- context [digit_val ?c] =>
    let v := eval vm_compute in (digit_val c) in change (digit_val c) with v end; lia.
Qed.

Lemma digits_val_uint d :
  digits_val 0 (NilEmpty.string_of_uint d) = Z.of_uint d.
Proof.
  unfold Z.of_uint. induction d;
    cbn [NilEmpty.string_of_uint digits_val Pos.of_uint Z.of_N]; [done|exact IHd|..];
    apply digits_val_acc.
Qed.

Lemma digits_val_Pos p :
  digits_val 0 (NilZero.string_of_uint (Pos.to_uint p)) = Zpos p.
Proof.
  pose proof (Pos_to_uint_nonnil p) as Hn.
  transitivity (Z.of_uint (Pos.to_uint p)); [|exact (DecimalZ.of_to (Z.pos p))].
  destruct (Pos.to_uint p) eqn:E; [done|..]; apply (digits_val_uint (_ _)).
Qed.

Lemma Pos_to_uint_norm p : Decimal.unorm (Pos.to_uint p) = Pos.to_uint p.
Proof.
  pose proof (DecimalN.Unsigned.to_of (Pos.to_uint p)) as H.
  assert (N.of_uint (Pos.to_uint p) = Npos p) as E by exact (DecimalN.Unsigned.of_to (Npos p)).
  rewrite E in H. done.
Qed.

(** A positive integer is printed without a leading zero. *)
Lemma Pos_string_head p :
  ∃ a t, NilZero.string_of_uint (Pos.to_uint p) = String a t ∧ is_digit a = true ∧ a ≠ "0"%char.
Proof.
  pose proof (Pos_to_uint_nonnil p) as Hn. pose proof (Pos_to_uint_norm p) as Hu.
  destruct (Pos.to_uint p) as [|u|u|u|u|u|u|u|u|u|u] eqn:E; [done|..];
    try by (eexists _, _; split; [reflexivity|done]).
  exfalso. unfold Decimal.unorm in Hu. cbn in Hu.
  destruct (Decimal.nzhead u) eqn:Eu.
  - assert (u = Decimal.Nil) as ->.
    { pose proof (f_equal Decimal.nb_digits Hu) as Hl. cbn in Hl. by destruct u. }
    pose proof (DecimalZ.of_to (Z.pos p)) as Hz. cbn in Hz. rewrite E in Hz. done.
  - by eapply nzhead_nonzero.
  - done. - done. - done. - done. - done. - done. - done. - done. - done.
Qed.

(** The decimal string of a natural number, as the scanner splits it. *)
Lemma scan_int_nat (n : Z) rest :
  (0 ≤ n)%Z → match rest with "" => True | String a _ => is_digit a = false end →
  scan_int (string_of_Z n +:+ rest) = Some (false, string_of_Z n, rest).
Proof.
  intros Hn Hr. unfold scan_int, string_of_Z.
  destruct n as [|p|p]; [| |lia]; cbn [Z.to_int NilZero.string_of_int].
  - change (NilZero.string_of_uint (Decimal.D0 Decimal.Nil)) with "0".
    change ("0" +:+ rest) with (String "0" rest).
    cbn iota. change (String "0" rest) with ("0" +:+ rest).
    rewrite span_digits_app by done. done.
  - pose proof (Pos_string_head p) as (a & t & E & Ha & H0).
    pose proof (uint_digits0 (Pos.to_uint p)) as Hd. rewrite E in *.
    assert ((match String a t +:+ rest with String "-" r => (true, r) | _ => (false, String a t +:+ rest) end)
      = (false, String a t +:+ rest)) as ->.
    { cbn. destruct a as [[] [] [] [] [] [] [] []]; try done; by vm_compute in Ha. }
    rewrite span_digits_app by done.
    destruct a as [[] [] [] [] [] [] [] []]; done.
Qed.

Lemma digits_val_Z n : (0 ≤ n)%Z → digits_val 0 (string_of_Z n) = n.
Proof.
  intros. destruct n as [|p|p]; [done| |lia]. unfold string_of_Z.
  cbn [Z.to_int NilZero.string_of_int]. apply digits_val_Pos.
Qed.

Lemma scan_int_neg s ip r :
  scan_int s = Some (false, ip, r) → (∃ a t, s = String a t ∧ is_digit a = true) →
  scan_int (String "-" s) = Some (true, ip, r).
Proof.
  intros H (a & t & -> & Ha). unfold scan_int in *.
  assert ((match String a t with String "-" r => (true, r) | _ => (false, String a t) end)
      = (false, String a t)) as E.
  { destruct a as [[] [] [] [] [] [] [] []]; try done; by vm_compute in Ha. }
  rewrite E in H. destruct (span_digits (String a t)) as [ip' r'].
  destruct ip' as [|b ip']; [done|].
  destruct b as [[] [] [] [] [] [] [] []]; try (inv H; done).
  destruct ip'; inv H. done.
Qed.

Lemma string_of_Z_head n : (0 ≤ n)%Z → ∃ a t, string_of_Z n = String a t ∧ is_digit a = true.
Proof.
  intros Hn. destruct n as [|p|p]; [by eexists _, _| |lia].
  destruct (Pos_string_head p) as (a & t & E & Ha & _). by exists a, t.
Qed.

Lemma string_of_Z_neg p : string_of_Z (Z.neg p) = String "-" (string_of_Z (Z.pos p)).
Proof. done. Qed.

Lemma scan_int_Z z rest :
  match rest with "" => True | String a _ => is_digit a = false end →
  scan_int (string_of_Z z +:+ rest) = Some ((z <? 0)%Z, string_of_Z (Z.abs z), rest).
Proof.
  intros Hr. destruct (Z.ltb_spec z 0).
  - destruct z as [|p|p]; [lia|lia|]. rewrite string_of_Z_neg.
    change (String "-" ?s +:+ rest) with (String "-" (s +:+ rest)).
    apply scan_int_neg; [by apply scan_int_nat|].
    destruct (string_of_Z_head (Z.pos p)) as (a & t & -> & Ha); [lia|]. by exists a, (t +:+ rest).
  - rewrite Z.abs_eq by lia. apply scan_int_nat; [lia|done].
Qed.

Lemma scan_number_int z rest :
  ends rest → scan_number (string_of_Z z +:+ rest) = Some (JInt z, rest).
Proof.
  intros Hr. unfold scan_number. rewrite scan_int_Z by by apply ends_no_digit. cbn.
  rewrite scan_frac_ends by done. cbn. rewrite scan_exp_ends by done.
  rewrite digits_val_Z by lia. unfold signed. do 3 f_equal.
  destruct (Z.ltb_spec z 0); lia.
Qed.

Lemma digit_char_digit z : (0 ≤ z < 10)%Z → is_digit (digit_char z) = true ∧ digit_val (digit_char z) = z.
Proof.
  intros. assert (z = 0 ∨ z = 1 ∨ z = 2 ∨ z = 3 ∨ z = 4 ∨ z = 5 ∨ z = 6 ∨ z = 7 ∨ z = 8 ∨ z = 9)%Z
    as Hz by lia.
  by repeat (destruct Hz as [->|Hz]; [done|]); subst.
Qed.

Lemma print_frac_spec k f :
  (0 ≤ f < 10 ^ Z.of_nat k)%Z →
  sforall is_digit (print_frac k f) = true ∧ frac_val k (print_frac k f) = f ∧
  (0 < k → print_frac k f ≠ "").
Proof.
  revert f; induction k as [|k IH]; intros f Hf.
  { cbn in Hf. split_and!; [done| |lia]. cbn. lia. }
  cbn [print_frac sforall frac_val]. set (q := (10 ^ Z.of_nat k)%Z) in *.
  assert (0 < q)%Z by (apply Z.pow_pos_nonneg; lia).
  assert (10 ^ Z.of_nat (S k) = 10 * q)%Z as E by (unfold q; rewrite Nat2Z.inj_succ, Z.pow_succ_r; lia).
  rewrite E in Hf.
  assert (0 ≤ f / q < 10)%Z as Hq.
  { split; [by apply Z.div_pos; lia|]. apply Z.div_lt_upper_bound; lia. }
  destruct (digit_char_digit _ Hq) as [-> ->].
  pose proof (Z.mod_pos_bound f q ltac:(lia)). pose proof (Z.div_mod f q ltac:(lia)) as Hdm.
  destruct (Z.eqb_spec (f mod q) 0) as [E0|E0].
  - split_and!; [done| |done]. rewrite E0 in Hdm. destruct k; cbn; lia.
  - destruct (IH (f mod q)%Z) as (H1 & H2 & _); [lia|]. rewrite H1, H2. split_and!; [done|lia|done].
Qed.

Lemma scan_number_float us rest :
  ends rest → scan_number (string_of_float us +:+ rest) = Some (JFloat us, rest).
Proof.
  intros Hr. unfold scan_number, string_of_float.
  pose proof (Z.mod_pos_bound (Z.abs us) 1000000 ltac:(lia)) as Hm.
  pose proof (Z.div_pos (Z.abs us) 1000000 ltac:(lia) ltac:(lia)) as Hi.
  set (ip := (Z.abs us / 1000000)%Z) in *. set (f := (Z.abs us mod 1000000)%Z) in *.
  destruct (print_frac_spec 6 f) as (Hd & Hv & Hne); [done|].
  specialize (Hne ltac:(lia)). generalize dependent (print_frac 6 f). intros fd Hd Hv Hne.
  assert (scan_int (((if (us <? 0)%Z then "-" else "") +:+ string_of_Z ip +:+ "." +:+ fd) +:+ rest)
    = Some ((us <? 0)%Z, string_of_Z ip, "." +:+ fd +:+ rest)) as ->.
  { rewrite <- !string_app_assoc.
    assert (scan_int (string_of_Z ip +:+ "." +:+ fd +:+ rest)
      = Some (false, string_of_Z ip, "." +:+ fd +:+ rest)) as Hs by by apply scan_int_nat.
    destruct (us <? 0)%Z; [|exact Hs]. apply scan_int_neg; [exact Hs|].
    destruct (string_of_Z_head ip) as (a & t & -> & Ha); [lia|]. by eexists a, _. }
  cbn [mbind option_bind]. 
  assert (scan_frac ("." +:+ fd +:+ rest) = Some (fd, rest)) as ->.
  { unfold scan_frac. cbn. rewrite span_digits_app by (done || by apply ends_no_digit). by destruct fd. }
  cbn -[scan_exp digits_val frac_val string_of_Z signed Z.mul]. rewrite scan_exp_ends by done.
  rewrite Hv, digits_val_Z by lia.
  destruct fd; [done|].
  do 3 f_equal. pose proof (Z.div_mod (Z.abs us) 1000000 ltac:(lia)). unfold signed.
  destruct (Z.ltb_spec us 0); lia.
Qed.

(** ** Round trip: documents *)

Lemma num_head_value a r n :
  (is_digit a = true ∨ a = "-"%char) → pvalue (S n) (String a r) = scan_number (String a r).
Proof.
  intros [Ha| ->]; [|done].
  destruct a as [[] [] [] [] [] [] [] []]; try done; by vm_compute in Ha.
Qed.

Lemma string_of_Z_num_head z :
  ∃ a t, string_of_Z z = String a t ∧ (is_digit a = true ∨ a = "-"%char).
Proof.
  destruct (Z.le_gt_cases 0 z) as [Hz|Hz].
  - destruct (string_of_Z_head z Hz) as (a & t & -> & Ha). eauto.
  - destruct z as [|p|p]; [lia|lia|]. rewrite string_of_Z_neg. eauto.
Qed.

Lemma string_of_float_num_head us :
  ∃ a t, string_of_float us = String a t ∧ (is_digit a = true ∨ a = "-"%char).
Proof.
  unfold string_of_float. destruct (us <? 0)%Z; [by eexists _, _; split; [reflexivity|right]|].
  destruct (string_of_Z_num_head (Z.abs us / 1000000)) as (a & t & -> & Ha).
  eexists a, _. done.
Qed.

(** The first character of an encoded value: not blank, not a closing bracket. *)
Definition opens (a : ascii) : Prop := is_ws a = false ∧ a ≠ "]"%char ∧ a ≠ "}"%char.

Lemma num_opens a : is_digit a = true ∨ a = "-"%char → opens a.
Proof.
  intros [Ha| ->]; [|done].
  destruct a as [[] [] [] [] [] [] [] []]; try done; by vm_compute in Ha.
Qed.

Lemma dump_head sty lvl j : ∃ a t, dump sty lvl j = String a t ∧ opens a.
Proof.
  destruct j as [|[]|z|us|s|l|d]; try by (eexists _, _; split; [reflexivity|done]).
  - destruct (string_of_Z_num_head z) as (a & t & E & Ha). exists a, t. eauto using num_opens.
  - destruct (string_of_float_num_head us) as (a & t & E & Ha). exists a, t. eauto using num_opens.
Qed.

Lemma skip_ws_open a t : opens a → skip_ws (String a t) = String a t.
Proof. intros (H & _). cbn. by rewrite H. Qed.

Lemma skip_ws_app w t : sforall is_ws w = true → skip_ws (w +:+ t) = skip_ws t.
Proof. induction w as [|a w IH]; cbn; [done|]. by intros [-> H]%andb_true_iff; apply IH. Qed.

(** A separator is its punctuation followed by blanks. *)
Class StyleOk (sty : style) := {
  item_blank : string;
  key_blank : string;
  item_sep_eq : item_sep sty = "," +:+ item_blank;
  key_sep_eq : key_sep sty = ":" +:+ key_blank;
  item_blank_ws : sforall is_ws item_blank = true;
  key_blank_ws : sforall is_ws key_blank = true;
}.

#[export] Instance default_style_ok : StyleOk default_style.
Proof. by refine {| item_blank := " "; key_blank := " " |}. Defined.
#[export] Instance compact_ok : StyleOk compact.
Proof. by refine {| item_blank := ""; key_blank := "" |}. Defined.
#[export] Instance indented_ok n : StyleOk (indented n).
Proof. by refine {| item_blank := ""; key_blank := " " |}. Defined.

Lemma spaces_ws n : sforall is_ws (spaces n) = true.
Proof. by induction n. Qed.
Lemma line_ws sty lvl : sforall is_ws (line sty lvl) = true.
Proof. unfold line. destruct (indent sty); [apply spaces_ws|done]. Qed.

Section RoundTrip.
Context (sty : style) `{!StyleOk sty}.

Local Abbreviation d := (dump sty).
Local Abbreviation len := String.length.

(** [j] is read back from its text at any level whatever follows, with two units of fuel
    per character. *)
Definition reads_back (j : json) : Prop :=
  ∀ lvl n rest, (2 * len (d lvl j) ≤ n)%nat → ends rest → pvalue n (d lvl j +:+ rest) = Some (j, rest).

Lemma skip_ws_dump lvl j rest : skip_ws (d lvl j +:+ rest) = d lvl j +:+ rest.
Proof.
  destruct (dump_head sty lvl j) as (a & t & E & Ha). rewrite E. by apply skip_ws_open.
Qed.

Lemma len_dump_pos lvl j : (0 < len (d lvl j))%nat.
Proof. destruct (dump_head sty lvl j) as (a & t & -> & _). cbn. lia. Qed.

(** A separator is a comma and blanks. *)
Lemma sep_eq lvl : ∃ w, sep sty lvl = String "," w ∧ sforall is_ws w = true.
Proof.
  unfold sep. rewrite item_sep_eq. destruct (indent sty); [|by eexists; split; [|apply item_blank_ws]].
  exists (item_blank +:+ line sty lvl). split; [done|]. by rewrite sforall_app, item_blank_ws, line_ws.
Qed.
Lemma ends_sep lvl r : ends (sep sty lvl +:+ r).
Proof. by destruct (sep_eq lvl) as (w & -> & _). Qed.
Lemma len_sep lvl : (1 ≤ len (sep sty lvl))%nat.
Proof. destruct (sep_eq lvl) as (w & -> & _). cbn. lia. Qed.
Lemma skip_key_sep r : skip_ws (key_sep sty +:+ r) = String ":" (key_blank +:+ r).
Proof. by rewrite key_sep_eq. Qed.

(** The inside of a bracket is its body between blanks. *)
Lemma inside_eq {A} lvl (l : list A) body : ∃ w w', inside sty lvl l body = w +:+ body +:+ w' ∧
  sforall is_ws w = true ∧ sforall is_ws w' = true.
Proof.
  assert (∃ w w', body = w +:+ body +:+ w' ∧ sforall is_ws w = true ∧ sforall is_ws w' = true) as Hb.
  { exists "", "". split; [|done]. cbn. by rewrite string_app_nil_r. }
  unfold inside. destruct (indent sty); [|done]. destruct l; [done|].
  eexists _, _. split; [reflexivity|]. split; apply line_ws.
Qed.

(** Blanks, then a closing bracket. *)
Lemma ends_close w a r : sforall is_ws w = true → is_end a = true → ends (w +:+ String a r).
Proof. destruct w as [|b w]; cbn; [done|]. intros [Hb _]%andb_true_iff _. unfold is_end. by rewrite Hb. Qed.

Lemma dumps_items_one lvl x : dumps_items sty lvl [x] = d lvl x.
Proof. done. Qed.
Lemma dumps_items_more lvl x y l :
  dumps_items sty lvl (x :: y :: l) = d lvl x +:+ sep sty lvl +:+ dumps_items sty lvl (y :: l).
Proof. done. Qed.
Lemma skip_ws_items lvl y l r :
  skip_ws (dumps_items sty lvl (y :: l) +:+ r) = dumps_items sty lvl (y :: l) +:+ r.
Proof.
  destruct l; rewrite ?dumps_items_one, ?dumps_items_more, <- ?string_app_assoc;
    apply skip_ws_dump.
Qed.

Lemma pitems_spec lvl l : Forall reads_back l → l ≠ [] → ∀ n acc w rest,
  (2 * len (dumps_items sty lvl l) + 1 ≤ n)%nat → sforall is_ws w = true →
  pitems n acc (dumps_items sty lvl l +:+ w +:+ "]" +:+ rest) = Some (JList (acc ++ l), rest).
Proof.
  induction l as [|x l IH]; [done|]. intros [Hx Hl]%Forall_cons _ n acc w rest Hn Hw.
  destruct n as [|n]; [lia|]. destruct l as [|y l].
  - rewrite dumps_items_one in *. cbn [pitems].
    rewrite Hx by (lia || by apply (ends_close w "]")). cbn [mbind option_bind]. by rewrite skip_ws_app.
  - rewrite dumps_items_more in *. rewrite !string_length_app in Hn. pose proof (len_sep lvl).
    rewrite <- !string_app_assoc. cbn [pitems].
    rewrite Hx by (lia || apply ends_sep). cbn [mbind option_bind].
    destruct (sep_eq lvl) as (b & -> & Hb). change (String "," b +:+ ?r) with (String "," (b +:+ r)). cbn [skip_ws].
    change (is_ws ",") with false. change (code "," =? 44)%N with true. cbn iota.
    rewrite skip_ws_app by done. rewrite skip_ws_items.
    rewrite IH by (done || lia). by rewrite <- app_assoc.
Qed.

Lemma scan_quote k r n (P : string → string → option (json * string)) :
  (match quote k +:+ r with
   | String q r => if (code q =? 34)%N then '(k, r1) ← scan_string r; P k r1 else n
   | "" => n
   end) = P k r.
Proof.
  unfold quote. cbn. rewrite <- !string_app_assoc.
  change (String (chr 34) ?s) with (dquote +:+ s). 
  rewrite scan_string_escape. done.
Qed.

Lemma skip_ws_quote k r : skip_ws (quote k +:+ r) = quote k +:+ r.
Proof. done. Qed.

Lemma dset_snoc (acc : pydict string json) k v : k ∉ dkeys acc → dset k v acc = (acc ++ [(k, v)])%list.
Proof.
  induction acc as [|[k0 v0] acc IH]; [done|]; cbn. intros Hk.
  rewrite decide_False by set_solver. rewrite IH; [done|]. unfold dkeys in *. set_solver.
Qed.

Lemma dumps_members_one lvl k x : dumps_members sty lvl [(k, x)] = quote k +:+ key_sep sty +:+ d lvl x.
Proof. done. Qed.
Lemma dumps_members_more lvl k x kx m :
  dumps_members sty lvl ((k, x) :: kx :: m) =
  quote k +:+ key_sep sty +:+ d lvl x +:+ sep sty lvl +:+ dumps_members sty lvl (kx :: m).
Proof. done. Qed.
Lemma skip_ws_members lvl kx m r :
  skip_ws (dumps_members sty lvl (kx :: m) +:+ r) = dumps_members sty lvl (kx :: m) +:+ r.
Proof.
  destruct kx as [k x], m; rewrite ?dumps_members_one, ?dumps_members_more, <- ?string_app_assoc;
    apply skip_ws_quote.
Qed.

(** Scanning one member up to its value. *)
Lemma pmembers_key lvl n acc k x r :
  pmembers (S n) acc (quote k +:+ key_sep sty +:+ d lvl x +:+ r) =
  '(v, r3) ← pvalue n (d lvl x +:+ r);
  match skip_ws r3 with
  | String a r4 =>
    if (code a =? 44)%N then pmembers n (dset k v acc) (skip_ws r4)
    else if (code a =? 125)%N then Some (JObj (dset k v acc), r4)
    else None
  | "" => None
  end.
Proof.
  cbn [pmembers]. rewrite scan_quote, skip_key_sep. change (code ":" =? 58)%N with true. cbn iota.
  rewrite skip_ws_app by apply key_blank_ws. by rewrite skip_ws_dump.
Qed.

Lemma pmembers_spec lvl (m : list (string * json)) :
  Forall (λ kv, reads_back kv.2) m → m ≠ [] → ∀ n (acc : pydict string json) w rest,
  (2 * len (dumps_members sty lvl m) + 1 ≤ n)%nat → sforall is_ws w = true → NoDup (dkeys (acc ++ m)%list) →
  pmembers n acc (dumps_members sty lvl m +:+ w +:+ "}" +:+ rest) = Some (JObj (acc ++ m), rest).
Proof.
  induction m as [|[k x] m IH]; [done|]. intros [Hx Hm]%Forall_cons _ n acc w rest Hn Hw Hnd.
  cbn [snd] in Hx. destruct n as [|n]; [lia|].
  assert (k ∉ dkeys acc) as Hk.
  { unfold dkeys in *. rewrite fmap_app in Hnd. apply NoDup_app in Hnd as (_ & Hd & _).
    intros Hin. apply (Hd _ Hin). cbn. set_solver. }
  destruct m as [|[k' y] m].
  - rewrite dumps_members_one in *. rewrite !string_length_app in Hn.
    rewrite <- !string_app_assoc, pmembers_key.
    rewrite Hx by (lia || by apply (ends_close w "}")). cbn [mbind option_bind]. rewrite skip_ws_app by done.
    cbn. by rewrite dset_snoc.
  - rewrite dumps_members_more in *. rewrite !string_length_app in Hn. pose proof (len_sep lvl).
    rewrite <- !string_app_assoc, pmembers_key.
    rewrite Hx by (lia || apply ends_sep). cbn [mbind option_bind].
    destruct (sep_eq lvl) as (b & -> & Hb). change (String "," b +:+ ?r) with (String "," (b +:+ r)). cbn [skip_ws].
    change (is_ws ",") with false. change (code "," =? 44)%N with true. cbn iota.
    rewrite skip_ws_app by done. rewrite skip_ws_members, dset_snoc by done.
    rewrite IH; [|done|done|lia|done|by rewrite <- app_assoc].
    by rewrite <- app_assoc.
Qed.

(** An opening bracket whose inside is not empty. *)
Lemma pvalue_items n a t : opens a → pvalue (S n) ("[" +:+ String a t) = pitems n [] (String a t).
Proof.
  intros Ha. cbn [String.append pvalue]. change (code "[" =? 34)%N with false. change (code "[" =? 91)%N with true. cbn iota.
  rewrite skip_ws_open by done. destruct Ha as (_ & Ha & _). clear -Ha. destruct a as [[] [] [] [] [] [] [] []]; done.
Qed.
Lemma pvalue_skip c n w t : c = "["%char ∨ c = "{"%char → sforall is_ws w = true →
  pvalue n (String c (w +:+ t)) = pvalue n (String c t).
Proof.
  intros Hc Hw. destruct n as [|n]; [done|].
  destruct Hc as [-> | ->]; cbn [pvalue]; by rewrite skip_ws_app.
Qed.

Lemma reads_back_list l : Forall reads_back l → reads_back (JList l).
Proof.
  intros Hrb lvl n rest Hn _. rewrite dump_list in *. rewrite !string_length_app in Hn. cbn in Hn.
  destruct n as [|n]; [lia|]. destruct l as [|x l].
  { unfold inside. by destruct (indent sty). }
  destruct (inside_eq lvl (x :: l) (dumps_items sty (S lvl) (x :: l))) as (w & w' & E & Hw & Hw'). rewrite E in *.
  rewrite !string_length_app in Hn. rewrite <- !string_app_assoc.
  etransitivity; [apply (pvalue_skip "[" _ w); [by left|done]|].
  assert (∃ a t, dumps_items sty (S lvl) (x :: l) +:+ w' +:+ "]" +:+ rest = String a t ∧ opens a) as (a & t & Eh & Ha).
  { destruct (dump_head sty (S lvl) x) as (a & t & Eh & Ha). cbn [dumps_items].
    destruct l; rewrite Eh; by eexists a, _. }
  pose proof (pitems_spec (S lvl) _ Hrb ltac:(done) n [] w' rest ltac:(lia) Hw') as Hp.
  rewrite Eh in *. etransitivity; [by apply pvalue_items|exact Hp].
Qed.

Lemma reads_back_obj m : Forall (λ kv, reads_back kv.2) m → dwf m → reads_back (JObj m).
Proof.
  intros Hrb Hd lvl n rest Hn _. rewrite dump_obj in *. rewrite !string_length_app in Hn. cbn in Hn.
  destruct n as [|n]; [lia|]. destruct m as [|[k x] m].
  { unfold inside. by destruct (indent sty). }
  destruct (inside_eq lvl ((k, x) :: m) (dumps_members sty (S lvl) ((k, x) :: m))) as (w & w' & E & Hw & Hw'). rewrite E in *.
  rewrite !string_length_app in Hn. rewrite <- !string_app_assoc.
  etransitivity; [apply (pvalue_skip "{" _ w); [by right|done]|].
  pose proof (pmembers_spec (S lvl) _ Hrb ltac:(done) n [] w' rest ltac:(lia) Hw' Hd) as Hp.
  etransitivity; [|exact Hp]. cbn [dumps_members]. by destruct m as [|[k' y] m].
Qed.

Lemma reads_back_all j : json_wf j → reads_back j.
Proof.
  induction j as [|b|z|us|s|l IHl|m IHm] using json_nested_ind; intros Hwf.
  - intros lvl n rest Hn Hr. destruct n as [|n]; [cbn in Hn; lia|]. by destruct rest.
  - intros lvl n rest Hn Hr. destruct n as [|n]; [destruct b; cbn in Hn; lia|]. by destruct b, rest.
  - intros lvl n rest Hn Hr. destruct n as [|n]; [pose proof (len_dump_pos lvl (JInt z)); lia|]. cbn [dump].
    destruct (string_of_Z_num_head z) as (a & t & E & Ha).
    rewrite E. change (String a t +:+ rest) with (String a (t +:+ rest)).
    rewrite num_head_value by done. change (String a (t +:+ rest)) with (String a t +:+ rest).
    rewrite <- E. by apply scan_number_int.
  - intros lvl n rest Hn Hr. destruct n as [|n]; [pose proof (len_dump_pos lvl (JFloat us)); lia|]. cbn [dump].
    destruct (string_of_float_num_head us) as (a & t & E & Ha).
    rewrite E. change (String a t +:+ rest) with (String a (t +:+ rest)).
    rewrite num_head_value by done. change (String a (t +:+ rest)) with (String a t +:+ rest).
    rewrite <- E. by apply scan_number_float.
  - intros lvl n rest Hn Hr. destruct n as [|n]; [cbn in Hn; lia|]. cbn [dump pvalue]. unfold quote. cbn.
    rewrite <- string_app_assoc.
    change (String (chr 34) ?s) with (dquote +:+ s). by rewrite scan_string_escape.
  - apply json_wf_list in Hwf. apply reads_back_list.
    rewrite Forall_forall in *. intros y Hy. apply IHl; [done|]. by apply Hwf.
  - apply json_wf_obj in Hwf as [Hd Hwf]. apply reads_back_obj; [|done].
    rewrite Forall_forall in *. intros y Hy. apply IHm; [done|]. by apply Hwf.
Qed.
End RoundTrip.

(** Blanks around a document do not matter. *)
Lemma loads_dumps_between sty `{!StyleOk sty} j w w' : json_wf j → sforall is_ws w = true → sforall is_ws w' = true →
  loads (w +:+ dumps sty j +:+ w') = Some j.
Proof.
  intros Hwf Hw Hw'. unfold loads, dumps. rewrite skip_ws_app by done. rewrite skip_ws_dump, (reads_back_all sty j Hwf).
  - cbn [mbind option_bind]. pose proof (skip_ws_app w' "" Hw') as E. rewrite string_app_nil_r in E. by rewrite E.
  - rewrite !string_length_app. lia.
  - destruct w' as [|a w']; [done|]. cbn in Hw' |- *. apply andb_true_iff in Hw' as [Ha _]. unfold is_end. by rewrite Ha.
Qed.
Lemma loads_dumps_wf sty `{!StyleOk sty} j : json_wf j → loads (dumps sty j) = Some j.
Proof. intros Hwf. pose proof (loads_dumps_between sty j "" "" Hwf eq_refl eq_refl) as E. by rewrite string_app_nil_r in E. Qed.

(** ** Encoded text is printable ASCII

    [ensure_ascii] escapes every control and non-ASCII character, so an encoded
    document holds no newline: this is what frames [active.log.jsonl]. *)

Definition printable (a : ascii) : bool := ((32 <=? code a) && (code a <=? 126))%N.

Lemma escape_char_printable a : sforall printable (escape_char a) = true.
Proof. destruct a as [[] [] [] [] [] [] [] []]; reflexivity. Qed.

Lemma escape_printable s : sforall printable (escape s) = true.
Proof. induction s as [|a s IH]; [done|]. cbn [escape]. by rewrite sforall_app, escape_char_printable, IH. Qed.

Lemma quote_printable s : sforall printable (quote s) = true.
Proof. unfold quote. by rewrite !sforall_app, escape_printable. Qed.

Lemma digit_printable a : is_digit a = true → printable a = true.
Proof. destruct a as [[] [] [] [] [] [] [] []]; done. Qed.

Lemma string_of_Z_printable z : sforall printable (string_of_Z z) = true.
Proof.
  assert (∀ u, sforall printable (NilZero.string_of_uint u) = true) as Hu.
  { intros u. eapply sforall_impl, uint_digits0. apply digit_printable. }
  unfold string_of_Z. destruct z as [|p|p]; [done|apply Hu|]. cbn. apply Hu.
Qed.

Lemma string_of_float_printable us : sforall printable (string_of_float us) = true.
Proof.
  unfold string_of_float. rewrite !sforall_app, string_of_Z_printable.
  pose proof (Z.mod_pos_bound (Z.abs us) 1000000 ltac:(lia)) as Hm.
  destruct (print_frac_spec 6 (Z.abs us mod 1000000) Hm) as (Hd & _).
  rewrite (sforall_impl _ _ _ digit_printable Hd). by destruct (us <? 0)%Z.
Qed.

Lemma dump_printable sty lvl j : sty = default_style ∨ sty = compact → sforall printable (dump sty lvl j) = true.
Proof.
  intros Hs.
  assert (∀ lvl, sforall printable (sep sty lvl) = true) as Hi by by destruct Hs as [->| ->].
  assert (sforall printable (key_sep sty) = true) as Hk by by destruct Hs as [->| ->].
  assert (∀ A lvl (l : list A) b, inside sty lvl l b = b) as Hb by by destruct Hs as [->| ->].
  revert lvl. induction j as [|[]|z|us|s|l IHl|m IHm] using json_nested_ind; intros lvl; try done.
  - apply string_of_Z_printable.
  - apply string_of_float_printable.
  - apply quote_printable.
  - rewrite dump_list, Hb, !sforall_app. apply andb_true_iff; split; [done|].
    apply andb_true_iff; split; [|done].
    induction IHl as [|x l Hx Hl IH]; [done|].
    destruct l as [|y l]; [apply Hx|]. by rewrite dumps_items_more, !sforall_app, Hx, Hi, IH.
  - rewrite dump_obj, Hb, !sforall_app. apply andb_true_iff; split; [done|].
    apply andb_true_iff; split; [|done].
    induction IHm as [|[k x] m Hx Hl IH]; [done|]. cbn [snd] in Hx.
    destruct m as [|y m]; [by rewrite dumps_members_one, !sforall_app, quote_printable, Hk, Hx|].
    by rewrite dumps_members_more, !sforall_app, quote_printable, Hx, Hk, Hi, IH.
Qed.
Lemma dumps_printable sty `{!StyleOk sty} j :
  sty = default_style ∨ sty = compact → sforall printable (dumps sty j) = true.
Proof. apply dump_printable. Qed.

(** ** What [loads] yields is well formed *)

Lemma dset_forall (P : string * json → Prop) k v d : P (k, v) → Forall P d → Forall P (dset k v d).
Proof.
  intros Hv. induction 1 as [|[k' x] d Hx Hd IH]; cbn; [by constructor|].
  case_decide; [subst; by constructor|]. by constructor.
Qed.

Lemma scan_number_wf s j r : scan_number s = Some (j, r) → json_wf j.
Proof.
  unfold scan_number. destruct (scan_int s) as [[[neg ip] r1]|]; [|done]. cbn [mbind option_bind].
  destruct (default _ _) as [fd r2]. destruct (scan_exp r2) as [[e r3]|]; [by intros [= <- _]|].
  destruct fd; by intros [= <- _].
Qed.

Lemma pvalue_wf n :
  (∀ s j r, pvalue n s = Some (j, r) → json_wf j) ∧
  (∀ acc s j r, Forall json_wf acc → pitems n acc s = Some (j, r) → json_wf j) ∧
  (∀ acc s j r, dwf acc → Forall (λ kv, json_wf kv.2) acc → pmembers n acc s = Some (j, r) → json_wf j).
Proof.
  induction n as [|n (IHv & IHi & IHm)]; [done|]. split_and!.
  - intros s j r. cbn [pvalue]. destruct s as [|a s]; [done|].
    destruct (code a =? 34)%N. { destruct (scan_string s) as [[t r']|]; [|done]. by intros [= <- <-]. }
    destruct (code a =? 91)%N.
    { assert (∀ s', pitems n [] s' = Some (j, r) → json_wf j) as Hi by (intros s'; apply IHi; constructor).
      destruct (skip_ws s) as [|[[] [] [] [] [] [] [] []] r']; try apply Hi. by intros [= <- <-]. }
    destruct (code a =? 123)%N.
    { assert (∀ s', pmembers n [] s' = Some (j, r) → json_wf j) as Hm by (intros s'; apply IHm; constructor).
      destruct (skip_ws s) as [|[[] [] [] [] [] [] [] []] r']; try apply Hm. intros [= <- <-]. by split; [constructor|]. }
    repeat (case_match; [by intros [= <- <-]|]). apply scan_number_wf.
  - intros acc s j r Hacc. cbn [pitems]. destruct (pvalue n s) as [[v r1]|] eqn:Ev; [|done]. cbn. apply IHv in Ev.
    assert (Forall json_wf (acc ++ [v])) as Hacc' by (apply Forall_app; split; [done|by apply Forall_singleton]).
    destruct (skip_ws r1) as [|a r2]; [done|]. destruct (code a =? 44)%N; [by apply IHi|].
    destruct (code a =? 93)%N; [|done]. intros [= <- <-]. by apply json_wf_list.
  - intros acc s j r Hd Hacc. cbn [pmembers]. destruct s as [|q s]; [done|]. destruct (code q =? 34)%N; [|done].
    destruct (scan_string s) as [[k r1]|]; [|done]. cbn. destruct (skip_ws r1) as [|c r2]; [done|].
    destruct (code c =? 58)%N; [|done]. destruct (pvalue n (skip_ws r2)) as [[v r3]|] eqn:Ev; [|done]. cbn. apply IHv in Ev.
    assert (Forall (λ kv, json_wf kv.2) (dset k v acc)) as Hacc' by by apply dset_forall.
    assert (dwf (dset k v acc)) as Hd' by by apply dwf_dset.
    destruct (skip_ws r3) as [|a r4]; [done|]. destruct (code a =? 44)%N; [by apply IHm|].
    destruct (code a =? 125)%N; [|done]. intros [= <- <-]. by apply json_wf_obj.
Qed.

(** A decoded document never repeats a key, so writing it again and reading it gives the
    same value. *)
Lemma loads_wf s j : loads s = Some j → json_wf j.
Proof.
  unfold loads. destruct (pvalue _ _) as [[j' r]|] eqn:E; [|done]. cbn.
  destruct (skip_ws r); [|done]. intros [= <-]. exact (proj1 (pvalue_wf _) _ _ _ E).
Qed.

(** ** Reading a decoded value, as [data["k"]], [data.get("k", default)] *)

Definition jget (k : string) (j : json) : option json :=
  match j with JObj d => dget k d | _ => None end.

Definition as_str (j : json) : result string :=
  match j with JStr s => Ok s | _ => Raise TypeError end.
Definition as_int (j : json) : result Z :=
  match j with JInt z => Ok z | _ => Raise TypeError end.
Definition as_bool (j : json) : result bool :=
  match j with JBool b => Ok b | _ => Raise TypeError end.
(** [float(x)] for a number. *)
Definition as_float (j : json) : result time :=
  match j with JFloat t => Ok t | JInt z => Ok (seconds z) | _ => Raise TypeError end.

(** Truth value of a decoded JSON value. *)
Definition truthy (j : json) : bool :=
  match j with
  | JNull => false
  | JBool b => b
  | JInt z | JFloat z => negb (z =? 0)%Z
  | JStr s => negb (bool_decide (s = ""))
  | JList [] | JObj [] => false
  | JList _ | JObj _ => true
  end.

(** A vector clock is a JSON object from addresses to counts.  A [gmap] has no
    insertion order: the encoder lists the entries in the map's own order. *)
Definition json_of_vc (vc : gmap string Z) : json :=
  JObj ((λ kv, (kv.1, JInt kv.2)) <$> map_to_list vc).

Definition vc_of_pairs (kvs : list (string * json)) : result (gmap string Z) :=
  l ← mapR (λ kv, n ← as_int kv.2; mret (kv.1, n)) kvs;
  mret (list_to_map l).

Definition vc_of_json (j : json) : result (gmap string Z) :=
  match j with JObj d => vc_of_pairs d | _ => Raise TypeError end.

Lemma vc_of_json_of_vc vc : vc_of_json (json_of_vc vc) = Ok vc.
Proof.
  unfold json_of_vc, vc_of_json, vc_of_pairs.
  assert (mapR (λ kv : string * json, n ← as_int kv.2; mret (kv.1, n))
    ((λ kv : string * Z, (kv.1, JInt kv.2)) <$> map_to_list vc) = Ok (map_to_list vc)) as ->.
  { induction (map_to_list vc) as [|[k n] l IH]; [done|]. cbn in *. by rewrite IH. }
  cbn. unfold mret, result_ret. f_equal. apply list_to_map_to_list.
Qed.

Lemma json_of_vc_wf vc : json_wf (json_of_vc vc).
Proof.
  apply json_wf_obj. split.
  - unfold dwf, dkeys. rewrite <- list_fmap_compose. cbn. apply NoDup_fst_map_to_list.
  - apply Forall_forall. intros [k x] (y & Hy & _)%list_elem_of_fmap. by inv Hy.
Qed.
