(* ===== verification/PyText.v ===== *)
(** * The text of values: [str], [repr] and format specifications

    The scripts of the harness print decoded JSON values in f-strings: [f"{x}"] is
    [str(x)], [f"{x:<12}"] pads it, and [None], lists and dictionaries refuse a
    specification.  The file also holds the other ways in which those scripts take a
    decoded value apart: [d.get(k, default)], iteration and slicing. *)

From stdpp Require Import prelude gmap strings.
From Stdlib Require Import Ascii.
From S2P Require Import Prelude PyDict PyStr Json.

Local Open Scope string_scope.

(** ** [repr] of a string *)

Definition squote : ascii := chr 39.

(** The characters [repr] writes as they are: 0xad and the control characters are not
    printable, and neither is the space 0xa0. *)
Definition repr_plain (a : ascii) : bool :=
  let n := code a in (((32 <=? n) && (n <=? 126)) || ((161 <=? n) && negb (n =? 173)))%N.

Definition repr_char (q a : ascii) : string :=
  let n := code a in
  if bool_decide (a = q) || (n =? 92)%N then "\" +:+ String a ""
  else if (n =? 9)%N then "\t"
  else if (n =? 10)%N then "\n"
  else if (n =? 13)%N then "\r"
  else if repr_plain a then String a ""
  else "\x" +:+ String (hex_digit (n / 16)) (String (hex_digit (n mod 16)) "").

Fixpoint repr_chars (q : ascii) (s : string) : string :=
  match s with "" => "" | String a s => repr_char q a +:+ repr_chars q s end.

(** Single quotes, unless the text holds one and no double quote. *)
Definition repr_str (s : string) : string :=
  let q := if negb (no_char squote s) && no_char (chr 34) s then chr 34 else squote in
  String q (repr_chars q s +:+ String q "").

(** ** [repr] and [str] of a value *)

(** [", ".join(l)] *)
Fixpoint comma_join (l : list string) : string :=
  match l with [] => "" | [s] => s | s :: l => s +:+ ", " +:+ comma_join l end.

Fixpoint py_repr (j : json) : string :=
  match j with
  | JNull => "None"
  | JBool b => if b then "True" else "False"
  | JInt z => string_of_Z z
  | JFloat us => string_of_float us
  | JStr s => repr_str s
  | JList l => "[" +:+ comma_join (map py_repr l) +:+ "]"
  | JObj d => "{" +:+ comma_join (map (λ kx, repr_str kx.1 +:+ ": " +:+ py_repr kx.2) d) +:+ "}"
  end.

(** [str(x)]: a string is itself. *)
Definition py_str (j : json) : string := match j with JStr s => s | _ => py_repr j end.

(** ** [f"{x:<n}"] and [f"{x:>n}"] *)

Inductive align := AlignLeft | AlignRight.

Fixpoint blanks (n : nat) : string := match n with 0 => "" | S n => String " " (blanks n) end.
Definition pad (al : align) (n : nat) (s : string) : string :=
  let b := blanks (n - String.length s) in
  match al with AlignLeft => s +:+ b | AlignRight => b +:+ s end.

(** A truth value is formatted as a number. *)
Definition py_format (al : align) (n : nat) (j : json) : result string :=
  match j with
  | JStr s => Ok (pad al n s)
  | JInt z => Ok (pad al n (string_of_Z z))
  | JFloat us => Ok (pad al n (string_of_float us))
  | JBool b => Ok (pad al n (if b then "1" else "0"))
  | JNull | JList _ | JObj _ => Raise TypeError
  end.

(** ** Taking a value apart *)

(** [d.get(k, default)] *)
Definition get_or (dflt : json) (k : string) (j : json) : result json :=
  match j with JObj d => Ok (default dflt (dget k d)) | _ => Raise AttributeError end.

Fixpoint chars (s : string) : list json :=
  match s with "" => [] | String a s => JStr (String a "") :: chars s end.

(** [for x in j]: a dictionary yields its keys, a string its characters. *)
Definition py_iter (j : json) : result (list json) :=
  match j with
  | JList l => Ok l
  | JObj d => Ok (JStr <$> dkeys d)
  | JStr s => Ok (chars s)
  | _ => Raise TypeError
  end.

(** [j[:n]], and iterating over it *)
Definition py_iter_first (n : nat) (j : json) : result (list json) :=
  match j with
  | JList l => Ok (take n l)
  | JStr s => Ok (take n (chars s))
  | _ => Raise TypeError
  end.

(** ** A script's standard output, line by line *)

Definition print (s : string) : M (list string) unit := modify (λ out, (out ++ [s])%list).

(** ** Facts *)

Lemma blanks_length n : String.length (blanks n) = n.
Proof. induction n as [|n IH]; [done|]. cbn. by rewrite IH. Qed.

(** A padded text has its width, or is the text when that is longer. *)
Lemma pad_length al n s : String.length (pad al n s) = Nat.max n (String.length s).
Proof. unfold pad. destruct al; rewrite string_length_app, blanks_length; lia. Qed.

Example repr_examples :
  py_repr (JObj [("sender_gap", JInt 3); ("it's", JList [JNull; JBool true; JFloat 1500000])])
  = "{'sender_gap': 3, " +:+ dquote +:+ "it's" +:+ dquote +:+ ": [None, True, 1.5]}".
Proof. reflexivity. Qed.
