(* ===== verification/Base64.v ===== *)
(** * Python's [base64.b64encode] and [base64.b64decode]

    Bytes are strings of characters below 256.  Public keys travel as base64 text
    inside membership events, discovery envelopes and signatures. *)

From stdpp Require Import prelude gmap strings.
From Stdlib Require Import Ascii.
From S2P Require Import Prelude PyStr.

Local Open Scope string_scope.

Abbreviation bytes := string.

Section Alphabet.
Local Open Scope N_scope.

(** The standard alphabet: A-Z, a-z, 0-9, plus, slash. *)
Definition b64_char (n : N) : ascii :=
  if n <? 26 then chr (65 + n)
  else if n <? 52 then chr (71 + n)
  else if n <? 62 then chr (n - 4)
  else if n =? 62 then chr 43 else chr 47.

Definition b64_val (a : ascii) : option N :=
  let n := code a in
  if (65 <=? n) && (n <=? 90) then Some (n - 65)
  else if (97 <=? n) && (n <=? 122) then Some (n - 71)
  else if (48 <=? n) && (n <=? 57) then Some (n + 4)
  else if n =? 43 then Some 62
  else if n =? 47 then Some 63
  else None.

Fixpoint b64encode (s : bytes) : string :=
  match s with
  | "" => ""
  | String a "" =>
    String (b64_char (code a / 4)) (String (b64_char (code a mod 4 * 16)) "==")
  | String a (String b "") =>
    String (b64_char (code a / 4))
      (String (b64_char (code a mod 4 * 16 + code b / 16))
        (String (b64_char (code b mod 16 * 4)) "="))
  | String a (String b (String c r)) =>
    String (b64_char (code a / 4))
      (String (b64_char (code a mod 4 * 16 + code b / 16))
        (String (b64_char (code b mod 16 * 4 + code c / 64))
          (String (b64_char (code c mod 64)) (b64encode r))))
  end.

(** [binascii.a2b_base64], as its C loop: [quad] is the position in the current
    group of four, [left] the bits carried over, [pads] the [=] seen in it.
    Characters outside the alphabet are skipped; a group left unfinished at the
    end of the input is an error. *)
Fixpoint a2b_base64 (quad : nat) (left : N) (pads : nat) (s : string) : option bytes :=
  match s with
  | "" => if Nat.eqb quad 0 then Some "" else None
  | String a s =>
    if code a =? 61 then
      if Nat.leb 2 quad then
        if Nat.leb 4 (quad + S pads) then Some "" else a2b_base64 quad left (S pads) s
      else a2b_base64 quad left pads s
    else
      match b64_val a with
      | None => a2b_base64 quad left pads s
      | Some v =>
        match quad with
        | O => a2b_base64 1 v 0 s
        | 1%nat => String (chr (left * 4 + v / 16)) <$> a2b_base64 2 (v mod 16) 0 s
        | 2%nat => String (chr (left * 16 + v / 4)) <$> a2b_base64 3 (v mod 4) 0 s
        | _ => String (chr (left * 64 + v)) <$> a2b_base64 0 0 0 s
        end
      end
  end.

(** [base64.b64decode(s)]; [None] is [ValueError] or its subclass [binascii.Error]. *)
Definition b64decode (s : string) : option bytes :=
  if sforall (λ a, code a <? 128) s then a2b_base64 0 0 0 s else None.

(** [re.fullmatch] of the alphabet followed by at most two [=]. *)
Fixpoint b64_valid (s : string) : bool :=
  match s with
  | "" => true
  | String a r =>
    match b64_val a with
    | Some _ => b64_valid r
    | None => bool_decide (s = "=") || bool_decide (s = "==")
    end
  end.

(** [base64.b64decode(s, validate=True)] *)
Definition b64decode_strict (s : string) : option bytes :=
  if b64_valid s then a2b_base64 0 0 0 s else None.

Lemma code_bound a : code a < 256.
Proof. apply N_ascii_bounded. Qed.
Lemma chr_code a : chr (code a) = a.
Proof. apply ascii_N_embedding. Qed.

Lemma below_64_cases (P : N → Prop) :
  Forall (λ n, P (N.of_nat n)) (seq 0 64) → ∀ n, n < 64 → P n.
Proof.
  intros Hf n Hn. rewrite Forall_forall in Hf. rewrite <- (N2Nat.id n).
  apply Hf, elem_of_seq. lia.
Qed.

Lemma b64_val_char n : n < 64 → b64_val (b64_char n) = Some n.
Proof. revert n. apply below_64_cases. by repeat constructor. Qed.

Lemma b64_char_not_pad n : n < 64 → (code (b64_char n) =? 61) = false.
Proof. revert n. apply below_64_cases. by repeat constructor. Qed.

Lemma b64_char_ascii n : n < 64 → (code (b64_char n) <? 128) = true.
Proof. revert n. apply below_64_cases. by repeat constructor. Qed.

(** Three bytes at a time. *)
Lemma bytes3_ind (P : string → Prop) :
  P "" → (∀ a, P (String a "")) → (∀ a b, P (String a (String b ""))) →
  (∀ a b c r, P r → P (String a (String b (String c r)))) → ∀ s, P s.
Proof.
  intros H0 H1 H2 H3. fix IH 1. intros [|a [|b [|c r]]]; [done|apply H1|apply H2|].
  apply H3, IH.
Qed.

Lemma sextet1 a : code a / 4 < 64.
Proof. pose proof (code_bound a). apply N.Div0.div_lt_upper_bound; lia. Qed.
Lemma sextet2 a b : code a mod 4 * 16 + code b / 16 < 64.
Proof.
  pose proof (code_bound b). pose proof (N.mod_lt (code a) 4 ltac:(lia)).
  assert (code b / 16 < 16) by (apply N.Div0.div_lt_upper_bound; lia). lia.
Qed.
Lemma sextet3 b c : code b mod 16 * 4 + code c / 64 < 64.
Proof.
  pose proof (code_bound c). pose proof (N.mod_lt (code b) 16 ltac:(lia)).
  assert (code c / 64 < 4) by (apply N.Div0.div_lt_upper_bound; lia). lia.
Qed.
Lemma sextet4 c : code c mod 64 < 64.
Proof. apply N.mod_lt. lia. Qed.
Lemma sextet2' a : code a mod 4 * 16 < 64.
Proof. pose proof (N.mod_lt (code a) 4 ltac:(lia)). lia. Qed.
Lemma sextet3' b : code b mod 16 * 4 < 64.
Proof. pose proof (N.mod_lt (code b) 16 ltac:(lia)). lia. Qed.

Lemma a2b_step quad left pads n s : n < 64 →
  a2b_base64 quad left pads (String (b64_char n) s) =
    match quad with
    | O => a2b_base64 1 n 0 s
    | 1%nat => String (chr (left * 4 + n / 16)) <$> a2b_base64 2 (n mod 16) 0 s
    | 2%nat => String (chr (left * 16 + n / 4)) <$> a2b_base64 3 (n mod 4) 0 s
    | _ => String (chr (left * 64 + n)) <$> a2b_base64 0 0 0 s
    end.
Proof. intros Hn. cbn. by rewrite b64_char_not_pad, b64_val_char by done. Qed.

Lemma byte1 a x : x < 16 → code a / 4 * 4 + (code a mod 4 * 16 + x) / 16 = code a.
Proof.
  intros. rewrite N.div_add_l by lia. rewrite (N.div_small x) by done.
  pose proof (N.div_mod (code a) 4 ltac:(lia)). lia.
Qed.
Lemma byte2 b x y : x < 4 → (y * 16 + code b / 16) mod 16 * 16 + (code b mod 16 * 4 + x) / 4 = code b.
Proof.
  intros. pose proof (code_bound b).
  assert (code b / 16 < 16) by (apply N.Div0.div_lt_upper_bound; lia).
  rewrite N.add_comm, (N.add_comm (y * 16)), N.Div0.mod_add, (N.mod_small (_ / 16)) by done.
  rewrite N.div_add_l by lia. rewrite (N.div_small x) by done.
  pose proof (N.div_mod (code b) 16 ltac:(lia)). lia.
Qed.
Lemma byte3 c y : (y * 4 + code c / 64) mod 4 * 64 + code c mod 64 = code c.
Proof.
  pose proof (code_bound c).
  assert (code c / 64 < 4) by (apply N.Div0.div_lt_upper_bound; lia).
  rewrite (N.add_comm (y * 4)), N.Div0.mod_add, (N.mod_small (_ / 64)) by done.
  pose proof (N.div_mod (code c) 64 ltac:(lia)). lia.
Qed.

Lemma a2b_encode s : a2b_base64 0 0 0 (b64encode s) = Some s.
Proof.
  induction s as [|a|a b|a b c r IH] using bytes3_ind; cbn [b64encode]; [done|..].
  - rewrite a2b_step by apply sextet1. rewrite a2b_step by apply sextet2'. cbn.
    rewrite <- (N.add_0_r (_ * 16)), byte1 by lia. by rewrite chr_code.
  - rewrite a2b_step by apply sextet1. rewrite a2b_step by apply sextet2.
    rewrite a2b_step by apply sextet3'. cbn -[N.div N.modulo N.mul N.add].
    rewrite byte1 by (pose proof (code_bound b); apply N.Div0.div_lt_upper_bound; lia).
    rewrite <- (N.add_0_r (code b mod 16 * 4)), byte2 by lia. by rewrite !chr_code.
  - rewrite a2b_step by apply sextet1. rewrite a2b_step by apply sextet2.
    rewrite a2b_step by apply sextet3. rewrite a2b_step by apply sextet4.
    rewrite byte1 by (pose proof (code_bound b); apply N.Div0.div_lt_upper_bound; lia).
    rewrite byte2 by (pose proof (code_bound c); apply N.Div0.div_lt_upper_bound; lia).
    rewrite byte3, IH. cbn. by rewrite !chr_code.
Qed.

Lemma encode_ascii s : sforall (λ a, code a <? 128) (b64encode s) = true.
Proof.
  induction s as [|a|a b|a b c r IH] using bytes3_ind; cbn [b64encode sforall]; [done|..];
    rewrite ?b64_char_ascii by (apply sextet1 || apply sextet2 || apply sextet3 || apply sextet4
      || apply sextet2' || apply sextet3'); done.
Qed.

Lemma b64_valid_char n s : n < 64 → b64_valid (String (b64_char n) s) = b64_valid s.
Proof. intros. cbn. by rewrite b64_val_char. Qed.

Lemma encode_valid s : b64_valid (b64encode s) = true.
Proof.
  induction s as [|a|a b|a b c r IH] using bytes3_ind; cbn [b64encode]; [done|..];
    rewrite ?b64_valid_char by (apply sextet1 || apply sextet2 || apply sextet3 || apply sextet4
      || apply sextet2' || apply sextet3'); done.
Qed.

Lemma b64decode_encode s : b64decode (b64encode s) = Some s.
Proof. unfold b64decode. by rewrite encode_ascii, a2b_encode. Qed.

Lemma b64decode_strict_encode s : b64decode_strict (b64encode s) = Some s.
Proof. unfold b64decode_strict. by rewrite encode_valid, a2b_encode. Qed.
End Alphabet.

Lemma b64encode_empty s : b64encode s = "" ↔ s = "".
Proof. by destruct s as [|a [|b [|c r]]]. Qed.
