(* ===== verification/Utf8.v ===== *)
(** * [str.encode("utf-8")], [bytes.decode("utf-8")] and two-byte lengths

    Strings hold the code points 0 to 255, so a character takes one byte or two.
    The decoder refuses, with [None], malformed input and the code points above
    255, which a modelled string cannot hold. *)

From stdpp Require Import prelude gmap strings.
From Stdlib Require Import Ascii.
From S2P Require Import Prelude PyDict PyStr Json Base64.

Local Open Scope string_scope.
Local Open Scope N_scope.

Definition utf8_char (a : ascii) : bytes :=
  if code a <? 128 then String a ""
  else String (chr (192 + code a / 64)) (String (chr (128 + code a mod 64)) "").

Fixpoint utf8_encode (s : string) : bytes :=
  match s with
  | "" => ""
  | String a s => utf8_char a +:+ utf8_encode s
  end.

Fixpoint utf8_decode (s : bytes) : option string :=
  match s with
  | "" => Some ""
  | String a s =>
    if code a <? 128 then String a <$> utf8_decode s
    else if (194 <=? code a) && (code a <=? 195) then
      match s with
      | String b s =>
        if (128 <=? code b) && (code b <? 192)
        then String (chr ((code a - 192) * 64 + (code b - 128))) <$> utf8_decode s
        else None
      | "" => None
      end
    else None
  end.

Lemma utf8_char_decode a s : utf8_decode (utf8_char a +:+ s) = String a <$> utf8_decode s.
Proof. destruct a as [[] [] [] [] [] [] [] []]; reflexivity. Qed.

Lemma utf8_decode_encode s : utf8_decode (utf8_encode s) = Some s.
Proof.
  induction s as [|a s IH]; [done|]. cbn [utf8_encode]. by rewrite utf8_char_decode, IH.
Qed.

Lemma utf8_ascii s : sforall (λ a, code a <? 128) s = true → utf8_encode s = s.
Proof.
  induction s as [|a s IH]; cbn [sforall utf8_encode]; [done|]. intros [Ha Hs]%andb_true_iff.
  unfold utf8_char. by rewrite Ha, IH.
Qed.

(** Every JSON document is ASCII, so encoding it to UTF-8 changes nothing. *)
Lemma utf8_printable s : sforall printable s = true → utf8_encode s = s.
Proof.
  intros H. apply utf8_ascii. revert H. apply sforall_impl. intros a.
  unfold printable. rewrite andb_true_iff, !N.leb_le, N.ltb_lt. lia.
Qed.

(** ** [n.to_bytes(2, "big")] and [int.from_bytes(b, "big")] *)

Definition to_bytes2 (n : N) : option bytes :=
  if n <? 65536 then Some (String (chr (n / 256)) (String (chr (n mod 256)) "")) else None.

Definition from_bytes (s : bytes) : N :=
  (fix go (acc : N) (s : bytes) : N :=
     match s with "" => acc | String a s => go (acc * 256 + code a) s end) 0 s.

Lemma code_chr n : n < 256 → code (chr n) = n.
Proof. apply N_ascii_embedding. Qed.

Lemma from_to_bytes2 n b : to_bytes2 n = Some b → from_bytes b = n ∧ String.length b = 2%nat.
Proof.
  unfold to_bytes2. destruct (N.ltb_spec n 65536) as [Hn|]; [|done]. intros [= <-].
  split; [|done]. unfold from_bytes. 
  rewrite !code_chr by (try apply N.mod_lt; try apply N.Div0.div_lt_upper_bound; lia).
  pose proof (N.div_mod n 256). lia.
Qed.
