(* ===== verification/Message.v ===== *)
(** * The chat message ([distribution/message.py]) and its wire format *)

From stdpp Require Import prelude gmap strings.
From S2P Require Import Prelude PyDict PyStr Json.

Local Open Scope string_scope.

Record Message := mkMessage {
  content : string;
  sender : string;
  id : string;
  timestamp : time;
  signature : string;
  ttl : Z;
  vector_clock : gmap string Z;
}.

#[export] Instance Message_eq_dec : EqDecision Message.
Proof. solve_decision. Defined.

(** [Message(content=c, sender=s)]: a fresh identifier and the current time, an
    empty signature, ten hops and no clock. *)
Definition new_message (c s fresh_id : string) (now : time) : Message :=
  mkMessage c s fresh_id now "" 10 ∅.

(** [dataclasses.replace(m, ttl=t)] and the other field updates. *)
Definition with_ttl (t : Z) (m : Message) : Message :=
  mkMessage (content m) (sender m) (id m) (timestamp m) (signature m) t (vector_clock m).
Definition with_content (c : string) (m : Message) : Message :=
  mkMessage c (sender m) (id m) (timestamp m) (signature m) (ttl m) (vector_clock m).
Definition with_signature (s : string) (m : Message) : Message :=
  mkMessage (content m) (sender m) (id m) (timestamp m) s (ttl m) (vector_clock m).
Definition with_clock (vc : gmap string Z) (m : Message) : Message :=
  mkMessage (content m) (sender m) (id m) (timestamp m) (signature m) (ttl m) vc.

(** [asdict(self)] *)
Definition asdict (m : Message) : json :=
  JObj [("content", JStr (content m)); ("sender", JStr (sender m)); ("id", JStr (id m));
        ("timestamp", JFloat (timestamp m)); ("signature", JStr (signature m));
        ("ttl", JInt (ttl m)); ("vector_clock", json_of_vc (vector_clock m))].

(** [Message.to_json] *)
Definition to_json (m : Message) : string := dumps default_style (asdict m).

Definition message_fields : list string :=
  ["content"; "sender"; "id"; "timestamp"; "signature"; "ttl"; "vector_clock"].

(** A keyword argument: its value decoded, or the field's default. *)
Definition kwarg {A} (k : string) (dec : json → result A) (dflt : result A)
    (d : pydict string json) : result A :=
  match dget k d with Some j => dec j | None => dflt end.

(** [Message] called with the keyword arguments [d]: an unknown keyword or a missing [content] or [sender] raises
    [TypeError].  The code does not check the types of the values; the model
    refuses an ill-typed one here, where Python fails at its first use. *)
Definition message_of_kwargs (fresh_id : string) (now : time) (d : pydict string json) : result Message :=
  if forallb (λ k, bool_decide (k ∈ message_fields)) (dkeys d) then
    c ← kwarg "content" as_str (Raise TypeError) d;
    s ← kwarg "sender" as_str (Raise TypeError) d;
    i ← kwarg "id" as_str (Ok fresh_id) d;
    t ← kwarg "timestamp" as_float (Ok now) d;
    sg ← kwarg "signature" as_str (Ok "") d;
    h ← kwarg "ttl" as_int (Ok 10%Z) d;
    vc ← kwarg "vector_clock" vc_of_json (Ok ∅) d;
    mret (mkMessage c s i t sg h vc)
  else Raise TypeError.

(** [Message.from_json] *)
Definition from_json (fresh_id : string) (now : time) (raw : string) : result Message :=
  match loads raw with
  | None => Raise JSONDecodeError
  | Some (JObj d) => message_of_kwargs fresh_id now d
  | Some _ => Raise TypeError
  end.

Lemma asdict_wf m : json_wf (asdict m).
Proof.
  apply json_wf_obj. split.
  - unfold dwf. apply (bool_decide_unpack _). by vm_compute.
  - repeat (constructor; [try done; apply json_of_vc_wf|]). constructor.
Qed.

(** A message survives its trip over the wire: decoding the JSON frame of any
    message, whatever characters its fields hold, returns exactly that message. *)
Theorem message_wire_roundtrip m fresh_id now : from_json fresh_id now (to_json m) = Ok m.
Proof.
  unfold from_json, to_json. rewrite (loads_dumps_wf default_style) by apply asdict_wf. cbn [asdict].
  unfold message_of_kwargs. 
  assert (forallb (λ k, bool_decide (k ∈ message_fields)) message_fields = true) as E by by vm_compute.
  unfold dkeys. cbn [fmap list_fmap fst]. 
  change (["content"; "sender"; "id"; "timestamp"; "signature"; "ttl"; "vector_clock"]) with message_fields.
  rewrite E. unfold kwarg. cbn [dget]. cbv -[json_of_vc vc_of_json vector_clock].
  rewrite vc_of_json_of_vc. by destruct m.
Qed.
