(* ===== verification/Security.v ===== *)
(** * Signatures, payload encryption and key stores ([security/])

    The RSA and AES primitives ([cryptography]) and the OS keyring ([keyring]) are
    not part of the repository: they are the operations of the classes [Crypto] and
    [Keyring], with what the code relies on in [CryptoLaws] and [KeyringLaws].  Random
    draws (salts, AES keys, nonces, new RSA keys) are arguments. *)

From stdpp Require Import prelude gmap strings.
From Stdlib Require Import Ascii.
From S2P Require Import Prelude PyDict PyStr Json Base64 Utf8 Message.

Local Open Scope string_scope.

(** What one hybrid encryption draws: the AES key, the nonce, the OAEP seed. *)
Record Coins := mkCoins { aes_key : bytes; nonce : bytes; oaep_seed : bytes }.

Class Crypto := {
  private_key : Type;
  public_key : Type;
  public_of : private_key → public_key;
  load_pem_private_key : bytes → result private_key;
  load_pem_public_key : bytes → result public_key;
  private_bytes : private_key → bytes;
  public_bytes : public_key → bytes;
  is_rsa_public : public_key → bool;
  is_rsa_private : private_key → bool;
  pss_sign : private_key → bytes → bytes → bytes;
  pss_verify : public_key → bytes → bytes → result unit;
  oaep_encrypt : public_key → bytes → bytes → result bytes;
  oaep_decrypt : private_key → bytes → result bytes;
  gcm_encrypt : bytes → bytes → bytes → bytes;
  gcm_decrypt : bytes → bytes → bytes → result bytes;
}.

(** The documented behaviour of a correct key pair and cipher. *)
Class CryptoLaws `{Crypto} : Prop := {
  load_private_bytes : ∀ sk, load_pem_private_key (private_bytes sk) = Ok sk;
  load_public_bytes : ∀ pk, load_pem_public_key (public_bytes pk) = Ok pk;
  private_bytes_nonempty : ∀ sk, private_bytes sk ≠ "";
  public_bytes_nonempty : ∀ pk, public_bytes pk ≠ "";
  pss_sign_nonempty : ∀ sk salt data, pss_sign sk salt data ≠ "";
  pss_verify_sign : ∀ sk salt data, pss_verify (public_of sk) (pss_sign sk salt data) data = Ok tt;
  (** OAEP with SHA-256 under a 2048-bit key takes up to 190 bytes and its output is
      the size of the modulus. *)
  oaep_roundtrip : ∀ sk seed m, is_rsa_public (public_of sk) = true →
    (String.length m ≤ 190)%nat →
    ∃ c, oaep_encrypt (public_of sk) seed m = Ok c ∧ (N.of_nat (String.length c) < 65536)%N ∧
         oaep_decrypt sk c = Ok m;
  gcm_roundtrip : ∀ k n m, String.length k = 32 → String.length n = 12 →
    gcm_decrypt k n (gcm_encrypt k n m) = Ok m;
  rsa_public_private : ∀ sk, is_rsa_public (public_of sk) = true → is_rsa_private sk = true;
}.

(** ** [security/message_integrity.py] *)

Section Integrity.
Context `{Crypto}.

(** The module's globals [_private_key] and [_public_keys]. *)
Record KeyState := mkKeys {
  own_key : option private_key;
  public_keys : gmap string public_key;
}.

Definition configure_private_key (pem : bytes) : M KeyState unit :=
  sk ← lift (load_pem_private_key pem);
  modify (λ ks, mkKeys (Some sk) (public_keys ks)).

Definition register_public_key (who : string) (pem : bytes) : M KeyState unit :=
  pk ← lift (load_pem_public_key pem);
  modify (λ ks, mkKeys (own_key ks) (<[who := pk]> (public_keys ks))).

Definition clear_keys : M KeyState unit := put (mkKeys None ∅).

Definition get_private_key_pem (ks : KeyState) : option bytes := private_bytes <$> own_key ks.

(** [json.dumps(payload, sort_keys=True, separators=(",", ":")).encode("utf-8")]: the
    keys in sorted order.  The hop count and the clock are not signed. *)
Definition _canonical_payload (msg : Message) : bytes :=
  utf8_encode (dumps compact (JObj
    [("content", JStr (content msg)); ("id", JStr (id msg)); ("sender", JStr (sender msg));
     ("signature", JStr ""); ("timestamp", JFloat (timestamp msg))])).

Definition sign (salt : bytes) (msg : Message) (ks : KeyState) : result Message :=
  match own_key ks with
  | None => Raise RuntimeError
  | Some sk => Ok (with_signature (b64encode (pss_sign sk salt (_canonical_payload msg))) msg)
  end.

(** The exceptions [verify] turns into [False]. *)
Definition verify_catches (e : exn) : bool :=
  match e with InvalidSignature | TypeError | ValueError | UnicodeError => true | _ => false end.

Definition verify (msg : Message) (ks : KeyState) : result bool :=
  match public_keys ks !! sender msg with
  | None => Ok false
  | Some pk =>
    if decide (signature msg = "") then Ok false
    else match b64decode_strict (signature msg) with
         | None => Ok false
         | Some sg =>
           match pss_verify pk sg (_canonical_payload msg) with
           | Ok _ => Ok true
           | Raise e => if verify_catches e then Ok false else Raise e
           end
         end
  end.

End Integrity.

(** ** [security/payload_encryption.py] *)

Definition WIRE_VERSION : string := "pcenc-h1".

Definition is_encrypted_content (c : string) : bool :=
  match loads c with
  | Some j => match jget "v" j with
              | Some (JStr v) => bool_decide (v = WIRE_VERSION) | _ => false end
  | None => false
  end.

Section Encryption.
Context `{Crypto}.

Definition _hybrid_encrypt (coins : Coins) (plaintext pem : bytes) : result bytes :=
  pk ← load_pem_public_key pem;
  if is_rsa_public pk then
    let ciphertext := gcm_encrypt (aes_key coins) (nonce coins) plaintext in
    ek ← oaep_encrypt pk (oaep_seed coins) (aes_key coins +:+ nonce coins);
    rsa_len ← of_option OverflowError (to_bytes2 (N.of_nat (String.length ek)));
    mret (rsa_len +:+ ek +:+ ciphertext)
  else Raise PayloadEncryptionError.

Definition _hybrid_decrypt (ciphertext pem : bytes) : result bytes :=
  sk ← load_pem_private_key pem;
  if negb (is_rsa_private sk) then Raise PayloadEncryptionError
  else if (String.length ciphertext <? 2)%nat then Raise PayloadEncryptionError
  else
    let rsa_len := N.to_nat (from_bytes (str_take 2 ciphertext)) in
    if (String.length ciphertext <? 2 + rsa_len)%nat then Raise PayloadEncryptionError
    else
      let ek := str_take rsa_len (str_drop 2 ciphertext) in
      let body := str_drop (2 + rsa_len) ciphertext in
      key_material ← oaep_decrypt sk ek;
      if negb (String.length key_material =? 44)%nat then Raise PayloadEncryptionError
      else gcm_decrypt (str_take 32 key_material) (str_drop 32 key_material) body.

(** One base64 box per recipient, in the recipients' order. *)
Definition seal_boxes (coins : string → Coins) (plaintext : bytes)
    (valid : pydict string bytes) : result (list (string * json)) :=
  mapR (λ kv, c ← _hybrid_encrypt (coins kv.1) plaintext kv.2;
              mret (kv.1, JStr (b64encode c))) valid.

Definition wire_content (boxes : list (string * json)) : string :=
  dumps compact (JObj [("v", JStr WIRE_VERSION); ("boxes", JObj boxes)]).

Definition encrypt_payload (coins : string → Coins) (msg : Message)
    (recipient_pubkeys : pydict string bytes) : result Message :=
  let valid := List.filter (λ kv, negb (bool_decide (kv.2 = ""))) recipient_pubkeys in
  match valid with
  | [] => Ok msg
  | _ =>
    boxes ← seal_boxes coins (utf8_encode (content msg)) valid;
    mret (with_content (wire_content boxes) msg)
  end.

(** The body of the [try] in [decrypt_payload]. *)
Definition open_box (msg : Message) (own_user_id : string) (pem : bytes) : result Message :=
  data ← of_option JSONDecodeError (loads (content msg));
  let boxes := match jget "boxes" data with
               | Some j => if truthy j then j else JObj [] | None => JObj [] end in
  match boxes with
  | JObj d =>
    match dget own_user_id d with
    | Some encoded =>
      if negb (truthy encoded) then Raise PayloadEncryptionError
      else match encoded with
           | JStr s =>
             ciphertext ← of_option ValueError (b64decode_strict s);
             plain ← _hybrid_decrypt ciphertext pem;
             text ← of_option UnicodeError (utf8_decode plain);
             mret (with_content text msg)
           | _ => Raise AttributeError
           end
    | None => Raise PayloadEncryptionError
    end
  | _ => Raise AttributeError
  end.

Definition decrypt_payload (msg : Message) (own_user_id : string) (pem : bytes) : result Message :=
  if negb (is_encrypted_content (content msg)) then Ok msg
  else match open_box msg own_user_id pem with
       | Ok m => Ok m
       | Raise _ => Raise PayloadEncryptionError
       end.

End Encryption.

(** ** [security/key_storage.py], [keyring_key_storage.py], [key_bootstrap.py] *)

(** The OS keyring's slot for (["peerchat"], ["private_key"]). *)
Class Keyring := {
  keyring_state : Type;
  get_password : keyring_state → result (option string);
  set_password : string → keyring_state → result keyring_state;
  delete_password : keyring_state → result keyring_state;
}.
Class KeyringLaws `{Keyring} : Prop := {
  get_set_password : ∀ p kr kr', set_password p kr = Ok kr' → get_password kr' = Ok (Some p);
}.

Section KeyStores.
Context `{Crypto} `{Keyring}.

(** [InMemoryKeyStore]: [_private_key]. *)
Definition KeyStore : Type := option bytes.

Definition set_private_key (pem : bytes) : M KeyStore unit :=
  if decide (pem = "") then lift (Raise InvalidKeyError) else put (Some pem).

Definition get_private_key (ks : KeyStore) : result bytes := of_option MissingKeyError ks.

Definition get_public_key_pem (ks : KeyStore) : result bytes :=
  match get_private_key ks with
  | Raise e => Raise e
  | Ok pem =>
    match load_pem_private_key pem with
    | Ok sk => Ok (public_bytes (public_of sk))
    | Raise _ => Raise InvalidKeyError
    end
  end.

Definition has_private_key (ks : KeyStore) : bool := bool_decide (is_Some ks).
Definition clear : M KeyStore unit := put None.

(** [KeyringKeyStorage] *)
Definition save_private_key (pem : bytes) : M keyring_state unit := λ kr,
  if decide (pem = "") then (Raise PersistentKeyStorageError, kr)
  else match set_password (b64encode pem) kr with
       | Ok kr' => (Ok tt, kr')
       | Raise e => (Raise e, kr)
       end.

Definition load_private_key (kr : keyring_state) : result bytes :=
  stored ← get_password kr;
  match stored with
  | None => Raise PersistentKeyStorageError
  | Some s =>
    match b64decode s with
    | None => Raise PersistentKeyStorageError
    | Some pem => if decide (pem = "") then Raise PersistentKeyStorageError else Ok pem
    end
  end.

Definition delete_private_key : M keyring_state unit := λ kr,
  match delete_password kr with
  | Ok kr' => (Ok tt, kr')
  | Raise KeyError => (Ok tt, kr)
  | Raise e => (Raise e, kr)
  end.

(** [initialize_private_key_store] with a persistent backend: [fresh] is the RSA key
    [generate_rsa_private_key_pem] would draw.  The state is the keyring; the runtime
    store is new. *)
Definition initialize_private_key_store (fresh : private_key) (persistent : bool) :
    M (KeyStore * keyring_state) bytes := λ '(rt, kr),
  let finish (pem : bytes) (kr : keyring_state) :=
    match set_private_key pem rt with
    | (Ok _, rt') => (get_public_key_pem rt', (rt', kr))
    | (Raise e, rt') => (Raise e, (rt', kr))
    end in
  if negb persistent then finish (private_bytes fresh) kr
  else match load_private_key kr with
       | Ok pem => finish pem kr
       | Raise PersistentKeyStorageError =>
         match save_private_key (private_bytes fresh) kr with
         | (Ok _, kr') => finish (private_bytes fresh) kr'
         | (Raise e, kr') => (Raise e, (rt, kr'))
         end
       | Raise e => (Raise e, (rt, kr))
       end.

End KeyStores.

(** ** What a signature covers *)

Section IntegrityFacts.
Context `{CryptoLaws}.

Lemma b64encode_nonempty s : s ≠ "" → b64encode s ≠ "".
Proof. by destruct s as [|a [|b [|c r]]]. Qed.

Lemma sorted_payload_wf c i s t :
  json_wf (JObj [("content", JStr c); ("id", JStr i); ("sender", JStr s);
                 ("signature", JStr ""); ("timestamp", JFloat t)]).
Proof.
  apply json_wf_obj. split; [|by repeat constructor].
  unfold dwf. apply (bool_decide_unpack _). by vm_compute.
Qed.

Lemma canonical_payload_covers m m' :
  _canonical_payload m = _canonical_payload m' →
  content m = content m' ∧ id m = id m' ∧ sender m = sender m' ∧ timestamp m = timestamp m'.
Proof.
  unfold _canonical_payload. intros E%(f_equal utf8_decode).
  rewrite !utf8_decode_encode in E. apply (inj Some), (f_equal loads) in E.
  rewrite !(loads_dumps_wf compact) in E by apply sorted_payload_wf. by injection E as -> -> -> ->.
Qed.

Lemma verify_sign sk salt m ks ks' m' :
  own_key ks = Some sk → sign salt m ks = Ok m' →
  public_keys ks' !! sender m = Some (public_of sk) → verify m' ks' = Ok true.
Proof.
  intros Hk Hs Hp. unfold sign in Hs. rewrite Hk in Hs. injection Hs as <-.
  unfold verify. change (sender (with_signature _ m)) with (sender m). rewrite Hp.
  cbn [signature with_signature].
  rewrite decide_False by apply b64encode_nonempty, pss_sign_nonempty.
  rewrite b64decode_strict_encode.
  change (_canonical_payload (with_signature _ m)) with (_canonical_payload m).
  by rewrite pss_verify_sign.
Qed.

(** Relays change the hop count and the clock: verification does not see them. *)
Lemma verify_relay m ks h vc : verify (with_clock vc (with_ttl h m)) ks = verify m ks.
Proof. done. Qed.

End IntegrityFacts.

(** ** Hybrid encryption round trip *)

Section EncryptionFacts.
Context `{CryptoLaws}.

(** [AESGCM.generate_key(bit_length=256)] and [os.urandom(12)]. *)
Definition coins_ok (c : Coins) : Prop :=
  String.length (aes_key c) = 32%nat ∧ String.length (nonce c) = 12%nat.

(** The PEM text of an RSA public key whose private half is [sk]. *)
Definition rsa_pem (sk : private_key) (pem : bytes) : Prop :=
  pem = public_bytes (public_of sk) ∧ is_rsa_public (public_of sk) = true.

Lemma hybrid_roundtrip coins sk pem m : coins_ok coins → rsa_pem sk pem →
  ∃ c, _hybrid_encrypt coins m pem = Ok c ∧ c ≠ "" ∧ _hybrid_decrypt c (private_bytes sk) = Ok m.
Proof.
  intros [Hk Hn] [-> Hrsa]. unfold _hybrid_encrypt. rewrite load_public_bytes. cbn. rewrite Hrsa.
  assert (String.length (aes_key coins +:+ nonce coins) = 44%nat) as Hl
    by (rewrite string_length_app; lia).
  destruct (oaep_roundtrip sk (oaep_seed coins) (aes_key coins +:+ nonce coins))
    as (ek & -> & Hek & Hdec); [done|lia|]. cbn.
  destruct (to_bytes2 (N.of_nat (String.length ek))) as [b|] eqn:Eb.
  2:{ unfold to_bytes2 in Eb. destruct (N.ltb_spec (N.of_nat (String.length ek)) 65536); [done|lia]. }
  destruct (from_to_bytes2 _ _ Eb) as [Hb Hlb]. cbn. eexists. split; [done|].
  split; [by destruct b|]. unfold _hybrid_decrypt. rewrite load_private_bytes. cbn [mbind result_bind].
  rewrite (rsa_public_private sk Hrsa). cbn [negb].
  rewrite !string_length_app, Hlb.
  destruct (Nat.ltb_spec (2 + (String.length ek + String.length
    (gcm_encrypt (aes_key coins) (nonce coins) m))) 2); [lia|].
  assert (∀ t, str_take 2 (b +:+ t) = b) as Ht by (intros t; rewrite <- Hlb; apply str_take_app).
  assert (∀ t, str_drop 2 (b +:+ t) = t) as Hd by (intros t; rewrite <- Hlb; apply str_drop_app).
  rewrite Ht, Hd, Hb, Nat2N.id.
  destruct (Nat.ltb_spec (2 + (String.length ek + String.length
    (gcm_encrypt (aes_key coins) (nonce coins) m))) (2 + String.length ek)); [lia|].
  rewrite str_take_app, Hdec. cbn [mbind result_bind]. rewrite Hl. cbn [Nat.eqb negb].
  assert (str_drop (2 + String.length ek) (b +:+ (ek +:+ gcm_encrypt (aes_key coins) (nonce coins) m))
    = gcm_encrypt (aes_key coins) (nonce coins) m) as ->.
  { rewrite <- Hlb, <- string_length_app, string_app_assoc. apply str_drop_app. }
  replace 32%nat with (String.length (aes_key coins)) by done.
  rewrite str_take_app, str_drop_app. by apply gcm_roundtrip.
Qed.

(** A box that any private half of the key opens to [pt]. *)
Definition opens_to (pt pem : bytes) (box : json) : Prop :=
  ∃ c, box = JStr (b64encode c) ∧ c ≠ "" ∧
    ∀ sk, rsa_pem sk pem → _hybrid_decrypt c (private_bytes sk) = Ok pt.

(** Each recipient gets such a box. *)
Lemma seal_boxes_ok coins pt valid :
  (∀ uid, coins_ok (coins uid)) → Forall (λ kv, ∃ sk, rsa_pem sk kv.2) valid →
  ∃ boxes, seal_boxes coins pt valid = Ok boxes ∧
    Forall2 (λ kv box, box.1 = kv.1 ∧ opens_to pt kv.2 box.2) valid boxes.
Proof.
  intros Hc. induction valid as [|[u pem] valid IH]; intros Hv; [by exists []|].
  apply Forall_cons in Hv as [[sk Hsk] Hv]. destruct (IH Hv) as (boxes & Hb & Hall).
  destruct (hybrid_roundtrip (coins u) sk pem pt) as (c & He & Hne & _); [done|done|].
  exists ((u, JStr (b64encode c)) :: boxes). unfold seal_boxes in *. cbn in *. split.
  - rewrite He. cbn. by rewrite Hb.
  - constructor; [|done]. split; [done|]. exists c. split_and!; [done|done|].
    intros sk' Hsk'. destruct (hybrid_roundtrip (coins u) sk' pem pt) as (c' & He' & _ & ?); [done|done|].
    congruence.
Qed.

Lemma Forall2_dget {K A B} `{EqDecision K} (P : A → B → Prop) (l : pydict K A) (m : pydict K B) k :
  Forall2 (λ kv box, box.1 = kv.1 ∧ P kv.2 box.2) l m →
  match dget k l, dget k m with
  | Some a, Some b => P a b
  | None, None => True
  | _, _ => False
  end.
Proof.
  induction 1 as [|[k1 a] [k2 b] l m [E Hp] _ IH]; [done|]. cbn in E |- *. subst k2.
  by destruct (decide (k = k1)).
Qed.

Lemma wire_content_wf (boxes : list (string * json)) : dwf boxes →
  Forall (λ kv, ∃ c, kv.2 = JStr (b64encode c)) boxes →
  json_wf (JObj [("v", JStr WIRE_VERSION); ("boxes", JObj boxes)]).
Proof.
  intros Hd Hf. apply json_wf_obj. split; [unfold dwf; apply (bool_decide_unpack _); by vm_compute|].
  constructor; [done|]. constructor; [|constructor]. cbn [snd]. apply json_wf_obj. split; [done|].
  eapply Forall_impl; [done|]. intros kv [c ->]. done.
Qed.

Definition sealed (recipients : pydict string bytes) : pydict string bytes :=
  List.filter (λ kv, negb (bool_decide (kv.2 = ""))) recipients.

Lemma sealed_rsa recipients :
  Forall (λ kv, ∃ sk, rsa_pem sk kv.2) recipients → sealed recipients = recipients.
Proof.
  induction 1 as [|kv l [sk [E _]] _ IH]; [done|]. unfold sealed in *. cbn. rewrite IH, E.
  by rewrite bool_decide_eq_false_2 by apply public_bytes_nonempty.
Qed.

Lemma encrypt_payload_opens coins m recipients :
  recipients ≠ [] → dwf recipients → (∀ uid, coins_ok (coins uid)) →
  Forall (λ kv, ∃ sk, rsa_pem sk kv.2) recipients →
  ∃ m', encrypt_payload coins m recipients = Ok m' ∧
    m' = with_content (content m') m ∧ is_encrypted_content (content m') = true ∧
    ∀ uid, match dget uid recipients with
    | Some pem => ∀ sk, rsa_pem sk pem → decrypt_payload m' uid (private_bytes sk) = Ok m
    | None => ∀ pem, decrypt_payload m' uid pem = Raise PayloadEncryptionError
    end.
Proof.
  intros Hne Hwf Hc Hr. unfold encrypt_payload. fold (sealed recipients). rewrite (sealed_rsa _ Hr).
  destruct (seal_boxes_ok coins (utf8_encode (content m)) recipients Hc Hr) as (boxes & -> & Hb).
  destruct recipients as [|kv0 rest]; [done|]. cbn [mbind result_bind].
  eexists. split; [done|]. split; [done|]. cbn [content with_content].
  assert (json_wf (JObj [("v", JStr WIRE_VERSION); ("boxes", JObj boxes)])) as Hw.
  { apply wire_content_wf.
    - unfold dwf, dkeys in *. replace (boxes.*1) with ((kv0 :: rest).*1); [done|].
      clear -Hb. induction Hb as [|? ? ? ? [E _] _ IH]; [done|]. cbn. by rewrite E, IH.
    - clear -Hb. induction Hb as [|? ? ? ? (_ & c & E & _) _ IH]; constructor; eauto. }
  assert (is_encrypted_content (wire_content boxes) = true) as He.
  { unfold is_encrypted_content, wire_content. by rewrite (loads_dumps_wf compact). }
  split; [done|]. intros uid. unfold decrypt_payload, open_box.
  cbn [content with_content]. rewrite He. unfold wire_content. rewrite (loads_dumps_wf compact) by done.
  cbn [negb of_option mbind result_bind].
  change (jget "boxes" _) with (Some (JObj boxes)). cbn iota beta.
  assert (truthy (JObj boxes) = true) as -> by by inv Hb.
  pose proof (Forall2_dget (opens_to _) _ _ uid Hb) as Hu. cbn beta in Hu.
  destruct (dget uid (kv0 :: rest)) as [pem|], (dget uid boxes) as [box|]; try done.
  destruct Hu as (c & -> & Hcne & Hdec). intros sk Hsk.
  cbn [truthy]. rewrite bool_decide_eq_false_2 by by apply b64encode_nonempty. cbn [negb].
  rewrite b64decode_strict_encode. cbn [of_option mbind result_bind]. rewrite (Hdec sk Hsk).
  cbn [mbind result_bind]. rewrite utf8_decode_encode. cbn. by destruct m.
Qed.

Lemma bind_Ok {A B} (r : result A) (k : A → result B) b :
  r ≫= k = Ok b → ∃ a, r = Ok a ∧ k a = Ok b.
Proof. destruct r as [a|e]; [by exists a|done]. Qed.

(** Decryption changes the content alone. *)
Lemma decrypt_payload_content m uid pem m' :
  decrypt_payload m uid pem = Ok m' → m' = with_content (content m') m.
Proof.
  unfold decrypt_payload. destruct (negb _); [intros [= <-]; by destruct m|].
  destruct (open_box m uid pem) as [m1|] eqn:Eo; [|done]. intros [= <-].
  unfold open_box in Eo. apply bind_Ok in Eo as (data & _ & Eo). cbv zeta in Eo.
  repeat (case_match; try done);
    repeat (apply bind_Ok in Eo as (? & _ & Eo)); by injection Eo as <-.
Qed.

(** Whatever the wire text, [decrypt_payload] raises nothing but its own exception. *)
Lemma decrypt_payload_raises m uid pem e :
  decrypt_payload m uid pem = Raise e → e = PayloadEncryptionError.
Proof. unfold decrypt_payload. destruct (negb _); [done|]. by case_goal; intros [= <-]. Qed.

End EncryptionFacts.

(** ** A small instance of the classes, for concrete runs

    Keys are single bytes; a signature is the key followed by the data; a sealed
    text is prefixed by its key.  It satisfies the laws. *)
Module Toy.

Definition unseal (key c : bytes) : result bytes :=
  if startswith key c then Ok (str_drop (String.length key) c) else Raise DecryptionError.

Definition toy_pem (tag : ascii) (pem : bytes) : result ascii :=
  match pem with
  | String t (String k "") => if decide (t = tag) then Ok k else Raise ValueError
  | _ => Raise ValueError
  end.

#[export] Instance toy_crypto : Crypto := {|
  private_key := ascii;
  public_key := ascii;
  public_of := λ k, k;
  load_pem_private_key := toy_pem "k"%char;
  load_pem_public_key := toy_pem "p"%char;
  private_bytes := λ k, String "k"%char (String k "");
  public_bytes := λ k, String "p"%char (String k "");
  is_rsa_public := λ _, true;
  is_rsa_private := λ _, true;
  pss_sign := λ k salt data, String k data;
  pss_verify := λ k sg data,
    if decide (sg = String k data) then Ok tt else Raise InvalidSignature;
  oaep_encrypt := λ k seed m, Ok (String k m);
  oaep_decrypt := λ k c, unseal (String k "") c;
  gcm_encrypt := λ k n m, (k +:+ n) +:+ m;
  gcm_decrypt := λ k n c, unseal (k +:+ n) c;
|}.

Lemma unseal_app key m : unseal key (key +:+ m) = Ok m.
Proof.
  unfold unseal, startswith. rewrite str_drop_app.
  assert (String.prefix key (key +:+ m) = true) as ->; [|done].
  induction key as [|a key IH]; cbn; [by destruct m|]. by destruct (ascii_dec a a).
Qed.

#[export] Instance toy_laws : CryptoLaws.
Proof.
  split; cbn; try done.
  - intros sk _ data. by rewrite decide_True.
  - intros sk _ m _ Hm. exists (String sk m). split_and!; [done| |apply (unseal_app (String sk ""))].
    cbn. lia.
  - intros k n m _ _. apply unseal_app.
Qed.

#[export] Instance toy_keyring : Keyring := {|
  keyring_state := option string;
  get_password := λ kr, Ok kr;
  set_password := λ p _, Ok (Some p);
  delete_password := λ kr, match kr with Some _ => Ok None | None => Raise KeyError end;
|}.

#[export] Instance toy_keyring_laws : KeyringLaws.
Proof. split. by intros p kr kr' [= <-]. Qed.

Definition toy_coins (uid : string) : Coins :=
  mkCoins "0123456789abcdef0123456789abcdef" "abcdefghijkl" "".

End Toy.

(** ** The properties *)

Section Properties.
Context `{CryptoLaws}.

(** a message signed with the sender's key verifies at every node that holds the
    sender's public key, whatever hop count and clock relays gave it since; and the
    signature pins the content, identifier, sender and time stamp: two messages with
    the same signed bytes agree on all four. *)
Theorem signature_covers sk salt m m' ks ks' :
  own_key ks = Some sk → sign salt m ks = Ok m' →
  public_keys ks' !! sender m = Some (public_of sk) →
  (∀ hops vc, verify (with_clock vc (with_ttl hops m')) ks' = Ok true) ∧
  (∀ m2, _canonical_payload m2 = _canonical_payload m' →
    content m2 = content m ∧ id m2 = id m ∧ sender m2 = sender m ∧ timestamp m2 = timestamp m).
Proof.
  intros Hk Hs Hp. split.
  - intros hops vc. rewrite verify_relay. by eapply verify_sign.
  - intros m2 E%canonical_payload_covers. unfold sign in Hs. rewrite Hk in Hs. by injection Hs as <-.
Qed.

(** C31: payload encryption is correct end to end: encrypting for a set of RSA public
    keys replaces the content by a recognised envelope and nothing else, every
    recipient recovers the original message with its private key, and for anybody else
    decryption fails with [PayloadEncryptionError]. *)
Theorem encrypt_then_decrypt coins m recipients :
  recipients ≠ [] → dwf recipients → (∀ uid, coins_ok (coins uid)) →
  Forall (λ kv, ∃ sk, rsa_pem sk kv.2) recipients →
  ∃ m', encrypt_payload coins m recipients = Ok m' ∧
    m' = with_content (content m') m ∧ is_encrypted_content (content m') = true ∧
    ∀ uid, match dget uid recipients with
    | Some pem => ∀ sk, rsa_pem sk pem → decrypt_payload m' uid (private_bytes sk) = Ok m
    | None => ∀ pem, decrypt_payload m' uid pem = Raise PayloadEncryptionError
    end.
Proof. apply encrypt_payload_opens. Qed.

Lemma set_private_key_loaded sk rt :
  set_private_key (private_bytes sk) rt = (Ok tt, Some (private_bytes sk)).
Proof. unfold set_private_key. by rewrite decide_False by apply private_bytes_nonempty. Qed.

Lemma get_public_key_loaded sk :
  get_public_key_pem (Some (private_bytes sk)) = Ok (public_bytes (public_of sk)).
Proof. unfold get_public_key_pem, get_private_key. cbn [of_option]. by rewrite load_private_bytes. Qed.

Context `{KeyringLaws}.

(** the node's identity survives a restart: after a first start that stored the
    generated key, every later start (with a new runtime store and whatever key it
    would have generated) loads the same private key, leaves the keyring alone and
    publishes the same public key. *)
Theorem key_survives_restart fresh kr pem rt' kr' fresh' :
  load_private_key kr = Raise PersistentKeyStorageError →
  initialize_private_key_store fresh true (None, kr) = (Ok pem, (rt', kr')) →
  rt' = Some (private_bytes fresh) ∧ pem = public_bytes (public_of fresh) ∧
  initialize_private_key_store fresh' true (None, kr') = (Ok pem, (rt', kr')).
Proof.
  unfold initialize_private_key_store. intros -> Hi. cbn [negb] in *. unfold save_private_key in Hi.
  rewrite decide_False in Hi by apply private_bytes_nonempty.
  destruct (set_password _ kr) as [kr1|] eqn:Es; [|done].
  assert (load_private_key kr1 = Ok (private_bytes fresh)) as Hl.
  { unfold load_private_key. rewrite (get_set_password _ _ _ Es). cbn.
    rewrite b64decode_encode. by rewrite decide_False by apply private_bytes_nonempty. }
  rewrite set_private_key_loaded, get_public_key_loaded in Hi.
  injection Hi as <- <- <-. split_and!; [done|done|]. rewrite Hl.
  by rewrite set_private_key_loaded, get_public_key_loaded.
Qed.

End Properties.

Import Toy.

(** Alice's byte is [a], Bob's [b]. *)
Definition sample_message : Message :=
  mkMessage "hello" "10.0.0.1:8000" "id-1" 1000000 "" 10 {["10.0.0.1:8000" := 1%Z]}.

Definition alice_keys : KeyState (H := Toy.toy_crypto) := mkKeys (H := Toy.toy_crypto) (Some "a"%char) ∅.
Definition bob_keys : KeyState (H := Toy.toy_crypto) :=
  mkKeys (H := Toy.toy_crypto) None {["10.0.0.1:8000" := "a"%char]}.

Lemma signature_covers_witness :
  ∃ m', sign (H := Toy.toy_crypto) "" sample_message alice_keys = Ok m' ∧
    verify (H := Toy.toy_crypto) (with_clock ∅ (with_ttl 3 m')) bob_keys = Ok true.
Proof.
  eexists. split; [reflexivity|].
  refine (proj1 (signature_covers (H := Toy.toy_crypto) "a"%char "" sample_message _ alice_keys bob_keys _ _ _) 3%Z ∅);
    vm_compute; reflexivity.
Defined.

Lemma encrypt_then_decrypt_witness :
  let rs := [("10.0.0.2:8000", String "p" (String "b" ""))] in
  ∃ m', encrypt_payload (H := Toy.toy_crypto) Toy.toy_coins sample_message rs = Ok m' ∧
    decrypt_payload (H := Toy.toy_crypto) m' "10.0.0.2:8000" (String "k" (String "b" "")) = Ok sample_message.
Proof.
  intros rs.
  destruct (encrypt_then_decrypt (H := Toy.toy_crypto) Toy.toy_coins sample_message rs)
    as (m' & He & _ & _ & Hd).
  - done.
  - apply (bool_decide_unpack _). by vm_compute.
  - done.
  - constructor; [|constructor]. by exists "b"%char.
  - exists m'. split; [done|]. specialize (Hd "10.0.0.2:8000").
    assert (dget "10.0.0.2:8000" rs = Some (String "p" (String "b" ""))) as E by by vm_compute.
    rewrite E in Hd. by apply (Hd "b"%char).
Defined.

Lemma key_survives_restart_witness :
  initialize_private_key_store (H := Toy.toy_crypto) (H0 := Toy.toy_keyring) "x"%char true
    (None, Some "a24=") = (Ok (String "p" (String "n" "")), (Some (String "k" (String "n" "")), Some "a24=")).
Proof.
  refine (proj2 (proj2 (key_survives_restart (H := Toy.toy_crypto) (H1 := Toy.toy_keyring)
    "n"%char None _ _ _ "x"%char _ _))); reflexivity.
Defined.
