(* ===== verification/PeerRegistry.v ===== *)
(** * The peer registry interface ([distribution/peer_registry.py])

    [BroadcastNode] is written against [PeerRegistry]: a list of peers and, when the
    registry has it, a lookup of public keys.  The class states the interface; its
    instances are [InMemoryRegistry] (here), [MembershipRouter] and
    [DnsPeerRegistry]. *)

From stdpp Require Import prelude gmap strings.
From S2P Require Import Prelude PyDict PyStr.


(** [get_peers] may refresh a cache: it runs in the state monad at a time.
    [get_pub_key] is absent ([None]) when the registry has no such attribute; a key
    is the encoded text, empty when unknown. *)
Class PeerRegistry := {
  registry : Type;
  get_peers : time → M registry (list (string * Z));
  get_pub_key : option (registry → string → Z → string);
}.

(** What the node relies on: listing the peers never raises. *)
Class PeerRegistryLaws `{PeerRegistry} : Prop := {
  get_peers_total : ∀ now r, ∃ l r', get_peers now r = (Ok l, r');
}.

Module InMemoryRegistry.

(** [_peers]: host, port, public key. *)
Definition t : Type := list (string * Z * string).

Definition same_peer (host : string) (port : Z) (e : string * Z * string) : bool :=
  bool_decide (e.1 = (host, port)).

Definition add_peer (host : string) (port : Z) (pub_key : string) (peers : t) : t :=
  if existsb (same_peer host port) peers then peers else peers ++ [(host, port, pub_key)].

Definition remove_peer (host : string) (port : Z) (peers : t) : t :=
  List.filter (λ e, negb (same_peer host port e)) peers.

Definition get_peers (peers : t) : list (string * Z) := peers.*1.

Fixpoint get_pub_key (peers : t) (host : string) (port : Z) : string :=
  match peers with
  | [] => ""%string
  | e :: peers => if same_peer host port e then e.2 else get_pub_key peers host port
  end.

#[export] Instance in_memory_registry : PeerRegistry := {|
  registry := t;
  PeerRegistry.get_peers := λ _ r, (Ok (get_peers r), r);
  PeerRegistry.get_pub_key := Some get_pub_key;
|}.

#[export] Instance in_memory_laws : PeerRegistryLaws.
Proof. split. intros now r. by eexists _, _. Qed.

Lemma elem_existsb h p (peers : t) :
  existsb (same_peer h p) peers = true ↔ (h, p) ∈ get_peers peers.
Proof.
  rewrite existsb_exists. unfold get_peers. rewrite list_elem_of_fmap. split.
  - intros (e & Hin & He). apply bool_decide_eq_true in He. exists e. by rewrite list_elem_of_In.
  - intros (e & He & Hin). exists e. rewrite <- list_elem_of_In. split; [done|].
    by apply bool_decide_eq_true.
Qed.

Lemma add_peer_nodup h p k peers : NoDup (get_peers peers) → NoDup (get_peers (add_peer h p k peers)).
Proof.
  intros Hn. unfold add_peer. destruct (existsb _ _) eqn:E; [done|].
  unfold get_peers in *. rewrite fmap_app. apply NoDup_snoc; [done|].
  intros Hin. cbn in Hin. apply (elem_existsb h p peers) in Hin. congruence.
Qed.

Lemma remove_peer_gone h p peers : (h, p) ∉ get_peers (remove_peer h p peers).
Proof.
  unfold get_peers, remove_peer. intros (e & He & Hin)%list_elem_of_fmap.
  apply list_elem_of_In, filter_In in Hin as [_ Hn]. unfold same_peer in Hn.
  rewrite bool_decide_eq_true_2 in Hn; done.
Qed.

Lemma get_pub_key_added h p k peers : (h, p) ∉ get_peers peers →
  get_pub_key (add_peer h p k peers) h p = k.
Proof.
  intros Hni. unfold add_peer. destruct (existsb _ _) eqn:E.
  { by apply elem_existsb in E. }
  clear E. induction peers as [|e peers IH]; cbn [app get_pub_key].
  - unfold same_peer. by rewrite bool_decide_eq_true_2.
  - unfold same_peer. cbn in Hni. rewrite bool_decide_eq_false_2; [apply IH|]; set_solver.
Qed.

End InMemoryRegistry.
