(* ===== verification/VectorClock.v ===== *)
(** * Vector clocks and the hold-back queue ([distribution/vector_clock.py]) *)

From stdpp Require Import prelude gmap strings.
From S2P Require Import Prelude PyDict PyStr Json Message.

Local Open Scope Z_scope.

(** [HOLDBACK_TIMEOUT] *)
Definition HOLDBACK_TIMEOUT : time := seconds 5.

(** The clock's dictionary.  Nothing iterates over it in an order that shows. *)
Abbreviation VectorClock := (gmap string Z).

(** [d.get(k, 0)] *)
Definition vget (d : VectorClock) (k : string) : Z := default 0 (d !! k).

(** [VectorClock.increment] *)
Definition increment (node_id : string) (clock : VectorClock) : VectorClock :=
  <[node_id := vget clock node_id + 1]> clock.

Definition merge_entry (clock : VectorClock) (kv : string * Z) : VectorClock :=
  <[kv.1 := Z.max (vget clock kv.1) kv.2]> clock.

(** [VectorClock.merge] *)
Definition merge (clock other : VectorClock) : VectorClock :=
  foldl merge_entry clock (map_to_list other).

(** [VectorClock.snapshot] *)
Definition snapshot (clock : VectorClock) : VectorClock := clock.

(** [VectorClock.is_ready] *)
Definition is_ready (clock : VectorClock) (msg : Message) : bool :=
  let vc := vector_clock msg in
  if decide (vc = ∅) then true
  else if negb (vget vc (sender msg) =? vget clock (sender msg) + 1) then false
  else forallb (λ kv, bool_decide (kv.1 = sender msg) || (kv.2 <=? vget clock kv.1))
         (map_to_list vc).

(** [HoldBackQueue] *)
Record HoldBackQueue := mkQueue {
  queue : list (time * Message);
  timeout : time;
}.

Definition new_queue : HoldBackQueue := mkQueue [] HOLDBACK_TIMEOUT.

(** [HoldBackQueue.add] *)
Definition add (now : time) (msg : Message) (q : HoldBackQueue) : HoldBackQueue :=
  mkQueue (queue q ++ [(now, msg)]) (timeout q).

(** The first loop of [drain]: messages older than the time-out are released, and
    their clocks merged, in queue order.  Returns (delivered, still waiting, clock). *)
Fixpoint flush_expired (now limit : time) (q : list (time * Message)) (vc : VectorClock) :
    list Message * list (time * Message) * VectorClock :=
  match q with
  | [] => ([], [], vc)
  | (t, m) :: q =>
    if limit <? now - t then
      let '(d, w, vc') := flush_expired now limit q (merge vc (vector_clock m)) in
      (m :: d, w, vc')
    else
      let '(d, w, vc') := flush_expired now limit q vc in
      (d, (t, m) :: w, vc')
  end.

(** One pass of the [for] loop inside [while changed]. *)
Fixpoint sweep (q : list (time * Message)) (vc : VectorClock) :
    list Message * list (time * Message) * VectorClock :=
  match q with
  | [] => ([], [], vc)
  | (t, m) :: q =>
    if is_ready vc m then
      let '(d, r, vc') := sweep q (merge vc (vector_clock m)) in
      (m :: d, r, vc')
    else
      let '(d, r, vc') := sweep q vc in
      (d, (t, m) :: r, vc')
  end.

(** [while changed]: sweep until a pass releases nothing.  One unit of fuel per
    queued message and one for the last pass are enough ([drain_loop_runs]). *)
Fixpoint drain_loop (fuel : nat) (q : list (time * Message)) (vc : VectorClock) :
    option (list Message * list (time * Message) * VectorClock) :=
  match fuel with
  | O => None
  | S fuel =>
    match sweep q vc with
    | ([], r, vc') => Some ([], r, vc')
    | (d, r, vc') =>
      '(d', r', vc'') ← drain_loop fuel r vc';
      Some (d ++ d', r', vc'')
    end
  end.

(** [HoldBackQueue.drain]: (delivered, queue, clock). *)
Definition drain (now : time) (q : HoldBackQueue) (vc : VectorClock) :
    list Message * HoldBackQueue * VectorClock :=
  let '(d1, w, vc1) := flush_expired now (timeout q) (queue q) vc in
  match drain_loop (S (length w)) w vc1 with
  | Some (d2, r, vc2) => (d1 ++ d2, mkQueue r (timeout q), vc2)
  | None => (d1, mkQueue w (timeout q), vc1)
  end.

(** ** Clocks as functions: two dictionaries that read the same are equivalent *)

Definition clock_equiv (a b : VectorClock) : Prop := ∀ k, vget a k = vget b k.

#[export] Instance clock_equiv_equivalence : Equivalence clock_equiv.
Proof.
  split; [by intros a k|by intros a b H k; rewrite (H k)|].
  intros a b c H1 H2 k. by rewrite (H1 k).
Qed.

#[export] Instance vget_proper : Proper (clock_equiv ==> eq ==> eq) vget.
Proof. intros a b H k ? <-. apply H. Qed.

(** Every count is non-negative: what [increment] and merging received clocks keep. *)
Definition clock_nonneg (c : VectorClock) : Prop := ∀ k, 0 ≤ vget c k.

Lemma vget_insert c k n k' : vget (<[k := n]> c) k' = if decide (k = k') then n else vget c k'.
Proof. unfold vget. rewrite lookup_insert. by case_decide. Qed.

Lemma vget_empty k : vget ∅ k = 0.
Proof. done. Qed.

Lemma vget_increment c a k :
  vget (increment a c) k = if decide (a = k) then vget c k + 1 else vget c k.
Proof. unfold increment. rewrite vget_insert. by case_decide; subst. Qed.

Lemma foldl_merge_entry (l : list (string * Z)) (c : VectorClock) k : NoDup l.*1 →
  vget (foldl merge_entry c l) k =
    match dget k l with Some n => Z.max (vget c k) n | None => vget c k end.
Proof.
  revert c; induction l as [|[k0 n0] l IH]; intros c; cbn; [done|].
  intros [Hn Hl]%NoDup_cons. rewrite IH by done. unfold merge_entry; cbn. rewrite vget_insert.
  destruct (decide (k = k0)) as [->|Hne].
  - rewrite decide_True by done.
    assert (dget k0 l = None) as ->; [|done]. by apply dget_None.
  - by rewrite decide_False by done.
Qed.

Lemma dget_map_to_list (c : VectorClock) k : dget k (map_to_list c) = c !! k.
Proof.
  destruct (c !! k) as [n|] eqn:E.
  - apply elem_dget; [apply NoDup_fst_map_to_list|]. by apply elem_of_map_to_list.
  - apply dget_None. intros ([k' n] & -> & Hin)%list_elem_of_fmap.
    apply elem_of_map_to_list in Hin. cbn in E. congruence.
Qed.

Lemma vget_merge_lookup c o k :
  vget (merge c o) k = match o !! k with Some n => Z.max (vget c k) n | None => vget c k end.
Proof.
  unfold merge. rewrite foldl_merge_entry by apply NoDup_fst_map_to_list.
  by rewrite dget_map_to_list.
Qed.

Lemma vget_merge c o k : clock_nonneg c → vget (merge c o) k = Z.max (vget c k) (vget o k).
Proof.
  intros Hc. rewrite vget_merge_lookup. specialize (Hc k). unfold vget in *.
  destruct (o !! k); cbn; lia.
Qed.

Lemma merge_nonneg c o : clock_nonneg c → clock_nonneg (merge c o).
Proof. intros Hc k. rewrite vget_merge by done. specialize (Hc k). lia. Qed.

Lemma increment_nonneg c a : clock_nonneg c → clock_nonneg (increment a c).
Proof. intros Hc k. rewrite vget_increment. specialize (Hc k). case_decide; lia. Qed.

Lemma empty_nonneg : clock_nonneg ∅.
Proof. done. Qed.

Create HintDb clock discriminated.
#[export] Hint Resolve merge_nonneg increment_nonneg empty_nonneg : clock.

#[export] Instance merge_proper : Proper (clock_equiv ==> eq ==> clock_equiv) merge.
Proof. intros a b H o ? <- k. rewrite !vget_merge_lookup. by rewrite (H k). Qed.

#[export] Instance is_ready_proper : Proper (clock_equiv ==> eq ==> eq) is_ready.
Proof.
  intros a b H m ? <-. unfold is_ready. case_decide; [done|]. rewrite (H (sender m)).
  destruct (negb _); [done|]. apply eq_true_iff_eq. rewrite !forallb_forall.
  split; intros Hf kv Hin; specialize (Hf kv Hin); [rewrite <- (H kv.1)|rewrite (H kv.1)]; done.
Qed.

(** [merge] computes the join of two clocks: entry by entry the larger count,
    hence an upper bound of both and below every other upper bound. *)
Theorem merge_is_join c o :
  clock_nonneg c → clock_nonneg o →
  (∀ k, vget (merge c o) k = Z.max (vget c k) (vget o k)) ∧
  clock_equiv (merge c o) (merge o c) ∧
  (∀ u, (∀ k, vget c k ≤ vget u k) → (∀ k, vget o k ≤ vget u k) →
        ∀ k, vget (merge c o) k ≤ vget u k).
Proof.
  intros Hc Ho. split_and!.
  - intros k. by apply vget_merge.
  - intros k. rewrite !vget_merge by done. lia.
  - intros u H1 H2 k. rewrite vget_merge by done. specialize (H1 k). specialize (H2 k). lia.
Qed.

Definition nonnegb (c : VectorClock) : bool := forallb (λ kv, 0 <=? kv.2) (map_to_list c).

Lemma nonnegb_spec c : nonnegb c = true → clock_nonneg c.
Proof.
  intros H k. unfold vget, nonnegb in *. destruct (c !! k) as [n|] eqn:E; cbn; [|done].
  rewrite forallb_forall in H. apply elem_of_map_to_list, list_elem_of_In in E.
  apply H in E. cbn in E. lia.
Qed.

Lemma merge_is_join_witness :
  let c : VectorClock := {["a" := 2; "b" := 1]} in
  let o : VectorClock := {["a" := 1; "c" := 5]} in
  vget (merge c o) "c" = 5 ∧ (∀ k, vget (merge c o) k ≤ vget (merge o c) k).
Proof.
  intros c o.
  destruct (merge_is_join c o) as (Hm & Heq & _); [by apply nonnegb_spec|by apply nonnegb_spec|].
  split; [by rewrite Hm|]. intros k. rewrite (Heq k). lia.
Defined.

(** ** Readiness is the causal-broadcast condition *)

(** The condition of [docs/vector_clock.md], section 4: the next message of its
    sender, with every message its sender had seen already delivered here. *)
Definition causally_ready (clock : VectorClock) (msg : Message) : Prop :=
  vget (vector_clock msg) (sender msg) = vget clock (sender msg) + 1 ∧
  ∀ k, k ≠ sender msg → vget (vector_clock msg) k ≤ vget clock k.

Lemma is_ready_spec c m : clock_nonneg c →
  is_ready c m = true ↔ vector_clock m = ∅ ∨ causally_ready c m.
Proof.
  intros Hc. unfold is_ready, causally_ready.
  destruct (decide (vector_clock m = ∅)) as [E|E]; [by split; [left|]|].
  destruct (Z.eqb_spec (vget (vector_clock m) (sender m)) (vget c (sender m) + 1)) as [Hs|Hs]; cbn.
  2:{ split; [done|]. intros [?|[? _]]; done. }
  rewrite forallb_forall. split.
  - intros Hf. right. split; [done|]. intros k Hk.
    unfold vget at 1. destruct (vector_clock m !! k) as [n|] eqn:En; cbn; [|apply Hc].
    apply elem_of_map_to_list, list_elem_of_In in En. apply Hf in En. cbn in En.
    rewrite bool_decide_eq_false_2 in En by done. cbn in En. lia.
  - intros [?|[_ Hk]] [k n] Hin; [done|]. cbn.
    destruct (bool_decide (k = sender m)) eqn:Ek; [done|]. apply bool_decide_eq_false in Ek. cbn.
    apply list_elem_of_In, elem_of_map_to_list in Hin. specialize (Hk k Ek).
    unfold vget at 1 in Hk. rewrite Hin in Hk. cbn in Hk. lia.
Qed.

(** After a ready message is delivered the clock has advanced by exactly one entry:
    its sender's. *)
Lemma merge_ready c m k : clock_nonneg c → causally_ready c m →
  vget (merge c (vector_clock m)) k =
    if decide (k = sender m) then vget c k + 1 else vget c k.
Proof.
  intros Hc [Hs Hk]. rewrite vget_merge by done.
  case_decide as E; [subst; lia|]. specialize (Hk k E). lia.
Qed.

(** ** The hold-back queue *)

(** [delivers c ms c']: starting from clock [c] the messages [ms] can be delivered
    one after the other, each of them ready when its turn comes, ending at [c']. *)
Inductive delivers : VectorClock → list Message → VectorClock → Prop :=
  | delivers_nil c : delivers c [] c
  | delivers_cons c m ms c' :
      is_ready c m = true → delivers (merge c (vector_clock m)) ms c' →
      delivers c (m :: ms) c'.

(** The meaning of [while changed: ...], as a big-step relation. *)
Inductive while_changed : list (time * Message) → VectorClock →
    list Message → list (time * Message) → VectorClock → Prop :=
  | while_stop q c r c' : sweep q c = ([], r, c') → while_changed q c [] r c'
  | while_again q c m d r c1 d' r' c' :
      sweep q c = (m :: d, r, c1) → while_changed r c1 d' r' c' →
      while_changed q c (m :: d ++ d') r' c'.

#[export] Hint Constructors delivers while_changed : clock.

Lemma delivers_app c ms c1 ms' c' :
  delivers c ms c1 → delivers c1 ms' c' → delivers c (ms ++ ms') c'.
Proof. induction 1; cbn; eauto with clock. Qed.

Lemma delivers_clock c ms c' :
  delivers c ms c' → c' = foldl merge c (vector_clock <$> ms).
Proof. induction 1; done. Qed.

Lemma delivers_nonneg c ms c' : delivers c ms c' → clock_nonneg c → clock_nonneg c'.
Proof. induction 1; eauto with clock. Qed.

Lemma sweep_delivers q c d r c' : sweep q c = (d, r, c') → delivers c d c'.
Proof.
  revert c d r c'; induction q as [|[t m] q IH]; intros c d r c'; cbn.
  - intros [= <- <- <-]. constructor.
  - destruct (is_ready c m) eqn:E.
    + destruct (sweep q _) as [[d1 r1] c1] eqn:Es. intros [= <- <- <-]. eauto with clock.
    + destruct (sweep q _) as [[d1 r1] c1] eqn:Es. intros [= <- <- <-]. eauto.
Qed.

Lemma sweep_perm q c d r c' : sweep q c = (d, r, c') → q.*2 ≡ₚ d ++ r.*2.
Proof.
  revert c d r c'; induction q as [|[t m] q IH]; intros c d r c'; cbn.
  - by intros [= <- <- <-].
  - destruct (is_ready c m).
    + destruct (sweep q _) as [[d1 r1] c1] eqn:Es. intros [= <- <- <-]. cbn.
      f_equiv. eauto.
    + destruct (sweep q _) as [[d1 r1] c1] eqn:Es. intros [= <- <- <-]. cbn.
      rewrite <- Permutation_middle. f_equiv. eauto.
Qed.

Lemma sweep_sublist q c d r c' : sweep q c = (d, r, c') → r `sublist_of` q.
Proof.
  revert c d r c'; induction q as [|[t m] q IH]; intros c d r c'; cbn.
  - by intros [= <- <- <-].
  - destruct (is_ready c m); destruct (sweep q _) as [[d1 r1] c1] eqn:Es; intros [= <- <- <-].
    + apply sublist_cons. eauto.
    + apply sublist_skip. eauto.
Qed.

(** A pass that releases nothing leaves nothing ready. *)
Lemma sweep_nil q c r c' : sweep q c = ([], r, c') →
  r = q ∧ c' = c ∧ Forall (λ tm, is_ready c tm.2 = false) q.
Proof.
  revert c r c'; induction q as [|[t m] q IH]; intros c r c'; cbn.
  - intros [= <- <-]. done.
  - destruct (is_ready c m) eqn:E; destruct (sweep q _) as [[d1 r1] c1] eqn:Es; [done|].
    intros [= -> <- <-]. apply IH in Es as (-> & -> & H). by split_and!; [..|constructor].
Qed.

Lemma drain_loop_runs fuel q c : (length q < fuel)%nat →
  ∃ d r c', drain_loop fuel q c = Some (d, r, c') ∧ while_changed q c d r c'.
Proof.
  revert q c; induction fuel as [|fuel IH]; intros q c Hf; [lia|]. cbn.
  destruct (sweep q c) as [[d r] c1] eqn:Es. destruct d as [|m d].
  - eexists _, _, _. split; [done|]. by constructor.
  - pose proof (sweep_perm _ _ _ _ _ Es) as Hp.
    apply Permutation_length in Hp. cbn in Hp. rewrite length_app, !length_fmap in Hp.
    destruct (IH r c1) as (d' & r' & c' & -> & Hw); [lia|]. cbn.
    eexists _, _, _. split; [done|]. eauto with clock.
Qed.

Lemma while_changed_spec q c d r c' : while_changed q c d r c' →
  delivers c d c' ∧ q.*2 ≡ₚ d ++ r.*2 ∧ r `sublist_of` q ∧
  Forall (λ tm, is_ready c' tm.2 = false) r.
Proof.
  induction 1 as [q c r c' Hs|q c m d r c1 d' r' c' Hs Hw (Hd & Hp & Hsub & Hr)].
  - destruct (sweep_nil _ _ _ _ Hs) as (-> & -> & Hf). split_and!; [constructor|done|done|done].
  - pose proof (sweep_delivers _ _ _ _ _ Hs) as H1. pose proof (sweep_perm _ _ _ _ _ Hs) as H2.
    pose proof (sweep_sublist _ _ _ _ _ Hs).
    split_and!; [|cbn; rewrite H2, Hp; cbn; by rewrite <- app_assoc|by etrans|done].
    change (m :: d ++ d') with ((m :: d) ++ d'). by eapply delivers_app.
Qed.

(** What the time-out flush releases: the expired messages, in queue order, with
    their clocks merged. *)
Definition expired (now limit : time) (tm : time * Message) : bool := limit <? now - tm.1.

Lemma flush_expired_spec now limit q c :
  flush_expired now limit q c =
    ((List.filter (expired now limit) q).*2,
     List.filter (λ tm, negb (expired now limit tm)) q,
     foldl merge c (vector_clock <$> (List.filter (expired now limit) q).*2)).
Proof.
  revert c; induction q as [|[t m] q IH]; intros c; [done|].
  cbn [flush_expired List.filter]. change (expired now limit (t, m)) with (limit <? now - t).
  destruct (limit <? now - t); rewrite IH; done.
Qed.

(** The contract of [HoldBackQueue.drain]. *)
Record drained (now : time) (q : HoldBackQueue) (c : VectorClock)
    (d : list Message) (q' : HoldBackQueue) (c' : VectorClock) : Prop := {
  drained_order : ∃ late ready c1,
    d = late ++ ready ∧
    late = (List.filter (expired now (timeout q)) (queue q)).*2 ∧
    c1 = foldl merge c (vector_clock <$> late) ∧
    delivers c1 ready c';
  drained_conserves : (queue q).*2 ≡ₚ d ++ (queue q').*2;
  drained_keeps_order : queue q' `sublist_of` queue q;
  drained_complete : Forall (λ tm, is_ready c' tm.2 = false ∧ expired now (timeout q) tm = false) (queue q');
  drained_timeout : timeout q' = timeout q;
}.

Lemma filter_negb_perm {A} (f : A → bool) (l : list A) :
  l ≡ₚ List.filter f l ++ List.filter (λ x, negb (f x)) l.
Proof.
  induction l as [|x l IH]; [done|]. cbn. destruct (f x); cbn.
  - by f_equiv.
  - rewrite <- Permutation_middle. by f_equiv.
Qed.

Lemma drain_drained now q c d q' c' : drain now q c = (d, q', c') → drained now q c d q' c'.
Proof.
  cbv beta delta [drain]. rewrite flush_expired_spec.
  set (late := List.filter (expired now (timeout q)) (queue q)).
  set (wait := List.filter (λ tm, negb (expired now (timeout q) tm)) (queue q)).
  set (c1 := foldl merge c _). intros Hd.
  destruct (drain_loop_runs (S (length wait)) wait c1) as (d2 & r & c2 & Hl & Hw); [lia|].
  rewrite Hl in Hd. injection Hd as <- <- <-.
  apply while_changed_spec in Hw as (Hdel & Hperm & Hsub & Hready). split; cbn.
  - by exists late.*2, d2, c1.
  - rewrite <- app_assoc, <- Hperm, <- fmap_app. apply fmap_Permutation, filter_negb_perm.
  - etrans; [done|]. apply list_filter_sub.
  - rewrite Forall_forall in Hready |- *. intros tm Htm. split; [by apply Hready|].
    assert (tm ∈ wait) as Hin by by eapply elem_of_sublist.
    apply list_elem_of_In, filter_In in Hin as [_ Hn]. by apply negb_true_iff in Hn.
  - done.
Qed.

(** C34: [drain] always returns, and what it returns is right: the messages past the
    time-out first, then a cascade in which every message was causally ready at the
    moment it was released; no message is lost or duplicated, the queue keeps its
    order, and no message left behind is ready or past the time-out. *)
Theorem drain_correct now q c :
  ∃ d q' c', drain now q c = (d, q', c') ∧ drained now q c d q' c'.
Proof.
  destruct (drain now q c) as [[d q'] c'] eqn:E. eexists _, _, _. split; [done|].
  by apply drain_drained.
Qed.
