(* ===== verification/BroadcastNode.v ===== *)
(** * Message distribution ([distribution/broadcast_node.py])

    One node: its state is a record, each coroutine a definition in the state and
    exception monad.  The event loop is a sequence of events; a coroutine runs
    without interruption between its awaits, so an awaited send is a task of its own
    ([tasks], [flushes]) that a later event performs.  What peers reply is an argument
    of the event ([attempt_result]). *)

From stdpp Require Import prelude gmap strings.
From S2P Require Import Prelude PyDict PyStr Json Message Security PeerRegistry VectorClock.

Local Open Scope string_scope.
Local Open Scope list_scope.

Definition ACK_TIMEOUT : time := seconds 2.
Definition MAX_RETRIES : nat := 3.
Definition RETRY_BACKOFF : time := 500000.

(** What one connection attempt yields: no connection, a frame sent but nothing
    heard before [ACK_TIMEOUT], or a frame sent and a reply. *)
Inductive attempt_result :=
  | Unreachable
  | NoReply
  | Reply (raw : string).

Section Node.
Context `{Crypto} `{PeerRegistry}.

(** The constructor's arguments and the hooks set before [start].
    [security] tells whether the [security] package could be imported; [on_message]
    gives, for a message, whether the callback returns or raises. *)
Record Config := mkConfig {
  host : string;
  port : Z;
  enforce_signatures : bool;
  security : bool;
  on_message : option (Message → result unit);
  pre_verify_hook : option (Message → M registry unit);
}.

Definition address (c : Config) : string := addr (host c) (port c).

(** A send the event loop has been asked to perform. *)
Record SendTask := mkTask { to_host : string; to_port : Z; task_msg : Message }.

(** The node's attributes.  [inbox] holds the verified and acknowledged messages whose
    [_receive] task has not run; [flushes] the retry queues being flushed.  [delivered]
    records the calls of [on_message] and [wire] the chat frames put on a connection,
    oldest first. *)
Record Node := mkNode {
  seen : gset string;
  retry_queue : pydict string (list Message);
  vc : VectorClock;
  hold_back : HoldBackQueue;
  keys : KeyState;
  peer_registry : registry;
  inbox : list Message;
  tasks : list SendTask;
  flushes : list (string * Z * list Message);
  delivered : list Message;
  wire : list (string * Z * Message);
}.

Definition set_seen x (n : Node) : Node :=
  mkNode x (retry_queue n) (vc n) (hold_back n) (keys n) (peer_registry n) (inbox n) (tasks n)
    (flushes n) (delivered n) (wire n).
Definition set_retry x (n : Node) : Node :=
  mkNode (seen n) x (vc n) (hold_back n) (keys n) (peer_registry n) (inbox n) (tasks n)
    (flushes n) (delivered n) (wire n).
Definition set_causal v q (n : Node) : Node :=
  mkNode (seen n) (retry_queue n) v q (keys n) (peer_registry n) (inbox n) (tasks n)
    (flushes n) (delivered n) (wire n).
Definition set_keys x (n : Node) : Node :=
  mkNode (seen n) (retry_queue n) (vc n) (hold_back n) x (peer_registry n) (inbox n) (tasks n)
    (flushes n) (delivered n) (wire n).
Definition set_registry x (n : Node) : Node :=
  mkNode (seen n) (retry_queue n) (vc n) (hold_back n) (keys n) x (inbox n) (tasks n)
    (flushes n) (delivered n) (wire n).
Definition set_inbox x (n : Node) : Node :=
  mkNode (seen n) (retry_queue n) (vc n) (hold_back n) (keys n) (peer_registry n) x (tasks n)
    (flushes n) (delivered n) (wire n).
Definition set_tasks x (n : Node) : Node :=
  mkNode (seen n) (retry_queue n) (vc n) (hold_back n) (keys n) (peer_registry n) (inbox n) x
    (flushes n) (delivered n) (wire n).
Definition set_flushes x (n : Node) : Node :=
  mkNode (seen n) (retry_queue n) (vc n) (hold_back n) (keys n) (peer_registry n) (inbox n)
    (tasks n) x (delivered n) (wire n).
Definition set_delivered x (n : Node) : Node :=
  mkNode (seen n) (retry_queue n) (vc n) (hold_back n) (keys n) (peer_registry n) (inbox n)
    (tasks n) (flushes n) x (wire n).
Definition add_wire f (n : Node) : Node :=
  mkNode (seen n) (retry_queue n) (vc n) (hold_back n) (keys n) (peer_registry n) (inbox n)
    (tasks n) (flushes n) (delivered n) (wire n ++ [f]).

Definition init_node (ks : KeyState) (r : registry) : Node :=
  mkNode ∅ [] ∅ new_queue ks r [] [] [] [] [].

Variable cfg : Config.

(** An action of the registry, or of the security module, run inside the node. *)
Definition on_registry {A} (m : M registry A) : M Node A := λ n,
  let '(r, reg) := m (peer_registry n) in (r, set_registry reg n).
Definition on_keys {A} (m : M KeyState A) : M Node A := λ n,
  let '(r, ks) := m (keys n) in (r, set_keys ks n).

(** ** Helpers *)

Definition deduplicate (msg_id : string) : M Node bool :=
  n ← get;
  if decide (msg_id ∈ seen n) then mret false
  else modify (set_seen ({[msg_id]} ∪ seen n));; mret true.

Definition _decrypt_into (ks : KeyState) (m : Message) : Message :=
  if negb (security cfg) then m
  else if negb (is_encrypted_content (content m)) then m
  else match get_private_key_pem ks with
       | None => m
       | Some pem =>
         if decide (pem = "") then m
         else match decrypt_payload m (address cfg) pem with
              | Ok m' => m'
              | Raise _ => with_content "[encrypted]" m
              end
       end.

Definition _message_for_ui (ks : KeyState) (m : Message) : Message := _decrypt_into ks m.

(** [if self.on_message: self.on_message(msg)] *)
Definition call_on_message (m : Message) : M Node unit :=
  match on_message cfg with
  | None => mret ()
  | Some f => modify (λ n, set_delivered (delivered n ++ [m]) n);; lift (f m)
  end.

(** The delivery loop of [_receive] and [_apply_vc_sync]. *)
Definition deliver_for_ui (ms : list Message) : M Node unit :=
  forM ms (λ m, n ← get; call_on_message (_message_for_ui (keys n) m)).

(** [self._hold_back.drain(self._vc)] *)
Definition drain_hold_back (now : time) : M Node (list Message) :=
  n ← get;
  let '(ds, q, c) := drain now (hold_back n) (vc n) in
  modify (set_causal c q);; mret ds.

Definition _peers_excluding (sender_addr : string) (now : time) : M Node (list (string * Z)) :=
  peers ← on_registry (get_peers now);
  mret (List.filter (λ hp, negb (bool_decide
    (addr hp.1 hp.2 = sender_addr ∨ addr hp.1 hp.2 = address cfg))) peers).

(** The PEM the registry holds for a peer; [None] when it has none or no
    [get_pub_key]. *)
Definition _get_peer_pubkey (h : string) (p : Z) (r : registry) : option string :=
  match get_pub_key with
  | Some f => let k := f r h p in if decide (k = "") then None else Some k
  | None => None
  end.

Definition _register_peer_key (h : string) (p : Z) : M Node unit :=
  if negb (security cfg) then mret ()
  else n ← get;
       match _get_peer_pubkey h p (peer_registry n) with
       | Some k => try_except (on_keys (register_public_key (addr h p) k)) (λ _, mret ())
       | None => mret ()
       end.

Definition _has_any_peer_key (now : time) : M Node bool :=
  match get_pub_key with
  | None => mret false
  | Some f =>
    try_except (peers ← on_registry (get_peers now);
                n ← get;
                mret (existsb (λ hp, negb (bool_decide (f (peer_registry n) hp.1 hp.2 = ""))) peers))
      (λ _, mret false)
  end.

(** ** Incoming frames *)

Definition run_pre_verify_hook (m : Message) : M Node unit :=
  match pre_verify_hook cfg with
  | None => mret ()
  | Some h => try_except (on_registry (h m)) (λ _, mret ())
  end.

Definition _verify_incoming (now : time) (m : Message) : M Node bool :=
  if negb (security cfg) then mret (negb (enforce_signatures cfg))
  else
    any_key ← (if enforce_signatures cfg then mret true else _has_any_peer_key now);
    if negb any_key then mret true
    else if decide (signature m = "") then mret false
    else match parse_host_port (sender m) with
         | Raise _ => mret false
         | Ok (h, p) =>
           match get_pub_key with
           | None => mret false
           | Some f =>
             run_pre_verify_hook m;;
             n ← get;
             if decide (f (peer_registry n) h p = "") then mret false
             else _register_peer_key h p;;
                  n ← get;
                  lift (verify m (keys n))
           end
         end.

(** [_forward]: one send task per target. *)
Definition _forward (m : Message) (now : time) : M Node unit :=
  targets ← _peers_excluding (sender m) now;
  modify (λ n, set_tasks (tasks n ++ ((λ hp, mkTask hp.1 hp.2 m) <$> targets)) n).

(** The last part of [_receive]: peer-specific ciphertext is not relayed. *)
Definition relay (now : time) (m : Message) : M Node unit :=
  if (0 <? ttl m)%Z then
    if security cfg && is_encrypted_content (content m) then mret ()
    else _forward (with_ttl (ttl m - 1) m) now
  else mret ().

(** A ready message is merged and may release others; the rest wait. *)
Definition hold_or_release (now : time) (m : Message) : M Node (list Message) :=
  n ← get;
  if is_ready (vc n) m then
    modify (set_causal (merge (vc n) (vector_clock m)) (hold_back n));;
    ds ← drain_hold_back now; mret (m :: ds)
  else
    modify (set_causal (vc n) (add now m (hold_back n)));;
    drain_hold_back now.

Definition _receive (now : time) (m : Message) : M Node bool :=
  fresh ← deduplicate (id m);
  if negb fresh then mret false
  else
    to_deliver ← hold_or_release now m;
    deliver_for_ui to_deliver;;
    relay now m;;
    mret true.

(** [data.get("type") == t] *)
Definition has_type (t : string) (d : pydict string json) : bool :=
  match dget "type" d with Some (JStr x) => bool_decide (x = t) | _ => false end.

(** One iteration of [async for raw in websocket]: the frames written back.  An
    exception ends the connection, not the node. *)
Definition _handle_frame (fresh_id : string) (now : time) (raw : string) : M Node (list string) :=
  data ← lift (of_option JSONDecodeError (loads raw));
  match data with
  | JObj d =>
    if has_type "hello" d then
      mret [dumps default_style (JObj [("type", JStr "hello_ack"); ("sender", JStr (address cfg))])]
    else if has_type "hello_ack" d then mret []
    else
      m ← lift (from_json fresh_id now raw);
      ok ← _verify_incoming now m;
      if negb ok then
        mret [dumps default_style (JObj [("nack", JStr (id m));
                ("reason", JStr "signature_failed_or_missing_key")])]
      else
        modify (λ n, set_inbox (inbox n ++ [m]) n);;
        mret [dumps default_style (JObj [("ack", JStr (id m))])]
  | _ => lift (Raise AttributeError)
  end.

(** ** Outgoing messages *)

Definition _sign_outgoing (salt : string) (m : Message) (ks : KeyState) : option Message :=
  if negb (security cfg) then (if enforce_signatures cfg then None else Some m)
  else match sign salt m ks with
       | Ok m' => Some m'
       | Raise _ => if enforce_signatures cfg then None else Some m
       end.

Definition _encrypt_for_peer (coins : Coins) (m : Message) (h : string) (p : Z) (r : registry) : Message :=
  if negb (security cfg) then m
  else if is_encrypted_content (content m) then m
  else match _get_peer_pubkey h p r with
       | None => m
       | Some pub =>
         match encrypt_payload (λ _, coins) m [(addr h p, pub)] with
         | Ok m' => m'
         | Raise _ => m
         end
       end.

Definition _prepare_outgoing_for_peer (coins : Coins) (salt : string) (template : Message)
    (h : string) (p : Z) (n : Node) : option Message :=
  _sign_outgoing salt (_encrypt_for_peer coins template h p (peer_registry n)) (keys n).

Definition _do_broadcast (salt : string) (now : time) (m : Message) : M Node bool :=
  fresh ← deduplicate (id m);
  if negb fresh then mret false
  else
    n ← get;
    match _sign_outgoing salt m (keys n) with
    | None => mret false
    | Some m =>
      let c := increment (address cfg) (vc n) in
      modify (set_causal c (hold_back n));;
      let m := with_clock (snapshot c) m in
      call_on_message m;;
      (if (0 <? ttl m)%Z then _forward m now else mret ());;
      mret true
    end.

(** [json.loads(ack_raw).get("ack") == message.id] *)
Definition acknowledges (raw : string) (msg_id : string) : bool :=
  match loads raw with
  | Some j => match jget "ack" j with Some (JStr a) => bool_decide (a = msg_id) | _ => false end
  | None => false
  end.

(** The attempt loop: [k] attempts left, the next one numbered [i]. *)
Fixpoint send_attempts (replies : nat → attempt_result) (h : string) (p : Z) (w : Message)
    (msg_id : string) (i k : nat) : M Node bool :=
  match k with
  | O => mret false
  | S k =>
    let again := send_attempts replies h p w msg_id (S i) k in
    match replies i with
    | Unreachable => again
    | NoReply => modify (add_wire (h, p, w));; again
    | Reply raw =>
      modify (add_wire (h, p, w));;
      if acknowledges raw msg_id then mret true else again
    end
  end.

Definition queue_for (peer_key : string) (n : Node) : list Message :=
  default [] (dget peer_key (retry_queue n)).

Definition _send_with_retry (coins : Coins) (salt : string) (replies : nat → attempt_result)
    (h : string) (p : Z) (m : Message) (queue_on_fail : bool) : M Node bool :=
  n ← get;
  match _prepare_outgoing_for_peer coins salt m h p n with
  | None => mret false
  | Some w =>
    ok ← send_attempts replies h p w (id m) 1 MAX_RETRIES;
    if (ok : bool) then mret true
    else
      (if queue_on_fail then
         modify (λ n, set_retry (dset (addr h p) (queue_for (addr h p) n ++ [m]) (retry_queue n)) n)
       else mret ());;
      mret false
  end.

(** [_send_to_peer]: the chunk travels with no hops left. *)
Definition _send_to_peer (coins : Coins) (salt : string) (replies : nat → attempt_result)
    (h : string) (p : Z) (m : Message) : M Node bool :=
  _send_with_retry coins salt replies h p (with_ttl 0 m) true.

(** ** Retry queues, handshakes and background tasks *)

(** The start of [_flush_peer_retry_queue]: the queue is taken out at once. *)
Definition flush_start (h : string) (p : Z) : M Node unit :=
  n ← get;
  let messages := queue_for (addr h p) n in
  modify (set_retry (ddel (addr h p) (retry_queue n)));;
  match messages with
  | [] => mret ()
  | _ => modify (λ n, set_flushes (flushes n ++ [(h, p, messages)]) n)
  end.

(** One turn of its loop, on the flush [(h, p, messages)]: what is left to send. *)
Definition flush_turn (coins : Coins) (salt : string) (replies : nat → attempt_result)
    (h : string) (p : Z) (messages : list Message) : M Node (list Message) :=
  match messages with
  | [] => mret []
  | m :: rest =>
    ok ← _send_with_retry coins salt replies h p m false;
    if (ok : bool) then mret rest
    else modify (λ n, set_retry (dset (addr h p) (messages ++ queue_for (addr h p) n) (retry_queue n)) n);;
         mret []
  end.

(** [_do_handshake] *)
Definition _do_handshake (h : string) (p : Z) (r : attempt_result) : M Node unit :=
  match r with
  | Reply raw =>
    match loads raw with
    | Some (JObj d) => if has_type "hello_ack" d then flush_start h p else mret ()
    | _ => mret ()
    end
  | _ => mret ()
  end.

(** [_send_hello_to_all_peers]: the handshakes to start. *)
Definition _send_hello_to_all_peers (now : time) : M Node (list (string * Z)) :=
  peers ← on_registry (get_peers now);
  forM peers (λ hp, _register_peer_key hp.1 hp.2);;
  mret peers.

(** One round of [_retry_background_task]. *)
Definition retry_round : M Node unit :=
  n ← get;
  let pending := List.filter (λ k, negb (bool_decide (queue_for k n = []))) (dkeys (retry_queue n)) in
  forM pending (λ k, hp ← lift (parse_host_port k); flush_start hp.1 hp.2).

(** One round of [_holdback_drain_task]: the released messages go to [on_message] as
    they are. *)
Definition drain_round (now : time) : M Node unit :=
  n ← get;
  if decide (queue (hold_back n) = []) then mret ()
  else ds ← drain_hold_back now; forM ds call_on_message.

Definition _apply_vc_sync (now : time) (other : VectorClock) : M Node unit :=
  modify (λ n, set_causal (merge (vc n) other) (hold_back n) n);;
  ds ← drain_hold_back now;
  deliver_for_ui ds.

(** ** The event loop *)

Inductive event :=
  | EFrame (fresh_id raw : string)
  | EReceive
  | EBroadcast (salt : string) (m : Message)
  | ESendToPeer (coins : Coins) (salt : string) (replies : nat → attempt_result)
      (h : string) (p : Z) (m : Message)
  | ESync (other : VectorClock)
  | ESend (i : nat) (coins : Coins) (salt : string) (replies : nat → attempt_result)
  | EFlush (i : nat) (coins : Coins) (salt : string) (replies : nat → attempt_result)
  | EHandshake (h : string) (p : Z) (r : attempt_result)
  | EHello
  | ERetryRound
  | EDrainRound
  | ERegistry (f : registry → registry).

(** What the loop runs for an event at a time.  Received messages are processed in the
    order they were acknowledged; pending sends and flushes progress in any order;
    [ERegistry] is a change made by the discovery side. *)
Definition handle (now : time) (e : event) : M Node unit :=
  match e with
  | EFrame fresh_id raw => _handle_frame fresh_id now raw;; mret ()
  | EReceive =>
    n ← get;
    match inbox n with
    | [] => mret ()
    | m :: rest => modify (set_inbox rest);; _receive now m;; mret ()
    end
  | EBroadcast salt m => _do_broadcast salt now m;; mret ()
  | ESendToPeer coins salt replies h p m => _send_to_peer coins salt replies h p m;; mret ()
  | ESync other => _apply_vc_sync now other
  | ESend i coins salt replies =>
    n ← get;
    match tasks n !! i with
    | None => mret ()
    | Some t =>
      modify (set_tasks (delete i (tasks n)));;
      _send_with_retry coins salt replies (to_host t) (to_port t) (task_msg t) true;; mret ()
    end
  | EFlush i coins salt replies =>
    n ← get;
    match flushes n !! i with
    | None => mret ()
    | Some (h, p, messages) =>
      modify (set_flushes (delete i (flushes n)));;
      left ← flush_turn coins salt replies h p messages;
      match left with
      | [] => mret ()
      | _ => modify (λ n, set_flushes (flushes n ++ [(h, p, left)]) n)
      end
    end
  | EHandshake h p r => _do_handshake h p r
  | EHello => _send_hello_to_all_peers now;; mret ()
  | ERetryRound => retry_round
  | EDrainRound => drain_round now
  | ERegistry f => modify (λ n, set_registry (f (peer_registry n)) n)
  end.

(** An exception ends the task it is raised in; the loop goes on with what the task
    left. *)
Definition run (es : list (time * event)) (n : Node) : Node :=
  foldl (λ n te, (handle te.1 te.2 n).2) n es.

End Node.
