(* ===== verification/BroadcastFacts.v ===== *)
(** * Properties of the distribution node

    At-most-once delivery, causal delivery, forwarding, retries and signature
    enforcement, over arbitrary runs of the event loop. *)

From stdpp Require Import prelude gmap strings.
From Stdlib Require Import Ascii.
From S2P Require Import Prelude PyDict PyStr Json Base64 Message Security PeerRegistry VectorClock BroadcastNode.

Local Open Scope list_scope.

Section Facts.
Context `{Crypto} `{PeerRegistry}.
Variable cfg : Config.
Implicit Types (n : Node) (m : Message).

(** ** What most coroutines leave alone *)

(** The part of the state that decides deliveries. *)
Definition core n := (seen n, vc n, hold_back n, delivered n).
Definition same_core (n n' : Node) : Prop := core n' = core n.

#[local] Instance same_core_preorder : PreOrder same_core.
Proof. split; [by intros n|]. unfold same_core. intros a b c H1 H2. congruence. Qed.

Lemma on_registry_core {A} (f : M registry A) : keeps same_core (on_registry f).
Proof. intros n. unfold on_registry. by destruct (f _). Qed.
Lemma on_keys_core {A} (f : M KeyState A) : keeps same_core (on_keys f).
Proof. intros n. unfold on_keys. by destruct (f _). Qed.
#[local] Hint Resolve on_registry_core on_keys_core : keeps.

Lemma register_peer_key_core h p : keeps same_core (_register_peer_key cfg h p).
Proof. unfold _register_peer_key. keeps_tac. Qed.
Lemma has_any_peer_key_core now : keeps same_core (_has_any_peer_key now).
Proof. unfold _has_any_peer_key. keeps_tac. Qed.
Lemma run_hook_core m : keeps same_core (run_pre_verify_hook cfg m).
Proof. unfold run_pre_verify_hook. keeps_tac. Qed.
#[local] Hint Resolve register_peer_key_core has_any_peer_key_core run_hook_core : keeps.

Lemma verify_incoming_core now m : keeps same_core (_verify_incoming cfg now m).
Proof. unfold _verify_incoming. keeps_tac. Qed.
Lemma peers_excluding_core a now : keeps same_core (_peers_excluding cfg a now).
Proof. unfold _peers_excluding. keeps_tac. Qed.
#[local] Hint Resolve verify_incoming_core peers_excluding_core : keeps.

Lemma forward_core m now : keeps same_core (_forward cfg m now).
Proof. unfold _forward. keeps_tac. done. Qed.
Lemma handle_frame_core i now raw : keeps same_core (_handle_frame cfg i now raw).
Proof. unfold _handle_frame. keeps_tac; done. Qed.
Lemma send_attempts_core replies h p w i k j : keeps same_core (send_attempts replies h p w i j k).
Proof.
  revert j. induction k as [|k IH]; intros j; cbn [send_attempts]; keeps_tac; try apply IH; done.
Qed.
#[local] Hint Resolve forward_core handle_frame_core send_attempts_core : keeps.

Lemma send_with_retry_core coins salt replies h p m q :
  keeps same_core (_send_with_retry cfg coins salt replies h p m q).
Proof. unfold _send_with_retry. keeps_tac; done. Qed.
Lemma flush_start_core h p : keeps same_core (flush_start h p).
Proof. unfold flush_start. keeps_tac; done. Qed.
#[local] Hint Resolve send_with_retry_core flush_start_core : keeps.

Lemma flush_turn_core coins salt replies h p ms :
  keeps same_core (flush_turn cfg coins salt replies h p ms).
Proof. unfold flush_turn. keeps_tac; done. Qed.
Lemma handshake_core h p r : keeps same_core (_do_handshake h p r).
Proof. unfold _do_handshake. keeps_tac. Qed.
Lemma hello_core now : keeps same_core (_send_hello_to_all_peers cfg now).
Proof. unfold _send_hello_to_all_peers. keeps_tac. Qed.
Lemma retry_round_core : keeps same_core retry_round.
Proof. unfold retry_round. keeps_tac. Qed.
#[local] Hint Resolve flush_turn_core handshake_core hello_core retry_round_core : keeps.

(** The events that touch no delivery. *)
Definition silent (e : event) : bool :=
  match e with
  | EReceive | EBroadcast _ _ | ESync _ | EDrainRound => false
  | _ => true
  end.

Lemma silent_core now e : silent e = true → keeps same_core (handle cfg now e).
Proof.
  destruct e; try done; intros _; cbn [handle]; unfold _send_to_peer; keeps_tac; done.
Qed.

(** ** Callbacks *)

Lemma call_one m n : call_on_message cfg m n =
  match on_message cfg with
  | None => (Ok (), n)
  | Some f => (f m, set_delivered (delivered n ++ [m]) n)
  end.
Proof. unfold call_on_message. by destruct (on_message cfg). Qed.

Lemma set_delivered_id n : set_delivered (delivered n) n = n.
Proof. by destruct n. Qed.

(** The calls made before the first exception are a prefix of the messages. *)
Lemma call_all_prefix ms n : ∃ k,
  (forM ms (call_on_message cfg) n).2 = set_delivered (delivered n ++ take k ms) n.
Proof.
  revert n; induction ms as [|m ms IH]; intros n.
  { exists 0. by rewrite app_nil_r, set_delivered_id. }
  rewrite forM_cons, call_one. destruct (on_message cfg) as [f|] eqn:Ef.
  - destruct (f m) as [[]|e]; [|by exists 1].
    destruct (IH (set_delivered (delivered n ++ [m]) n)) as [k ->]. exists (S k). cbn.
    by rewrite <- app_assoc.
  - exists 0. rewrite take_0, app_nil_r, set_delivered_id.
    clear IH. induction ms as [|m' ms IHm]; [done|]. by rewrite forM_cons, call_one, Ef.
Qed.

(** The callback is set and never raises. *)
Definition callback_total : Prop := ∃ f, on_message cfg = Some f ∧ ∀ m, f m = Ok ().

Lemma call_all_total ms n : callback_total →
  forM ms (call_on_message cfg) n = (Ok (), set_delivered (delivered n ++ ms) n).
Proof.
  intros (f & Ef & Hf). revert n; induction ms as [|m ms IH]; intros n.
  { by rewrite app_nil_r, set_delivered_id. }
  rewrite forM_cons, call_one, Ef, Hf, IH. cbn. by rewrite <- app_assoc.
Qed.

Lemma deliver_calls ms n :
  deliver_for_ui cfg ms n = forM (_message_for_ui cfg (keys n) <$> ms) (call_on_message cfg) n.
Proof.
  unfold deliver_for_ui. remember (keys n) as ks eqn:Ek. revert n Ek.
  induction ms as [|m ms IH]; intros n Ek; [done|].
  cbn [fmap list_fmap]. rewrite !forM_cons. 
  change ((n ← get; call_on_message cfg (_message_for_ui cfg (keys n) m)) n)
    with (call_on_message cfg (_message_for_ui cfg (keys n) m) n).
  rewrite <- Ek, call_one. destruct (on_message cfg) as [f|]; [|by apply IH].
  destruct (f _) as [[]|e]; [|done]. by apply IH.
Qed.

(** Decryption for display changes the content alone. *)
Lemma decrypt_into_fields ks m : ∃ c, _message_for_ui cfg ks m = with_content c m.
Proof.
  assert (∃ c, m = with_content c m) by (exists (content m); by destruct m).
  unfold _message_for_ui, _decrypt_into. repeat case_match; try done; try by eexists.
  eexists. by eapply decrypt_payload_content.
Qed.

Lemma ui_id ks m : id (_message_for_ui cfg ks m) = id m.
Proof. by destruct (decrypt_into_fields ks m) as [c ->]. Qed.

Abbreviation ids := (fmap (M := list) id).

Lemma ui_ids ks (ms : list Message) : ids (_message_for_ui cfg ks <$> ms) = ids ms.
Proof. induction ms as [|m ms IH]; [done|]. cbn. by rewrite ui_id, IH. Qed.

(** ** Every message is accounted for at most once *)

Lemma drain_run now n : ∃ ds q c,
  drain_hold_back now n = (Ok ds, set_causal c q n) ∧ drained now (hold_back n) (vc n) ds q c.
Proof.
  unfold drain_hold_back. mrun. destruct (drain now (hold_back n) (vc n)) as [[ds q] c] eqn:E.
  exists ds, q, c. split; [done|]. by apply drain_drained.
Qed.

(** Identifiers handed to the callback or waiting in the hold-back queue. *)
Definition accounted n : list string :=
  ids (delivered n) ++ (ids (queue (hold_back n)).*2).

Definition at_most_once_inv n : Prop :=
  NoDup (accounted n) ∧ ∀ i, i ∈ accounted n → i ∈ seen n.

(** A step that adds [new] identifiers at most, all of them just marked as seen. *)
Definition accounts (new : list string) n n' : Prop :=
  accounted n' ⊆+ new ++ accounted n ∧ seen n ⊆ seen n' ∧ ∀ i, i ∈ new → i ∈ seen n' ∧ i ∉ seen n.

Lemma accounts_inv new n n' : NoDup new → accounts new n n' → at_most_once_inv n → at_most_once_inv n'.
Proof.
  intros Hnew (Hsub & Hseen & Hn) [Hnd Hin]. split.
  - eapply submseteq_NoDup; [done|]. apply NoDup_app. split_and!; [done| |done].
    intros i Hi Ha. by apply (Hn i Hi), Hin.
  - intros i Hi. eapply elem_of_submseteq in Hi; [|done]. apply elem_of_app in Hi as [Hi|Hi].
    + by apply Hn.
    + by apply Hseen, Hin.
Qed.

Lemma same_core_accounts n n' : same_core n n' → accounts [] n n'.
Proof.
  unfold same_core, core, accounts, accounted. intros [= -> _ -> ->].
  split_and!; [done|done|]. intros i Hi. by apply not_elem_of_nil in Hi.
Qed.

(** Drained messages move from the queue to the callback. *)
Lemma deliver_accounted now q c ds q' c' ms n ui k :
  drained now q c ds q' c' → ids ui = ids (ms ++ ds) →
  ids (delivered n ++ take k ui) ++ (ids (queue q').*2) ⊆+
    ids ms ++ ids (delivered n) ++ (ids (queue q).*2).
Proof.
  intros Hd Hui. rewrite fmap_app, fmap_take, Hui, (drained_conserves _ _ _ _ _ _ Hd), !fmap_app.
  etrans.
  { apply submseteq_app; [apply submseteq_app; [done|apply sublist_submseteq, sublist_take]|done]. }
  by rewrite <- !app_assoc, (Permutation_app_swap_app (ids (delivered n))).
Qed.

Lemma deduplicate_run i n :
  deduplicate i n = if decide (i ∈ seen n) then (Ok false, n) else (Ok true, set_seen ({[i]} ∪ seen n) n).
Proof. unfold deduplicate. mrun. by destruct (decide (i ∈ seen n)). Qed.
Lemma relay_core now m : keeps same_core (relay cfg now m).
Proof. unfold relay. keeps_tac. Qed.
#[local] Hint Resolve relay_core : keeps.

(** What [_receive] does with a new message: the clock and the queue it drains from,
    what it delivers, the state it reaches. *)
Definition receive_clock m n : VectorClock :=
  if is_ready (vc n) m then merge (vc n) (vector_clock m) else vc n.
Definition receive_queue now m n : HoldBackQueue :=
  if is_ready (vc n) m then hold_back n else add now m (hold_back n).
Definition receive_first m n : list Message := if is_ready (vc n) m then [m] else [].

Lemma hold_or_release_run now m n : ∃ ds q c,
  hold_or_release now m n = (Ok (receive_first m n ++ ds), set_causal c q n) ∧
  drained now (receive_queue now m n) (receive_clock m n) ds q c.
Proof.
  unfold hold_or_release, receive_first, receive_queue, receive_clock.
  rewrite bind_run. cbn [get]. destruct (is_ready (vc n) m); rewrite bind_run; cbn [modify].
  - destruct (drain_run now (set_causal (merge (vc n) (vector_clock m)) (hold_back n) n))
      as (ds & q & c & Hrun & Hd). exists ds, q, c. by rewrite bind_run, Hrun.
  - destruct (drain_run now (set_causal (vc n) (add now m (hold_back n)) n))
      as (ds & q & c & Hrun & Hd). exists ds, q, c. by rewrite Hrun.
Qed.

Lemma receive_fresh now m n : id m ∉ seen n → ∃ ds q c,
  drained now (receive_queue now m n) (receive_clock m n) ds q c ∧
  let n1 := set_causal c q (set_seen ({[id m]} ∪ seen n) n) in
  let ui := _message_for_ui cfg (keys n) <$> (receive_first m n ++ ds) in
  (∃ k, same_core (set_delivered (delivered n ++ take k ui) n1) (_receive cfg now m n).2) ∧
  (callback_total → _receive cfg now m n =
     (relay cfg now m;; mret true) (set_delivered (delivered n ++ ui) n1)).
Proof.
  intros Hf. unfold _receive. rewrite bind_run, deduplicate_run, decide_False by done.
  cbn [negb]. destruct (hold_or_release_run now m (set_seen ({[id m]} ∪ seen n) n))
    as (ds & q & c & Hrun & Hd).
  exists ds, q, c. split; [exact Hd|]. cbv zeta. rewrite bind_run, Hrun.
  set (n1 := set_causal c q _). change (receive_first m _) with (receive_first m n). split.
  - destruct (call_all_prefix (_message_for_ui cfg (keys n) <$> receive_first m n ++ ds) n1) as [k Hk].
    exists k. change (delivered n) with (delivered n1). rewrite <- Hk.
    change (keys n) with (keys n1). rewrite <- deliver_calls.
    apply keeps_tail; [typeclasses eauto|]. intros []. keeps_tac.
  - intros Ht. by rewrite bind_run, deliver_calls, call_all_total.
Qed.

Lemma receive_dup now m n : id m ∈ seen n → _receive cfg now m n = (Ok false, n).
Proof. intros Hs. unfold _receive. by rewrite bind_run, deduplicate_run, decide_True. Qed.
Lemma sign_outgoing_fields salt m ks m' :
  _sign_outgoing cfg salt m ks = Some m' → ∃ s, m' = with_signature s m.
Proof.
  assert (m = with_signature (signature m) m) by by destruct m.
  unfold _sign_outgoing, sign. repeat case_match; intros; simplify_eq; by eexists.
Qed.

(** The part of [_do_broadcast] after the clock is stamped. *)
Definition announce (now : time) m : M Node unit :=
  if (0 <? ttl m)%Z then _forward cfg m now else mret ().

Lemma announce_core now m : keeps same_core (announce now m).
Proof. unfold announce. keeps_tac. Qed.
#[local] Hint Resolve announce_core : keeps.

(** The message as originated: signed, then stamped with the incremented clock. *)
Definition stamped m n : Message := with_clock (increment (address cfg) (vc n)) m.

Lemma broadcast_fresh salt now m n : id m ∉ seen n →
  let n0 := set_seen ({[id m]} ∪ seen n) n in
  match _sign_outgoing cfg salt m (keys n) with
  | None => _do_broadcast cfg salt now m n = (Ok false, n0)
  | Some m1 =>
    let n1 := set_causal (increment (address cfg) (vc n)) (hold_back n) n0 in
    (∃ k, same_core (set_delivered (delivered n ++ take k [stamped m1 n]) n1)
            (_do_broadcast cfg salt now m n).2) ∧
    (callback_total → _do_broadcast cfg salt now m n =
       (announce now (stamped m1 n);; mret true) (set_delivered (delivered n ++ [stamped m1 n]) n1))
  end.
Proof.
  intros Hf n0. unfold _do_broadcast. rewrite bind_run, deduplicate_run, decide_False by done.
  cbn [negb]. rewrite bind_run. cbn [get]. fold n0. change (keys n0) with (keys n).
  destruct (_sign_outgoing _ _ _ _) as [m1|]; [|done].
  rewrite bind_run. cbn [modify]. change (vc n0) with (vc n). change (hold_back n0) with (hold_back n).
  set (n1 := set_causal _ _ n0). change (with_clock _ m1) with (stamped m1 n). split.
  - destruct (call_all_prefix [stamped m1 n] n1) as [k Hk]. exists k.
    change (delivered n) with (delivered n1). rewrite <- Hk. rewrite forM_cons. cbn [forM].
    transitivity (call_on_message cfg (stamped m1 n) n1).2.
    { by destruct (call_on_message cfg (stamped m1 n) n1) as [[[]|] ?]. }
    apply (keeps_tail same_core). intros []. keeps_tac.
  - intros Ht. rewrite bind_run. pose proof (call_all_total [stamped m1 n] n1 Ht) as Hc.
    rewrite forM_cons in Hc. destruct (call_on_message cfg _ n1) as [[[]|] ?]; [|done].
    cbn in Hc. injection Hc as ->. done.
Qed.

Lemma broadcast_dup salt now m n : id m ∈ seen n → _do_broadcast cfg salt now m n = (Ok false, n).
Proof. intros Hs. unfold _do_broadcast. by rewrite bind_run, deduplicate_run, decide_True. Qed.

Lemma sync_run now other n : ∃ ds q c k,
  drained now (hold_back n) (merge (vc n) other) ds q c ∧
  let n1 := set_causal c q n in
  let ui := _message_for_ui cfg (keys n) <$> ds in
  (_apply_vc_sync cfg now other n).2 = set_delivered (delivered n ++ take k ui) n1.
Proof.
  unfold _apply_vc_sync. rewrite bind_run. cbn [modify].
  destruct (drain_run now (set_causal (merge (vc n) other) (hold_back n) n)) as (ds & q & c & Hrun & Hd).
  rewrite bind_run, Hrun, deliver_calls.
  destruct (call_all_prefix (_message_for_ui cfg (keys n) <$> ds) (set_causal c q n)) as [k Hk].
  by exists ds, q, c, k.
Qed.

Lemma drain_round_run now n : ∃ ds q c,
  drained now (hold_back n) (vc n) ds q c ∧
  (drain_round cfg now n).2 = (forM ds (call_on_message cfg) (set_causal c q n)).2.
Proof.
  unfold drain_round. rewrite bind_run. cbn [get].
  destruct (decide (queue (hold_back n) = [])) as [Eq|Eq].
  - destruct (drain now (hold_back n) (vc n)) as [[ds q] c] eqn:E.
    exists ds, q, c. split; [by apply drain_drained|].
    unfold drain in E. rewrite Eq in E. cbn in E. injection E as <- <- <-.
    destruct n as [? ? ? [? ?]]. cbn in *. by subst.
  - destruct (drain_run now n) as (ds & q & c & Hrun & Hd). rewrite bind_run, Hrun.
    by exists ds, q, c.
Qed.

(** ** At most once *)

Lemma core_inv n n' : same_core n n' → at_most_once_inv n → at_most_once_inv n'.
Proof.
  intros Hc. apply (accounts_inv []); [apply NoDup_nil_2|]. by apply same_core_accounts.
Qed.

Lemma receive_inv now m n : at_most_once_inv n → at_most_once_inv (_receive cfg now m n).2.
Proof.
  intros Hinv. destruct (decide (id m ∈ seen n)) as [Hs|Hs]; [by rewrite receive_dup|].
  destruct (receive_fresh now m n Hs) as (ds & q & c & Hd & [k Hk] & _).
  eapply core_inv; [exact Hk|]. refine (accounts_inv [id m] _ _ _ _ Hinv); [apply NoDup_singleton|].
  split_and!; [|cbn; set_solver|cbn; set_solver]. unfold accounted. cbn [delivered hold_back].
  cbn [set_delivered set_causal]. revert Hd. unfold receive_queue, receive_first, receive_clock.
  destruct (is_ready (vc n) m); intros Hd.
  - apply (deliver_accounted _ _ _ _ _ _ [m] _ _ _ Hd). by rewrite ui_ids.
  - etrans; [apply (deliver_accounted _ _ _ _ _ _ [] _ _ _ Hd); by rewrite ui_ids|].
    unfold add. cbn. rewrite !fmap_app. cbn. by rewrite app_assoc, Permutation_app_comm.
Qed.

Lemma broadcast_inv salt now m n : at_most_once_inv n → at_most_once_inv (_do_broadcast cfg salt now m n).2.
Proof.
  intros Hinv. destruct (decide (id m ∈ seen n)) as [Hs|Hs]; [by rewrite broadcast_dup|].
  pose proof (broadcast_fresh salt now m n Hs) as Hb. cbv zeta in Hb.
  destruct (_sign_outgoing cfg salt m (keys n)) as [m1|] eqn:Em.
  - destruct Hb as [[k Hk] _]. eapply core_inv; [exact Hk|].
    refine (accounts_inv [id m] _ _ _ _ Hinv); [apply NoDup_singleton|].
    split_and!; [|cbn; set_solver|cbn; set_solver]. unfold accounted. cbn.
    apply sign_outgoing_fields in Em as [sg ->]. rewrite fmap_app, <- app_assoc.
    rewrite (Permutation_app_swap_app (ids (delivered n))).
    destruct k; cbn; [by apply submseteq_cons|by rewrite take_nil].
  - rewrite Hb. refine (accounts_inv [] _ _ _ _ Hinv); [apply NoDup_nil_2|].
    split_and!; [done|cbn; set_solver|set_solver].
Qed.

Lemma handle_at_most_once now e n : at_most_once_inv n → at_most_once_inv (handle cfg now e n).2.
Proof.
  intros Hinv. destruct (silent e) eqn:Es.
  { by eapply core_inv; [apply silent_core|]. }
  destruct e; try done; cbn [handle].
  - rewrite bind_run. cbn [get]. destruct (inbox n) as [|m rest]; [done|].
    rewrite bind_run. cbn [modify]. eapply core_inv.
    + apply (keeps_tail same_core). intros b. keeps_tac.
    + apply receive_inv. by eapply core_inv.
  - eapply core_inv; [apply (keeps_tail same_core); intros b; keeps_tac|]. by apply broadcast_inv.
  - destruct (sync_run now other n) as (ds & q & c & k & Hd & ->).
    refine (accounts_inv [] _ _ _ _ Hinv); [apply NoDup_nil_2|].
    split_and!; [|cbn; set_solver|set_solver].
    apply (deliver_accounted _ _ _ _ _ _ [] _ _ _ Hd). by rewrite ui_ids.
  - destruct (drain_round_run now n) as (ds & q & c & Hd & ->).
    destruct (call_all_prefix ds (set_causal c q n)) as [k ->].
    change (delivered (set_causal c q n)) with (delivered n). refine (accounts_inv [] _ _ _ _ Hinv); [apply NoDup_nil_2|].
    split_and!; [|cbn; set_solver|set_solver].
    by apply (deliver_accounted _ _ _ _ _ _ [] _ _ _ Hd).
Qed.

Lemma run_inv (P : Node → Prop) : (∀ now e n, P n → P (handle cfg now e n).2) →
  ∀ es n, P n → P (run cfg es n).
Proof. intros Hh es n Hn. unfold run. apply foldl_inv; [done|]. intros [now e] n' _. apply Hh. Qed.

Lemma run_at_most_once es ks r : at_most_once_inv (run cfg es (init_node ks r)).
Proof.
  apply run_inv; [intros; by apply handle_at_most_once|].
  split; [apply NoDup_nil_2|]. intros i Hi. by apply not_elem_of_nil in Hi.
Qed.

(** C2: at-most-once delivery.  However frames, broadcasts, recoveries, time-outs,
    retries and callback exceptions are interleaved, no two calls of [on_message] carry
    the same message identifier, and no identifier already delivered is still waiting
    in the hold-back queue. *)
Theorem at_most_once es ks r :
  let n := run cfg es (init_node ks r) in
  NoDup (id <$> delivered n) ∧ (∀ m, m ∈ (queue (hold_back n)).*2 → id m ∉ id <$> delivered n) ∧
  (∀ m, m ∈ delivered n → id m ∈ seen n).
Proof.
  intros n. destruct (run_at_most_once es ks r) as [Hnd Hseen]. fold n in Hnd, Hseen.
  apply NoDup_app in Hnd as (Hd & Hdisj & _). split_and!; [done| |].
  - intros m Hm Hin. apply (Hdisj _ Hin). by apply list_elem_of_fmap_2.
  - intros m Hm. apply Hseen, elem_of_app. left. by apply list_elem_of_fmap_2.
Qed.

(** ** Causal delivery *)

(** [history a c0 c ms]: node [a] started from the clock [c0], delivered [ms] in this order
    and its clock is now [c]; a received message was ready when its turn came, a message of
    its own carries the clock it incremented. *)
Inductive history (a : string) (c0 : VectorClock) : VectorClock → list Message → Prop :=
  | history_nil : history a c0 c0 []
  | history_receive c ms m :
      history a c0 c ms → is_ready c m = true → history a c0 (merge c (vector_clock m)) (ms ++ [m])
  | history_own c ms m :
      history a c0 c ms → vector_clock m = increment a c → sender m = a →
      history a c0 (increment a c) (ms ++ [m]).

Lemma ui_clock ks m : vector_clock (_message_for_ui cfg ks m) = vector_clock m.
Proof. by destruct (decrypt_into_fields ks m) as [c ->]. Qed.
Lemma ui_ready ks m c : is_ready c (_message_for_ui cfg ks m) = is_ready c m.
Proof. by destruct (decrypt_into_fields ks m) as [? ->]. Qed.

Lemma history_delivers a c0 c ms ds c' ui :
  history a c0 c ms → delivers c ds c' →
  Forall2 (λ m d, vector_clock m = vector_clock d ∧ ∀ c, is_ready c m = is_ready c d) ui ds →
  history a c0 c' (ms ++ ui).
Proof.
  intros Hh Hd. revert ms ui Hh. induction Hd as [c|c d ds c' Hr Hd IH]; intros ms ui Hh Hui.
  - inv Hui. by rewrite app_nil_r.
  - apply Forall2_cons_inv_r in Hui as (u & ui' & [Hv Hrd] & Hui & ->). rewrite <- Hv in *.
    change (u :: ui') with ([u] ++ ui'). rewrite app_assoc.
    apply IH; [|done]. apply history_receive; [done|]. by rewrite Hrd.
Qed.

Lemma ui_twins ks ds : Forall2 (λ m d, vector_clock m = vector_clock d ∧ ∀ c, is_ready c m = is_ready c d)
  (_message_for_ui cfg ks <$> ds) ds.
Proof.
  induction ds as [|d ds IH]; constructor; [|done]. split; [apply ui_clock|intros; apply ui_ready].
Qed.

Lemma twins_refl ds : Forall2 (λ m d, vector_clock m = vector_clock d ∧ ∀ c, is_ready c m = is_ready c d)
  ds ds.
Proof. induction ds; by constructor. Qed.

(** No message has waited past the time-out. *)
Definition on_time (now : time) (q : HoldBackQueue) : bool :=
  forallb (λ tm, negb (expired now (timeout q) tm)) (queue q).

Lemma on_time_drained now q c ds q' c' : on_time now q = true → drained now q c ds q' c' → delivers c ds c'.
Proof.
  intros Hq Hd. destruct (drained_order _ _ _ _ _ _ Hd) as (late & ready & c1 & -> & Hl & Hc1 & Hdel).
  assert (late = []) as Hlate.
  { rewrite Hl, filter_none; [done|]. apply forallb_Forall_true in Hq. eapply Forall_impl; [exact Hq|].
    intros tm Htm. cbn beta in Htm. by zbool. }
  rewrite Hlate in *. cbn in Hc1. by subst c1.
Qed.

(** The node delivered since it had delivered [pre] and had the clock [c0]. *)
Definition causal_since (c0 : VectorClock) (pre : list Message) n : Prop :=
  (∃ ms, delivered n = pre ++ ms ∧ history (address cfg) c0 (vc n) ms) ∧ (0 ≤ timeout (hold_back n))%Z.

Lemma causal_core c0 pre n n' : same_core n n' → causal_since c0 pre n → causal_since c0 pre n'.
Proof. unfold same_core, core, causal_since. by intros [= _ -> -> ->]. Qed.

Lemma causal_delivers c0 pre n n' ds ui : causal_since c0 pre n → delivers (vc n) ds (vc n') →
  Forall2 (λ m d, vector_clock m = vector_clock d ∧ ∀ c, is_ready c m = is_ready c d) ui ds →
  delivered n' = delivered n ++ ui → timeout (hold_back n') = timeout (hold_back n) → causal_since c0 pre n'.
Proof.
  intros [(ms & Hms & Hh) Ht] Hd Hui Hf Et. split; [|by rewrite Et].
  exists (ms ++ ui). split; [by rewrite Hf, Hms, <- app_assoc|]. by eapply history_delivers.
Qed.

Lemma receive_causal c0 pre now m n : callback_total → on_time now (hold_back n) = true →
  causal_since c0 pre n → causal_since c0 pre (_receive cfg now m n).2.
Proof.
  intros Ht Hnow Hinv. destruct (decide (id m ∈ seen n)) as [Hs|Hs]; [by rewrite receive_dup|].
  destruct (receive_fresh now m n Hs) as (ds & q & c & Hd & _ & Hr). rewrite Hr by done.
  eapply causal_core; [apply (keeps_bind same_core); keeps_tac|].
  assert (on_time now (receive_queue now m n) = true) as Hq.
  { unfold receive_queue. destruct (is_ready _ _); [done|]. unfold on_time, add. cbn. rewrite forallb_app. cbn.
    apply andb_true_iff. split; [done|]. unfold expired. cbn. rewrite andb_true_r. apply negb_true_iff, Z.ltb_ge.
    destruct Hinv as [_ ?]. lia. }
  apply (on_time_drained _ _ _ _ _ _ Hq) in Hd as Hdel.
  eapply causal_delivers; [exact Hinv| |apply ui_twins|done|].
  - revert Hdel. unfold receive_clock, receive_first. destruct (is_ready (vc n) m) eqn:E; [|done]. by econstructor.
  - cbn. rewrite (drained_timeout _ _ _ _ _ _ Hd). unfold receive_queue. by destruct (is_ready _ _).
Qed.

Lemma broadcast_causal c0 pre salt now m n : callback_total → sender m = address cfg →
  causal_since c0 pre n → causal_since c0 pre (_do_broadcast cfg salt now m n).2.
Proof.
  intros Ht Hm Hinv. destruct (decide (id m ∈ seen n)) as [Hs|Hs]; [by rewrite broadcast_dup|].
  pose proof (broadcast_fresh salt now m n Hs) as Hb. cbv zeta in Hb.
  destruct (_sign_outgoing cfg salt m (keys n)) as [m1|] eqn:Em; [|by rewrite Hb].
  destruct Hb as [_ ->]; [|done].
  eapply causal_core; [apply (keeps_bind same_core); keeps_tac|]. destruct Hinv as [(ms & Hms & Hh) Hto].
  split; [|done]. cbn. exists (ms ++ [stamped m1 n]). split; [by rewrite Hms, <- app_assoc|].
  apply history_own; [done|done|]. by apply sign_outgoing_fields in Em as [sg ->].
Qed.

(** What the run is assumed to do: the node's own messages carry its address, and no
    recovered clock is merged from outside. *)
Definition live (e : event) : bool :=
  match e with
  | ESync _ => false
  | EBroadcast _ m => bool_decide (sender m = address cfg)
  | _ => true
  end.

Lemma handle_causal c0 pre now e n : callback_total → on_time now (hold_back n) = true → live e = true →
  causal_since c0 pre n → causal_since c0 pre (handle cfg now e n).2.
Proof.
  intros Ht Hnow Hl Hinv. destruct (silent e) eqn:Es.
  { by eapply causal_core; [apply silent_core|]. }
  destruct e; try done; cbn [handle live] in *.
  - rewrite bind_run. cbn [get]. destruct (inbox n) as [|m rest]; [done|].
    rewrite bind_run. cbn [modify]. eapply causal_core.
    + apply (keeps_tail same_core). intros b. keeps_tac.
    + apply receive_causal; [done|done|]. by eapply causal_core.
  - zbool. eapply causal_core; [apply (keeps_tail same_core); intros b; keeps_tac|]. by apply broadcast_causal.
  - destruct (drain_round_run now n) as (ds & q & c & Hd & ->).
    rewrite call_all_total by done.
    eapply causal_delivers; [exact Hinv|exact (on_time_drained _ _ _ _ _ _ Hnow Hd)|apply twins_refl|done|].
    cbn. by rewrite (drained_timeout _ _ _ _ _ _ Hd).
Qed.

(** A run in which, at every event, nothing has been held back past the time-out. *)
Fixpoint prompt (es : list (time * event)) n : bool :=
  match es with
  | [] => true
  | te :: es => on_time te.1 (hold_back n) && live te.2 && prompt es (handle cfg te.1 te.2 n).2
  end.

Lemma run_causal c0 pre es n : callback_total → prompt es n = true →
  causal_since c0 pre n → causal_since c0 pre (run cfg es n).
Proof.
  intros Ht. revert n. induction es as [|[now e] es IH]; intros n; [done|]. cbn [prompt].
  intros Hp Hinv. zbool. apply IH; [done|]. by apply handle_causal.
Qed.

Lemma causal_since_now n : (0 ≤ timeout (hold_back n))%Z → causal_since (vc n) (delivered n) n.
Proof. split; [|done]. exists []. split; [by rewrite app_nil_r|constructor]. Qed.

(** Every reachable state is a state the theorem starts from. *)
Definition sane n : Prop := clock_nonneg (vc n) ∧ (0 ≤ timeout (hold_back n))%Z.

Lemma drained_sane now q c ds q' c' : drained now q c ds q' c' → clock_nonneg c → (0 ≤ timeout q)%Z →
  clock_nonneg c' ∧ (0 ≤ timeout q')%Z.
Proof.
  intros Hd Hc Ht. split; [|by rewrite (drained_timeout _ _ _ _ _ _ Hd)].
  destruct (drained_order _ _ _ _ _ _ Hd) as (late & ready & c1 & _ & _ & -> & Hdel).
  eapply delivers_nonneg; [exact Hdel|]. generalize (vector_clock <$> late). clear -Hc.
  intros l. revert c Hc. induction l as [|o l IH]; intros c Hc; [done|]. by apply IH, merge_nonneg.
Qed.

Lemma sane_core n n' : same_core n n' → sane n → sane n'.
Proof. unfold same_core, core, sane. by intros [= _ -> -> _]. Qed.

Lemma handle_sane now e n : sane n → sane (handle cfg now e n).2.
Proof.
  intros Hn. destruct (silent e) eqn:Es.
  { by eapply sane_core; [apply silent_core|]. }
  destruct e; try done; cbn [handle].
  - rewrite bind_run. cbn [get]. destruct (inbox n) as [|m rest]; [done|].
    rewrite bind_run. cbn [modify]. eapply sane_core.
    { apply (keeps_tail same_core). intros b. keeps_tac. }
    set (n0 := set_inbox rest n). assert (sane n0) as [Hc Ht] by done.
    destruct (decide (id m ∈ seen n0)) as [Hs|Hs]; [by rewrite receive_dup|].
    destruct (receive_fresh now m n0 Hs) as (ds & q & c & Hd & [k Hk] & _).
    eapply sane_core; [exact Hk|]. cbn. eapply drained_sane; [exact Hd|..].
    + unfold receive_clock. destruct (is_ready _ _); [by apply merge_nonneg|done].
    + unfold receive_queue. by destruct (is_ready _ _).
  - eapply sane_core; [apply (keeps_tail same_core); intros b; keeps_tac|].
    destruct (decide (id m ∈ seen n)) as [Hs|Hs]; [by rewrite broadcast_dup|].
    pose proof (broadcast_fresh salt now m n Hs) as Hb. cbv zeta in Hb.
    destruct (_sign_outgoing cfg salt m (keys n)) as [m1|]; [|by rewrite Hb].
    destruct Hb as [[k Hk] _]. eapply sane_core; [exact Hk|]. destruct Hn. split; [by apply increment_nonneg|done].
  - destruct Hn as [Hc Ht]. destruct (sync_run now other n) as (ds & q & c & k & Hd & ->).
    eapply drained_sane; [exact Hd|by apply merge_nonneg|done].
  - destruct Hn as [Hc Ht]. destruct (drain_round_run now n) as (ds & q & c & Hd & ->).
    destruct (call_all_prefix ds (set_causal c q n)) as [k ->]. by eapply drained_sane; [exact Hd|..].
Qed.


(** ** Relaying *)

Definition relay_target (from : string) (hp : string * Z) : bool :=
  negb (bool_decide (addr hp.1 hp.2 = from ∨ addr hp.1 hp.2 = address cfg)).

Lemma forward_run `{!PeerRegistryLaws} m now n : ∃ peers reg,
  get_peers now (peer_registry n) = (Ok peers, reg) ∧
  _forward cfg m now n = (Ok (), set_tasks (tasks n ++ ((λ hp, mkTask hp.1 hp.2 m) <$>
     List.filter (relay_target (sender m)) peers)) (set_registry reg n)).
Proof.
  destruct (get_peers_total now (peer_registry n)) as (peers & reg & Hg). exists peers, reg.
  split; [done|]. unfold _forward, _peers_excluding, on_registry. rewrite !bind_run, Hg. done.
Qed.

(** Every copy of [m] goes to a peer that is neither the sender nor this node. *)
Definition fans_out (m : Message) (ts : list SendTask) : Prop :=
  Forall (λ t, task_msg t = m ∧ addr (to_host t) (to_port t) ≠ sender m ∧
               addr (to_host t) (to_port t) ≠ address cfg) ts.

Lemma forward_fans_out m peers :
  fans_out m ((λ hp, mkTask hp.1 hp.2 m) <$> List.filter (relay_target (sender m)) peers).
Proof.
  apply Forall_fmap, Forall_forall. intros hp Hin. apply list_elem_of_In, filter_In in Hin as [_ Hr].
  unfold relay_target in Hr. apply negb_true_iff, bool_decide_eq_false in Hr. cbn. naive_solver.
Qed.

Lemma relay_run `{!PeerRegistryLaws} now m n : ∃ ts reg,
  relay cfg now m n = (Ok (), set_tasks (tasks n ++ ts) (set_registry reg n)) ∧
  fans_out (with_ttl (ttl m - 1) m) ts ∧
  ((ttl m ≤ 0)%Z ∨ security cfg && is_encrypted_content (content m) = true → ts = []).
Proof.
  unfold relay. destruct (0 <? ttl m)%Z eqn:Et.
  - destruct (security cfg && is_encrypted_content (content m)) eqn:Ee.
    + exists [], (peer_registry n). rewrite app_nil_r. split_and!; [by destruct n|constructor|done].
    + destruct (forward_run (with_ttl (ttl m - 1) m) now n) as (peers & reg & _ & ->).
      eexists _, _. split; [done|]. split; [apply forward_fans_out|]. zbool. intros [?|?]; [lia|done].
  - exists [], (peer_registry n). rewrite app_nil_r. split_and!; [by destruct n|constructor|done].
Qed.


(** A broadcast ticks the node's own clock entry exactly when it happens.  A
    duplicate, or a message that must be signed and cannot be, leaves the clock as it
    was, so receivers see no gap; a broadcast stamps the message with the next tick,
    shows it to the local user and fans it out. *)
Theorem broadcast_ticks `{!PeerRegistryLaws} salt now m n :
  callback_total → ∃ b n', _do_broadcast cfg salt now m n = (Ok b, n') ∧
  if (b : bool) then
    (∀ k, vget (vc n') k = (vget (vc n) k + if decide (k = address cfg) then 1 else 0)%Z) ∧
    (∃ sg ts, let m' := with_clock (vc n') (with_signature sg m) in
      delivered n' = delivered n ++ [m'] ∧ tasks n' = tasks n ++ ts ∧ fans_out m' ts) ∧
    id m ∉ seen n
  else vc n' = vc n ∧ delivered n' = delivered n ∧ tasks n' = tasks n ∧
    (id m ∈ seen n ∨ (enforce_signatures cfg = true ∧ _sign_outgoing cfg salt m (keys n) = None)).
Proof.
  intros Ht. destruct (decide (id m ∈ seen n)) as [Hs|Hs].
  { exists false, n. split; [by apply broadcast_dup|]. naive_solver. }
  pose proof (broadcast_fresh salt now m n Hs) as Hb. cbv zeta in Hb.
  destruct (_sign_outgoing cfg salt m (keys n)) as [m1|] eqn:Em.
  - destruct Hb as [_ Hb]. rewrite (Hb Ht). rewrite bind_run.
    apply sign_outgoing_fields in Em as [sg ->]. set (n1 := set_delivered _ _).
    assert (∃ ts reg, announce now (stamped (with_signature sg m) n) n1 =
      (Ok (), set_tasks (tasks n1 ++ ts) (set_registry reg n1)) ∧
      fans_out (stamped (with_signature sg m) n) ts) as (ts & reg & -> & Hf).
    { unfold announce. destruct (0 <? ttl _)%Z.
      - destruct (forward_run (stamped (with_signature sg m) n) now n1) as (ps & reg & _ & ->).
        eexists _, _. split; [done|]. apply forward_fans_out.
      - exists [], (peer_registry n1). rewrite app_nil_r. split; [done|constructor]. }
    eexists true, _. split; [done|]. cbn. split_and!; [|by exists sg, ts|done].
    intros k. rewrite vget_increment. repeat case_decide; subst; try done; lia.
  - exists false, (set_seen ({[id m]} ∪ seen n) n). split; [done|]. cbn. split_and!; try done.
    right. split; [|done]. unfold _sign_outgoing, sign in Em.
    repeat case_match; congruence.
Qed.

(** ** Sending with acknowledgement and retry *)

Definition acked (replies : nat → attempt_result) (msg_id : string) (i : nat) : bool :=
  match replies i with Reply raw => acknowledges raw msg_id | _ => false end.

Lemma wire_nil n : mkNode (seen n) (retry_queue n) (vc n) (hold_back n) (keys n) (peer_registry n)
  (inbox n) (tasks n) (flushes n) (delivered n) (wire n ++ []) = n.
Proof. rewrite app_nil_r. by destruct n. Qed.

Definition set_wire x (n : Node) : Node :=
  mkNode (seen n) (retry_queue n) (vc n) (hold_back n) (keys n) (peer_registry n) (inbox n)
    (tasks n) (flushes n) (delivered n) x.

(** [k] attempts put at most [k] copies of the frame on the wire, and report success
    exactly when one of them is acknowledged; the copies stop there. *)
Lemma send_attempts_run replies h p w i k j n : ∃ c,
  send_attempts replies h p w i j k n =
    (Ok (existsb (acked replies i) (seq j k)), set_wire (wire n ++ replicate c (h, p, w)) n) ∧ c ≤ k.
Proof.
  revert j n. induction k as [|k IH]; intros j n; cbn [send_attempts seq existsb].
  { exists 0. unfold set_wire. cbn. by rewrite wire_nil. }
  assert (∀ n0, wire n0 = wire n ++ [(h, p, w)] → set_wire (wire n) n0 = set_wire (wire n) n →
    ∃ c, send_attempts replies h p w i (S j) k n0 =
      (Ok (existsb (acked replies i) (seq (S j) k)), set_wire (wire n ++ replicate (S c) (h, p, w)) n)
      ∧ S c ≤ S k) as Hsent.
  { intros n0 Hw Hn0. destruct (IH (S j) n0) as (c & -> & Hc). exists c. split; [|lia].
    f_equal. rewrite Hw, <- app_assoc. unfold set_wire in *. injection Hn0 as -> -> -> -> -> -> -> -> -> ->.
    done. }
  unfold acked at 1. destruct (replies j) as [| |raw].
  - destruct (IH (S j) n) as (c & -> & Hc). exists c. split; [done|lia].
  - rewrite bind_run. cbn [modify]. destruct (Hsent (add_wire (h, p, w) n)) as (c & -> & ?); [done|done|].
    by exists (S c).
  - rewrite bind_run. cbn [modify]. destruct (acknowledges raw i) eqn:Ea.
    + exists 1. split; [done|lia].
    + destruct (Hsent (add_wire (h, p, w) n)) as (c & -> & ?); [done|done|]. by exists (S c).
Qed.

Definition sent_ok (replies : nat → attempt_result) m : bool :=
  existsb (acked replies (id m)) (seq 1 MAX_RETRIES).

Lemma send_with_retry_run coins salt replies h p m q n :
  match _prepare_outgoing_for_peer cfg coins salt m h p n with
  | None => _send_with_retry cfg coins salt replies h p m q n = (Ok false, n)
  | Some w => ∃ c, c ≤ MAX_RETRIES ∧
    let n1 := set_wire (wire n ++ replicate c (h, p, w)) n in
    _send_with_retry cfg coins salt replies h p m q n =
      if sent_ok replies m then (Ok true, n1)
      else (Ok false, if q then set_retry (dset (addr h p) (queue_for (addr h p) n ++ [m]) (retry_queue n)) n1
                      else n1)
  end.
Proof.
  unfold _send_with_retry. rewrite bind_run. cbn [get].
  destruct (_prepare_outgoing_for_peer _ _ _ _ _ _ _) as [w|]; [|done].
  destruct (send_attempts_run replies h p w (id m) MAX_RETRIES 1 n) as (c & Hrun & Hc).
  exists c. split; [done|]. cbv zeta. rewrite bind_run, Hrun. unfold sent_ok.
  by destruct (existsb _ _), q.
Qed.

Lemma queue_for_dset k k' v n :
  queue_for k (set_retry (dset k' v (retry_queue n)) n) = if decide (k = k') then v else queue_for k n.
Proof. unfold queue_for. cbn. rewrite dget_dset. by case_decide. Qed.

Lemma queue_for_wire k x n : queue_for k (set_wire x n) = queue_for k n.
Proof. done. Qed.

(** [_send_with_retry] always returns.  It puts at most three copies of the
    prepared frame on the wire, returns [True] exactly when one of the three attempts is
    acknowledged with the message's identifier, and otherwise, when asked to, appends
    the message at the end of the peer's retry queue; no other queue changes. *)
Theorem send_with_retry_outcome coins salt replies h p m q n w :
  _prepare_outgoing_for_peer cfg coins salt m h p n = Some w → ∃ b n' c,
  _send_with_retry cfg coins salt replies h p m q n = (Ok b, n') ∧
  wire n' = wire n ++ replicate c (h, p, w) ∧ c ≤ 3 ∧
  (b = true ↔ ∃ i, 1 ≤ i ≤ 3 ∧ acked replies (id m) i = true) ∧
  ∀ k, queue_for k n' =
    if negb b && q && bool_decide (k = addr h p) then queue_for k n ++ [m] else queue_for k n.
Proof.
  intros Hw. pose proof (send_with_retry_run coins salt replies h p m q n) as Hr. rewrite Hw in Hr.
  destruct Hr as (c & Hc & Hr). cbv zeta in Hr. rewrite Hr.
  assert (sent_ok replies m = true ↔ ∃ i, 1 ≤ i ≤ 3 ∧ acked replies (id m) i = true) as Hok.
  { unfold sent_ok. rewrite existsb_exists. f_equiv. intros i. rewrite in_seq. unfold MAX_RETRIES.
    split; intros [? ?]; split; (done || lia). }
  destruct (sent_ok replies m); [|destruct q].
  - eexists true, _, c. split_and!; [done|done|exact Hc|exact Hok|done].
  - eexists false, _, c. split_and!; [done|done|exact Hc|exact Hok|].
    intros k. cbn [negb andb]. rewrite (queue_for_dset k _ _ (set_wire _ n)), queue_for_wire.
    destruct (decide (k = addr h p)) as [->|Hk];
      [by rewrite bool_decide_eq_true_2|by rewrite bool_decide_eq_false_2].
  - eexists false, _, c. split_and!; [done|done|exact Hc|exact Hok|done].
Qed.

(** ** The retry queues *)

(** The messages a peer is owed: those of its running flushes, then its queue. *)
Definition owed_by_flush (k : string) (f : string * Z * list Message) : list Message :=
  if decide (addr f.1.1 f.1.2 = k) then f.2 else [].
Lemma owed_eq k h p v : owed_by_flush k (h, p, v) = if decide (k = addr h p) then v else [].
Proof. unfold owed_by_flush. cbn [fst snd]. by repeat case_decide. Qed.
Definition pending (k : string) n : list Message :=
  (flushes n ≫= owed_by_flush k) ++ queue_for k n.

Definition keeps_pending (n n' : Node) : Prop := ∀ k m, m ∈ pending k n → m ∈ pending k n'.

#[local] Instance keeps_pending_preorder : PreOrder keeps_pending.
Proof. split; [by intros n k m|]. intros a b c H1 H2 k m Hm. by apply H2, H1. Qed.

Lemma same_queues_pending n n' :
  retry_queue n' = retry_queue n → flushes n' = flushes n → keeps_pending n n'.
Proof. intros Hr Hf k m. unfold pending, queue_for. by rewrite Hr, Hf. Qed.

#[local] Hint Extern 1 (keeps_pending _ _) => by apply same_queues_pending : keeps.

Lemma on_registry_pending {A} (f : M registry A) : keeps keeps_pending (on_registry f).
Proof. intros n. unfold on_registry. destruct (f _). by apply same_queues_pending. Qed.
Lemma on_keys_pending {A} (f : M KeyState A) : keeps keeps_pending (on_keys f).
Proof. intros n. unfold on_keys. destruct (f _). by apply same_queues_pending. Qed.
#[local] Hint Resolve on_registry_pending on_keys_pending : keeps.

Ltac pending_tac := keeps_tac; try (by apply same_queues_pending).

Lemma register_peer_key_pending h p : keeps keeps_pending (_register_peer_key cfg h p).
Proof. unfold _register_peer_key. pending_tac. Qed.
Lemma verify_incoming_pending now m : keeps keeps_pending (_verify_incoming cfg now m).
Proof.
  unfold _verify_incoming, _has_any_peer_key, run_pre_verify_hook, _register_peer_key. pending_tac.
Qed.
#[local] Hint Resolve register_peer_key_pending verify_incoming_pending : keeps.

Lemma handle_frame_pending i now raw : keeps keeps_pending (_handle_frame cfg i now raw).
Proof. unfold _handle_frame. pending_tac. Qed.
Lemma forward_pending m now : keeps keeps_pending (_forward cfg m now).
Proof. unfold _forward, _peers_excluding. pending_tac. Qed.
Lemma deliver_pending ms : keeps keeps_pending (forM ms (call_on_message cfg)).
Proof. unfold call_on_message. pending_tac. Qed.
Lemma deliver_ui_pending ms : keeps keeps_pending (deliver_for_ui cfg ms).
Proof. intros n. rewrite deliver_calls. apply deliver_pending. Qed.
Lemma drain_pending now : keeps keeps_pending (drain_hold_back now).
Proof. unfold drain_hold_back. pending_tac. Qed.
#[local] Hint Resolve handle_frame_pending forward_pending deliver_pending deliver_ui_pending
  drain_pending : keeps.

Lemma call_pending m : keeps keeps_pending (call_on_message cfg m).
Proof. unfold call_on_message. pending_tac. Qed.
#[local] Hint Resolve call_pending : keeps.

Lemma receive_pending now m : keeps keeps_pending (_receive cfg now m).
Proof. unfold _receive, deduplicate, hold_or_release, relay. pending_tac. Qed.
Lemma broadcast_pending salt now m : keeps keeps_pending (_do_broadcast cfg salt now m).
Proof. unfold _do_broadcast, deduplicate. pending_tac. Qed.

Lemma pending_queue k n v : keeps_pending n (set_retry (dset k (v ++ queue_for k n) (retry_queue n)) n).
Proof.
  intros k' m. unfold pending. rewrite queue_for_dset. cbn. rewrite !elem_of_app.
  case_decide; subst; [|done]. rewrite elem_of_app. naive_solver.
Qed.
Lemma pending_append k n m0 : keeps_pending n (set_retry (dset k (queue_for k n ++ [m0]) (retry_queue n)) n).
Proof.
  intros k' m. unfold pending. rewrite queue_for_dset. cbn. rewrite !elem_of_app.
  case_decide; subst; [|done]. rewrite elem_of_app. naive_solver.
Qed.

Lemma send_with_retry_pending coins salt replies h p m q :
  keeps keeps_pending (_send_with_retry cfg coins salt replies h p m q).
Proof.
  intros n. pose proof (send_with_retry_run coins salt replies h p m q n) as Hr.
  destruct (_prepare_outgoing_for_peer _ _ _ _ _ _ _); [|by rewrite Hr].
  destruct Hr as (c & _ & ->). destruct (sent_ok _ _); [by apply same_queues_pending|].
  destruct q; [|by apply same_queues_pending].
  exact (pending_append (addr h p) (set_wire _ n) m).
Qed.

Lemma flush_start_run h p n : flush_start h p n =
  let n1 := set_retry (ddel (addr h p) (retry_queue n)) n in
  match queue_for (addr h p) n with
  | [] => (Ok (), n1)
  | ms => (Ok (), set_flushes (flushes n ++ [(h, p, ms)]) n1)
  end.
Proof.
  unfold flush_start. rewrite bind_run. cbn [get]. rewrite bind_run. cbn [modify].
  by destruct (queue_for (addr h p) n).
Qed.

Lemma flush_start_pending h p : keeps keeps_pending (flush_start h p).
Proof.
  intros n k m. rewrite flush_start_run. cbv zeta.
  assert (m ∈ (flushes n ≫= owed_by_flush k) ++ queue_for k n →
    m ∈ (flushes n ≫= owed_by_flush k) ++ owed_by_flush k (h, p, queue_for (addr h p) n) ++
      queue_for k (set_retry (ddel (addr h p) (retry_queue n)) n)) as Hmove.
  { rewrite owed_eq. unfold queue_for at 3. cbn [retry_queue set_retry].
    rewrite dget_ddel, !elem_of_app. destruct (decide (k = addr h p)) as [->|Hk]; tauto. }
  unfold pending. intros Hm%Hmove. rewrite owed_eq in Hm.
  destruct (queue_for (addr h p) n) as [|m0 ms]; cbn [snd flushes set_retry set_flushes].
  - by destruct (decide _).
  - rewrite bind_app, <- app_assoc. cbn [mbind list_bind]. by rewrite owed_eq, app_nil_r.
Qed.
#[local] Hint Resolve receive_pending broadcast_pending send_with_retry_pending flush_start_pending : keeps.

Definition is_flush (e : event) : bool := match e with EFlush _ _ _ _ => true | _ => false end.

Lemma handle_pending now e : is_flush e = false → keeps keeps_pending (handle cfg now e).
Proof.
  destruct e; try done; intros _; cbn [handle];
    unfold _send_to_peer, _apply_vc_sync, _do_handshake, _send_hello_to_all_peers, retry_round, drain_round;
    pending_tac.
Qed.

(** A turn of a flush: the head is acknowledged and dropped, or everything goes back to
    the front of the peer's queue. *)
Lemma flush_turn_run coins salt replies h p m rest n : ∃ n' left,
  flush_turn cfg coins salt replies h p (m :: rest) n = (Ok left, n') ∧ flushes n' = flushes n ∧
  ((sent_ok replies m = true ∧ left = rest ∧ retry_queue n' = retry_queue n) ∨
   (left = [] ∧ ∀ k, queue_for k n' =
      if decide (k = addr h p) then m :: rest ++ queue_for k n else queue_for k n)).
Proof.
  unfold flush_turn. pose proof (send_with_retry_run coins salt replies h p m false n) as Hr.
  rewrite bind_run.
  assert (∀ n1, retry_queue n1 = retry_queue n → ∀ k,
    queue_for k (set_retry (dset (addr h p) ((m :: rest) ++ queue_for (addr h p) n1) (retry_queue n1)) n1) =
      if decide (k = addr h p) then m :: rest ++ queue_for k n else queue_for k n) as Hq.
  { intros n1 Hn1 k. rewrite queue_for_dset. unfold queue_for. rewrite Hn1. by case_decide; subst. }
  destruct (_prepare_outgoing_for_peer _ _ _ _ _ _ _) as [w|].
  - destruct Hr as (c & _ & Hr). cbv zeta in Hr. rewrite Hr. destruct (sent_ok replies m) eqn:Es.
    + eexists _, rest. split_and!; [done|done|]. by left.
    + eexists _, []. split_and!; [done|done|]. right. split; [done|]. by apply Hq.
  - rewrite Hr. eexists _, []. split_and!; [done|done|]. right. split; [done|]. by apply Hq.
Qed.

Lemma elem_of_owed i f k n m : flushes n !! i = Some f →
  m ∈ (flushes n ≫= owed_by_flush k) ↔
  m ∈ owed_by_flush k f ∨ m ∈ (delete i (flushes n) ≫= owed_by_flush k).
Proof.
  intros Hi. rewrite (delete_Permutation _ _ _ Hi) at 1. cbn [mbind list_bind]. by rewrite elem_of_app.
Qed.

(** C14: nothing owed to an unreachable peer is lost.  A message queued for a peer, or
    being flushed to it, stays owed through any event, a failed flush included; it
    leaves only when a flush event sends it and hears its acknowledgement. *)
Theorem owed_until_acked now e n k m :
  m ∈ pending k n →
  m ∈ pending k (handle cfg now e n).2 ∨
  ∃ i coins salt replies h p rest, e = EFlush i coins salt replies ∧
    flushes n !! i = Some (h, p, m :: rest) ∧ addr h p = k ∧ sent_ok replies m = true.
Proof.
  intros Hm. destruct (is_flush e) eqn:Ef; [|left; by apply handle_pending].
  destruct e as [| | | | | |i coins salt replies| | | | |]; try done. cbn [handle].
  rewrite bind_run. cbn [get]. destruct (flushes n !! i) as [[[h p] ms]|] eqn:Ei; [|by left].
  rewrite bind_run. cbn [modify]. set (n1 := set_flushes _ n).
  unfold pending in Hm. rewrite elem_of_app, (elem_of_owed _ _ _ _ _ Ei), owed_eq in Hm.
  destruct ms as [|m0 rest].
  { left. unfold pending. rewrite elem_of_app. cbn. destruct (decide (k = addr h p)); set_solver. }
  rewrite bind_run. destruct (flush_turn_run coins salt replies h p m0 rest n1)
    as (n' & left & -> & Hf & [(Hs & -> & Hr)|[-> Hq]]).
  - destruct (decide (k = addr h p ∧ m = m0)) as [[-> ->]|Hne].
    { right. by eexists i, coins, salt, replies, h, p, rest. }
    left. assert (m ∈ owed_by_flush k (h, p, rest) ∨ m ∈ (flushes n' ≫= owed_by_flush k) ∨
      m ∈ queue_for k n') as Hm'.
    { rewrite owed_eq, Hf. unfold queue_for in *. rewrite Hr. cbn.
      destruct (decide (k = addr h p)); [|tauto]. rewrite elem_of_cons in Hm. naive_solver. }
    unfold pending. destruct rest as [|m1 rest]; cbn [modify mret M_ret snd].
    + rewrite owed_eq in Hm'. rewrite elem_of_app. destruct (decide _); set_solver.
    + cbn [flushes set_flushes]. rewrite bind_app, !elem_of_app. cbn [mbind list_bind].
      rewrite app_nil_r. change (queue_for k (set_flushes _ n')) with (queue_for k n'). tauto.
  - left. unfold pending. cbn [mret M_ret snd]. rewrite elem_of_app, Hf, (Hq k).
    change (queue_for k n1) with (queue_for k n).
    change (flushes n1) with (delete i (flushes n)).
    destruct (decide (k = addr h p)); [|set_solver].
    change (m0 :: rest ++ queue_for k n) with ((m0 :: rest) ++ queue_for k n). rewrite elem_of_app. tauto.
Qed.

(** ** Signature enforcement *)

(** The registry has a key for the sender, the message carries a signature and it
    verifies; under the canonical spelling of the address, with that very key. *)
Definition authenticated m n : Prop := ∃ f h p,
  get_pub_key = Some f ∧ parse_host_port (sender m) = Ok (h, p) ∧
  f (peer_registry n) h p ≠ ""%string ∧ signature m ≠ ""%string ∧ verify m (keys n) = Ok true ∧
  ∀ pk, addr h p = sender m → load_pem_public_key (f (peer_registry n) h p) = Ok pk →
    ∃ sg, b64decode_strict (signature m) = Some sg ∧ pss_verify pk sg (_canonical_payload m) = Ok ().

Lemma register_peer_key_run h p n f : security cfg = true → get_pub_key = Some f →
  f (peer_registry n) h p ≠ ""%string → ∃ ks,
  _register_peer_key cfg h p n = (Ok (), set_keys ks n) ∧
  ∀ pk, load_pem_public_key (f (peer_registry n) h p) = Ok pk → public_keys ks !! addr h p = Some pk.
Proof.
  intros Hsec Hf Hne. unfold _register_peer_key. rewrite Hsec. cbn [negb]. rewrite bind_run. cbn [get].
  unfold _get_peer_pubkey. rewrite Hf, decide_False by done.
  unfold try_except, on_keys, register_public_key. rewrite bind_run. cbn [lift].
  destruct (load_pem_public_key _) as [pk|e].
  - eexists. split; [done|]. intros pk' [= ->]. cbn. by rewrite lookup_insert_eq.
  - exists (keys n). by destruct n.
Qed.

Lemma verify_true_inv m ks pk : verify m ks = Ok true → public_keys ks !! sender m = Some pk →
  ∃ sg, b64decode_strict (signature m) = Some sg ∧ pss_verify pk sg (_canonical_payload m) = Ok ().
Proof.
  unfold verify. intros Hv Hpk. rewrite Hpk in Hv. case_decide; [done|].
  destruct (b64decode_strict _) as [sg|]; [|done]. exists sg. split; [done|].
  destruct (pss_verify _ _ _) as [[]|e]; [done|]. by destruct (verify_catches e).
Qed.

Lemma verify_incoming_sound now m n n' :
  security cfg = true → enforce_signatures cfg = true →
  _verify_incoming cfg now m n = (Ok true, n') → authenticated m n'.
Proof.
  intros Hsec Henf. unfold _verify_incoming. rewrite Hsec, Henf. cbn [negb]. rewrite bind_run.
  cbn [mret M_ret negb]. destruct (decide (signature m = ""%string)) as [|Hsig]; [done|].
  destruct (parse_host_port (sender m)) as [[h p]|] eqn:Ep; [|done].
  destruct get_pub_key as [f|] eqn:Ef; [|done].
  rewrite bind_run. destruct (run_pre_verify_hook cfg m n) as [[[]|] n1]; [|done].
  rewrite bind_run. cbn [get]. destruct (decide (f (peer_registry n1) h p = ""%string)) as [|Hk]; [done|].
  rewrite bind_run. destruct (register_peer_key_run h p n1 f Hsec Ef Hk) as (ks & -> & Hreg).
  rewrite bind_run. cbn [get lift keys set_keys]. intros [= Hv <-].
  exists f, h, p. cbn [keys peer_registry set_keys]. split_and!; try done. intros pk Ha Hl. rewrite <- Ha in *.
  eapply verify_true_inv; [done|]. rewrite <- Ha. by apply Hreg.
Qed.

(** C18: with signatures enforced, a frame puts a message in the node's hands only if it
    is authenticated: a key is registered for the sender's address, the message is
    signed, and the signature verifies over its stable fields with that key.  Everything
    else is answered with a negative acknowledgement or closes the connection. *)
Theorem accepted_is_authenticated fresh_id now raw n m :
  security cfg = true → enforce_signatures cfg = true →
  let n' := (_handle_frame cfg fresh_id now raw n).2 in
  m ∈ inbox n' → m ∈ inbox n ∨ authenticated m n'.
Proof.
  intros Hsec Henf n'. unfold n', _handle_frame. rewrite bind_run. cbn [lift].
  destruct (of_option _ _) as [j|]; [|by left]. destruct j; try (by left).
  destruct (has_type "hello" d); [by left|]. destruct (has_type "hello_ack" d); [by left|].
  rewrite bind_run. cbn [lift]. destruct (from_json _ _ _) as [m1|]; [|by left].
  rewrite bind_run.
  assert (keeps (λ n n', inbox n' = inbox n) (_verify_incoming cfg now m1)) as Hin.
  { assert (PreOrder (λ n n', inbox n' = inbox n)) by (split; [done|intros a b c; congruence]).
    assert (∀ A (g : M registry A), keeps (λ n n', inbox n' = inbox n) (on_registry g)).
    { intros A g n0. unfold on_registry. by destruct (g _). }
    assert (∀ A (g : M KeyState A), keeps (λ n n', inbox n' = inbox n) (on_keys g)).
    { intros A g n0. unfold on_keys. by destruct (g _). }
    unfold _verify_incoming, _has_any_peer_key, run_pre_verify_hook, _register_peer_key. keeps_tac. }
  specialize (Hin n). destruct (_verify_incoming cfg now m1 n) as [[[]|] n1] eqn:Ev; cbn in Hin.
  - apply verify_incoming_sound in Ev; [|done|done]. cbn [negb]. rewrite bind_run.
    cbn [modify mret M_ret snd inbox set_inbox]. rewrite Hin, elem_of_app.
    intros [?|Hm%list_elem_of_singleton]; [by left|]. right. by subst.
  - cbn [negb mret M_ret snd]. rewrite Hin. by left.
  - cbn [snd]. rewrite Hin. by left.
Qed.

End Facts.

(** ** Concrete runs

    Bob's node, with Alice as its only peer.  Keys and registry are small instances. *)
Module Demo.
Import Toy InMemoryRegistry.
Local Open Scope string_scope.
Local Open Scope list_scope.

Definition bob : Config := mkConfig "10.0.0.2" 8000 false true (Some (λ _, Ok ())) None.
Definition strict_bob : Config := mkConfig "10.0.0.2" 8000 true true (Some (λ _, Ok ())) None.
Definition peers : registry := [("10.0.0.1", 8000%Z, String "p"%char (String "a"%char ""))].
Definition bob_state : KeyState := mkKeys (Some "b"%char) ∅.
Definition start : Node := init_node bob_state peers.

Definition from_alice (i : string) (tick : Z) : Message :=
  mkMessage "hello" "10.0.0.1:8000" i 1000000 "" 10 {["10.0.0.1:8000" := tick]}.
Definition signed (m : Message) : Message :=
  match sign "" m (mkKeys (Some "a"%char) ∅) with Ok m => m | Raise _ => m end.
Definition from_bob : Message := new_message "hi" "10.0.0.2:8000" "b1" 2000000.

(** Alice's second message arrives first; Bob answers in between. *)
Definition trace : list (time * event) :=
  [(0, EFrame "x" (to_json (signed (from_alice "m2" 2))));
   (0, EReceive); (1000, EBroadcast "" from_bob);
   (2000, EFrame "x" (to_json (signed (from_alice "m1" 1)))); (3000, EReceive);
   (4000, EFrame "x" (to_json (signed (from_alice "m2" 2)))); (5000, EReceive)]%Z.

Lemma bob_total : callback_total bob.
Proof. by exists (λ _, Ok ()). Qed.



Lemma broadcast_ticks_witness :
  ∃ b n', _do_broadcast bob "" 0 from_bob start = (Ok b, n') ∧ b = true ∧ vget (vc n') "10.0.0.2:8000" = 1%Z.
Proof.
  destruct (broadcast_ticks bob "" 0 from_bob start bob_total) as (b & n' & H1 & H2).
  exists b, n'. split; [exact H1|]. assert (b = true) as ->.
  { assert ((_do_broadcast bob "" 0 from_bob start).1 = Ok true) as E by by vm_compute.
    rewrite H1 in E. by injection E. }
  split; [reflexivity|]. destruct H2 as (H2 & _). rewrite H2. by vm_compute.
Defined.

(** Three unanswered attempts: the message is queued. *)
Lemma send_with_retry_outcome_witness :
  ∃ b n' c, _send_with_retry bob (toy_coins "") "" (λ _, NoReply) "10.0.0.1" 8000 from_bob true start = (Ok b, n') ∧
    (c ≤ 3)%nat ∧ wire n' = replicate c ("10.0.0.1", 8000%Z, default from_bob
      (_prepare_outgoing_for_peer bob (toy_coins "") "" from_bob "10.0.0.1" 8000 start)).
Proof.
  edestruct (send_with_retry_outcome bob (toy_coins "") "" (λ _, NoReply) "10.0.0.1" 8000 from_bob true start)
    as (b & n' & c & H1 & H2 & H3 & _).
  - vm_compute. reflexivity.
  - exists b, n', c. split_and!; [exact H1|exact H3|]. rewrite H2. by vm_compute.
Defined.

Definition owing : Node :=
  set_retry [("10.0.0.1:8000", [from_bob])] start.

Lemma owed_until_acked_witness :
  from_bob ∈ pending "10.0.0.1:8000" (handle bob 0 ERetryRound owing).2.
Proof.
  destruct (owed_until_acked bob 0 ERetryRound owing "10.0.0.1:8000" from_bob) as [Hp|He]; [|done|].
  - vm_compute. constructor.
  - destruct He as (i & coins & salt & replies & h & p & rest & He & _). discriminate He.
Defined.

Lemma accepted_is_authenticated_witness :
  let n' := (_handle_frame strict_bob "x" 0 (to_json (signed (from_alice "m1" 1))) start).2 in
  authenticated (signed (from_alice "m1" 1)) n'.
Proof.
  destruct (accepted_is_authenticated strict_bob "x" 0 (to_json (signed (from_alice "m1" 1))) start
    (signed (from_alice "m1" 1))) as [Hin|Ha]; [done|done| | |exact Ha].
  - vm_compute. constructor.
  - by apply not_elem_of_nil in Hin.
Defined.

End Demo.
