(* ===== verification/NodeLifecycle.v ===== *)
(** * Starting and stopping a broadcast node ([distribution/broadcast_node.py])

    [start] launches a thread whose event loop serves until [stop]; the public calls are
    scheduled on that loop.  What is in flight when the loop ends never runs, and the two
    periodic tasks end for good when a round raises.  [start] is modelled on a node that is
    not running, which is how it is called. *)

From stdpp Require Import prelude gmap strings.
From Stdlib Require Import Ascii.
From S2P Require Import Prelude PyDict PyStr Message Security PeerRegistry VectorClock BroadcastNode BroadcastFacts.

Local Open Scope string_scope.
Local Open Scope list_scope.

(** What the thread does: there is none, it has not reached [_serve], it serves. *)
Inductive phase := Idle | Starting | Serving.
#[export] Instance phase_eq_dec : EqDecision phase.
Proof. solve_decision. Defined.

Section Lifecycle.
Context `{Crypto} `{PeerRegistry}.
Variable cfg : Config.
Variable websockets : bool.

(** [calls] are the coroutines scheduled on the loop that have not begun. *)
Record Process := mkProcess {
  node : Node;
  loop : bool;
  stop_event : bool;
  thread : phase;
  calls : list event;
  draining : bool;
  retrying : bool;
}.

Definition new_process (ks : KeyState) (r : registry) : Process :=
  mkProcess (init_node ks r) false false Idle [] false false.
Definition on_loop (m : M Node unit) (p : Process) : result unit * Process :=
  let '(r, n) := m (node p) in
  (r, mkProcess n (loop p) (stop_event p) (thread p) (calls p) (draining p) (retrying p)).

Definition start : M Process unit := λ p,
  if negb websockets then (Raise RuntimeError, p)
  else (Ok (), mkProcess (node p) true (stop_event p) Starting [] false false).

(** The thread gets to [_serve]: the stop event is made and the periodic tasks start. *)
Definition _serve (p : Process) : Process :=
  match thread p with
  | Starting => mkProcess (node p) (loop p) true Serving (calls p) true true
  | _ => p
  end.

(** [broadcast], [send_to_peer] and [sync_vector_clock]. *)
Definition schedule (e : event) (p : Process) : Process :=
  if loop p then mkProcess (node p) true (stop_event p) (thread p) (calls p ++ [e]) (draining p) (retrying p) else p.

(** The loop begins what was scheduled first. *)
Definition begin_call (now : time) (p : Process) : Process :=
  match thread p, calls p with
  | Serving, e :: es =>
    (on_loop (handle cfg now e) (mkProcess (node p) (loop p) (stop_event p) Serving es (draining p) (retrying p))).2
  | _, _ => p
  end.

(** What the loop does of its own accord, a frame included.  A round of a periodic task
    that raises is its last, and so is one after which the stop event is not there to be
    asked. *)
Definition own_event (e : event) : bool :=
  match e with EBroadcast _ _ | ESendToPeer _ _ _ _ _ _ | ESync _ | ERegistry _ => false | _ => true end.
Definition loop_event (now : time) (e : event) (p : Process) : Process :=
  match thread p, e with
  | Serving, EDrainRound =>
    if draining p then let '(r, p) := on_loop (handle cfg now e) p in
      mkProcess (node p) (loop p) (stop_event p) Serving (calls p) (is_Ok r && stop_event p) (retrying p)
    else p
  | Serving, ERetryRound =>
    if retrying p then let '(r, p) := on_loop (handle cfg now e) p in
      mkProcess (node p) (loop p) (stop_event p) Serving (calls p) (draining p) (is_Ok r && stop_event p)
    else p
  | Serving, _ => if own_event e then (on_loop (handle cfg now e) p).2 else p
  | _, _ => p
  end.

(** What the loop had in flight is gone with it. *)
Definition halted (n : Node) : Node := set_inbox [] (set_tasks [] (set_flushes [] n)).

(** [stop] waits up to five seconds for the thread: without a stop event nothing tells it to
    end, and it gets to [_serve] meanwhile. *)
Definition stop (p : Process) : Process :=
  if loop p && stop_event p then mkProcess (halted (node p)) false false Idle [] false false
  else let p := _serve p in mkProcess (node p) false false (thread p) (calls p) (draining p) (retrying p).

(** ** Histories of a node *)

Inductive action :=
  | Start
  | Serve
  | Call (e : event)
  | Begin
  | Turn (e : event)
  | Change (f : registry → registry)
  | Stop.

Definition perform (now : time) (a : action) (p : Process) : Process :=
  match a with
  | Start => (start p).2
  | Serve => _serve p
  | Call e => schedule e p
  | Begin => begin_call now p
  | Turn e => loop_event now e p
  | Change f => (on_loop (handle cfg now (ERegistry f)) p).2
  | Stop => stop p
  end.

Definition live_through (acts : list (time * action)) (p : Process) : Process :=
  foldl (λ p ta, perform ta.1 ta.2 p) p acts.

(** [start] is called on a node that is not running. *)
Definition proper (a : action) (p : Process) : bool :=
  match a with Start => bool_decide (thread p = Idle) | _ => true end.

(** The event the node handles in an action, if any. *)
Definition handled (a : action) (p : Process) : option event :=
  match a, thread p with
  | Begin, Serving => head (calls p)
  | Turn EDrainRound, Serving => if draining p then Some EDrainRound else None
  | Turn ERetryRound, Serving => if retrying p then Some ERetryRound else None
  | Turn e, Serving => if own_event e then Some e else None
  | Change f, _ => Some (ERegistry f)
  | _, _ => None
  end.

(** Whether [stop] ends the loop. *)
Definition halts (a : action) (p : Process) : bool :=
  match a with Stop => loop p && stop_event p | _ => false end.

(** An action does to the node what the event loop does, or halts it. *)
Lemma act_node now a p : node (perform now a p) =
  match handled a p with
  | Some e => (handle cfg now e (node p)).2
  | None => if halts a p then halted (node p) else node p
  end.
Proof.
  destruct a as [| |e| |e|f|]; cbn [perform handled halts].
  - unfold start. by destruct websockets, (thread p).
  - unfold _serve. by destruct (thread p).
  - unfold schedule. by destruct (loop p), (thread p).
  - unfold begin_call, on_loop. destruct (thread p), (calls p) as [|e es]; try done. cbn. by destruct (handle _ _ _ _).
  - unfold loop_event, on_loop. destruct (thread p); [by destruct e..|].
    destruct e; cbn [own_event]; try done; try (by destruct (handle _ _ _ _));
      [destruct (retrying p)|destruct (draining p)]; try done; by destruct (handle _ _ _ _).
  - unfold on_loop. by destruct (handle _ _ _ _), (thread p).
  - unfold stop, _serve. by destruct (loop p && stop_event p), (thread p).
Qed.

(** ** What starting and stopping cannot break *)

Lemma halted_core (n : Node) : same_core n (halted n).
Proof. done. Qed.

(** Whatever holds of every handled event and looks at deliveries only. *)
Lemma act_keeps (P : Node → Prop) now a p : (∀ n n', same_core n n' → P n → P n') →
  (∀ e, handled a p = Some e → P (node p) → P (handle cfg now e (node p)).2) → P (node p) → P (node (perform now a p)).
Proof.
  intros Hcore He Hp. rewrite act_node. destruct (handled a p) as [e|]; [by apply He|].
  destruct (halts a p); [|done]. exact (Hcore _ _ (halted_core (node p)) Hp).
Qed.

(** At every event that is handled, nothing is held back past the time-out. *)
Fixpoint in_time (acts : list (time * action)) (p : Process) : bool :=
  match acts with
  | [] => true
  | (now, a) :: acts =>
    match handled a p with Some e => on_time now (hold_back (node p)) && live cfg e | None => true end &&
    in_time acts (perform now a p)
  end.

Lemma live_through_at_most_once acts p : at_most_once_inv (node p) → at_most_once_inv (node (live_through acts p)).
Proof.
  intros Hp. unfold live_through. apply (foldl_inv (λ p, at_most_once_inv (node p))); [done|].
  intros [now a] q _ Hq. apply act_keeps; [apply core_inv|intros e _; apply handle_at_most_once|done].
Qed.

Lemma live_through_causal c0 pre acts p : callback_total cfg → in_time acts p = true →
  causal_since cfg c0 pre (node p) → causal_since cfg c0 pre (node (live_through acts p)).
Proof.
  intros Ht. revert p. induction acts as [|[now a] acts IH]; intros p; [done|]. cbn [in_time].
  intros Hp Hinv. zbool. apply IH; [done|]. apply act_keeps; [apply causal_core| |done].
  intros e He. cbn [fst snd] in *. destruct (handled a p) as [e'|]; [|done]. injection He as ->. zbool. by apply handle_causal.
Qed.


(** ** What [stop] ends *)

(** While the loop is the node's own, there is a thread, and the stop event is there from
    the moment it serves. *)
Definition wired (p : Process) : Prop := loop p = true → thread p ≠ Idle ∧ (stop_event p = true ↔ thread p = Serving).

Fixpoint all_proper (acts : list (time * action)) (p : Process) : bool :=
  match acts with [] => true | (now, a) :: acts => proper a p && all_proper acts (perform now a p) end.

(** An action other than the three that concern the thread leaves its state alone. *)
Lemma act_thread now a p : match a with Start | Serve | Stop => True | _ =>
  thread (perform now a p) = thread p ∧ loop (perform now a p) = loop p ∧ stop_event (perform now a p) = stop_event p end.
Proof.
  destruct a as [| |e| |e|f|]; try done; cbn [perform].
  - unfold schedule. by destruct (loop p) eqn:E.
  - unfold begin_call, on_loop. destruct (thread p) eqn:E, (calls p); try done. cbn. by destruct (handle _ _ _ _).
  - unfold loop_event, on_loop. destruct (thread p) eqn:E; [by destruct e..|].
    destruct e; cbn [own_event]; try done; try (by destruct (handle _ _ _ _));
      [destruct (retrying p)|destruct (draining p)]; try done; by destruct (handle _ _ _ _).
Qed.

Lemma act_wired now a p : proper a p = true → wired p → stop_event p = false ∨ thread p ≠ Idle →
  wired (perform now a p) ∧ (stop_event (perform now a p) = false ∨ thread (perform now a p) ≠ Idle).
Proof.
  intros Hp Hw Hs. pose proof (act_thread now a p) as Ha.
  destruct a as [| |e| |e|f|]; try (destruct Ha as (Ht & Hl & He); unfold wired; by rewrite Ht, Hl, He); clear Ha.
  - cbn [proper] in Hp. zbool. cbn [perform]. unfold start. destruct websockets; [|by split]. cbn.
    destruct Hs as [Hs|Hs]; [|done]. split; [intros _; cbn; split; [done|]; rewrite Hs; naive_solver|by right].
  - cbn [perform]. unfold _serve. destruct (thread p) eqn:E; [by split; [|rewrite E]| |by split; [|rewrite E; right]].
    split; [|by right]. intros _. cbn. done.
  - cbn [perform]. unfold stop. destruct (loop p && stop_event p); split; try (intros Hl; done); by left.
Qed.

Lemma live_through_wired ks r acts : all_proper acts (new_process ks r) = true → wired (live_through acts (new_process ks r)).
Proof.
  assert (∀ p, all_proper acts p = true → wired p → stop_event p = false ∨ thread p ≠ Idle → wired (live_through acts p)) as Hall.
  { induction acts as [|[now a] acts IH]; intros p; [done|]. cbn [all_proper]. intros Hp Hw Hs. zbool.
    destruct (act_wired now a p) as [Hw' Hs']; try done. by apply IH. }
  intros Hp. apply Hall; [done|by intros|by left].
Qed.

(** A thread that nobody owns goes on: its loop is unknown to [stop]. *)
Definition orphan (p : Process) : Prop := loop p = false ∧ thread p = Serving.

Lemma act_orphan now a p : proper a p = true → orphan p → orphan (perform now a p).
Proof.
  intros Hp [Hl Ht]. unfold orphan. pose proof (act_thread now a p) as Ha.
  destruct a as [| |e| |e|f|]; try (by destruct Ha as (-> & -> & _)); clear Ha.
  - cbn [proper] in Hp. zbool. congruence.
  - cbn [perform]. unfold _serve. by rewrite Ht.
  - cbn [perform]. unfold stop, _serve. by rewrite Hl, Ht.
Qed.

Lemma idle_deaf acts p : thread p = Idle → loop p = false → Forall (λ ta, match ta.2 with Start | Change _ => False | _ => True end) acts →
  node (live_through acts p) = node p.
Proof.
  intros Ht Hl Ha. revert p Ht Hl. induction Ha as [|[now a] acts Ha _ IH]; intros p Ht Hl; [done|]. cbn [live_through foldl fst snd].
  assert (node (perform now a p) = node p ∧ thread (perform now a p) = Idle ∧ loop (perform now a p) = false) as (Hn & Ht' & Hl').
  { cbn in Ha. split; [|pose proof (act_thread now a p) as Hk; destruct a; try done; try (by destruct Hk as (-> & -> & _))].
    - rewrite act_node. unfold handled. rewrite Ht. unfold halts. destruct a; try done; [by destruct e|]. by rewrite Hl.
    - cbn [perform]. unfold _serve. by rewrite Ht.
    - cbn [perform]. unfold stop, _serve. by rewrite Hl, Ht. }
  rewrite <- Hn. by apply IH.
Qed.

Lemma orphan_stays acts p : all_proper acts p = true → orphan p → orphan (live_through acts p).
Proof.
  revert p. induction acts as [|[now a] acts IH]; intros p; [done|].
  cbn [all_proper]. intros Hp Ho. zbool. apply IH; [done|]. by apply act_orphan.
Qed.

(** What [stop] leaves of a node: the loop's work is gone, what was decided is not. *)
Definition kept (n n' : Node) : Prop :=
  same_core n n' ∧ retry_queue n' = retry_queue n ∧ keys n' = keys n ∧ peer_registry n' = peer_registry n ∧
  inbox n' = [] ∧ tasks n' = [] ∧ flushes n' = [].


(** A periodic round that raises is the last until the node is started again. *)
Lemma drain_dies now now' (p : Process) e n : thread p = Serving → draining p = true →
  handle cfg now EDrainRound (node p) = (Raise e, n) →
  let q := loop_event now EDrainRound p in node q = n ∧ loop_event now' EDrainRound q = q.
Proof. intros Ht Hd Hr. unfold loop_event, on_loop. rewrite Ht, Hd, Hr. done. Qed.
End Lifecycle.

(** ** Alice's node is over_restart while a message of Bob's waits *)

Module LifecycleDemo.
Import Toy InMemoryRegistry.

Definition signing : KeyState (H := toy_crypto) := mkKeys (H := toy_crypto) (Some "a"%char) ∅.
Definition alice : Config := mkConfig "10.0.0.1" 8000 false true (Some (λ _, Ok ())) None.
Definition from_bob (i : string) (k : Z) : Message := mkMessage "hi" "10.0.0.2:8000" i 0 "" 10 {["10.0.0.2:8000" := k]}.
Definition up : list (time * action) := [(0, Start); (1, Serve)]%Z.

(** The second message of Bob's comes first and is held back over the restart. *)
Definition over_restart : list (time * action) :=
  (up ++ [(2, Turn (EFrame "" (to_json (from_bob "b2" 2)))); (3, Turn EReceive); (4, Call (EBroadcast "" (new_message "own" "10.0.0.1:8000" "a1" 4)));
          (5, Begin); (6, Stop); (7, Turn EReceive)] ++ up ++
   [(8, Turn (EFrame "" (to_json (from_bob "b1" 1)))); (9, Turn EReceive); (10, Turn EDrainRound)])%Z.

Definition fresh_alice : Process := new_process signing [].


End LifecycleDemo.
