(* ===== verification/Membership.v ===== *)
(** * The membership data model ([peer_discovery/membership/models.py])

    Member states, events, member records, and their JSON dictionaries. *)

From stdpp Require Import prelude gmap strings.
From S2P Require Import Prelude PyDict PyStr Json Base64.

Local Open Scope string_scope.
Local Open Scope list_scope.

Inductive MemberState :=
  | JOINING | BACKFILLING | ACTIVE | SUSPECTED | DISCONNECTED | LEAVING | LEFT.

Inductive EventType :=
  | JOIN_REQUESTED | JOIN_ACCEPTED | JOIN_REJECTED | LEAVE_REQUESTED | LEAVE_CONFIRMED
  | HEARTBEAT | DISCONNECT_SUSPECTED | DISCONNECT_TIMEOUT | RECONNECTED
  | HISTORY_BACKFILL_STARTED | HISTORY_BACKFILL_COMPLETE.

#[export] Instance MemberState_eq_dec : EqDecision MemberState.
Proof. solve_decision. Defined.
#[export] Instance EventType_eq_dec : EqDecision EventType.
Proof. solve_decision. Defined.

(** [state.value] and [event_type.value]. *)
Definition state_value (s : MemberState) : string :=
  match s with
  | JOINING => "JOINING" | BACKFILLING => "BACKFILLING" | ACTIVE => "ACTIVE"
  | SUSPECTED => "SUSPECTED" | DISCONNECTED => "DISCONNECTED" | LEAVING => "LEAVING" | LEFT => "LEFT"
  end.
Definition event_value (e : EventType) : string :=
  match e with
  | JOIN_REQUESTED => "JOIN_REQUESTED" | JOIN_ACCEPTED => "JOIN_ACCEPTED"
  | JOIN_REJECTED => "JOIN_REJECTED" | LEAVE_REQUESTED => "LEAVE_REQUESTED"
  | LEAVE_CONFIRMED => "LEAVE_CONFIRMED" | HEARTBEAT => "HEARTBEAT"
  | DISCONNECT_SUSPECTED => "DISCONNECT_SUSPECTED" | DISCONNECT_TIMEOUT => "DISCONNECT_TIMEOUT"
  | RECONNECTED => "RECONNECTED" | HISTORY_BACKFILL_STARTED => "HISTORY_BACKFILL_STARTED"
  | HISTORY_BACKFILL_COMPLETE => "HISTORY_BACKFILL_COMPLETE"
  end.

Definition all_states : list MemberState :=
  [JOINING; BACKFILLING; ACTIVE; SUSPECTED; DISCONNECTED; LEAVING; LEFT].
Definition all_event_types : list EventType :=
  [JOIN_REQUESTED; JOIN_ACCEPTED; JOIN_REJECTED; LEAVE_REQUESTED; LEAVE_CONFIRMED; HEARTBEAT;
   DISCONNECT_SUSPECTED; DISCONNECT_TIMEOUT; RECONNECTED; HISTORY_BACKFILL_STARTED;
   HISTORY_BACKFILL_COMPLETE].

(** [MemberState(v)] and [EventType(v)]: an unknown value raises [ValueError]. *)
Definition state_of_value (v : string) : result MemberState :=
  of_option ValueError (find (λ s, bool_decide (state_value s = v)) all_states).
Definition event_of_value (v : string) : result EventType :=
  of_option ValueError (find (λ e, bool_decide (event_value e = v)) all_event_types).

Record MembershipEvent := mkEvent {
  seq_no : Z;
  room_id : string;
  user_id : string;
  event_type : EventType;
  timestamp : time;
  membership_version : Z;
  source : string;
  term : Z;
  trace_id : option string;
  display_name : string;
  originator : option string;
  public_key : option bytes;
}.

Record MemberInfo := mkMember {
  m_user_id : string;
  m_display_name : string;
  state : MemberState;
  joined_at : time;
  last_heartbeat : time;
  m_version : Z;
  m_public_key : option bytes;
}.

#[export] Instance MembershipEvent_eq_dec : EqDecision MembershipEvent.
Proof. solve_decision. Defined.
#[export] Instance MemberInfo_eq_dec : EqDecision MemberInfo.
Proof. solve_decision. Defined.

Record MembershipSnapshotData := mkSnapshotData {
  s_room_id : string;
  s_version : Z;
  s_members : pydict string MemberInfo;
  active_count : nat;
  s_as_of_seq_no : Z;
}.

Record MembershipDelta := mkDelta {
  d_type : string;
  d_user_id : string;
  d_event : MembershipEvent;
}.

Record JoinResult := mkJoinResult {
  accepted : bool;
  j_seq_no : Z;
  j_version : Z;
  active_members : list MemberInfo;
  reason : option string;
}.

(** ** Dictionaries *)

Definition json_opt (o : option string) : json := match o with Some s => JStr s | None => JNull end.

Definition public_key_entry (pk : option bytes) : list (string * json) :=
  match pk with Some b => [("public_key_b64", JStr (b64encode b))] | None => [] end.

(** [MembershipEvent.to_dict] *)
Definition event_to_dict (e : MembershipEvent) : json :=
  JObj ([("seq_no", JInt (seq_no e)); ("room_id", JStr (room_id e)); ("user_id", JStr (user_id e));
         ("event_type", JStr (event_value (event_type e))); ("timestamp", JFloat (timestamp e));
         ("membership_version", JInt (membership_version e)); ("source", JStr (source e));
         ("term", JInt (term e)); ("trace_id", json_opt (trace_id e));
         ("display_name", JStr (display_name e)); ("originator", json_opt (originator e))]
        ++ public_key_entry (public_key e)).

(** [data["k"]], [data.get("k")] with a default.  The code does not check the types of
    the values; the model refuses an ill-typed one with [TypeError]. *)
Definition req {A} (k : string) (dec : json → result A) (j : json) : result A :=
  v ← of_option KeyError (jget k j); dec v.
Definition opt_str (k : string) (j : json) : result (option string) :=
  match jget k j with
  | None | Some JNull => Ok None
  | Some (JStr s) => Ok (Some s)
  | Some _ => Raise TypeError
  end.
Definition str_or (k dflt : string) (j : json) : result string :=
  match jget k j with None => Ok dflt | Some v => as_str v end.

(** [data.get("public_key_b64")], which only a dictionary has, and
    [pk = base64.b64decode(pk_b64) if pk_b64 else None]. *)
Definition read_public_key (j : json) : result (option bytes) :=
  s ← match j with JObj _ => opt_str "public_key_b64" j | _ => Raise AttributeError end;
  match s with
  | None => Ok None
  | Some s => if decide (s = "") then Ok None
              else b ← of_option ValueError (b64decode s); Ok (Some b)
  end.

(** [MembershipEvent.from_dict] *)
Definition event_from_dict (j : json) : result MembershipEvent :=
  pk ← read_public_key j;
  n ← req "seq_no" as_int j;
  r ← req "room_id" as_str j;
  u ← req "user_id" as_str j;
  et ← req "event_type" as_str j;
  et ← event_of_value et;
  ts ← req "timestamp" as_float j;
  v ← req "membership_version" as_int j;
  src ← req "source" as_str j;
  t ← req "term" as_int j;
  tr ← opt_str "trace_id" j;
  dn ← str_or "display_name" "" j;
  o ← opt_str "originator" j;
  mret (mkEvent n r u et ts v src t tr dn o pk).

(** [MemberInfo.to_dict] and [MemberInfo.from_dict] *)
Definition member_to_dict (m : MemberInfo) : json :=
  JObj ([("user_id", JStr (m_user_id m)); ("display_name", JStr (m_display_name m));
         ("state", JStr (state_value (state m))); ("joined_at", JFloat (joined_at m));
         ("last_heartbeat", JFloat (last_heartbeat m)); ("membership_version", JInt (m_version m))]
        ++ public_key_entry (m_public_key m)).

Definition member_from_dict (j : json) : result MemberInfo :=
  pk ← read_public_key j;
  u ← req "user_id" as_str j;
  dn ← req "display_name" as_str j;
  st ← req "state" as_str j;
  st ← state_of_value st;
  ja ← req "joined_at" as_float j;
  lh ← req "last_heartbeat" as_float j;
  v ← req "membership_version" as_int j;
  mret (mkMember u dn st ja lh v pk).

(** ** Round trips *)

Lemma state_of_value_value s : state_of_value (state_value s) = Ok s.
Proof. by destruct s. Qed.
Lemma event_of_value_value e : event_of_value (event_value e) = Ok e.
Proof. by destruct e. Qed.

(** A key of no bytes is written and read back as no key at all. *)
Definition norm_key (pk : option bytes) : option bytes :=
  match pk with Some "" => None | _ => pk end.

Lemma read_public_key_entry d pk :
  dget "public_key_b64" d = None →
  read_public_key (JObj (d ++ public_key_entry pk)) = Ok (norm_key pk).
Proof.
  intros Hd. unfold read_public_key, opt_str, jget.
  assert (∀ l, dget "public_key_b64" (d ++ l) = dget "public_key_b64" l) as ->.
  { intros l. induction d as [|[k v] d IH]; [done|]. cbn [dget app] in *.
    destruct (decide ("public_key_b64" = k)); [done|]. by apply IH. }
  destruct pk as [b|]; [|done]. cbn [public_key_entry]. 
  cbn [dget]. rewrite decide_True by done. cbn [mbind result_bind].
  destruct (decide (b64encode b = "")) as [E|E].
  - apply (proj1 (b64encode_empty b)) in E. by subst.
  - rewrite b64decode_encode. cbn [of_option mbind result_bind]. destruct b; [by destruct E|done].
Qed.

Definition norm_event (e : MembershipEvent) : MembershipEvent :=
  mkEvent (seq_no e) (room_id e) (user_id e) (event_type e) (timestamp e) (membership_version e)
    (source e) (term e) (trace_id e) (display_name e) (originator e) (norm_key (public_key e)).
Definition norm_member (m : MemberInfo) : MemberInfo :=
  mkMember (m_user_id m) (m_display_name m) (state m) (joined_at m) (last_heartbeat m) (m_version m)
    (norm_key (m_public_key m)).

Lemma opt_str_json k d o : dget k d = Some (json_opt o) → opt_str k (JObj d) = Ok o.
Proof. unfold opt_str, jget. intros ->. by destruct o. Qed.

Lemma req_get {A} k (dec : json → result A) d v : dget k d = Some v → req k dec (JObj d) = dec v.
Proof. unfold req, jget. by intros ->. Qed.

Lemma event_from_to_dict e : event_from_dict (event_to_dict e) = Ok (norm_event e).
Proof.
  unfold event_from_dict, event_to_dict. rewrite read_public_key_entry by done.
  cbn [mbind result_bind app].
  repeat (erewrite req_get by reflexivity; cbn [mbind result_bind as_str as_int as_float]).
  rewrite event_of_value_value. cbn [mbind result_bind].
  repeat (erewrite req_get by reflexivity; cbn [mbind result_bind as_str as_int as_float]).
  erewrite (opt_str_json "trace_id") by reflexivity. cbn [mbind result_bind].
  erewrite (opt_str_json "originator") by reflexivity. done.
Qed.

Lemma member_from_to_dict m : member_from_dict (member_to_dict m) = Ok (norm_member m).
Proof.
  unfold member_from_dict, member_to_dict. rewrite read_public_key_entry by done.
  cbn [mbind result_bind app].
  repeat (erewrite req_get by reflexivity; cbn [mbind result_bind as_str as_int as_float]).
  rewrite state_of_value_value. cbn [mbind result_bind].
  repeat (erewrite req_get by reflexivity; cbn [mbind result_bind as_str as_int as_float]).
  done.
Qed.

Lemma json_opt_wf o : json_wf (json_opt o).
Proof. by destruct o. Qed.

Lemma event_to_dict_wf e : json_wf (event_to_dict e).
Proof.
  apply json_wf_obj. split.
  - unfold dwf, dkeys. destruct (public_key e); apply (bool_decide_unpack _); by vm_compute.
  - apply Forall_app. split; [|by destruct (public_key e); repeat constructor].
    repeat constructor; cbn; apply json_opt_wf.
Qed.

Lemma member_to_dict_wf m : json_wf (member_to_dict m).
Proof.
  apply json_wf_obj. split.
  - unfold dwf, dkeys. destruct (m_public_key m); apply (bool_decide_unpack _); by vm_compute.
  - apply Forall_app. split; [|by destruct (m_public_key m); repeat constructor].
    by repeat constructor.
Qed.

(** What the code stores: a public key, when present, is not empty. *)
Definition key_ok (pk : option bytes) : Prop := pk ≠ Some "".
Lemma norm_key_ok pk : key_ok pk → norm_key pk = pk.
Proof. by destruct pk as [[|]|]. Qed.
Lemma norm_event_ok e : key_ok (public_key e) → norm_event e = e.
Proof. intros H. unfold norm_event. rewrite norm_key_ok by done. by destruct e. Qed.
Lemma norm_member_ok m : key_ok (m_public_key m) → norm_member m = m.
Proof. intros H. unfold norm_member. rewrite norm_key_ok by done. by destruct m. Qed.
