(* ===== verification/EventLog.v ===== *)
(** * The append-only event log ([peer_discovery/membership/event_log.py]) *)

From stdpp Require Import prelude gmap strings.
From S2P Require Import Prelude PyDict PyStr Json Base64 Membership.

Local Open Scope string_scope.
Local Open Scope list_scope.

Record EventLog := mkLog {
  log_room : string;
  events : list MembershipEvent;
  next_seq_no : Z;
  current_term : Z;
}.

Definition new_log (room : string) : EventLog := mkLog room [] 1 1.

(** [_log.append(event); _next_seq_no += 1] *)
Definition push (e : MembershipEvent) (trm : Z) (l : EventLog) : EventLog :=
  mkLog (log_room l) (events l ++ [e]) (next_seq_no l + 1) trm.

(** [append] *)
Definition append (now : time) (et : EventType) (user : string) (src : string) (trm : Z)
    (dn : string) (tr : option string) (pk : option bytes) : M EventLog MembershipEvent := λ l,
  if (trm <? current_term l)%Z then (Raise StaleTermError, l)
  else
    let ct := if (current_term l <? trm)%Z then trm else current_term l in
    let e := mkEvent (next_seq_no l) (log_room l) user et now (next_seq_no l) src ct tr dn None pk in
    (Ok e, push e ct l).

(** [append_remote] *)
Definition append_remote (e : MembershipEvent) : M EventLog MembershipEvent := λ l,
  let ct := if (current_term l <? term e)%Z then term e else current_term l in
  let e' := mkEvent (next_seq_no l) (log_room l) (user_id e) (event_type e) (timestamp e)
              (next_seq_no l) "remote" ct (trace_id e) (display_name e) (originator e) (public_key e) in
  (Ok e', push e' ct l).

Definition get_events_since (n : Z) (l : EventLog) : list MembershipEvent :=
  List.filter (λ e, (n <? seq_no e)%Z) (events l).

Definition get_latest_seq_no (l : EventLog) : Z := next_seq_no l - 1.

Definition advance_term (new_term : Z) : M EventLog unit := λ l,
  if (new_term <? current_term l)%Z then (Raise StaleTermError, l)
  else (Ok (), mkLog (log_room l) (events l) (next_seq_no l) new_term).

Definition serialize (l : EventLog) : list json := event_to_dict <$> events l.
Definition serialize_since (n : Z) (l : EventLog) : list json :=
  event_to_dict <$> get_events_since n l.

(** [max(e.term for e in events)] *)
Definition max_term (es : list MembershipEvent) (e0 : MembershipEvent) : Z :=
  foldl (λ t e, Z.max t (term e)) (term e0) es.

(** [deserialize] *)
Definition deserialize (room : string) (data : list json) : result EventLog :=
  es ← mapR event_from_dict data;
  let es := sort_on seq_no es in
  match last es, head es with
  | Some e, Some e0 => mret (mkLog room es (seq_no e + 1) (max_term es e0))
  | _, _ => mret (new_log room)
  end.

(** ** Invariant: sequence numbers count from one, terms never decrease *)

Record log_inv (l : EventLog) : Prop := {
  seq_contiguous : ∀ i e, events l !! i = Some e → seq_no e = (Z.of_nat i + 1)%Z;
  seq_next : next_seq_no l = (Z.of_nat (length (events l)) + 1)%Z;
  version_is_seq : Forall (λ e, membership_version e = seq_no e ∧ room_id e = log_room l) (events l);
  terms_sorted : sorted_on term (events l);
  terms_bounded : Forall (λ e, (term e ≤ current_term l)%Z) (events l);
  terms_last : match last (events l) with Some e => term e = current_term l | None => current_term l = 1%Z end;
}.

Lemma new_log_inv room : log_inv (new_log room).
Proof. split; cbn; try done; constructor. Qed.

Lemma sorted_snoc {A} (key : A → Z) l x :
  sorted_on key l → Forall (λ y, (key y ≤ key x)%Z) l → sorted_on key (l ++ [x]).
Proof.
  induction 1 as [|y l Hs IH Hy]; cbn; [by repeat constructor|].
  intros [Hyx Hl]%Forall_cons. constructor; [by apply IH|]. apply Forall_app. split; [done|by constructor].
Qed.

Lemma push_inv e ct l : log_inv l → (current_term l ≤ ct)%Z → term e = ct →
  seq_no e = next_seq_no l → membership_version e = seq_no e → room_id e = log_room l →
  log_inv (push e ct l).
Proof.
  intros [Hs Hn Hv Ht Hb Hl] Hct He Hseq Hver Hroom. split; cbn.
  - intros i e' Hi. rewrite lookup_app_Some in Hi. destruct Hi as [Hi|[Hi Hj]]; [by apply Hs|].
    destruct (i - length (events l)) as [|j] eqn:E; [|by destruct j].
    injection Hj as <-. rewrite Hseq, Hn. lia.
  - rewrite length_app. cbn. lia.
  - apply Forall_app. split; [done|]. by repeat constructor.
  - apply sorted_snoc; [done|]. eapply Forall_impl; [done|]. intros x Hx. cbn in *. lia.
  - apply Forall_app. split; [|constructor; [lia|done]]. eapply Forall_impl; [done|]. intros x Hx. cbn in *. lia.
  - by rewrite last_snoc.
Qed.

Lemma append_push now et user src trm dn tr pk l e l' :
  append now et user src trm dn tr pk l = (Ok e, l') →
  (current_term l ≤ trm)%Z ∧ l' = push e trm l ∧
  e = mkEvent (next_seq_no l) (log_room l) user et now (next_seq_no l) src trm tr dn None pk.
Proof.
  unfold append. destruct (Z.ltb_spec trm (current_term l)); [done|].
  destruct (Z.ltb_spec (current_term l) trm); intros [= <- <-]; [done|].
  by assert (current_term l = trm) as -> by lia.
Qed.

Lemma append_inv now et user src trm dn tr pk : keeps (λ l l', log_inv l → log_inv l')
  (append now et user src trm dn tr pk).
Proof.
  intros l Hl. destruct (append _ _ _ _ _ _ _ _ l) as [[e|] l'] eqn:E; cbn.
  - apply append_push in E as (Ht & -> & ->). by apply push_inv.
  - unfold append in E. destruct (trm <? current_term l)%Z; by simplify_eq.
Qed.

Lemma append_remote_inv e : keeps (λ l l', log_inv l → log_inv l') (append_remote e).
Proof.
  intros l Hl. unfold append_remote. cbn. apply push_inv; try done.
  destruct (Z.ltb_spec (current_term l) (term e)); lia.
Qed.

Lemma seq_sorted l : log_inv l → sorted_on seq_no (events l).
Proof.
  intros [Hs _ _ _ _ _]. revert Hs.
  assert (∀ k, (∀ i e, events l !! i = Some e → seq_no e = (Z.of_nat i + k)%Z) → sorted_on seq_no (events l)) as H.
  { induction (events l) as [|e es IH]; intros k Hs; [constructor|]. constructor.
    - apply (IH (k + 1)%Z). intros i x Hi. rewrite (Hs (S i) x Hi). lia.
    - apply Forall_lookup_2. intros i x Hi. pose proof (Hs 0 e eq_refl). pose proof (Hs (S i) x Hi). lia. }
  apply H.
Qed.

Lemma max_term_bound es e0 ct : Forall (λ e, (term e ≤ ct)%Z) es → (term e0 ≤ ct)%Z →
  (∃ e, e ∈ es ∧ term e = ct) → max_term es e0 = ct.
Proof.
  unfold max_term. intros Hb. generalize (term e0). induction Hb as [|e es He Hb IH]; intros t Ht Hex; cbn.
  - destruct Hex as (? & []%not_elem_of_nil & _).
  - destruct Hex as (x & [->|Hin]%elem_of_cons & Hx).
    + rewrite Z.max_r by lia. rewrite Hx. clear IH Hx He. induction Hb as [|y es Hy Hb IH]; [done|].
      cbn. by rewrite Z.max_l.
    + apply IH; [lia|by exists x].
Qed.

(** What the code appends: a public key, when present, is not empty. *)
Definition log_keys_ok (l : EventLog) : Prop := Forall (λ e, key_ok (public_key e)) (events l).

Lemma deserialize_serialize_ok l : log_inv l → log_keys_ok l →
  deserialize (log_room l) (serialize l) = Ok l.
Proof.
  intros Hi Hk. unfold deserialize, serialize.
  assert (mapR event_from_dict (event_to_dict <$> events l) = Ok (events l)) as ->.
  { unfold log_keys_ok in Hk. induction Hk as [|e es He _ IH]; [done|]. cbn [fmap list_fmap mapR].
    rewrite event_from_to_dict, norm_event_ok by done. cbn [mbind result_bind]. by rewrite IH. }
  cbn [mbind result_bind]. rewrite sort_on_id by by apply seq_sorted.
  destruct l as [room es nx ct]. destruct Hi as [Hs Hn _ _ Hb Hl]. cbn in *.
  destruct (last es) as [e|] eqn:El.
  - destruct es as [|e0 es]; [done|]. cbn [head]. unfold mret, result_ret. f_equal. f_equal.
    + rewrite last_lookup in El. rewrite (Hs _ _ El), Hn. cbn. lia.
    + apply (max_term_bound (e0 :: es)); [done|by apply Forall_inv in Hb|]. exists e. split; [|done].
      by apply last_Some_elem_of.
  - apply last_None in El as ->. cbn in *. by subst.
Qed.

(** ** Reachable logs *)

Inductive log_op :=
  | OAppend (now : time) (et : EventType) (user src : string) (trm : Z) (dn : string)
      (tr : option string) (pk : option bytes)
  | ORemote (e : MembershipEvent).

Definition run_op (l : EventLog) (o : log_op) : EventLog :=
  match o with
  | OAppend now et user src trm dn tr pk => (append now et user src trm dn tr pk l).2
  | ORemote e => (append_remote e l).2
  end.

Definition op_key_ok (o : log_op) : Prop :=
  match o with OAppend _ _ _ _ _ _ _ pk => key_ok pk | ORemote e => key_ok (public_key e) end.

Lemma run_op_room l o : log_room (run_op l o) = log_room l.
Proof. destruct o; cbn; [|done]. unfold append. by destruct (_ <? _)%Z. Qed.

Lemma run_op_keys l o : op_key_ok o → log_keys_ok l → log_keys_ok (run_op l o).
Proof.
  unfold log_keys_ok. destruct o; cbn.
  - unfold append. destruct (_ <? _)%Z; [done|]. intros. apply Forall_app. by repeat constructor.
  - intros. apply Forall_app. by repeat constructor.
Qed.

(** Every log the operations can reach numbers its events 1, 2, 3, ... without gap, with
    terms that never decrease, and its JSON text is read back as the same log: events,
    next sequence number and current term. *)
Theorem log_survives_serialization room ops :
  Forall op_key_ok ops →
  let l := foldl run_op (new_log room) ops in
  (∀ i e, events l !! i = Some e → seq_no e = (Z.of_nat i + 1)%Z ∧ membership_version e = seq_no e) ∧
  sorted_on term (events l) ∧
  ∃ data, loads (dumps default_style (JList (serialize l))) = Some (JList data) ∧
    deserialize room data = Ok l.
Proof.
  intros Hops l.
  assert (log_inv l ∧ log_keys_ok l ∧ log_room l = room) as (Hi & Hk & Hr).
  { unfold l. apply foldl_inv.
    - split_and!; [apply new_log_inv|constructor|done].
    - intros o l' Hin (Hi & Hk & Hr). rewrite run_op_room. split_and!; [|apply run_op_keys|done].
      + destruct o; [by apply append_inv|by apply append_remote_inv].
      + rewrite Forall_forall in Hops. by apply Hops.
      + done. }
  split_and!.
  - intros i e He. split; [by apply Hi|]. pose proof (version_is_seq _ Hi) as Hv.
    rewrite Forall_lookup in Hv. by apply (Hv i).
  - apply Hi.
  - exists (serialize l). split.
    + apply loads_dumps_wf; [typeclasses eauto|]. apply json_wf_list. unfold serialize.
      apply Forall_fmap, Forall_true. intros e. apply event_to_dict_wf.
    + rewrite <- Hr. by apply deserialize_serialize_ok.
Qed.

(** [append] refuses exactly the stale terms and then changes nothing; otherwise it
    appends one event stamped with the next number and raises the term if needed. *)
Theorem append_outcome now et user src trm dn tr pk l :
  let r := append now et user src trm dn tr pk l in
  if (trm <? current_term l)%Z then r = (Raise StaleTermError, l)
  else ∃ e, r = (Ok e, mkLog (log_room l) (events l ++ [e]) (next_seq_no l + 1) trm) ∧
    seq_no e = next_seq_no l ∧ event_type e = et ∧ user_id e = user ∧ term e = trm ∧
    get_latest_seq_no r.2 = seq_no e ∧ (log_inv l → log_inv r.2).
Proof.
  intros r. destruct (trm <? current_term l)%Z eqn:E; [by unfold r, append; rewrite E|].
  destruct r as [[e|] l'] eqn:Er; unfold r in Er.
  - exists e. pose proof (append_push _ _ _ _ _ _ _ _ _ _ _ Er) as (Ht & -> & ->).
    split_and!; try done; [|].
    + unfold get_latest_seq_no. cbn. lia.
    + intros Hl. pose proof (append_inv now et user src trm dn tr pk l Hl) as Hi. by rewrite Er in Hi.
  - unfold append in Er. by rewrite E in Er.
Qed.

Lemma log_survives_serialization_witness :
  let l := foldl run_op (new_log "lobby")
    [OAppend 1000 JOIN_ACCEPTED "a:1" "coordinator" 1 "Ann" None (Some "k")] in
  ∃ data, loads (dumps default_style (JList (serialize l))) = Some (JList data) ∧
    deserialize "lobby" data = Ok l.
Proof.
  refine (proj2 (proj2 (log_survives_serialization "lobby" _ _))).
  constructor; [by intros [=]|constructor].
Defined.
