(* ===== verification/Snapshot.v ===== *)
(** * The materialised membership view ([peer_discovery/membership/snapshot.py])

    [apply_event] is the state machine of a member; the snapshot is the projection of
    the event log. *)

From stdpp Require Import prelude gmap strings.
From S2P Require Import Prelude PyDict PyStr Json Base64 Membership EventLog.

Local Open Scope string_scope.
Local Open Scope list_scope.

(** [_ALLOWED_FROM_STATES]; [None] means no precondition. *)
Definition _ALLOWED_FROM_STATES (et : EventType) : option (list MemberState) :=
  match et with
  | JOIN_REQUESTED | JOIN_REJECTED | HEARTBEAT => None
  | JOIN_ACCEPTED => Some [DISCONNECTED; LEFT]
  | HISTORY_BACKFILL_STARTED => Some [JOINING]
  | HISTORY_BACKFILL_COMPLETE => Some [BACKFILLING]
  | LEAVE_REQUESTED => Some [ACTIVE]
  | LEAVE_CONFIRMED => Some [LEAVING]
  | DISCONNECT_SUSPECTED => Some [ACTIVE]
  | DISCONNECT_TIMEOUT => Some [SUSPECTED; BACKFILLING]
  | RECONNECTED => Some [SUSPECTED]
  end.

Record Snapshot := mkSnapshot {
  snap_room : string;
  members : pydict string MemberInfo;
  version : Z;
  as_of_seq_no : Z;
}.

Definition new_snapshot (room : string) : Snapshot := mkSnapshot room [] 0 0.

Definition _is_transition_valid (et : EventType) (current : option MemberState) : bool :=
  match et with
  | JOIN_ACCEPTED => bool_decide (current ∈ [None; Some DISCONNECTED; Some LEFT])
  | HEARTBEAT => bool_decide (is_Some current)
  | _ => match _ALLOWED_FROM_STATES et with
         | None => true
         | Some allowed => existsb (λ s, bool_decide (current = Some s)) allowed
         end
  end.

(** [current.state = s; current.membership_version = ...] *)
Definition move (s : MemberState) (e : MembershipEvent) (m : MemberInfo) : MemberInfo :=
  mkMember (m_user_id m) (m_display_name m) s (joined_at m) (last_heartbeat m) (membership_version e)
    (m_public_key m).
Definition beat (t : time) (m : MemberInfo) : MemberInfo :=
  mkMember (m_user_id m) (m_display_name m) (state m) (joined_at m) t (m_version m) (m_public_key m).

Definition joined (e : MembershipEvent) : MemberInfo :=
  mkMember (user_id e) (display_name e) JOINING (timestamp e) (timestamp e) (membership_version e)
    (public_key e).

(** [_dispatch]: the member's new record, if the event changes it, and the delta. *)
Definition _dispatch (e : MembershipEvent) (current : option MemberInfo) :
    option MemberInfo * option MembershipDelta :=
  let delta t := Some (mkDelta t (user_id e) e) in
  match event_type e with
  | JOIN_REQUESTED | JOIN_REJECTED => (None, None)
  | JOIN_ACCEPTED => (Some (joined e), delta "joined")
  | HISTORY_BACKFILL_STARTED => (move BACKFILLING e <$> current, None)
  | HISTORY_BACKFILL_COMPLETE => (move ACTIVE e <$> current, delta "active")
  | LEAVE_REQUESTED => (move LEAVING e <$> current, None)
  | LEAVE_CONFIRMED => (move LEFT e <$> current, delta "left")
  | HEARTBEAT => (beat (timestamp e) <$> current, None)
  | DISCONNECT_SUSPECTED => (move SUSPECTED e <$> current, delta "suspected")
  | DISCONNECT_TIMEOUT => (move DISCONNECTED e <$> current, delta "disconnected")
  | RECONNECTED => (beat (timestamp e) ∘ move ACTIVE e <$> current, delta "reconnected")
  end.

Definition member (s : Snapshot) (uid : string) : option MemberInfo := dget uid (members s).
Definition state_of (s : Snapshot) (uid : string) : option MemberState := state <$> member s uid.

(** [apply_event]: an old or forbidden event is skipped. *)
Definition apply_event (e : MembershipEvent) (s : Snapshot) : option MembershipDelta * Snapshot :=
  if (seq_no e <=? as_of_seq_no s)%Z then (None, s)
  else if negb (_is_transition_valid (event_type e) (state_of s (user_id e))) then (None, s)
  else
    let '(m, delta) := _dispatch e (member s (user_id e)) in
    let ms := match m with Some m => dset (user_id e) m (members s) | None => members s end in
    (delta, mkSnapshot (snap_room s) ms (membership_version e) (seq_no e)).

Definition is_active (kv : string * MemberInfo) : bool := bool_decide (state kv.2 = ACTIVE).

Definition get_snapshot (s : Snapshot) : MembershipSnapshotData :=
  mkSnapshotData (snap_room s) (version s) (members s)
    (length (List.filter is_active (members s))) (as_of_seq_no s).

Definition get_member (uid : string) (s : Snapshot) : option MemberInfo := member s uid.

Definition get_active_members (s : Snapshot) : list MemberInfo :=
  (List.filter is_active (members s)).*2.

(** [serialize] and [deserialize] *)
Definition snapshot_to_dict (s : Snapshot) : json :=
  JObj [("room_id", JStr (snap_room s)); ("version", JInt (version s));
        ("as_of_seq_no", JInt (as_of_seq_no s));
        ("members", JObj ((λ kv, (kv.1, member_to_dict kv.2)) <$> members s))].

Definition members_from_dict (j : json) : result (pydict string MemberInfo) :=
  match j with
  | JObj d => mapR (λ kv, m ← member_from_dict kv.2; mret (kv.1, m)) d
  | _ => Raise AttributeError
  end.

Definition snapshot_from_dict (j : json) : result Snapshot :=
  r ← req "room_id" as_str j;
  v ← req "version" as_int j;
  n ← req "as_of_seq_no" as_int j;
  ms ← req "members" members_from_dict j;
  mret (mkSnapshot r ms v n).

(** The snapshot as the projection of a list of events. *)
Definition replay (es : list MembershipEvent) (s : Snapshot) : Snapshot :=
  foldl (λ s e, (apply_event e s).2) s es.

(** ** The member state machine *)

(** The transition table of [docs/membership_state_machine.md]: the states a member may
    be in before an event that changes its state, and the state after. *)
Inductive transition : EventType → option MemberState → MemberState → Prop :=
  | t_join : transition JOIN_ACCEPTED None JOINING
  | t_rejoin_disconnected : transition JOIN_ACCEPTED (Some DISCONNECTED) JOINING
  | t_rejoin_left : transition JOIN_ACCEPTED (Some LEFT) JOINING
  | t_backfill : transition HISTORY_BACKFILL_STARTED (Some JOINING) BACKFILLING
  | t_complete : transition HISTORY_BACKFILL_COMPLETE (Some BACKFILLING) ACTIVE
  | t_leave : transition LEAVE_REQUESTED (Some ACTIVE) LEAVING
  | t_left : transition LEAVE_CONFIRMED (Some LEAVING) LEFT
  | t_suspect : transition DISCONNECT_SUSPECTED (Some ACTIVE) SUSPECTED
  | t_timeout : transition DISCONNECT_TIMEOUT (Some SUSPECTED) DISCONNECTED
  | t_backfill_timeout : transition DISCONNECT_TIMEOUT (Some BACKFILLING) DISCONNECTED
  | t_reconnect : transition RECONNECTED (Some SUSPECTED) ACTIVE
  | t_heartbeat st : transition HEARTBEAT (Some st) st.
#[export] Hint Constructors transition : core.

(** The events that leave every member alone. *)
Definition neutral (et : EventType) : bool :=
  match et with JOIN_REQUESTED | JOIN_REJECTED => true | _ => false end.

Lemma valid_transition et st : _is_transition_valid et st = true →
  neutral et = true ∨ ∃ st', transition et st st'.
Proof.
  destruct et; cbn; intros H; try (by left); right;
    destruct st as [[]|]; try discriminate H; try (vm_compute in H; discriminate H); eauto.
Qed.

(** The record the event leaves for its member. *)
Definition moved (e : MembershipEvent) (m m' : MemberInfo) : Prop :=
  m_user_id m' = m_user_id m ∧ joined_at m' = joined_at m ∧ m_public_key m' = m_public_key m.

Lemma apply_event_cases e s d s' : apply_event e s = (d, s') →
  (d = None ∧ s' = s ∧
     ((seq_no e ≤ as_of_seq_no s)%Z ∨ _is_transition_valid (event_type e) (state_of s (user_id e)) = false)) ∨
  ((as_of_seq_no s < seq_no e)%Z ∧
   _is_transition_valid (event_type e) (state_of s (user_id e)) = true ∧
   as_of_seq_no s' = seq_no e ∧ version s' = membership_version e ∧ snap_room s' = snap_room s ∧
   (∀ u, u ≠ user_id e → member s' u = member s u) ∧
   member s' (user_id e) = match (_dispatch e (member s (user_id e))).1 with
                           | Some m => Some m | None => member s (user_id e) end ∧
   d = (_dispatch e (member s (user_id e))).2).
Proof.
  unfold apply_event. destruct (Z.leb_spec (seq_no e) (as_of_seq_no s)); [intros [= <- <-]; auto|].
  destruct (_is_transition_valid _ _) eqn:E; cbn [negb]; [|intros [= <- <-]; auto].
  destruct (_dispatch e _) as [m delta]. intros [= <- <-]. right. cbn.
  unfold member. cbn. split_and!; try done; destruct m as [m|]; try done.
  - intros u Hu. by apply dget_dset_ne.
  - by rewrite dget_dset_eq.
Qed.

Lemma transition_valid et st st' : transition et st st' → _is_transition_valid et st = true.
Proof. destruct 1; by vm_compute. Qed.

Lemma transition_not_neutral et st st' : transition et st st' → neutral et = false.
Proof. by destruct 1. Qed.

(** The visible change an event makes when it is applied. *)
Definition delta_type (et : EventType) : option string :=
  match et with
  | JOIN_ACCEPTED => Some "joined" | HISTORY_BACKFILL_COMPLETE => Some "active"
  | LEAVE_CONFIRMED => Some "left" | DISCONNECT_SUSPECTED => Some "suspected"
  | DISCONNECT_TIMEOUT => Some "disconnected" | RECONNECTED => Some "reconnected"
  | _ => None
  end.
Definition delta_of (e : MembershipEvent) : option MembershipDelta :=
  (λ t, mkDelta t (user_id e) e) <$> delta_type (event_type e).

Lemma dispatch_delta e m : (_dispatch e m).2 = delta_of e.
Proof. unfold _dispatch, delta_of. by destruct (event_type e). Qed.

Lemma dispatch_state e m st' : transition (event_type e) (state <$> m) st' →
  ∃ m', (_dispatch e m).1 = Some m' ∧ state m' = st' ∧
    (event_type e ≠ JOIN_ACCEPTED → ∃ m0, m = Some m0 ∧ moved e m0 m').
Proof.
  unfold _dispatch. destruct (event_type e), m as [m|]; cbn; intros Ht; inversion Ht; subst;
    (eexists; split; [reflexivity|]; split; [done|]; intros Hne; first [done|eexists; split; [done|done]]).
Qed.

Lemma apply_event_other e s u : u ≠ user_id e → member (apply_event e s).2 u = member s u.
Proof.
  intros Hu. destruct (apply_event e s) as [d s'] eqn:E.
  destruct (apply_event_cases _ _ _ _ E) as [(_ & -> & _)|(_ & _ & _ & _ & _ & Hm & _)]; [done|].
  by apply Hm.
Qed.

Lemma apply_event_accept e s st' : (as_of_seq_no s < seq_no e)%Z →
  transition (event_type e) (state_of s (user_id e)) st' → ∃ s',
  apply_event e s = (delta_of e, s') ∧ state_of s' (user_id e) = Some st' ∧
  as_of_seq_no s' = seq_no e ∧ version s' = membership_version e ∧ snap_room s' = snap_room s.
Proof.
  intros Hseq Ht. destruct (apply_event e s) as [d s'] eqn:E. exists s'.
  destruct (apply_event_cases _ _ _ _ E) as [(_ & _ & [?|Hv])|(_ & _ & ? & ? & ? & _ & Hm & Hd)].
  - lia.
  - by rewrite (transition_valid _ _ _ Ht) in Hv.
  - rewrite Hd, dispatch_delta. split_and!; try done. unfold state_of. rewrite Hm.
    destruct (dispatch_state e (member s (user_id e)) st' Ht) as (m' & -> & <- & _). done.
Qed.

Lemma apply_event_reject e s : neutral (event_type e) = false →
  (¬ ∃ st', transition (event_type e) (state_of s (user_id e)) st') → apply_event e s = (None, s).
Proof.
  intros Hn Hno. destruct (apply_event e s) as [d s'] eqn:E.
  destruct (apply_event_cases _ _ _ _ E) as [(-> & -> & _)|(_ & Hv & _)]; [done|].
  apply valid_transition in Hv as [?|?]; [congruence|done].
Qed.

Lemma apply_event_old e s : (seq_no e ≤ as_of_seq_no s)%Z → apply_event e s = (None, s).
Proof. intros H. unfold apply_event. by rewrite (proj2 (Z.leb_le _ _) H). Qed.

(** ** Replay *)

Lemma replay_app es1 es2 s : replay (es1 ++ es2) s = replay es2 (replay es1 s).
Proof. unfold replay. apply foldl_app. Qed.

(** Applying [e] again to [s] changes nothing. *)
Definition settled (s : Snapshot) (e : MembershipEvent) : Prop := (apply_event e s).2 = s.

Lemma settled_replay es s : Forall (settled s) es → replay es s = s.
Proof. induction 1 as [|e es He _ IH]; [done|]. cbn. by rewrite He. Qed.

Lemma apply_event_settles e s : settled (apply_event e s).2 e ∧
  ((apply_event e s).2 = s ∨ as_of_seq_no (apply_event e s).2 = seq_no e).
Proof.
  unfold settled. destruct (apply_event e s) as [d s'] eqn:E. cbn.
  destruct (apply_event_cases _ _ _ _ E) as [(_ & -> & _)|(_ & _ & Ha & _)].
  - rewrite E. auto.
  - rewrite apply_event_old by lia. auto.
Qed.

Lemma replay_settles es s : sorted_on seq_no es → Forall (settled (replay es s)) es.
Proof.
  induction es as [|e es IH] using rev_ind; intros Hs; [done|].
  rewrite replay_app. cbn.
  assert (sorted_on seq_no es ∧ Forall (λ x, (seq_no x ≤ seq_no e)%Z) es) as [Hes Hle].
  { clear IH. induction es as [|x es IHs]; [by split; [constructor|]|]. cbn in Hs.
    apply Sorted.StronglySorted_inv in Hs as [Hs Hx]. destruct (IHs Hs) as [H1 H2].
    apply Forall_app in Hx as [Hx1 Hx2%Forall_inv]. split; constructor; done. }
  specialize (IH Hes). destruct (apply_event_settles e (replay es s)) as [He [Heq|Hseq]].
  - rewrite Heq in *. apply Forall_app. by repeat constructor.
  - apply Forall_app. split; [|by constructor]. eapply Forall_impl; [exact Hle|].
    intros x Hx. unfold settled. rewrite apply_event_old; [done|]. cbn in Hx. lia.
Qed.

Lemma replay_idempotent es es' s : sorted_on seq_no es → (∀ e, e ∈ es' → e ∈ es) →
  replay es' (replay es s) = replay es s.
Proof.
  intros Hs Hsub. apply settled_replay, Forall_forall. intros e He.
  pose proof (replay_settles es s Hs) as Hf. rewrite Forall_forall in Hf. by apply Hf, Hsub.
Qed.

(** ** Well-formed snapshots *)

Record snapshot_wf (s : Snapshot) : Prop := {
  members_unique : dwf (members s);
  members_keyed : ∀ u m, member s u = Some m → m_user_id m = u;
  keys_nonempty : ∀ u m, member s u = Some m → key_ok (m_public_key m);
}.

Lemma new_snapshot_wf room : snapshot_wf (new_snapshot room).
Proof. split; try done. constructor. Qed.

Lemma apply_event_dwf e s : dwf (members s) → dwf (members (apply_event e s).2).
Proof.
  intros Hd. unfold apply_event. destruct (_ <=? _)%Z; [done|]. destruct (negb _); [done|].
  destruct (_dispatch _ _) as [[m|] ?]; cbn; [|done]. by apply dwf_dset.
Qed.

Lemma apply_event_wf e s : key_ok (public_key e) → snapshot_wf s → snapshot_wf (apply_event e s).2.
Proof.
  intros Hk [Hu Hm Hkey]. destruct (apply_event e s) as [d s'] eqn:E. cbn.
  assert (dwf (members s')) as Hd.
  { pose proof (apply_event_dwf e s Hu) as Hd. by rewrite E in Hd. }
  destruct (apply_event_cases _ _ _ _ E) as [(_ & -> & _)|(_ & Hv & _ & _ & _ & Ho & Hme & _)]; [done|].
  assert (∀ m, (_dispatch e (member s (user_id e))).1 = Some m →
    m_user_id m = user_id e ∧ key_ok (m_public_key m)) as Hdis.
  { intros m. unfold _dispatch. destruct (event_type e); cbn; intros Hm'; try discriminate Hm';
      try (by injection Hm' as <-);
      (destruct (member s (user_id e)) as [m0|] eqn:E0; cbn in Hm'; [|discriminate Hm']);
      injection Hm' as <-; cbn; split; by eauto. }
  split; [done| |]; intros u m Hum; destruct (decide (u = user_id e)) as [->|Hne].
  - rewrite Hme in Hum. destruct (_dispatch e _).1 as [m1|] eqn:E1; [|by apply Hm].
    injection Hum as <-. by apply Hdis.
  - rewrite Ho in Hum by done. by apply Hm.
  - rewrite Hme in Hum. destruct (_dispatch e _).1 as [m1|] eqn:E1; [|by eapply Hkey].
    injection Hum as <-. by apply Hdis.
  - rewrite Ho in Hum by done. by eapply Hkey.
Qed.

Lemma snapshot_from_to_dict s : snapshot_wf s → snapshot_from_dict (snapshot_to_dict s) = Ok s.
Proof.
  intros [Hu Hm Hk]. unfold snapshot_from_dict, snapshot_to_dict.
  repeat (erewrite req_get by reflexivity; cbn [mbind result_bind as_str as_int]).
  unfold members_from_dict.
  assert (mapR (λ kv, m ← member_from_dict kv.2; mret (kv.1, m))
    ((λ kv : string * MemberInfo, (kv.1, member_to_dict kv.2)) <$> members s) = Ok (members s)) as ->.
  { assert (Forall (λ kv, key_ok (m_public_key kv.2)) (members s)) as Hf.
    { apply Forall_forall. intros [u m] Hin. apply (Hk u). by apply elem_dget. }
    clear Hm Hk Hu. induction Hf as [|[u m] ms Hx _ IH]; [done|]. cbn [mapR fmap list_fmap fst snd] in *.
    rewrite member_from_to_dict, norm_member_ok by done. cbn. by rewrite IH. }
  by destruct s.
Qed.

Lemma snapshot_to_dict_wf s : dwf (members s) → json_wf (snapshot_to_dict s).
Proof.
  intros Hu. apply json_wf_obj. split; [unfold dwf; apply (bool_decide_unpack _); by vm_compute|].
  repeat (constructor; [done|]). constructor; [|constructor]. cbn [snd]. apply json_wf_obj. split.
  - unfold dwf, dkeys in *. by rewrite <- list_fmap_compose.
  - apply Forall_fmap, Forall_true. intros kv. apply member_to_dict_wf.
Qed.

(** ** The properties *)


(** Replaying events a snapshot was built from changes nothing, rejected events included:
    after the events [es] in sequence order, applying any of them again, in any order and
    any number, leaves the snapshot as it is. *)
Theorem replay_is_idempotent es again s :
  sorted_on seq_no es → (∀ e, e ∈ again → e ∈ es) → replay again (replay es s) = replay es s.
Proof. apply replay_idempotent. Qed.

(** The snapshot of any list of events is read back from its JSON text exactly. *)
Theorem snapshot_survives_serialization room es :
  Forall (λ e, key_ok (public_key e)) es →
  let s := replay es (new_snapshot room) in
  ∃ j, loads (dumps default_style (snapshot_to_dict s)) = Some j ∧ snapshot_from_dict j = Ok s.
Proof.
  intros Hes s. assert (snapshot_wf s) as Hwf.
  { unfold s, replay. apply foldl_inv; [apply new_snapshot_wf|]. intros e s0 Hin Hs0.
    apply apply_event_wf; [|done]. rewrite Forall_forall in Hes. by apply Hes. }
  exists (snapshot_to_dict s). split; [|by apply snapshot_from_to_dict].
  apply loads_dumps_wf; [typeclasses eauto|]. apply snapshot_to_dict_wf, Hwf.
Qed.

(** Ann joins, is backfilled, becomes active; a stray reconnect is rejected. *)
Definition sample_event (n : Z) (et : EventType) : MembershipEvent :=
  mkEvent n "lobby" "a:1" et (1000 * n) n "coordinator" 1 None "Ann" None (Some "k").
Definition sample_events : list MembershipEvent :=
  [sample_event 1 JOIN_ACCEPTED; sample_event 2 HISTORY_BACKFILL_STARTED;
   sample_event 3 HISTORY_BACKFILL_COMPLETE; sample_event 4 RECONNECTED].


Lemma replay_is_idempotent_witness :
  let s := replay sample_events (new_snapshot "lobby") in
  replay [sample_event 4 RECONNECTED; sample_event 1 JOIN_ACCEPTED] s = s.
Proof.
  apply (replay_is_idempotent sample_events).
  - repeat constructor; cbn; lia.
  - intros e He. unfold sample_events. set_solver.
Defined.

Lemma snapshot_survives_serialization_witness :
  let s := replay sample_events (new_snapshot "lobby") in
  ∃ j, loads (dumps default_style (snapshot_to_dict s)) = Some j ∧ snapshot_from_dict j = Ok s.
Proof.
  apply (snapshot_survives_serialization "lobby" sample_events).
  repeat (constructor; [by intros [=]|]). constructor.
Defined.
