(* ===== verification/Presence.v ===== *)
(** * Failure detection and the duplicate filter
    ([peer_discovery/membership/presence.py], [duplicate_guard.py]) *)

From stdpp Require Import prelude gmap strings.
From S2P Require Import Prelude PyDict.

Local Open Scope Z_scope.

Inductive PresenceState := ALIVE | P_SUSPECTED.
#[export] Instance PresenceState_eq_dec : EqDecision PresenceState.
Proof. solve_decision. Defined.

Record PresenceEntry := mkEntry {
  p_last_heartbeat : time;
  p_state : PresenceState;
  suspected_at : option time;
}.

(** The constructor's settings and the tracked members, by user. *)
Record Presence := mkPresence {
  heartbeat_interval : time;
  suspect_after_missed : Z;
  dead_after_suspect : time;
  tracked : pydict string PresenceEntry;
}.

Definition new_presence : Presence := mkPresence (seconds 5) 3 (seconds 15) [].

Definition with_tracked (d : pydict string PresenceEntry) (p : Presence) : Presence :=
  mkPresence (heartbeat_interval p) (suspect_after_missed p) (dead_after_suspect p) d.

Definition tracked_count (p : Presence) : nat := length (tracked p).

Definition register_member (now : time) (uid : string) (p : Presence) : Presence :=
  with_tracked (dset uid (mkEntry now ALIVE None) (tracked p)) p.

Definition unregister_member (uid : string) (p : Presence) : Presence :=
  with_tracked (ddel uid (tracked p)) p.

(** The changes reported through [on_state_change]. *)
Inductive change := reconnected | suspected | timed_out.

(** [record_heartbeat]: the new state and the change to report. *)
Definition record_heartbeat (now : time) (uid : string) (p : Presence) : Presence * option change :=
  match dget uid (tracked p) with
  | None => (p, None)
  | Some e =>
    match p_state e with
    | P_SUSPECTED => (with_tracked (dset uid (mkEntry now ALIVE None) (tracked p)) p, Some reconnected)
    | ALIVE => (with_tracked (dset uid (mkEntry now ALIVE (suspected_at e)) (tracked p)) p, None)
    end
  end.

(** The body of [check_liveness]'s loop for one entry: the entry afterwards and the
    change to report. *)
Definition liveness_step (now : time) (p : Presence) (e : PresenceEntry) :
    PresenceEntry * option change :=
  match p_state e with
  | ALIVE =>
    if heartbeat_interval p * suspect_after_missed p <? now - p_last_heartbeat e
    then (mkEntry (p_last_heartbeat e) P_SUSPECTED (Some now), Some suspected)
    else (e, None)
  | P_SUSPECTED =>
    match suspected_at e with
    | Some t => if dead_after_suspect p <? now - t then (e, Some timed_out) else (e, None)
    | None => (e, None)
    end
  end.

(** [check_liveness] over the members tracked when it starts, with the callback's
    effect on [S]: an entry is updated, then its change is reported. *)
Section Liveness.
Context {S : Type} (get_p : S → Presence) (set_p : Presence → S → S).
Variable on_state_change : string → change → M S unit.

Definition check_entry (now : time) (kv : string * PresenceEntry) : M S unit :=
  s ← get;
  match liveness_step now (get_p s) kv.2 with
  | (_, None) => mret ()
  | (e', Some c) =>
    modify (λ s, set_p (with_tracked (dset kv.1 e' (tracked (get_p s))) (get_p s)) s);;
    on_state_change kv.1 c
  end.

Definition check_liveness (now : time) : M S unit :=
  s ← get; forM (tracked (get_p s)) (check_entry now).
End Liveness.

(** ** The detector on its own

    With a callback that only records, and on a time-out forgets the member, as the
    coordinator does. *)
Record Monitor := mkMonitor { presence : Presence; reports : list (time * string * change) }.

Definition set_presence (p : Presence) (m : Monitor) : Monitor := mkMonitor p (reports m).

Definition report (now : time) (uid : string) (c : change) : M Monitor unit :=
  modify (λ m, mkMonitor (match c with timed_out => unregister_member uid (presence m)
                          | _ => presence m end) (reports m ++ [(now, uid, c)])).

Inductive p_event := PRegister (uid : string) | PUnregister (uid : string) | PBeat (uid : string) | PTick.

Definition p_step (now : time) (ev : p_event) (m : Monitor) : Monitor :=
  match ev with
  | PRegister uid => set_presence (register_member now uid (presence m)) m
  | PUnregister uid => set_presence (unregister_member uid (presence m)) m
  | PBeat uid =>
    let '(p, c) := record_heartbeat now uid (presence m) in
    match c with
    | Some c => (report now uid c (set_presence p m)).2
    | None => set_presence p m
    end
  | PTick => (check_liveness presence set_presence (report now) now m).2
  end.

(** ** Facts *)

Lemma settings_same d p : heartbeat_interval (with_tracked d p) = heartbeat_interval p ∧
  suspect_after_missed (with_tracked d p) = suspect_after_missed p ∧
  dead_after_suspect (with_tracked d p) = dead_after_suspect p.
Proof. done. Qed.

(** What a turn of the loop does to the monitor. *)
Definition entry_turn (now : time) (kv : string * PresenceEntry) (m : Monitor) : Monitor :=
  match liveness_step now (presence m) kv.2 with
  | (_, None) => m
  | (e', Some c) =>
    let p := with_tracked (dset kv.1 e' (tracked (presence m))) (presence m) in
    mkMonitor (match c with timed_out => unregister_member kv.1 p | _ => p end)
      (reports m ++ [(now, kv.1, c)])
  end.

Lemma tick_turns now m :
  p_step now PTick m = foldl (λ m kv, entry_turn now kv m) m (tracked (presence m)).
Proof.
  cbn [p_step]. unfold check_liveness. rewrite bind_run. cbn [get].
  generalize (tracked (presence m)). intros l. revert m.
  induction l as [|kv l IH]; intros m; [done|]. rewrite forM_cons. cbn [foldl].
  unfold check_entry, entry_turn. rewrite bind_run. cbn [get].
  destruct (liveness_step now (presence m) kv.2) as [e' [c|]]; [|apply IH]. by rewrite bind_run, <- IH.
Qed.

Lemma entry_turn_other now kv m u : u ≠ kv.1 →
  dget u (tracked (presence (entry_turn now kv m))) = dget u (tracked (presence m)).
Proof.
  intros Hu. unfold entry_turn. destruct (liveness_step _ _ _) as [e' [c|]]; [|done]. cbn.
  destruct c; cbn; rewrite ?dget_ddel_ne, dget_dset_ne by done; done.
Qed.

Lemma entry_turn_settings now kv m :
  heartbeat_interval (presence (entry_turn now kv m)) = heartbeat_interval (presence m) ∧
  suspect_after_missed (presence (entry_turn now kv m)) = suspect_after_missed (presence m) ∧
  dead_after_suspect (presence (entry_turn now kv m)) = dead_after_suspect (presence m).
Proof. unfold entry_turn. by destruct (liveness_step _ _ _) as [e' [[]|]]. Qed.

Lemma liveness_step_settings now p q e :
  heartbeat_interval p = heartbeat_interval q → suspect_after_missed p = suspect_after_missed q →
  dead_after_suspect p = dead_after_suspect q → liveness_step now p e = liveness_step now q e.
Proof. unfold liveness_step. by intros -> -> ->. Qed.

(** The turns of the other members do not touch [u]'s entry or its reports. *)
Lemma turns_other now l m u : u ∉ dkeys l →
  let m' := foldl (λ m kv, entry_turn now kv m) m l in
  dget u (tracked (presence m')) = dget u (tracked (presence m)) ∧
  (∀ t c, (t, u, c) ∈ reports m' → (t, u, c) ∈ reports m) ∧
  (∀ r, r ∈ reports m → r ∈ reports m') ∧
  heartbeat_interval (presence m') = heartbeat_interval (presence m) ∧
  suspect_after_missed (presence m') = suspect_after_missed (presence m) ∧
  dead_after_suspect (presence m') = dead_after_suspect (presence m).
Proof.
  revert m; induction l as [|kv l IH]; intros m Hu; [done|]. cbn [foldl dkeys fmap list_fmap] in *.
  apply not_elem_of_cons in Hu as [Hne Hu]. destruct (IH (entry_turn now kv m) Hu) as (H1 & H2 & H3 & H4 & H5 & H6).
  destruct (entry_turn_settings now kv m) as (S1 & S2 & S3).
  split_and!; try congruence.
  - by rewrite H1, entry_turn_other.
  - intros t c Hin%H2. unfold entry_turn in Hin. destruct (liveness_step _ _ _) as [e' [c'|]]; [|done].
    cbn in Hin. apply elem_of_app in Hin as [?|Heq%list_elem_of_singleton]; [done|]. by injection Heq as -> -> ->.
  - intros r Hr. apply H3. unfold entry_turn. destruct (liveness_step _ _ _) as [e' [c'|]]; [|done].
    cbn. apply elem_of_app. by left.
Qed.

Lemma tick_member now m u e : dwf (tracked (presence m)) → dget u (tracked (presence m)) = Some e →
  let m' := p_step now PTick m in
  match liveness_step now (presence m) e with
  | (_, None) => dget u (tracked (presence m')) = Some e ∧
      ∀ t c, (t, u, c) ∈ reports m' → (t, u, c) ∈ reports m
  | (e', Some c) => (now, u, c) ∈ reports m' ∧
      dget u (tracked (presence m')) = match c with timed_out => None | _ => Some e' end
  end.
Proof.
  intros Hwf He m'. unfold m'. rewrite tick_turns. apply dget_elem in He as Hin.
  apply list_elem_of_split in Hin as (l1 & l2 & Hl).
  assert (u ∉ dkeys l1 ∧ u ∉ dkeys l2) as [Hu1 Hu2].
  { unfold dwf in Hwf. rewrite Hl in Hwf. unfold dkeys in *. rewrite fmap_app in Hwf. cbn in Hwf.
    apply NoDup_app in Hwf as (_ & Hd & [Hn2 _]%NoDup_cons). split; [|done].
    intros Hin. apply (Hd u Hin). apply list_elem_of_here. }
  rewrite Hl, foldl_app. cbn [foldl].
  destruct (turns_other now l1 m u Hu1) as (A1 & A2 & A3 & A4 & A5 & A6).
  set (m1 := foldl _ m l1) in *.
  destruct (turns_other now l2 (entry_turn now (u, e) m1) u Hu2) as (B1 & B2 & B3 & _).
  set (m2 := foldl _ _ l2) in *.
  rewrite (liveness_step_settings now (presence m) (presence m1)) by congruence.
  unfold entry_turn in B1, B2, B3. cbn [fst snd] in *.
  destruct (liveness_step now (presence m1) e) as [e' [c|]].
  - split; [apply B3; cbn; apply elem_of_app; right; by constructor|]. rewrite B1. cbn.
    destruct c; cbn; [by rewrite dget_dset_eq|by rewrite dget_dset_eq|by rewrite dget_ddel_eq].
  - split; [by rewrite B1, A1|]. intros t c Hc. by apply A2, B2.
Qed.

Lemma tick_dwf now m : dwf (tracked (presence m)) → dwf (tracked (presence (p_step now PTick m))).
Proof.
  intros Hd. rewrite tick_turns. apply foldl_inv; [done|]. intros kv m' _ Hm'. unfold entry_turn.
  destruct (liveness_step _ _ _) as [e' [c|]]; [|done]. cbn.
  destruct c; cbn; [by apply dwf_dset|by apply dwf_dset|by apply dwf_ddel, dwf_dset].
Qed.

Lemma tick_settings now m :
  heartbeat_interval (presence (p_step now PTick m)) = heartbeat_interval (presence m) ∧
  suspect_after_missed (presence (p_step now PTick m)) = suspect_after_missed (presence m) ∧
  dead_after_suspect (presence (p_step now PTick m)) = dead_after_suspect (presence m).
Proof.
  rewrite tick_turns. apply (foldl_inv (λ m', heartbeat_interval (presence m') = heartbeat_interval (presence m) ∧
    suspect_after_missed (presence m') = suspect_after_missed (presence m) ∧
    dead_after_suspect (presence m') = dead_after_suspect (presence m))); [done|].
  intros kv m' _ (H1 & H2 & H3). destruct (entry_turn_settings now kv m') as (-> & -> & ->). done.
Qed.

(** Failure detection is accurate and complete.  With the member's last heartbeat at [h]:
    a check within three intervals of it reports nothing about the member; a later
    check reports it suspected; a heartbeat then reports it reconnected and makes it
    alive again; and if none comes, the first check more than the grace period after
    the suspicion reports the time-out, after which the member is no longer tracked. *)
Theorem failure_detection m u h sa t1 t2 :
  dwf (tracked (presence m)) → dget u (tracked (presence m)) = Some (mkEntry h ALIVE sa) →
  let limit := heartbeat_interval (presence m) * suspect_after_missed (presence m) in
  let m1 := p_step t1 PTick m in
  (t1 - h ≤ limit → dget u (tracked (presence m1)) = Some (mkEntry h ALIVE sa) ∧
     ∀ t c, (t, u, c) ∈ reports m1 → (t, u, c) ∈ reports m) ∧
  (limit < t1 - h →
     (t1, u, suspected) ∈ reports m1 ∧
     (let mb := p_step t2 (PBeat u) m1 in
      (t2, u, reconnected) ∈ reports mb ∧
      dget u (tracked (presence mb)) = Some (mkEntry t2 ALIVE None)) ∧
     (t2 - t1 ≤ dead_after_suspect (presence m) →
        dget u (tracked (presence (p_step t2 PTick m1))) = Some (mkEntry h P_SUSPECTED (Some t1))) ∧
     (dead_after_suspect (presence m) < t2 - t1 →
        (t2, u, timed_out) ∈ reports (p_step t2 PTick m1) ∧
        dget u (tracked (presence (p_step t2 PTick m1))) = None)).
Proof.
  intros Hwf He limit m1. pose proof (tick_member t1 m u _ Hwf He) as H1. cbv zeta in H1. fold m1 in H1.
  unfold liveness_step in H1. cbn [p_state p_last_heartbeat] in H1. fold limit in H1. split.
  - intros Hle. by rewrite (proj2 (Z.ltb_ge _ _) Hle) in H1.
  - intros Hlt. rewrite (proj2 (Z.ltb_lt _ _) Hlt) in H1. destruct H1 as [Hr Hs].
    pose proof (tick_member t2 m1 u _ (tick_dwf t1 m Hwf) Hs) as H2. cbv zeta in H2.
    unfold liveness_step in H2. cbn [p_state suspected_at] in H2.
    destruct (tick_settings t1 m) as (_ & _ & Hd). fold m1 in Hd. rewrite Hd in H2.
    split_and!; [done| | |].
    + cbn [p_step]. unfold record_heartbeat. rewrite Hs. cbn. rewrite dget_dset_eq. split; [|done].
      apply elem_of_app. right. by constructor.
    + intros Hle. rewrite (proj2 (Z.ltb_ge _ _) Hle) in H2. exact (proj1 H2).
    + intros Hlt2. rewrite (proj2 (Z.ltb_lt _ _) Hlt2) in H2. exact H2.
Qed.

Lemma failure_detection_witness :
  let m := mkMonitor (register_member 0 "a:1"%string new_presence) [] in
  (seconds 16, "a:1"%string, suspected) ∈ reports (p_step (seconds 16) PTick m).
Proof.
  intros m. refine (proj1 (proj2 (failure_detection m "a:1" 0 None (seconds 16) 0 _ eq_refl) _)).
  - apply (bool_decide_unpack _). by vm_compute.
  - by vm_compute.
Defined.

(** ** [DuplicateGuard] *)

(** [_recent] in insertion order, and the window's size. *)
Record DuplicateGuard := mkGuard {
  recent : pydict (string * string) time;
  window_size : nat;
}.

Definition new_guard : DuplicateGuard := mkGuard [] 100.

Definition is_duplicate (now : time) (uid et : string) (g : DuplicateGuard) : bool * DuplicateGuard :=
  if dmem (uid, et) (recent g) then (true, g)
  else
    let r := dset (uid, et) now (recent g) in
    (false, mkGuard (if (window_size g <? length r)%nat then dpop_first r else r) (window_size g)).

Definition clear (g : DuplicateGuard) : DuplicateGuard := mkGuard [] (window_size g).

(** The requests that were let through, in order. *)
Fixpoint let_through (g : DuplicateGuard) (reqs : list (time * string * string)) :
    list (string * string) * DuplicateGuard :=
  match reqs with
  | [] => ([], g)
  | (now, uid, et) :: reqs =>
    let '(dup, g1) := is_duplicate now uid et g in
    let '(ks, g2) := let_through g1 reqs in
    ((if dup then ks else (uid, et) :: ks), g2)
  end.

Definition last_n {A} (n : nat) (l : list A) : list A := drop (length l - n) l.

Lemma dset_new {K V} `{EqDecision K} (k : K) (v : V) (d : pydict K V) : dget k d = None → dset k v d = d ++ [(k, v)].
Proof.
  induction d as [|[k' v'] d IH]; cbn; [done|]. case_decide; [done|]. intros. by rewrite IH.
Qed.

Lemma last_n_snoc {A} n (l : list A) x : (0 < n)%nat →
  last_n n (l ++ [x]) = if (n <? length (last_n n l ++ [x]))%nat then tail (last_n n l ++ [x]) else last_n n l ++ [x].
Proof.
  intros Hn. unfold last_n. rewrite !length_app, length_drop. cbn [length].
  destruct (Nat.ltb_spec n (length l - (length l - n) + 1)).
  - replace (length l + 1 - n)%nat with (S (length l - n)) by lia.
    rewrite <- (drop_app_le l [x] (length l - n)) by lia.
    generalize (l ++ [x]) (length l - n)%nat. clear. intros l k. revert l.
    induction k as [|k IH]; intros [|y l]; try done. apply (IH l).
  - replace (length l - n)%nat with 0%nat by lia. replace (length l + 1 - n)%nat with 0%nat by lia. done.
Qed.

Definition guard_shows (n : nat) (ks : list (string * string)) (g : DuplicateGuard) : Prop :=
  window_size g = n ∧ dkeys (recent g) = last_n n ks.

Lemma is_duplicate_window n ks now uid et g : (0 < n)%nat → guard_shows n ks g →
  let '(dup, g') := is_duplicate now uid et g in
  dup = bool_decide ((uid, et) ∈ last_n n ks) ∧
  guard_shows n (if dup then ks else ks ++ [(uid, et)]) g'.
Proof.
  intros Hn [Hw Hk]. unfold is_duplicate. destruct (dmem (uid, et) (recent g)) eqn:E.
  - apply dmem_true in E. rewrite <- Hk. split; [|done]. by rewrite bool_decide_eq_true_2.
  - apply dmem_false in E. rewrite <- Hk. split; [by rewrite bool_decide_eq_false_2|].
    split; [done|]. cbn [recent]. apply dget_None in E. rewrite dset_new by done.
    rewrite last_n_snoc by done. rewrite Hw. unfold dkeys in *.
    rewrite <- Hk. rewrite !length_app, length_fmap. cbn [length].
    destruct (_ <? _)%nat; [|by rewrite fmap_app].
    unfold dpop_first. by destruct (recent g) as [|[k0 v0] r]; cbn; rewrite ?fmap_app.
Qed.

(** The guard is a sliding window: after any sequence of requests it remembers exactly
    the last hundred it let through, oldest first, and it calls a request a duplicate
    exactly when it is one of those. *)
Theorem guard_is_sliding_window reqs now uid et :
  let '(ks, g) := let_through new_guard reqs in
  dkeys (recent g) = last_n 100 ks ∧ (length (recent g) ≤ 100)%nat ∧
  ((is_duplicate now uid et g).1 = true ↔ (uid, et) ∈ last_n 100 ks).
Proof.
  assert (∀ reqs ks0 g, guard_shows 100 ks0 g →
    let '(ks, g') := let_through g reqs in guard_shows 100 (ks0 ++ ks) g') as Hrun.
  { clear. induction reqs as [|[[now uid] et] reqs IH]; intros ks0 g Hg; cbn; [by rewrite app_nil_r|].
    pose proof (is_duplicate_window 100 ks0 now uid et g ltac:(lia) Hg) as Hd.
    destruct (is_duplicate now uid et g) as [dup g1]. destruct Hd as [_ Hg1].
    specialize (IH _ g1 Hg1). destruct (let_through g1 reqs) as [ks g2].
    destruct dup; [done|]. by rewrite <- app_assoc in IH. }
  specialize (Hrun reqs [] new_guard). destruct (let_through new_guard reqs) as [ks g].
  assert (guard_shows 100 ([] ++ ks) g) as Hg by by apply Hrun.
  pose proof (is_duplicate_window 100 _ now uid et g ltac:(lia) Hg) as Hd.
  destruct Hg as [_ Hk]. cbn [app] in *. split_and!; [done| |].
  - replace (length (recent g)) with (length (dkeys (recent g))) by (unfold dkeys; by rewrite length_fmap).
    rewrite Hk. unfold last_n. rewrite length_drop. lia.
  - destruct (is_duplicate now uid et g) as [dup g']. destruct Hd as [-> _]. cbn. by rewrite bool_decide_eq_true.
Qed.
