(* ===== verification/Durability.v ===== *)
(** * Checkpoints and crash recovery ([peer_discovery/membership/durability.py])

    The storage directory is a dictionary from file names to texts; [os.replace] is
    atomic, [fsync] makes a written file durable, disk errors are not modelled. *)

From stdpp Require Import prelude gmap strings.
From Stdlib Require Import Ascii.
From S2P Require Import Prelude PyDict PyStr Json Base64 Utf8 Membership EventLog Snapshot.

Local Open Scope string_scope.
Local Open Scope list_scope.

Abbreviation directory := (pydict string string).

Definition _KEEP_LAST : nat := 2.

(** The match of [^checkpoint_(.+)_(\d+)\.json$]: the greedy first group ends at the
    last underscore. *)
Definition parse_checkpoint_name (name : string) : option (string * Z) :=
  body ← strip_suffix ".json" name;
  rest ← strip_prefix "checkpoint_" body;
  '(room, digits) ← rsplit1 "_" rest;
  if bool_decide (room = "") || bool_decide (digits = "") || negb (sforall is_digit digits)
     || negb (no_char (chr 10) room)
  then None else n ← py_int digits; Some (room, n).

Definition checkpoint_name (room : string) (latest : Z) : string :=
  "checkpoint_" +:+ room +:+ "_" +:+ string_of_Z latest +:+ ".json".

(** [_list_checkpoints]: newest first. *)
Definition _list_checkpoints (room : string) (dir : directory) : list (Z * string) :=
  rev (sort_on fst (omap (λ name,
    match parse_checkpoint_name name with
    | Some (r, n) => if decide (r = room) then Some (n, name) else None
    | None => None
    end) (rev (dkeys dir)))).

Definition _prune (room : string) (dir : directory) : directory :=
  foldl (λ d p, ddel p d) dir (drop _KEEP_LAST (_list_checkpoints room dir)).*2.

Definition checkpoint_payload (l : EventLog) (s : Snapshot) : json :=
  JObj [("room_id", JStr (log_room l)); ("as_of_seq_no", JInt (as_of_seq_no s));
        ("snapshot", snapshot_to_dict s);
        ("log_tail", JList (serialize_since (as_of_seq_no s) l));
        ("current_term", JInt (current_term l)); ("next_seq_no", JInt (get_latest_seq_no l + 1))].

(** The first half of [_write_checkpoint]: what is on disk when [tmp] holds [text]. *)
Definition write_tmp (l : EventLog) (text : string) (dir : directory) : directory :=
  dset (checkpoint_name (log_room l) (get_latest_seq_no l) +:+ ".tmp") text dir.

(** [os.replace(tmp_path, final_path)]. *)
Definition replace_file (src dst : string) (dir : directory) : directory :=
  match dget src dir with Some t => dset dst t (ddel src dir) | None => dir end.

Definition _write_checkpoint (l : EventLog) (s : Snapshot) (dir : directory) : directory :=
  let final := checkpoint_name (log_room l) (get_latest_seq_no l) in
  let dir := write_tmp l (dumps default_style (checkpoint_payload l s)) dir in
  _prune (log_room l) (replace_file (final +:+ ".tmp") final dir).

Definition maybe_checkpoint (interval : Z) (l : EventLog) (s : Snapshot) (dir : directory) : bool * directory :=
  let latest := get_latest_seq_no l in
  if ((0 <? latest) && (latest mod interval =? 0))%Z then (true, _write_checkpoint l s dir)
  else (false, dir).

Definition force_checkpoint := _write_checkpoint.

(** [_reconstruct] *)
Definition _reconstruct (room : string) (payload : json) : result (EventLog * Snapshot) :=
  snap ← req "snapshot" snapshot_from_dict payload;
  tail ← req "log_tail" (λ j, match j with JList l => mapR event_from_dict l | _ => Raise TypeError end) payload;
  let tail := sort_on seq_no tail in
  nx ← req "next_seq_no" as_int payload;
  ct ← req "current_term" as_int payload;
  let l := mkLog room tail nx ct in
  mret (l, foldl (λ s e, if (as_of_seq_no s <? seq_no e)%Z then (apply_event e s).2 else s) snap tail).

Definition recover_catches (e : exn) : bool :=
  match e with JSONDecodeError | KeyError | ValueError => true | _ => false end.

(** One candidate of [recover]. *)
Definition load_checkpoint (room text : string) : result (EventLog * Snapshot) :=
  payload ← of_option JSONDecodeError (loads text);
  _reconstruct room payload.

Fixpoint recover_from (room : string) (dir : directory) (names : list (Z * string)) :
    result (option (EventLog * Snapshot)) :=
  match names with
  | [] => Ok None
  | (_, name) :: names =>
    match load_checkpoint room (default "" (dget name dir)) with
    | Ok r => Ok (Some r)
    | Raise e => if recover_catches e then recover_from room dir names else Raise e
    end
  end.

Definition recover (room : string) (dir : directory) : result (option (EventLog * Snapshot)) :=
  recover_from room dir (_list_checkpoints room dir).

(** ** File names *)

Definition room_ok (room : string) : Prop := room ≠ "" ∧ no_char (chr 10) room = true.

Lemma digits_no_char c s : is_digit c = false → sforall is_digit s = true → no_char c s = true.
Proof.
  intros Hc. apply sforall_impl. intros a Ha. apply negb_true_iff, bool_decide_eq_false.
  intros ->. congruence.
Qed.

Lemma string_of_Z_digits n : (0 ≤ n)%Z → sforall is_digit (string_of_Z n) = true ∧ string_of_Z n ≠ "".
Proof.
  intros Hn. unfold string_of_Z. destruct n as [|p|p]; [done| |lia]. cbn [Z.to_int DecimalString.NilZero.string_of_int].
  split; [apply uint_digits0|]. apply uint_string_nonempty.
Qed.

Lemma parse_checkpoint_name_of room n : room_ok room → (0 ≤ n)%Z →
  parse_checkpoint_name (checkpoint_name room n) = Some (room, n).
Proof.
  intros [Hr Hnl] Hn. destruct (string_of_Z_digits n Hn) as [Hd Hne].
  unfold parse_checkpoint_name, checkpoint_name. rewrite !string_app_assoc, strip_suffix_app.
  cbn [mbind option_bind]. rewrite <- !string_app_assoc, strip_prefix_app. cbn [mbind option_bind].
  change ("_" +:+ string_of_Z n) with (String "_" (string_of_Z n)).
  rewrite rsplit1_app by by apply digits_no_char. cbn [mbind option_bind].
  rewrite !bool_decide_eq_false_2, Hd, Hnl by done. cbn [orb negb].
  by rewrite py_int_string_of_Z.
Qed.

(** A temporary file is never taken for a checkpoint. *)
Lemma tmp_not_checkpoint s : parse_checkpoint_name (s +:+ ".tmp") = None.
Proof.
  unfold parse_checkpoint_name. assert (strip_suffix ".json" (s +:+ ".tmp") = None) as ->; [|done].
  unfold strip_suffix. destruct (decide _) as [E|]; [|done].
  pose proof (last_char_drop (String.length (s +:+ ".tmp") - String.length ".json") (s +:+ ".tmp")) as H.
  rewrite E, last_char_app in H by done. by specialize (H ltac:(done)).
Qed.

(** ** Listing and pruning *)

Definition checkpoint_of (room name : string) : option (Z * string) :=
  match parse_checkpoint_name name with
  | Some (r, n) => if decide (r = room) then Some (n, name) else None
  | None => None
  end.

Lemma checkpoint_of_name room name n x : checkpoint_of room name = Some (n, x) → x = name.
Proof.
  unfold checkpoint_of. destruct (parse_checkpoint_name name) as [[r k]|]; [|done].
  case_decide; [|done]. by intros [= <- <-].
Qed.

Lemma elem_of_list room dir n name :
  (n, name) ∈ _list_checkpoints room dir ↔ name ∈ dkeys dir ∧ checkpoint_of room name = Some (n, name).
Proof.
  unfold _list_checkpoints. fold (checkpoint_of room). rewrite list_elem_of_In, <- in_rev, <- list_elem_of_In.
  rewrite sort_on_perm. change (omap _ (rev (dkeys dir))) with (omap (checkpoint_of room) (rev (dkeys dir))).
  rewrite list_elem_of_omap. setoid_rewrite list_elem_of_In. setoid_rewrite <- in_rev.
  split.
  - intros (x & Hin & Hx). pose proof (checkpoint_of_name _ _ _ _ Hx) as ->. done.
  - intros [Hin Hx]. by exists name.
Qed.

Lemma omap_nodup {A B C} (f : A → option B) (g : B → C) (h : A → C) l :
  (∀ x y, f x = Some y → g y = h x) → (∀ x y, h x = h y → x = y) → NoDup l → NoDup (g <$> omap f l).
Proof.
  intros Hf Hh. induction 1 as [|x l Hx Hl IH]; [constructor|]. cbn.
  destruct (f x) as [y|] eqn:E; [|done]. cbn. constructor; [|done].
  intros (z & Hz & Hin)%list_elem_of_fmap. apply list_elem_of_omap in Hin as (x' & Hin & Hx').
  apply Hx. rewrite (Hf x y E), (Hf x' z Hx') in Hz. apply Hh in Hz. by subst.
Qed.

Lemma list_nodup room dir : dwf dir → NoDup (_list_checkpoints room dir).*2.
Proof.
  intros Hd. unfold _list_checkpoints.
  change (omap _ (rev (dkeys dir))) with (omap (checkpoint_of room) (rev (dkeys dir))).
  assert (∀ X : list (Z * string), NoDup X.*2 → NoDup (rev (sort_on fst X)).*2) as Hrev.
  { intros X HX. eapply NoDup_Permutation_proper; [|exact HX]. apply fmap_Permutation.
    etrans; [symmetry; apply Permutation_rev|apply sort_on_perm]. }
  apply Hrev. apply (omap_nodup _ snd (λ x, x)); [|done|].
  - intros x [n y] Hx. by apply checkpoint_of_name in Hx.
  - eapply NoDup_Permutation_proper; [symmetry; apply Permutation_rev|done].
Qed.

Lemma list_sorted room dir : sorted_on fst (rev (_list_checkpoints room dir)).
Proof. unfold _list_checkpoints. rewrite rev_involutive. apply sort_on_sorted. Qed.

(** The newest checkpoint comes first. *)
Lemma list_newest room dir n name : dwf dir → name ∈ dkeys dir →
  checkpoint_of room name = Some (n, name) →
  (∀ k x, x ∈ dkeys dir → checkpoint_of room x = Some (k, x) → x ≠ name → (k < n)%Z) →
  ∃ rest, _list_checkpoints room dir = (n, name) :: rest.
Proof.
  intros Hd Hin Hc Hold. pose proof (list_sorted room dir) as Hs.
  pose proof (list_nodup room dir Hd) as Hn.
  assert ((n, name) ∈ _list_checkpoints room dir) as Hel by by apply elem_of_list.
  destruct (_list_checkpoints room dir) as [|[k x] rest] eqn:El; [by apply not_elem_of_nil in Hel|].
  exists rest. f_equal. destruct (decide (x = name)) as [->|Hne].
  { apply elem_of_cons in Hel as [E|Hel]; [done|]. cbn in Hn. apply NoDup_cons in Hn as [Hn _].
    exfalso. apply Hn. apply list_elem_of_fmap. by exists (n, name). }
  assert ((k, x) ∈ _list_checkpoints room dir) as Hx by (rewrite El; constructor).
  apply elem_of_list in Hx as [Hx1 Hx2]. pose proof (Hold k x Hx1 Hx2 Hne) as Hlt.
  apply elem_of_cons in Hel as [E|Hel]; [congruence|]. cbn [rev] in Hs.
  assert (∀ l, sorted_on fst (l ++ [(k, x)]) → (n, name) ∈ l → (n ≤ k)%Z) as Hle.
  { clear. induction l as [|y l IH]; cbn; [by intros _ ?%not_elem_of_nil|].
    intros [Hs Hy]%Sorted.StronglySorted_inv [Hin|Hin]%elem_of_cons; [|by apply IH].
    apply Forall_app in Hy as [_ Hy%Forall_inv]. by rewrite <- Hin in Hy. }
  assert (n ≤ k)%Z; [|lia]. apply (Hle _ Hs). apply list_elem_of_In. rewrite <- in_rev. by apply list_elem_of_In.
Qed.

Lemma foldl_ddel_get (l : list string) (dir : directory) x : dget x (foldl (λ d p, ddel p d) dir l) =
  if decide (x ∈ l) then None else dget x dir.
Proof.
  revert dir; induction l as [|p l IH]; intros dir; cbn [foldl]; [by rewrite decide_False by apply not_elem_of_nil|].
  rewrite IH, dget_ddel. repeat case_decide; set_solver.
Qed.

Lemma foldl_ddel_dwf (l : list string) (dir : directory) : dwf dir → dwf (foldl (λ d p, ddel p d) dir l).
Proof. intros Hd. apply foldl_inv; [done|]. intros. by apply dwf_ddel. Qed.

Lemma prune_get room dir x : dget x (_prune room dir) =
  if decide (x ∈ (drop _KEEP_LAST (_list_checkpoints room dir)).*2) then None else dget x dir.
Proof. apply foldl_ddel_get. Qed.

(** Pruning keeps at most two checkpoints of the room, the newest among them, and every
    other file. *)
Lemma prune_keeps room dir : dwf dir →
  (length (_list_checkpoints room (_prune room dir)) ≤ _KEEP_LAST)%nat ∧
  (∀ x, checkpoint_of room x = None → dget x (_prune room dir) = dget x dir) ∧
  (∀ n x rest, _list_checkpoints room dir = (n, x) :: rest → dget x (_prune room dir) = dget x dir).
Proof.
  intros Hd. split_and!.
  - assert (NoDup (_list_checkpoints room (_prune room dir)).*2) as Hn.
    { apply list_nodup. by apply foldl_ddel_dwf. }
    rewrite <- (length_fmap snd). transitivity (length (take _KEEP_LAST (_list_checkpoints room dir)).*2).
    + apply submseteq_length, NoDup_submseteq; [done|]. intros x ([n y] & -> & Hin)%list_elem_of_fmap.
      apply elem_of_list in Hin as [Hin Hc]. apply dget_is_Some in Hin as [t Ht].
      rewrite prune_get in Ht. case_decide as Hdrop; [done|].
      assert ((n, y) ∈ _list_checkpoints room dir) as Hl.
      { apply elem_of_list. split; [|done]. apply dget_is_Some. by exists t. }
      rewrite <- (take_drop _KEEP_LAST (_list_checkpoints room dir)) in Hl.
      apply list_elem_of_fmap. exists (n, y). split; [done|].
      apply elem_of_app in Hl as [?|Hl]; [done|]. exfalso. apply Hdrop.
      apply list_elem_of_fmap. by exists (n, y).
    + rewrite length_fmap, length_take. lia.
  - intros x Hx. rewrite prune_get. case_decide as Hin; [|done].
    apply list_elem_of_fmap in Hin as ([n y] & -> & Hin).
    assert ((n, y) ∈ _list_checkpoints room dir) as [_ Hc]%elem_of_list.
    { rewrite <- (take_drop _KEEP_LAST (_list_checkpoints room dir)). apply elem_of_app. by right. }
    cbn in Hx. congruence.
  - intros n x rest El. rewrite prune_get. case_decide as Hin; [|done]. exfalso.
    pose proof (list_nodup room dir Hd) as Hn. rewrite El in *. unfold _KEEP_LAST in Hin.
    cbn in Hn. apply NoDup_cons in Hn as [Hn _]. apply Hn. cbn in Hin. destruct rest as [|y rest]; [by apply not_elem_of_nil in Hin|].
    cbn in *. by right.
Qed.

Lemma recover_newest room dir n name text r : dwf dir → dget name dir = Some text →
  checkpoint_of room name = Some (n, name) →
  (∀ k x, x ∈ dkeys dir → checkpoint_of room x = Some (k, x) → x ≠ name → (k < n)%Z) →
  load_checkpoint room text = Ok r → recover room dir = Ok (Some r).
Proof.
  intros Hd Hget Hc Hold Hl. unfold recover.
  destruct (list_newest room dir n name Hd) as [rest ->]; [apply dget_is_Some; by exists text|done|done|].
  cbn [recover_from]. rewrite Hget. change (default "" (Some text)) with text. by rewrite Hl.
Qed.

(** ** The checkpoint's own text *)

Lemma tail_settled l s : Forall (settled s) l →
  foldl (λ s e, if (as_of_seq_no s <? seq_no e)%Z then (apply_event e s).2 else s) s l = s.
Proof.
  induction 1 as [|e l He _ IH]; [done|]. cbn. destruct (_ <? _)%Z; [|done]. by rewrite He.
Qed.

Lemma sorted_filter {A} (key : A → Z) f l : sorted_on key l → sorted_on key (List.filter f l).
Proof.
  induction 1 as [|x l Hs IH Hx]; [constructor|]. cbn. destruct (f x); [|done]. constructor; [done|].
  eapply Forall_sub; [apply list_filter_sub|done].
Qed.

(** What a recovered log holds: the events past the snapshot. *)
Definition log_tail (l : EventLog) (s : Snapshot) : EventLog :=
  mkLog (log_room l) (get_events_since (as_of_seq_no s) l) (next_seq_no l) (current_term l).

Lemma payload_wf l s : snapshot_wf s → json_wf (checkpoint_payload l s).
Proof.
  intros Hs. apply json_wf_obj. split; [unfold dwf; apply (bool_decide_unpack _); by vm_compute|].
  repeat (apply Forall_cons; split; [try done|]); [..|apply Forall_nil_2].
  - apply snapshot_to_dict_wf, Hs.
  - apply json_wf_list. unfold serialize_since. apply Forall_fmap, Forall_true. intros e. apply event_to_dict_wf.
Qed.

Lemma load_checkpoint_payload l s : snapshot_wf s → log_keys_ok l → sorted_on seq_no (events l) →
  Forall (settled s) (events l) →
  load_checkpoint (log_room l) (dumps default_style (checkpoint_payload l s)) = Ok (log_tail l s, s).
Proof.
  intros Hs Hk Hsort Hset. unfold load_checkpoint.
  rewrite (loads_dumps_wf default_style) by by apply payload_wf. cbn [of_option mbind result_bind].
  unfold _reconstruct, checkpoint_payload.
  rewrite (req_get "snapshot" _ _ (snapshot_to_dict s)) by reflexivity.
  rewrite snapshot_from_to_dict by done. cbn [mbind result_bind].
  rewrite (req_get "log_tail" _ _ (JList (serialize_since (as_of_seq_no s) l))) by reflexivity.
  set (tail := get_events_since (as_of_seq_no s) l).
  assert (mapR event_from_dict (serialize_since (as_of_seq_no s) l) = Ok tail) as ->.
  { unfold serialize_since. fold tail. assert (Forall (λ e, key_ok (public_key e)) tail) as Hf.
    { eapply Forall_sub; [apply list_filter_sub|done]. }
    clear -Hf. induction Hf as [|e es He _ IH]; [done|]. cbn [fmap list_fmap mapR].
    rewrite event_from_to_dict, norm_event_ok by done. cbn [mbind result_bind]. by rewrite IH. }
  cbn [mbind result_bind].
  rewrite sort_on_id by by apply sorted_filter.
  repeat (erewrite req_get by reflexivity; cbn [mbind result_bind as_int]).
  rewrite tail_settled by (eapply Forall_sub; [apply list_filter_sub|done]).
  unfold mret, result_ret, log_tail. repeat f_equal. unfold get_latest_seq_no. lia.
Qed.

(** ** The properties *)

(** The files after the new checkpoint is in place, before pruning. *)
Lemma replaced_get (l : EventLog) text (dir : directory) x :
  let final := checkpoint_name (log_room l) (get_latest_seq_no l) in
  let dir' := replace_file (final +:+ ".tmp") final (write_tmp l text dir) in
  checkpoint_of (log_room l) (final +:+ ".tmp") = None →
  dget x dir' = if decide (x = final) then Some text
                else if decide (x = final +:+ ".tmp") then None else dget x dir.
Proof.
  intros final dir' Ht. unfold dir', replace_file, write_tmp. fold final. rewrite dget_dset_eq.
  rewrite dget_dset, dget_ddel, dget_dset. repeat case_decide; done.
Qed.

Lemma checkpoint_of_tmp room s : checkpoint_of room (s +:+ ".tmp") = None.
Proof. unfold checkpoint_of. by rewrite tmp_not_checkpoint. Qed.

Lemma checkpoint_of_final room n : room_ok room → (0 ≤ n)%Z →
  checkpoint_of room (checkpoint_name room n) = Some (n, checkpoint_name room n).
Proof. intros. unfold checkpoint_of. rewrite parse_checkpoint_name_of by done. by rewrite decide_True. Qed.

(** The checkpoints already on disk are older than the log's last event. *)
Definition older (l : EventLog) (dir : directory) : Prop := ∀ n x, x ∈ dkeys dir →
  checkpoint_of (log_room l) x = Some (n, x) →
  x ≠ checkpoint_name (log_room l) (get_latest_seq_no l) → (n < get_latest_seq_no l)%Z.

Lemma checkpoint_recovers l s dir :
  room_ok (log_room l) → (1 ≤ next_seq_no l)%Z → sorted_on seq_no (events l) → log_keys_ok l →
  snapshot_wf s → Forall (settled s) (events l) → dwf dir → older l dir →
  recover (log_room l) (_write_checkpoint l s dir) = Ok (Some (log_tail l s, s)) ∧
  (length (_list_checkpoints (log_room l) (_write_checkpoint l s dir)) ≤ 2)%nat.
Proof.
  intros Hroom Hnx Hsort Hk Hs Hset Hd Hold. unfold _write_checkpoint.
  set (final := checkpoint_name _ _). set (text := dumps _ _).
  set (dir1 := replace_file _ _ _).
  pose proof (λ x, replaced_get l text dir x (checkpoint_of_tmp _ _)) as Hget. cbv zeta in Hget.
  fold final in Hget. fold dir1 in Hget.
  assert (dwf dir1) as Hd1.
  { unfold dir1, replace_file, write_tmp. rewrite dget_dset_eq. by apply dwf_dset, dwf_ddel, dwf_dset. }
  destruct (prune_keeps (log_room l) dir1 Hd1) as (Hlen & _ & Hfirst). split; [|exact Hlen].
  assert (checkpoint_of (log_room l) final = Some (get_latest_seq_no l, final)) as Hc.
  { apply checkpoint_of_final; [done|]. unfold get_latest_seq_no. lia. }
  assert (dget final dir1 = Some text) as Hf by by rewrite Hget, decide_True.
  assert (∀ k x, is_Some (dget x dir1) → checkpoint_of (log_room l) x = Some (k, x) → x ≠ final →
    (k < get_latest_seq_no l)%Z) as Hold1.
  { intros k x Hx Hcx Hne. rewrite Hget, decide_False in Hx by done. case_decide; [by destruct Hx|].
    apply (Hold k x); [|done|done]. by apply dget_is_Some. }
  destruct (list_newest (log_room l) dir1 (get_latest_seq_no l) final Hd1) as [rest Hl]; [apply dget_is_Some; by exists text|exact Hc| |].
  { intros k x Hx. apply Hold1. by apply dget_is_Some. }
  apply (recover_newest _ _ (get_latest_seq_no l) final text).
  - by apply foldl_ddel_dwf.
  - by rewrite (Hfirst _ _ _ Hl).
  - done.
  - intros k x Hx. apply Hold1. apply dget_is_Some in Hx. rewrite prune_get in Hx.
    case_decide; [by destruct Hx|done].
  - by apply load_checkpoint_payload.
Qed.

(** A checkpoint can be recovered: after [_write_checkpoint], [recover] returns the
    snapshot exactly as it was and a log that holds the events past it with the same
    next sequence number and term, whatever other files the directory has; and at most
    two checkpoints of the room remain. *)
Theorem recover_after_checkpoint l s dir :
  room_ok (log_room l) → (1 ≤ next_seq_no l)%Z → sorted_on seq_no (events l) → log_keys_ok l →
  snapshot_wf s → Forall (settled s) (events l) → dwf dir → older l dir →
  recover (log_room l) (_write_checkpoint l s dir) = Ok (Some (log_tail l s, s)) ∧
  (length (_list_checkpoints (log_room l) (_write_checkpoint l s dir)) ≤ 2)%nat.
Proof. apply checkpoint_recovers. Qed.

(** A crash while a checkpoint is being written loses nothing: whatever part of it
    reached the temporary file, recovery sees the directory as it was before. *)
Theorem crash_during_checkpoint l partial dir room :
  let crashed := write_tmp l partial dir in
  _list_checkpoints room crashed = _list_checkpoints room dir ∧
  recover room crashed = recover room dir.
Proof.
  intros crashed. set (tmp := checkpoint_name (log_room l) (get_latest_seq_no l) +:+ ".tmp").
  assert (_list_checkpoints room crashed = _list_checkpoints room dir) as Hl.
  { unfold _list_checkpoints, crashed, write_tmp. fold tmp.
    change (omap _ (rev (dkeys (dset tmp partial dir))))
      with (omap (checkpoint_of room) (rev (dkeys (dset tmp partial dir)))).
    change (omap _ (rev (dkeys dir))) with (omap (checkpoint_of room) (rev (dkeys dir))).
    rewrite dkeys_dset. destruct (decide (tmp ∈ dkeys dir)); [done|].
    rewrite rev_app_distr. cbn [rev app]. change (omap ?f (tmp :: ?l)) with (match f tmp with Some y => y :: omap f l | None => omap f l end).
    assert (checkpoint_of room tmp = None) as -> by apply checkpoint_of_tmp. done. }
  split; [done|]. unfold recover. rewrite Hl.
  assert (∀ names, (∀ n x, (n, x) ∈ names → x ≠ tmp) → recover_from room crashed names = recover_from room dir names) as Hr.
  { induction names as [|[n x] names IH]; intros Hne; [done|]. cbn [recover_from].
    rewrite IH by (intros; eapply Hne; by right). unfold crashed, write_tmp. fold tmp.
    rewrite dget_dset_ne; [done|]. eapply Hne. left. }
  apply Hr. intros n x Hin -> . apply elem_of_list in Hin as [_ Hc].
  assert (checkpoint_of room tmp = None) as Ht by apply checkpoint_of_tmp. congruence.
Qed.

(** A log whose last event was rejected, and the snapshot it gives. *)
Definition sample_log : EventLog := mkLog "lobby" sample_events 5 1.
Definition sample_snapshot : Snapshot := replay sample_events (new_snapshot "lobby").

Lemma recover_after_checkpoint_witness :
  recover "lobby" (_write_checkpoint sample_log sample_snapshot
    [("checkpoint_lobby_2.json", "damaged"); ("notes.txt", "x")]) =
  Ok (Some (log_tail sample_log sample_snapshot, sample_snapshot)).
Proof.
  refine (proj1 (recover_after_checkpoint sample_log sample_snapshot
    [("checkpoint_lobby_2.json", "damaged"); ("notes.txt", "x")] _ _ _ _ _ _ _ _)).
  - by split.
  - done.
  - repeat constructor; cbn; lia.
  - repeat (constructor; [by intros [=]|]). constructor.
  - unfold sample_snapshot, replay, sample_events. cbn [foldl].
    repeat (apply apply_event_wf; [by intros [=]|]). apply new_snapshot_wf.
  - apply replay_settles. repeat constructor; cbn; lia.
  - apply (bool_decide_unpack _). by vm_compute.
  - intros n x Hin. apply elem_of_cons in Hin as [->|Hin].
    + vm_compute. by intros [= <-].
    + apply elem_of_cons in Hin as [->|[]%not_elem_of_nil]. by vm_compute.
Defined.
