(* ===== verification/Coordinator.v ===== *)
(** * The membership coordinator and its service facade
    ([peer_discovery/membership_integration/])

    The coordinator owns the log, the snapshot, the duplicate guard, the presence
    tracker, the checkpoint directory and the subscribers.  A subscriber's callback is
    recorded in [notified]; what it raises is caught by the code and has no effect here.
    The clock is read once per operation; identifiers from [uuid4] are arguments. *)

From stdpp Require Import prelude gmap strings.
From S2P Require Import Prelude PyDict PyStr Json Base64 Membership EventLog Snapshot Presence Durability.

Local Open Scope string_scope.
Local Open Scope list_scope.

(** ** [tracer.py] *)

Record Span := mkSpan { span_name : string; span_time : time }.
Record TraceRecord := mkTrace {
  t_trace_id : string;
  t_user_id : string;
  started_at : time;
  spans : list Span;
  completed_at : option time;
  total_duration : option time;
}.
Record Tracer := mkTracer {
  active_traces : pydict string TraceRecord;
  completed_traces : list TraceRecord;
}.

Definition start_join_trace (fresh : string) (now : time) (uid : string) (t : Tracer) : Tracer :=
  mkTracer (dset fresh (mkTrace fresh uid now [mkSpan "join_requested" now] None None) (active_traces t))
    (completed_traces t).

Definition record_span (now : time) (tid name : string) (t : Tracer) : Tracer :=
  match dget tid (active_traces t) with
  | None => t
  | Some r =>
    mkTracer (dset tid (mkTrace (t_trace_id r) (t_user_id r) (started_at r) (spans r ++ [mkSpan name now])
                (completed_at r) (total_duration r)) (active_traces t)) (completed_traces t)
  end.

Definition complete_trace (now : time) (tid : string) (t : Tracer) : Tracer :=
  match dget tid (active_traces t) with
  | None => t
  | Some r =>
    mkTracer (ddel tid (active_traces t))
      (completed_traces t ++ [mkTrace (t_trace_id r) (t_user_id r) (started_at r) (spans r)
                                (Some now) (Some (now - started_at r)%Z)])
  end.

(** [get_slow_joins]: a zero duration is falsy. *)
Definition get_slow_joins (threshold : time) (t : Tracer) : list TraceRecord :=
  List.filter (λ r, match total_duration r with
                    | Some d => negb (d =? 0)%Z && (threshold <=? d)%Z | None => false end) (completed_traces t).

(** [get_recent_traces]: a slice from [-0] is the whole list. *)
Definition get_recent_traces (limit : nat) (t : Tracer) : list TraceRecord :=
  if decide (limit = 0%nat) then completed_traces t else last_n limit (completed_traces t).

(** ** The coordinator's state *)

Record Coordinator := mkCoordinator {
  log : EventLog;
  snapshot : Snapshot;
  subscribers : pydict string Z;
  duplicate_guard : DuplicateGuard;
  disk : directory;
  presence : Presence;
  tracer : option Tracer;
  user_trace_ids : pydict string string;
  notified : list (string * MembershipEvent * MembershipDelta);
}.

Definition set_log x (c : Coordinator) : Coordinator :=
  mkCoordinator x (snapshot c) (subscribers c) (duplicate_guard c) (disk c) (presence c) (tracer c)
    (user_trace_ids c) (notified c).
Definition set_snapshot x (c : Coordinator) : Coordinator :=
  mkCoordinator (log c) x (subscribers c) (duplicate_guard c) (disk c) (presence c) (tracer c)
    (user_trace_ids c) (notified c).
Definition set_subscribers x (c : Coordinator) : Coordinator :=
  mkCoordinator (log c) (snapshot c) x (duplicate_guard c) (disk c) (presence c) (tracer c)
    (user_trace_ids c) (notified c).
Definition set_guard x (c : Coordinator) : Coordinator :=
  mkCoordinator (log c) (snapshot c) (subscribers c) x (disk c) (presence c) (tracer c)
    (user_trace_ids c) (notified c).
Definition set_disk x (c : Coordinator) : Coordinator :=
  mkCoordinator (log c) (snapshot c) (subscribers c) (duplicate_guard c) x (presence c) (tracer c)
    (user_trace_ids c) (notified c).
Definition set_presence x (c : Coordinator) : Coordinator :=
  mkCoordinator (log c) (snapshot c) (subscribers c) (duplicate_guard c) (disk c) x (tracer c)
    (user_trace_ids c) (notified c).
Definition set_tracing t ids (c : Coordinator) : Coordinator :=
  mkCoordinator (log c) (snapshot c) (subscribers c) (duplicate_guard c) (disk c) (presence c) t ids
    (notified c).
Definition set_notified x (c : Coordinator) : Coordinator :=
  mkCoordinator (log c) (snapshot c) (subscribers c) (duplicate_guard c) (disk c) (presence c) (tracer c)
    (user_trace_ids c) x.

(** The validator's context dictionary; the caller's own has only some of the keys. *)
Record JoinContext := mkContext {
  ctx_room : option string;
  source_address : option string;
  ctx_public_key : option bytes;
  arrived_at : option time;
}.

(** The constructor's arguments and the registered hooks: the security team's validator
    (accepted, reason) and the history team's handler, which may call the coordinator
    back. *)
Record Hooks := mkHooks {
  room : string;
  local_user_id : option string;
  join_validator : option (string → string → JoinContext → result (bool * option string));
  history_handler : option (string → MembershipEvent → M Coordinator unit);
}.

Definition BACKFILL_TIMEOUT : time := seconds 30.
Definition SNAPSHOT_INTERVAL : Z := 100.

Definition new_coordinator (room : string) (dir : directory) (enable_tracing : bool) : Coordinator :=
  mkCoordinator (new_log room) (new_snapshot room) [] new_guard dir new_presence
    (if enable_tracing then Some (mkTracer [] []) else None) [] [].

Definition on_log {A} (m : M EventLog A) : M Coordinator A := λ c,
  let '(r, l) := m (log c) in (r, set_log l c).

Definition apply_snapshot (e : MembershipEvent) : M Coordinator (option MembershipDelta) := λ c,
  let '(d, s) := apply_event e (snapshot c) in (Ok d, set_snapshot s c).

(** ** [notifier.py] *)

Definition deliver_to (ids : list string) (e : MembershipEvent) (d : MembershipDelta) (c : Coordinator) : Coordinator :=
  set_notified (notified c ++ ((λ i, (i, e, d)) <$> ids)) c.

(** [EventNotifier.dispatch] *)
Definition dispatch (e : MembershipEvent) (d : option MembershipDelta) : M Coordinator unit :=
  match d with
  | None => mret ()
  | Some d => modify (λ c, deliver_to (dkeys (subscribers c)) e d c)
  end.

(** ** Steps shared by the handlers *)

(** [event = self._log.append(et, uid, source=..., term=1, ...)] and
    [delta = self._snapshot.apply_event(event)]. *)
Definition commit (now : time) (et : EventType) (uid src dn : string) (tr : option string)
    (pk : option bytes) : M Coordinator (MembershipEvent * option MembershipDelta) :=
  e ← on_log (append now et uid src 1 dn tr pk);
  d ← apply_snapshot e;
  mret (e, d).

(** [local_event = self._log.append_remote(event)] and its [apply_event]. *)
Definition commit_remote (e : MembershipEvent) : M Coordinator (MembershipEvent * option MembershipDelta) :=
  e' ← on_log (append_remote e);
  d ← apply_snapshot e';
  mret (e', d).

(** ... followed by [self._notifier.dispatch(event, delta)]. *)
Definition commit_and_dispatch (now : time) (et : EventType) (uid src dn : string) (tr : option string)
    (pk : option bytes) : M Coordinator MembershipEvent :=
  ed ← commit now et uid src dn tr pk;
  dispatch ed.1 ed.2;;
  mret ed.1.

Definition checkpoint : M Coordinator unit :=
  modify (λ c, set_disk (maybe_checkpoint SNAPSHOT_INTERVAL (log c) (snapshot c) (disk c)).2 c).

Definition track (now : time) (uid : string) : M Coordinator unit :=
  modify (λ c, set_presence (register_member now uid (presence c)) c).
Definition untrack (uid : string) : M Coordinator unit :=
  modify (λ c, set_presence (unregister_member uid (presence c)) c).

(** [if self._tracer and user_id in self._user_trace_ids: ...record_span(...)] *)
Definition trace_span (now : time) (uid name : string) : M Coordinator unit :=
  modify (λ c, match tracer c, dget uid (user_trace_ids c) with
               | Some t, Some tid => set_tracing (Some (record_span now tid name t)) (user_trace_ids c) c
               | _, _ => c
               end).

Definition rejection (n v : Z) (why : option string) (c : Coordinator) : JoinResult :=
  mkJoinResult false n v (get_active_members (snapshot c)) why.

(** ** The coordinator's operations *)

Definition _handle_presence_change (now : time) (uid : string) (ch : change) : M Coordinator unit :=
  c ← get;
  match get_member uid (snapshot c) with
  | None => mret ()
  | Some current =>
    let et := match ch with suspected => DISCONNECT_SUSPECTED | timed_out => DISCONNECT_TIMEOUT
                          | reconnected => RECONNECTED end in
    commit_and_dispatch now et uid "presence" (m_display_name current) None None;;
    (match ch with timed_out => untrack uid | _ => mret () end);;
    checkpoint
  end.

(** [PresenceManager.record_heartbeat] with the coordinator's callback. *)
Definition presence_heartbeat (now : time) (uid : string) : M Coordinator unit :=
  c ← get;
  let '(p, ch) := record_heartbeat now uid (presence c) in
  modify (set_presence p);;
  match ch with Some ch => _handle_presence_change now uid ch | None => mret () end.

Section Operations.
Variable hooks : Hooks.

Definition is_local (uid : string) : bool := bool_decide (local_user_id hooks = Some uid).

Definition handle_join (now : time) (fresh_trace : string) (uid dn : string) (pk : option bytes)
    (ctx : option JoinContext) : M Coordinator JoinResult :=
  c ← get;
  let '(dup, g) := is_duplicate now uid (event_value JOIN_REQUESTED) (duplicate_guard c) in
  modify (set_guard g);;
  if dup then mret (rejection 0 (version (snapshot c)) (Some "Duplicate join request") c)
  else
    verdict ← (match join_validator hooks with
               | None => mret (true, None)
               | Some v => lift (v uid dn (default (mkContext (Some (room hooks)) None pk (Some now)) ctx))
               end);
    if negb verdict.1 then
      ed ← commit now JOIN_REJECTED uid "coordinator" dn None None;
      dispatch ed.1 (Some (mkDelta "rejected" uid ed.1));;
      c ← get;
      mret (rejection (seq_no ed.1) (membership_version ed.1) verdict.2 c)
    else
      modify (λ c, match tracer c with
        | None => c
        | Some t => set_tracing (Some (record_span now fresh_trace "join_accepted"
                                  (start_join_trace fresh_trace now uid t)))
                      (dset uid fresh_trace (user_trace_ids c)) c
        end);;
      c ← get;
      let trace := match tracer c with Some _ => Some fresh_trace | None => None end in
      e ← commit_and_dispatch now JOIN_ACCEPTED uid "coordinator" dn trace pk;
      (if is_local uid then mret () else track now uid);;
      checkpoint;;
      (match history_handler hooks with
       | None => mret ()
       | Some h => try_except (h uid e) (λ _, mret ())
       end);;
      c ← get;
      mret (mkJoinResult true (seq_no e) (membership_version e) (get_active_members (snapshot c)) None).

Definition handle_leave (now : time) (uid : string) : M Coordinator unit :=
  c ← get;
  match get_member uid (snapshot c) with
  | None => mret ()
  | Some current =>
    if bool_decide (state current ∈ [LEFT; DISCONNECTED]) then mret ()
    else
      (if bool_decide (state current = LEAVING) then mret ()
       else commit now LEAVE_REQUESTED uid "coordinator" (m_display_name current) None None;; mret ());;
      commit_and_dispatch now LEAVE_CONFIRMED uid "coordinator" (m_display_name current) None None;;
      untrack uid;;
      checkpoint
  end.

Definition handle_heartbeat (now : time) (uid : string) : M Coordinator unit :=
  c ← get;
  match get_member uid (snapshot c) with
  | None => mret ()
  | Some current =>
    commit now HEARTBEAT uid "coordinator" (m_display_name current) None None;;
    presence_heartbeat now uid;;
    checkpoint
  end.

Definition handle_start_backfill (now : time) (uid : string) : M Coordinator unit :=
  c ← get;
  match get_member uid (snapshot c) with
  | None => mret ()
  | Some current =>
    if negb (bool_decide (state current = JOINING)) then mret ()
    else
      trace_span now uid "backfill_started";;
      commit_and_dispatch now HISTORY_BACKFILL_STARTED uid "coordinator" (m_display_name current) None None;;
      checkpoint
  end.

Definition handle_complete_backfill (now : time) (uid : string) : M Coordinator unit :=
  c ← get;
  match get_member uid (snapshot c) with
  | None => mret ()
  | Some current =>
    if negb (bool_decide (state current = BACKFILLING)) then mret ()
    else
      modify (λ c, match tracer c, dget uid (user_trace_ids c) with
        | Some t, Some tid =>
          set_tracing (Some (complete_trace now tid (record_span now tid "backfill_complete" t)))
            (ddel uid (user_trace_ids c)) c
        | _, _ => c
        end);;
      commit_and_dispatch now HISTORY_BACKFILL_COMPLETE uid "coordinator" (m_display_name current) None None;;
      checkpoint
  end.

(** [subscribe]: the handle's identifier is [fresh]; the events past [from_version] are
    delivered at once, with the delta their type stands for. *)
Definition subscribe (fresh : string) (from_version : Z) : M Coordinator string :=
  modify (λ c, set_subscribers (dset fresh from_version (subscribers c)) c);;
  c ← get;
  forM (get_events_since from_version (log c)) (λ e,
    match delta_of e with
    | None => mret ()
    | Some d => modify (deliver_to [fresh] e d)
    end);;
  mret fresh.

Definition unsubscribe (handle : string) : M Coordinator unit :=
  modify (λ c, set_subscribers (ddel handle (subscribers c)) c).

Definition _sweep_backfill_timeouts (now : time) : M Coordinator unit :=
  c ← get;
  forM (members (snapshot c)) (λ kv,
    let m := kv.2 in
    if negb (bool_decide (state m = BACKFILLING)) then mret ()
    else if (now - joined_at m <=? BACKFILL_TIMEOUT)%Z then mret ()
    else
      commit_and_dispatch now DISCONNECT_TIMEOUT kv.1 "coordinator" (m_display_name m) None None;;
      untrack kv.1;;
      checkpoint).

Definition tick (now : time) : M Coordinator unit :=
  check_liveness presence set_presence (_handle_presence_change now) now;;
  _sweep_backfill_timeouts now.

(** [recover]: the state of the newest readable checkpoint, if any. *)
Definition recover (now : time) : M Coordinator bool :=
  c ← get;
  r ← lift (Durability.recover (room hooks) (disk c));
  match r with
  | None => mret true
  | Some (l, s) =>
    modify (λ c, set_snapshot s (set_log l c));;
    forM (members s) (λ kv,
      if is_local kv.1 then mret ()
      else if bool_decide (state kv.2 ∈ [ACTIVE; JOINING; BACKFILLING; SUSPECTED]) then track now kv.1
      else mret ());;
    mret true
  end.

Definition _apply_remote_event (now : time) (e : MembershipEvent) : M Coordinator unit :=
  ed ← commit_remote e;
  let e' := ed.1 in
  dispatch e' ed.2;;
  (match event_type e' with
   | JOIN_ACCEPTED => track now (user_id e')
   | HEARTBEAT => track now (user_id e');; presence_heartbeat now (user_id e')
   | _ => mret ()
   end);;
  checkpoint.

Definition _apply_remote_snapshot (now : time) (es : list MembershipEvent) : M Coordinator unit :=
  forM es (_apply_remote_event now).

End Operations.

(** [_auto_complete_backfill_handler] of [network/discovery_node.py]: the default history
    handler starts and completes the backfill at once. *)
Definition _auto_complete_backfill_handler (now : time) (uid : string) (e : MembershipEvent) :
    M Coordinator unit :=
  handle_start_backfill now uid;;
  handle_complete_backfill now uid.

(** ** [MembershipService]

    The facade delegates; [__init__] builds a coordinator and recovers. *)

Definition service_init (hooks : Hooks) (now : time) (dir : directory) (enable_tracing : bool) : Coordinator :=
  (recover hooks now (new_coordinator (room hooks) dir enable_tracing)).2.

(** The calls that reach a running coordinator. *)
Inductive call :=
  | join_member (fresh_trace uid dn : string) (pk : option bytes) (ctx : option JoinContext)
  | leave_member (uid : string)
  | heartbeat_member (uid : string)
  | start_history_backfill (uid : string)
  | complete_history_backfill (uid : string)
  | subscribe_membership_events (fresh : string) (from_version : Z)
  | unsubscribe_membership_events (handle : string)
  | service_tick
  | apply_remote_event (e : MembershipEvent)
  | apply_remote_snapshot (es : list MembershipEvent).

Definition serve (hooks : Hooks) (now : time) (x : call) : M Coordinator unit :=
  match x with
  | join_member fresh uid dn pk ctx => handle_join hooks now fresh uid dn pk ctx;; mret ()
  | leave_member uid => handle_leave now uid
  | heartbeat_member uid => handle_heartbeat now uid
  | start_history_backfill uid => handle_start_backfill now uid
  | complete_history_backfill uid => handle_complete_backfill now uid
  | subscribe_membership_events fresh v => subscribe fresh v;; mret ()
  | unsubscribe_membership_events h => unsubscribe h
  | service_tick => tick now
  | apply_remote_event e => _apply_remote_event now e
  | apply_remote_snapshot es => _apply_remote_snapshot now es
  end.

(** A sequence of calls; an exception leaves what was done before it. *)
Definition serve_all (hooks : Hooks) (calls : list (time * call)) (c : Coordinator) : Coordinator :=
  foldl (λ c tx, (serve hooks tx.1 tx.2 c).2) c calls.
