(* ===== verification/CoordinatorKeeps.v ===== *)
(** * What every operation of the coordinator keeps

    The coordinator changes its log and its snapshot in four places only: an event
    committed and dispatched, one committed in silence, a rejected join, and a gossiped
    event.  [Respected R] asks that a relation between the state before and the state after
    holds across each of them and across what touches neither; then it holds across every
    operation and every service call.  Its instances are the consistency of the log and the
    snapshot ([CoordinatorFacts.v]), the routing table ([MembershipRouter.v]) and the
    numbering of the log ([DiscoveryFacts.v]). *)

From stdpp Require Import prelude gmap strings.
From S2P Require Import Prelude PyDict PyStr Json Base64 Membership EventLog Snapshot Presence Durability Coordinator.

Local Open Scope string_scope.
Local Open Scope list_scope.

(** Events that produce no visible change. *)
Definition unseen (et : EventType) : Prop := delta_type et = None.

(** [K] is what is asked of a public key that enters the log, [H] of a handle that
    subscribes or leaves. *)
Class Respected (K : option bytes → Prop) (H : string → Prop) (R : relation Coordinator) := {
  respected_preorder :: PreOrder R;
  no_key : K None;
  elsewhere c c' : log c' = log c → snapshot c' = snapshot c → disk c' = disk c →
    subscribers c' = subscribers c → notified c' = notified c → R c c';
  respect_announce now et uid src dn tr pk : K pk →
    keeps R (commit_and_dispatch now et uid src dn tr pk);
  respect_silent now et uid src dn tr pk : K pk → unseen et →
    keeps R (commit now et uid src dn tr pk);
  respect_reject {B} now uid src dn tr d (k : MembershipEvent * option MembershipDelta → M Coordinator B) :
    (∀ ed, keeps R (k ed)) →
    keeps R (ed ← commit now JOIN_REJECTED uid src dn tr None; dispatch ed.1 (Some (d ed.1));; k ed);
  respect_remote {B} e (k : MembershipEvent * option MembershipDelta → M Coordinator B) : K (public_key e) →
    (∀ ed, keeps R (k ed)) → keeps R (ed ← commit_remote e; dispatch ed.1 ed.2;; k ed);
  respect_checkpoint : keeps R checkpoint;
  respect_subscribe h v : H h → keeps R (subscribe h v);
  respect_unsubscribe h : H h → keeps R (unsubscribe h);
}.

Section Respected.
Context (K : option bytes → Prop) (H : string → Prop) (R : relation Coordinator) `{!Respected K H R}.

#[local] Hint Extern 1 (R _ _) => by apply elsewhere : keeps.
#[local] Hint Extern 1 (K None) => exact no_key : keeps.
#[local] Hint Extern 1 (unseen _) => reflexivity : keeps.
#[local] Hint Resolve respect_announce respect_silent respect_checkpoint : keeps.
Ltac respects := keeps_tac; try (by apply elsewhere).

Lemma presence_change_kept now uid ch : keeps R (_handle_presence_change now uid ch).
Proof using Type*. unfold _handle_presence_change, untrack. respects. Qed.
#[local] Hint Resolve presence_change_kept : keeps.
Lemma presence_heartbeat_kept now uid : keeps R (presence_heartbeat now uid).
Proof using Type*. unfold presence_heartbeat. respects. Qed.
#[local] Hint Resolve presence_heartbeat_kept : keeps.
Lemma leave_kept now uid : keeps R (handle_leave now uid).
Proof using Type*. unfold handle_leave, untrack. respects. Qed.
Lemma heartbeat_kept now uid : keeps R (handle_heartbeat now uid).
Proof using Type*. unfold handle_heartbeat. respects. Qed.
Lemma start_kept now uid : keeps R (handle_start_backfill now uid).
Proof using Type*.
  unfold handle_start_backfill, trace_span. respects. apply elsewhere; by repeat case_match.
Qed.
Lemma complete_kept now uid : keeps R (handle_complete_backfill now uid).
Proof using Type*. unfold handle_complete_backfill. respects. apply elsewhere; by repeat case_match. Qed.
Lemma sweep_kept now : keeps R (_sweep_backfill_timeouts now).
Proof using Type*. unfold _sweep_backfill_timeouts, untrack. respects. Qed.
Lemma check_entry_kept now kv :
  keeps R (check_entry presence set_presence (_handle_presence_change now) now kv).
Proof using Type*. unfold check_entry. respects. Qed.
#[local] Hint Resolve leave_kept heartbeat_kept start_kept complete_kept sweep_kept check_entry_kept : keeps.
Lemma tick_kept now : keeps R (tick now).
Proof using Type*. unfold tick, check_liveness. respects. Qed.
Lemma remote_event_kept now e : K (public_key e) → keeps R (_apply_remote_event now e).
Proof using Type*.
  intros Hk. unfold _apply_remote_event. apply respect_remote; [done|]. intros ed. unfold track. respects.
Qed.
#[local] Hint Resolve tick_kept : keeps.

(** The default history handler acts through the coordinator's operations. *)
Lemma auto_handler_kept now uid e : keeps R (_auto_complete_backfill_handler now uid e).
Proof using Type*. unfold _auto_complete_backfill_handler. respects. Qed.

(** The history handler only does what keeps the relation. *)
Definition handler_kept (hooks : Hooks) : Prop :=
  ∀ h uid e, history_handler hooks = Some h → keeps R (h uid e).

Lemma join_kept hooks now fresh uid dn pk ctx : handler_kept hooks → K pk →
  keeps R (handle_join hooks now fresh uid dn pk ctx).
Proof using Type*.
  intros Hh Hpk. unfold handle_join, track. apply keeps_bind; [typeclasses eauto|respects|]. intros c.
  destruct (is_duplicate _ _ _ _) as [dup g].
  apply keeps_bind; [typeclasses eauto|respects|]. intros [].
  destruct dup; [respects|]. apply keeps_bind; [typeclasses eauto|respects|]. intros verdict.
  destruct (negb verdict.1).
  - apply respect_reject with (d := mkDelta "rejected" uid). respects.
  - respects. apply elsewhere; by destruct (tracer _).
Qed.

Lemma remote_events_kept now es : Forall (λ e, K (public_key e)) es →
  keeps R (_apply_remote_snapshot now es).
Proof using Type*.
  unfold _apply_remote_snapshot. induction 1 as [|e es He _ IH]; [apply keeps_ret; typeclasses eauto|]. cbn.
  apply keeps_bind; [typeclasses eauto|by apply remote_event_kept|]. intros []. apply IH.
Qed.

(** What is asked of a call: the keys it brings, the handle it names. *)
Definition call_ok (x : call) : Prop :=
  match x with
  | join_member _ _ _ pk _ => K pk
  | apply_remote_event e => K (public_key e)
  | apply_remote_snapshot es => Forall (λ e, K (public_key e)) es
  | subscribe_membership_events h _ | unsubscribe_membership_events h => H h
  | _ => True
  end.

Lemma serve_kept hooks now x : handler_kept hooks → call_ok x → keeps R (serve hooks now x).
Proof using Type*.
  intros Hh Hk. destruct x; cbn [serve call_ok] in *; respects.
  - by apply join_kept.
  - by apply respect_subscribe.
  - by apply respect_unsubscribe.
  - by apply remote_event_kept.
  - by apply remote_events_kept.
Qed.

Lemma serve_all_kept hooks calls c : handler_kept hooks → Forall (λ tx, call_ok tx.2) calls →
  R c (serve_all hooks calls c).
Proof using Type*.
  intros Hh Hk. unfold serve_all. apply (foldl_inv (R c)); [reflexivity|]. intros [now x] c' Hin Hc'.
  rewrite Forall_forall in Hk. etransitivity; [exact Hc'|]. by apply serve_kept, (Hk _ Hin).
Qed.

End Respected.

(** Two relations respected are respected together. *)
Definition both {S} (R1 R2 : relation S) : relation S := λ c c', R1 c c' ∧ R2 c c'.

Lemma keeps_both {S A} (R1 R2 : relation S) (m : M S A) : keeps (both R1 R2) m ↔ keeps R1 m ∧ keeps R2 m.
Proof. unfold keeps, both. split; [intros Hm; by split; intros s; apply Hm|]. intros [H1 H2] s. by split. Qed.
#[export] Instance both_preorder {S} (R1 R2 : relation S) `{!PreOrder R1, !PreOrder R2} : PreOrder (both R1 R2).
Proof.
  split; [intros c; by split|]. intros a b c [A1 A2] [B1 B2]. split; by transitivity b.
Qed.
Ltac split_both :=
  match goal with H : ∀ ed, keeps (both _ _) _ |- _ =>
    intros ed; by destruct (proj1 (keeps_both _ _ _) (H ed)) end.

#[export] Instance respected_both K H (R1 R2 : relation Coordinator) :
  Respected K H R1 → Respected K H R2 → Respected K H (both R1 R2).
Proof.
  intros X1 X2. assert (∀ A (m : M Coordinator A), keeps R1 m → keeps R2 m → keeps (both R1 R2) m) as Hboth
    by (intros; by apply keeps_both).
  split; try typeclasses eauto; intros; try apply Hboth.
  - apply X1.
  - split; by eapply elsewhere.
  - by apply respect_announce.
  - by eapply (respect_announce (Respected := X2)).
  - by apply respect_silent.
  - by apply (respect_silent (Respected := X2)).
  - apply respect_reject. split_both.
  - apply (respect_reject (Respected := X2)). split_both.
  - apply respect_remote; [done|]. split_both.
  - apply (respect_remote (Respected := X2)); [done|]. split_both.
  - apply respect_checkpoint.
  - apply (respect_checkpoint (Respected := X2)).
  - by apply respect_subscribe.
  - by apply (respect_subscribe (Respected := X2)).
  - by apply respect_unsubscribe.
  - by apply (respect_unsubscribe (Respected := X2)).
Qed.
