(* ===== verification/CoordinatorFacts.v ===== *)
(** * Properties of the membership coordinator *)

From stdpp Require Import prelude gmap strings.
From S2P Require Import Prelude PyDict PyStr Json Base64 Membership EventLog Snapshot Presence Durability Coordinator CoordinatorKeeps.

Local Open Scope string_scope.
Local Open Scope list_scope.

(** ** The invariant

    The snapshot is the projection of the log over the state the coordinator started
    from, the log is in sequence order below the next number, and the checkpoints on
    disk are the coordinator's own and not newer than its log. *)
Definition disk_ok (rm : string) (latest : Z) (d : directory) : Prop :=
  dwf d ∧ ∀ n x, x ∈ dkeys d → checkpoint_of rm x = Some (n, x) → x = checkpoint_name rm n ∧ (n ≤ latest)%Z.

Record consistent (base : Snapshot) (c : Coordinator) : Prop := {
  projection : snapshot c = replay (events (log c)) base;
  in_order : sorted_on seq_no (events (log c));
  below_next : Forall (λ e, (seq_no e < next_seq_no (log c))%Z) (events (log c));
  position : (as_of_seq_no (snapshot c) < next_seq_no (log c))%Z ∧ (1 ≤ next_seq_no (log c))%Z;
  rooms : log_room (log c) = snap_room base;
  well_keyed : log_keys_ok (log c) ∧ snapshot_wf (snapshot c);
  disk_own : disk_ok (snap_room base) (get_latest_seq_no (log c)) (disk c);
}.

Section Consistency.
Context (base : Snapshot) (Hroom : room_ok (snap_room base)).

Definition stays (c c' : Coordinator) : Prop := consistent base c → consistent base c'.

#[local] Instance stays_preorder : PreOrder stays.
Proof. unfold stays. split; [by intros c Hc|]. intros a b c H1 H2 H. auto. Qed.

(** A change outside the log, the snapshot and the disk. *)
Lemma same_stays c c' : log c' = log c → snapshot c' = snapshot c → disk c' = disk c → stays c c'.
Proof. intros H1 H2 H3 [? ? ? ? ? ? ?]. split; by rewrite ?H1, ?H2, ?H3. Qed.

Lemma apply_event_position e s :
  as_of_seq_no (apply_event e s).2 = as_of_seq_no s ∨ as_of_seq_no (apply_event e s).2 = seq_no e.
Proof. destruct (apply_event_settles e s) as [_ [->|H]]; auto. Qed.

(** Appending an event numbered next and projecting it. *)
Lemma push_stays e ct c : seq_no e = next_seq_no (log c) → key_ok (public_key e) →
  stays c (set_snapshot (apply_event e (snapshot c)).2 (set_log (push e ct (log c)) c)).
Proof.
  intros Hseq Hkey [Hp Ho Hb Hpos Hr [Hlk Hsw] [Hd Hk]].
  split; cbn [snapshot log set_snapshot set_log push events next_seq_no log_room disk].
  - rewrite replay_app, <- Hp. done.
  - apply sorted_snoc; [done|]. eapply Forall_impl; [exact Hb|]. intros x Hx. cbn beta in *. lia.
  - apply Forall_app. split; [|apply Forall_singleton; lia]. eapply Forall_impl; [exact Hb|]. intros x Hx. cbn beta in *. lia.
  - destruct (apply_event_position e (snapshot c)) as [->| ->]; lia.
  - done.
  - split; [apply Forall_app; by repeat constructor|by apply apply_event_wf].
  - split; [done|]. intros n x Hx Hc. destruct (Hk n x Hx Hc) as [? ?]. split; [done|].
    unfold get_latest_seq_no in *. cbn. lia.
Qed.

Lemma commit_run now et uid src dn tr pk c : commit now et uid src dn tr pk c =
  match append now et uid src 1 dn tr pk (log c) with
  | (Ok e, l) => (Ok (e, (apply_event e (snapshot c)).1), set_snapshot (apply_event e (snapshot c)).2 (set_log l c))
  | (Raise x, l) => (Raise x, set_log l c)
  end.
Proof.
  unfold commit, on_log, apply_snapshot. rewrite bind_run.
  destruct (append _ _ _ _ _ _ _ _ _) as [[e|x] l]; [|done]. rewrite bind_run. cbn.
  by destruct (apply_event e (snapshot c)).
Qed.

Lemma commit_stays now et uid src dn tr pk : key_ok pk → keeps stays (commit now et uid src dn tr pk).
Proof.
  intros Hkey c. rewrite commit_run. destruct (append _ _ _ _ _ _ _ _ _) as [[e|x] l] eqn:E; cbn.
  - apply append_push in E as (_ & -> & ->). by apply push_stays.
  - unfold append in E. destruct (_ <? _)%Z; simplify_eq. by apply same_stays.
Qed.

Lemma commit_remote_run e c : ∃ e', seq_no e' = next_seq_no (log c) ∧ event_type e' = event_type e ∧
  user_id e' = user_id e ∧ public_key e' = public_key e ∧ commit_remote e c = (Ok (e', (apply_event e' (snapshot c)).1),
    set_snapshot (apply_event e' (snapshot c)).2 (set_log (push e' (term e') (log c)) c)).
Proof.
  unfold commit_remote, on_log, append_remote, apply_snapshot. rewrite bind_run. cbv beta iota zeta.
  eexists. split; [|split; [|split; [|split]]]; cycle 4.
  - rewrite bind_run. destruct (apply_event _ _) eqn:E. cbn in E. cbn. rewrite E. done.
  - done. - done. - done. - done.
Qed.

Lemma commit_remote_stays e : key_ok (public_key e) → keeps stays (commit_remote e).
Proof.
  intros Hkey c. destruct (commit_remote_run e c) as (e' & Hs & _ & _ & Hk & ->).
  apply push_stays; [done|by rewrite Hk].
Qed.

Lemma checkpoint_stays : keeps stays checkpoint.
Proof.
  intros c Hc. unfold checkpoint. cbn [modify snd]. unfold maybe_checkpoint. cbv zeta.
  destruct ((0 <? get_latest_seq_no (log c)) && _)%Z eqn:Epos; [|by destruct c].
  destruct Hc as [Hp Ho Hb Hpos Hr Hwk [Hd Hk]].
  split; cbn [snapshot log disk set_disk snd]; try done.
  apply andb_true_iff in Epos as [Epos _]. apply Z.ltb_lt in Epos.
  unfold _write_checkpoint. rewrite Hr. set (final := checkpoint_name _ _).
  set (text := dumps _ _). set (dir1 := replace_file _ _ _).
  assert (dwf dir1) as Hd1.
  { unfold dir1, replace_file, write_tmp. rewrite Hr. fold final. rewrite dget_dset_eq.
    by apply dwf_dset, dwf_ddel, dwf_dset. }
  split; [by apply foldl_ddel_dwf|]. intros n x Hx Hcx.
  apply dget_is_Some in Hx as [t Ht]. rewrite prune_get in Ht. case_decide; [done|].
  pose proof (replaced_get (log c) text (disk c) x (checkpoint_of_tmp _ _)) as Hg. cbv zeta in Hg.
  rewrite Hr in Hg. fold final in Hg. fold dir1 in Hg. rewrite Ht in Hg.
  destruct (decide (x = final)) as [->|Hne].
  - unfold final in Hcx. rewrite checkpoint_of_final in Hcx by (done || lia). by injection Hcx as <-.
  - destruct (decide (x = final +:+ ".tmp")); [done|]. apply (Hk n x); [|done]. apply dget_is_Some. by eexists.
Qed.

Lemma dispatch_stays e d : keeps stays (dispatch e d).
Proof. unfold dispatch. keeps_tac. by apply same_stays. Qed.

#[export] Instance stays_respected : Respected key_ok (λ _, True) stays.
Proof.
  split; try typeclasses eauto.
  - done.
  - intros. by apply same_stays.
  - intros. unfold commit_and_dispatch. keeps_tac; [by apply commit_stays|apply dispatch_stays].
  - intros. by apply commit_stays.
  - intros B now uid src dn tr d k Hk. keeps_tac; [by apply commit_stays|apply dispatch_stays].
  - intros B e k Hkey Hk. keeps_tac; [by apply commit_remote_stays|apply dispatch_stays].
  - apply checkpoint_stays.
  - intros h v _. unfold subscribe. keeps_tac; by apply same_stays.
  - intros h _. unfold unsubscribe. keeps_tac. by apply same_stays.
Qed.

Context (hooks : Hooks).
(** The history handler only acts through the coordinator's operations. *)
Definition handler_stays : Prop := handler_kept stays hooks.

(** The public keys that reach the coordinator are not empty. *)
Definition call_keys_ok (x : call) : Prop := call_ok key_ok (λ _, True) x.

Lemma serve_all_consistent calls c : handler_stays → Forall (λ tx, call_keys_ok tx.2) calls →
  consistent base c → consistent base (serve_all hooks calls c).
Proof.
  intros Hh Hk. by apply (serve_all_kept key_ok (λ _, True) stays).
Qed.

End Consistency.

(** ** From a fresh start *)

Lemma new_consistent rm tracing : consistent (new_snapshot rm) (new_coordinator rm [] tracing).
Proof.
  split; cbn; try done.
  - constructor.
  - split; [constructor|apply new_snapshot_wf].
  - split; [constructor|]. by intros n x ?%not_elem_of_nil.
Qed.

Lemma auto_handler_stays base now uid e : room_ok (snap_room base) →
  keeps (stays base) (_auto_complete_backfill_handler now uid e).
Proof. intros Hr. pose proof (stays_respected base Hr). by apply (auto_handler_kept key_ok (λ _, True)). Qed.

(** The history handler is absent, or respects the coordinator's invariant as the default
    one does. *)
Definition lawful (hooks : Hooks) : Prop := room_ok (room hooks) ∧
  ∀ base, snap_room base = room hooks → handler_stays base hooks.

(** C3: The snapshot is always the projection of the log: after any sequence of joins,
    leaves, heartbeats, backfills, subscriptions, ticks and gossiped events, exceptions
    included, replaying the coordinator's log from an empty room gives exactly its
    snapshot, and replaying any part of it once more changes nothing. *)
Theorem snapshot_is_projection hooks calls tracing :
  lawful hooks → Forall (λ tx, call_keys_ok tx.2) calls →
  let c := serve_all hooks calls (new_coordinator (room hooks) [] tracing) in
  snapshot c = replay (events (log c)) (new_snapshot (room hooks)) ∧
  (∀ es, (∀ e, e ∈ es → e ∈ events (log c)) → replay es (snapshot c) = snapshot c) ∧
  sorted_on seq_no (events (log c)).
Proof.
  intros [Hr Hh] Hk c. assert (consistent (new_snapshot (room hooks)) c) as Hc.
  { apply serve_all_consistent; [done|by apply Hh|done|apply new_consistent]. }
  destruct Hc as [Hp Ho _ _ _ _ _]. split_and!; [done| |done].
  intros es Hes. rewrite Hp. by apply (replay_idempotent (events (log c))).
Qed.

(** ** Restart *)

Lemma recover_loop_run hooks now l c :
  forM l (λ kv : string * MemberInfo,
      if is_local hooks kv.1 then mret ()
      else if bool_decide (state kv.2 ∈ [ACTIVE; JOINING; BACKFILLING; SUSPECTED]) then track now kv.1
      else mret ()) c =
  (Ok (), set_presence (foldl (λ p kv,
      if is_local hooks kv.1 then p
      else if bool_decide (state kv.2 ∈ [ACTIVE; JOINING; BACKFILLING; SUSPECTED]) then register_member now kv.1 p
      else p) (presence c) l) c).
Proof.
  revert c. induction l as [|kv l IH]; intros c; [by destruct c|]. rewrite forM_cons. cbn [foldl].
  destruct (is_local hooks kv.1); [apply IH|]. destruct (bool_decide (state kv.2 ∈ [ACTIVE; JOINING; BACKFILLING; SUSPECTED])); [|apply IH]. apply (IH (set_presence _ c)).
Qed.

Definition survivor (hooks : Hooks) (kv : string * MemberInfo) : bool :=
  negb (is_local hooks kv.1) && bool_decide (state kv.2 ∈ [ACTIVE; JOINING; BACKFILLING; SUSPECTED]).

Lemma reregister_get hooks now l p u : dget u (tracked (foldl (λ p kv,
      if is_local hooks kv.1 then p
      else if bool_decide (state kv.2 ∈ [ACTIVE; JOINING; BACKFILLING; SUSPECTED]) then register_member now kv.1 p
      else p) p l)) =
  if decide (u ∈ (List.filter (survivor hooks) l).*1) then Some (mkEntry now ALIVE None) else dget u (tracked p).
Proof.
  revert p. induction l as [|kv l IH]; intros p; [by rewrite decide_False by apply not_elem_of_nil|].
  cbn [foldl List.filter]. rewrite IH.
  assert (∀ q : Presence, (if is_local hooks kv.1 then p
    else if bool_decide (state kv.2 ∈ [ACTIVE; JOINING; BACKFILLING; SUSPECTED]) then q else p) =
    if survivor hooks kv then q else p) as ->.
  { intros q. unfold survivor. by destruct (is_local hooks kv.1), (bool_decide _). }
  destruct (survivor hooks kv); [|done].
  cbn [fmap list_fmap]. unfold register_member. cbn [tracked with_tracked]. rewrite dget_dset.
  repeat case_decide; set_solver.
Qed.

(** C30: A restart resumes where the checkpoint was taken: in any reachable state, writing a
    checkpoint and starting a new service on the same directory gives a coordinator with
    the same snapshot, the same next sequence number and the same term, whose log still
    projects to its snapshot; and it tracks exactly the remote members that were joining,
    backfilling, active or suspected, as heard from at the restart. *)
Theorem restart_resumes hooks calls tracing now tracing' :
  lawful hooks → Forall (λ tx, call_keys_ok tx.2) calls →
  let c := serve_all hooks calls (new_coordinator (room hooks) [] tracing) in
  let c' := service_init hooks now (_write_checkpoint (log c) (snapshot c) (disk c)) tracing' in
  snapshot c' = snapshot c ∧
  next_seq_no (log c') = next_seq_no (log c) ∧ current_term (log c') = current_term (log c) ∧
  (∀ es, (∀ e, e ∈ es → e ∈ events (log c')) → replay es (snapshot c') = snapshot c') ∧
  ∀ u, dget u (tracked (presence c')) =
    if decide (u ∈ (List.filter (survivor hooks) (members (snapshot c))).*1)
    then Some (mkEntry now ALIVE None) else None.
Proof.
  intros [Hr Hh] Hk c c'. assert (consistent (new_snapshot (room hooks)) c) as Hc.
  { apply serve_all_consistent; [done|by apply Hh|done|apply new_consistent]. }
  destruct Hc as [Hp Ho Hb Hpos Hlr [Hlk Hsw] [Hd Hown]]. cbn [snap_room new_snapshot] in *.
  assert (Forall (settled (snapshot c)) (events (log c))) as Hset by (rewrite Hp; by apply replay_settles).
  destruct (checkpoint_recovers (log c) (snapshot c) (disk c)) as [Hrec _]; try done.
  { by rewrite Hlr. } { lia. }
  { intros n x Hx Hcx Hne. rewrite Hlr in *. destruct (Hown n x Hx Hcx) as [-> Hle].
    destruct (decide (n = get_latest_seq_no (log c))); [by subst|lia]. }
  rewrite Hlr in Hrec.
  assert (∃ p, c' = set_presence p (set_snapshot (snapshot c) (set_log (log_tail (log c) (snapshot c))
      (new_coordinator (room hooks) (_write_checkpoint (log c) (snapshot c) (disk c)) tracing'))) ∧
    ∀ u, dget u (tracked p) = if decide (u ∈ (List.filter (survivor hooks) (members (snapshot c))).*1)
      then Some (mkEntry now ALIVE None) else None) as (p & -> & Hpres).
  { unfold c', service_init, recover. rewrite bind_run. cbn [get]. rewrite bind_run. cbn [lift disk new_coordinator].
    rewrite Hrec. rewrite bind_run. cbn [modify]. rewrite bind_run, recover_loop_run.
    eexists. split; [reflexivity|]. intros u. apply reregister_get. }
  split_and!; try done. cbn [snapshot set_presence set_snapshot set_log log events log_tail].
  intros es Hes. apply settled_replay, Forall_forall. intros e He.
  rewrite Forall_forall in Hset. apply Hset. apply Hes in He.
  eapply elem_of_sublist; [exact He|apply list_filter_sub].
Qed.

(** ** What one committed event does *)

(** No term above the coordinator's own has been seen. *)
Definition healthy (c : Coordinator) : Prop :=
  (as_of_seq_no (snapshot c) < next_seq_no (log c))%Z ∧ (current_term (log c) ≤ 1)%Z.

(** The event the coordinator builds, and the state after it. *)
Definition built (now : time) (et : EventType) (uid src dn : string) (tr : option string)
    (pk : option bytes) (c : Coordinator) : MembershipEvent :=
  mkEvent (next_seq_no (log c)) (log_room (log c)) uid et now (next_seq_no (log c)) src 1 tr dn None pk.

Definition committed (e : MembershipEvent) (c : Coordinator) : Coordinator :=
  set_snapshot (apply_event e (snapshot c)).2 (set_log (push e 1 (log c)) c).

Lemma commit_ok now et uid src dn tr pk c : healthy c →
  let e := built now et uid src dn tr pk c in
  commit now et uid src dn tr pk c = (Ok (e, (apply_event e (snapshot c)).1), committed e c).
Proof.
  intros [_ Ht] e. rewrite commit_run. unfold append.
  rewrite (proj2 (Z.ltb_ge _ _) Ht). destruct (Z.ltb_spec (current_term (log c)) 1) as [|Hge]; [done|].
  assert (current_term (log c) = 1%Z) as E by lia. unfold e, built, committed. by rewrite E.
Qed.

Lemma built_healthy now et uid src dn tr pk c : healthy c → healthy (committed (built now et uid src dn tr pk c) c).
Proof.
  intros [Hp Ht]. split; cbn; [|lia].
  destruct (apply_event_position (built now et uid src dn tr pk c) (snapshot c)) as [->| ->]; cbn; lia.
Qed.

Lemma committed_moves now et uid src dn tr pk c st' : healthy c →
  transition et (state_of (snapshot c) uid) st' →
  let e := built now et uid src dn tr pk c in
  (apply_event e (snapshot c)).1 = delta_of e ∧ state_of (snapshot (committed e c)) uid = Some st'.
Proof.
  intros [Hp _] Htr e. destruct (apply_event_accept e (snapshot c) st') as (s' & E & Hs & _); [exact Hp|exact Htr|].
  unfold committed. cbn. by rewrite E.
Qed.

Lemma committed_rejected now et uid src dn tr pk c : neutral et = false →
  (¬ ∃ st', transition et (state_of (snapshot c) uid) st') →
  let e := built now et uid src dn tr pk c in
  (apply_event e (snapshot c)).1 = None ∧ snapshot (committed e c) = snapshot c.
Proof. intros Hn Hno e. unfold committed. cbn. by rewrite (apply_event_reject e (snapshot c) Hn Hno). Qed.

Lemma committed_other e c u : u ≠ user_id e → member (snapshot (committed e c)) u = member (snapshot c) u.
Proof. intros Hu. by apply apply_event_other. Qed.

(** The state after the event has also been dispatched. *)
Definition announced (e : MembershipEvent) (c : Coordinator) : Coordinator :=
  match (apply_event e (snapshot c)).1 with
  | None => committed e c
  | Some d => deliver_to (dkeys (subscribers c)) e d (committed e c)
  end.

Lemma commit_and_dispatch_ok now et uid src dn tr pk c : healthy c →
  let e := built now et uid src dn tr pk c in
  commit_and_dispatch now et uid src dn tr pk c = (Ok e, announced e c).
Proof.
  intros Hc e. unfold commit_and_dispatch. rewrite bind_run, commit_ok by done. fold e.
  unfold announced, dispatch. cbn [fst snd]. by destruct (apply_event e (snapshot c)).1.
Qed.

Lemma announced_snapshot e c : snapshot (announced e c) = snapshot (committed e c).
Proof. unfold announced. by destruct (apply_event e (snapshot c)).1. Qed.
Lemma announced_presence e c : presence (announced e c) = presence c.
Proof. unfold announced. by destruct (apply_event e (snapshot c)).1. Qed.
Lemma announced_log e c : log (announced e c) = push e 1 (log c).
Proof. unfold announced. by destruct (apply_event e (snapshot c)).1. Qed.
Lemma announced_notified e c : notified (announced e c) = notified c ++
  match (apply_event e (snapshot c)).1 with
  | None => [] | Some d => (λ i, (i, e, d)) <$> dkeys (subscribers c) end.
Proof. unfold announced. destruct (apply_event e (snapshot c)).1; [done|]. by rewrite app_nil_r. Qed.
Lemma announced_healthy now et uid src dn tr pk c : healthy c → healthy (announced (built now et uid src dn tr pk c) c).
Proof.
  intros Hc. pose proof (built_healthy now et uid src dn tr pk c Hc) as [H1 H2].
  split; rewrite ?announced_snapshot, announced_log; done.
Qed.

(** Everyone subscribed is told the event and its delta. *)
Definition told (c c' : Coordinator) (t : string) (uid : string) : Prop :=
  ∃ e, user_id e = uid ∧ notified c' = notified c ++ ((λ i, (i, e, mkDelta t uid e)) <$> dkeys (subscribers c)).

Lemma state_of_member c uid st : state_of (snapshot c) uid = Some st →
  ∃ m, get_member uid (snapshot c) = Some m ∧ state m = st.
Proof.
  unfold state_of, get_member. destruct (member (snapshot c) uid) as [m|]; [|done].
  intros [= <-]. by exists m.
Qed.

Lemma told_by et uid c e t : user_id e = uid → event_type e = et → delta_type et = Some t →
  (apply_event e (snapshot c)).1 = delta_of e → told c (announced e c) t uid.
Proof.
  intros Hu He Ht Hd. exists e. split; [done|]. rewrite announced_notified, Hd. unfold delta_of.
  rewrite He, Ht. cbn. by rewrite Hu.
Qed.

Lemma tracing_shape c c' : c' = c ∨ (∃ t ids, c' = set_tracing t ids c) → ∃ t ids, c' = set_tracing t ids c.
Proof. intros [->|H]; [|done]. exists (tracer c), (user_trace_ids c). by destruct c. Qed.

Lemma trace_span_run now uid name c : ∃ t ids, trace_span now uid name c = (Ok (), set_tracing t ids c).
Proof.
  unfold trace_span. unfold modify. destruct (tracing_shape c (match tracer c, dget uid (user_trace_ids c) with
    | Some t, Some tid => set_tracing (Some (record_span now tid name t)) (user_trace_ids c) c
    | _, _ => c end)) as (t & ids & ->); [|by exists t, ids].
  destruct (tracer c); [|by left]. destruct (dget uid (user_trace_ids c)); [|by left]. right. by eexists _, _.
Qed.

(** The part of the state a member's fate depends on. *)
Lemma checkpoint_run c : ∃ d, checkpoint c = (Ok (), set_disk d c).
Proof. by eexists. Qed.

Lemma start_moves now uid c : healthy c →
  state_of (snapshot c) uid = Some JOINING → ∃ c', handle_start_backfill now uid c = (Ok (), c') ∧
     state_of (snapshot c') uid = Some BACKFILLING ∧ notified c' = notified c ∧ healthy c' ∧
     ∀ u, u ≠ uid → member (snapshot c') u = member (snapshot c) u.
Proof.
  intros Hc Hst. destruct (state_of_member _ _ _ Hst) as (m & Hm & Hms).
  unfold handle_start_backfill. rewrite bind_run. cbn [get]. rewrite Hm, Hms.
  rewrite bool_decide_eq_true_2 by done. cbn [negb]. rewrite bind_run.
  destruct (trace_span_run now uid "backfill_started" c) as (t & ids & ->).
  rewrite bind_run, commit_and_dispatch_ok by done. set (e := built _ _ _ _ _ _ _ _).
  destruct (committed_moves now HISTORY_BACKFILL_STARTED uid "coordinator" (m_display_name m) None None
    (set_tracing t ids c) BACKFILLING Hc) as [Hd Hs]; [cbn; rewrite Hst; constructor|].
  destruct (checkpoint_run (announced e (set_tracing t ids c))) as [d ->].
  eexists. split; [done|]. cbn [snapshot notified set_disk]. rewrite announced_snapshot, announced_notified.
  split_and!; [exact Hs| |by apply (announced_healthy now HISTORY_BACKFILL_STARTED uid)|].
  - change (apply_event e _).1 with ((apply_event e (snapshot (set_tracing t ids c))).1).
    fold e in Hd. rewrite Hd. cbn. by rewrite app_nil_r.
  - intros u Hu. by apply (committed_other e (set_tracing t ids c)).
Qed.

Lemma complete_moves now uid c : healthy c →
  state_of (snapshot c) uid = Some BACKFILLING → ∃ c', handle_complete_backfill now uid c = (Ok (), c') ∧
     state_of (snapshot c') uid = Some ACTIVE ∧ told c c' "active" uid ∧ healthy c' ∧
     ∀ u, u ≠ uid → member (snapshot c') u = member (snapshot c) u.
Proof.
  intros Hc Hst. destruct (state_of_member _ _ _ Hst) as (m & Hm & Hms).
  unfold handle_complete_backfill. rewrite bind_run. cbn [get]. rewrite Hm, Hms.
  rewrite bool_decide_eq_true_2 by done. cbn [negb]. rewrite bind_run. cbn [modify].
  match goal with |- context [commit_and_dispatch _ _ _ _ _ _ _ ≫= ?k] => set (rest := k) end.
  assert (∃ t ids, match tracer c, dget uid (user_trace_ids c) with
    | Some t, Some tid => set_tracing (Some (complete_trace now tid (record_span now tid "backfill_complete" t)))
        (ddel uid (user_trace_ids c)) c
    | _, _ => c end = set_tracing t ids c) as (t & ids & ->).
  { apply tracing_shape. destruct (tracer c); [|by left].
    destruct (dget uid (user_trace_ids c)); [|by left]. right. by eexists _, _. }
  rewrite bind_run, commit_and_dispatch_ok by done. set (e := built _ _ _ _ _ _ _ _). unfold rest.
  destruct (committed_moves now HISTORY_BACKFILL_COMPLETE uid "coordinator" (m_display_name m) None None
    (set_tracing t ids c) ACTIVE Hc) as [Hd Hs]; [cbn; rewrite Hst; constructor|].
  destruct (checkpoint_run (announced e (set_tracing t ids c))) as [d ->].
  eexists. split; [done|]. cbn [snapshot set_disk]. rewrite announced_snapshot.
  split_and!; [exact Hs| |by apply (announced_healthy now HISTORY_BACKFILL_COMPLETE uid)|].
  - apply (told_by HISTORY_BACKFILL_COMPLETE uid (set_tracing t ids c) e "active"); done.
  - intros u Hu. by apply (committed_other e (set_tracing t ids c)).
Qed.

Lemma unregister_untracks uid p : dget uid (tracked (unregister_member uid p)) = None.
Proof. unfold unregister_member. cbn. apply dget_ddel_eq. Qed.

Lemma leave_moves now uid c : healthy c →
  state_of (snapshot c) uid = Some ACTIVE → ∃ c', handle_leave now uid c = (Ok (), c') ∧
     state_of (snapshot c') uid = Some LEFT ∧ told c c' "left" uid ∧ healthy c' ∧
     dget uid (tracked (presence c')) = None ∧
     ∀ u, u ≠ uid → member (snapshot c') u = member (snapshot c) u.
Proof.
  intros Hc Hst. destruct (state_of_member _ _ _ Hst) as (m & Hm & Hms).
  unfold handle_leave. rewrite bind_run. cbn [get]. rewrite Hm, Hms.
  rewrite !bool_decide_eq_false_2 by set_solver. rewrite bind_run, bind_run, commit_ok by done.
  set (e1 := built _ _ _ _ _ _ _ _). cbn [mret M_ret]. set (c1 := committed e1 c).
  assert (healthy c1) as Hc1 by by apply built_healthy.
  destruct (committed_moves now LEAVE_REQUESTED uid "coordinator" (m_display_name m) None None c LEAVING Hc)
    as [_ Hs1]; [rewrite Hst; constructor|].
  rewrite bind_run, commit_and_dispatch_ok by done. set (e2 := built _ _ _ _ _ _ _ c1).
  destruct (committed_moves now LEAVE_CONFIRMED uid "coordinator" (m_display_name m) None None c1 LEFT Hc1)
    as [Hd Hs]; [unfold c1, e1; rewrite Hs1; constructor|].
  rewrite bind_run. cbn [untrack modify].
  match goal with |- context [checkpoint ?x] => destruct (checkpoint_run x) as [d ->] end.
  eexists. split; [done|]. cbn [snapshot set_disk set_presence presence]. rewrite announced_snapshot.
  split_and!; [exact Hs| | | |].
  - apply (told_by LEAVE_CONFIRMED uid c1 e2 "left"); done.
  - by apply (announced_healthy now LEAVE_CONFIRMED uid).
  - apply unregister_untracks.
  - intros u Hu. rewrite committed_other by done. by apply (committed_other e1 c).
Qed.


(** A leave by a member the state machine does not let leave (joining, backfilling or
    suspected) takes no effect but on failure detection: the member stays in its state,
    subscribers hear nothing, and the member is no longer tracked, so that no later check
    reports it. *)
Theorem leave_without_permission now uid c st : healthy c →
  state_of (snapshot c) uid = Some st → st ∈ [JOINING; BACKFILLING; SUSPECTED] →
  ∃ c', handle_leave now uid c = (Ok (), c') ∧ snapshot c' = snapshot c ∧ notified c' = notified c ∧
    length (events (log c')) = length (events (log c)) + 2 ∧
    dget uid (tracked (presence c')) = None.
Proof.
  intros Hc Hst Hin. destruct (state_of_member _ _ _ Hst) as (m & Hm & Hms).
  unfold handle_leave. rewrite bind_run. cbn [get]. rewrite Hm, Hms.
  assert (st = JOINING ∨ st = BACKFILLING ∨ st = SUSPECTED) as Hst3
    by (rewrite !elem_of_cons, elem_of_nil in Hin; tauto).
  assert (bool_decide (st ∈ [LEFT; DISCONNECTED]) = false) as -> by by destruct Hst3 as [-> | [-> | ->]].
  assert (bool_decide (st = LEAVING) = false) as -> by by destruct Hst3 as [-> | [-> | ->]].
  rewrite bind_run, bind_run, commit_ok by done.
  set (e1 := built _ _ _ _ _ _ _ _). cbn [mret M_ret]. set (c1 := committed e1 c).
  assert (healthy c1) as Hc1 by by apply built_healthy.
  destruct (committed_rejected now LEAVE_REQUESTED uid "coordinator" (m_display_name m) None None c)
    as [_ Hs1]; [done|rewrite Hst; intros [st' Ht]; inversion Ht; destruct Hst3 as [ | [ | ]]; congruence|]. fold e1 in Hs1. fold c1 in Hs1.
  rewrite bind_run, commit_and_dispatch_ok by done. set (e2 := built _ _ _ _ _ _ _ c1).
  destruct (committed_rejected now LEAVE_CONFIRMED uid "coordinator" (m_display_name m) None None c1)
    as [Hd Hs2]; [done|rewrite Hs1, Hst; intros [st' Ht]; inversion Ht; destruct Hst3 as [ | [ | ]]; congruence|].
  fold e2 in Hd, Hs2. rewrite bind_run. cbn [untrack modify].
  match goal with |- context [checkpoint ?x] => destruct (checkpoint_run x) as [d ->] end.
  eexists. split; [done|]. cbn [snapshot notified log set_disk set_presence presence].
  rewrite announced_snapshot, Hs2, Hs1, announced_notified, Hd, announced_log, app_nil_r.
  split_and!; [done|done| |apply unregister_untracks].
  unfold c1. cbn. rewrite !length_app. cbn. lia.
Qed.

(** ** Joining *)

Lemma is_duplicate_again now uid et g g' : is_duplicate now uid et g = (false, g') → (0 < window_size g)%nat →
  ∀ now', is_duplicate now' uid et g' = (true, g').
Proof.
  unfold is_duplicate. destruct (dmem (uid, et) (recent g)) eqn:E; [done|]. intros [= <-] Hw now'. cbn [recent].
  apply dmem_false, dget_None in E. rewrite dset_new by done.
  assert (dmem (uid, et) (if (window_size g <? length (recent g ++ [((uid, et), now)]))%nat
    then dpop_first (recent g ++ [((uid, et), now)]) else recent g ++ [((uid, et), now)]) = true) as ->; [|done].
  apply dmem_true. unfold dkeys, dpop_first.
  rewrite length_app. cbn [length]. destruct (Nat.ltb_spec (window_size g) (length (recent g) + 1)).
  - destruct (recent g) as [|kv r]; cbn [length] in *; [lia|]. cbn [tail app]. rewrite fmap_app. set_solver.
  - rewrite fmap_app. set_solver.
Qed.

(** A first join is accepted and takes effect: the member is joining, with the name and
    key given, every subscriber is told, and the failure detector starts watching it
    unless it is the local user.  Joining again while the guard remembers the first
    request is refused as a duplicate and changes nothing, whatever has become of the
    member since. *)
Theorem join_once hooks now fresh uid dn pk ctx c g : healthy c →
  join_validator hooks = None → history_handler hooks = None →
  is_duplicate now uid "JOIN_REQUESTED" (duplicate_guard c) = (false, g) →
  (0 < window_size (duplicate_guard c))%nat →
  state_of (snapshot c) uid ∈ [None; Some DISCONNECTED; Some LEFT] →
  ∃ r c', handle_join hooks now fresh uid dn pk ctx c = (Ok r, c') ∧
    accepted r = true ∧ j_seq_no r = next_seq_no (log c) ∧ told c c' "joined" uid ∧
    (∃ m, member (snapshot c') uid = Some m ∧ state m = JOINING ∧ m_display_name m = dn ∧ m_public_key m = pk) ∧
    (dget uid (tracked (presence c')) =
       if is_local hooks uid then dget uid (tracked (presence c)) else Some (mkEntry now ALIVE None)) ∧
    ∀ c2 now2 fresh2 dn2 pk2 ctx2, duplicate_guard c2 = duplicate_guard c' →
      handle_join hooks now2 fresh2 uid dn2 pk2 ctx2 c2 =
        (Ok (rejection 0 (version (snapshot c2)) (Some "Duplicate join request") c2), c2).
Proof.
  intros Hc Hval Hhist Hdup Hw Hst. unfold handle_join at 1. rewrite bind_run. cbn [get].
  change (event_value JOIN_REQUESTED) with "JOIN_REQUESTED". rewrite Hdup.
  rewrite bind_run. cbn [modify]. rewrite Hval, bind_run. cbn [mret M_ret fst negb]. rewrite bind_run. cbn [modify].
  match goal with |- context [match tracer ?c0 with Some t => set_tracing (@?a t) ?b ?c1 | None => ?c1 end] =>
    destruct (tracing_shape c1 (match tracer c0 with Some t => set_tracing (a t) b c1 | None => c1 end))
      as (t & ids & ->); [destruct (tracer c0); [right; by eexists _, _|by left]|] end.
  set (c1 := set_tracing t ids _). rewrite bind_run. cbn [get].
  set (tr := match tracer c1 with Some _ => _ | None => _ end).
  assert (healthy c1) as Hc1 by done.
  rewrite bind_run, commit_and_dispatch_ok by done. set (e := built _ _ _ _ _ _ _ c1).
  destruct (committed_moves now JOIN_ACCEPTED uid "coordinator" dn tr pk c1 JOINING Hc1) as [Hd Hs].
  { change (snapshot c1) with (snapshot c). rewrite !elem_of_cons in Hst.
    destruct Hst as [-> | [-> | [-> | []%not_elem_of_nil]]]; constructor. }
  fold e in Hd, Hs.
  assert (member (snapshot (committed e c1)) uid = Some (joined e)) as Hm.
  { unfold committed. cbn [snapshot set_snapshot]. destruct (apply_event e (snapshot c1)) as [d s'] eqn:E.
    destruct (apply_event_cases _ _ _ _ E) as [(-> & -> & _)|(_ & _ & _ & _ & _ & _ & Hm & _)]; [done|exact Hm]. }
  rewrite bind_run. 
  assert (∃ p, (if is_local hooks uid then mret () else track now uid) (announced e c1) =
    (Ok (), set_presence p (announced e c1)) ∧ dget uid (tracked p) =
      if is_local hooks uid then dget uid (tracked (presence c)) else Some (mkEntry now ALIVE None)) as (p & -> & Hp).
  { destruct (is_local hooks uid).
    - exists (presence (announced e c1)). rewrite announced_presence. split; [|done].
      destruct (announced e c1) eqn:Ea. pose proof (announced_presence e c1) as Hpr. rewrite Ea in Hpr. cbn in *. by rewrite <- Hpr.
    - eexists. split; [done|]. cbn. by rewrite dget_dset_eq. }
  rewrite bind_run. match goal with |- context [checkpoint ?x] => destruct (checkpoint_run x) as [dk ->] end.
  rewrite Hhist, bind_run. cbn [mret M_ret]. rewrite bind_run. cbn [get].
  eexists _, _. split; [done|]. cbn [accepted j_seq_no snapshot presence set_disk set_presence].
  rewrite announced_snapshot. split_and!; [done|done| | |exact Hp|].
  - apply (told_by JOIN_ACCEPTED uid c1 e "joined"); done.
  - eexists. split; [exact Hm|]. done.
  - intros c2 now2 fresh2 dn2 pk2 ctx2 Hg2. unfold handle_join. rewrite bind_run. cbn [get].
    change (event_value JOIN_REQUESTED) with "JOIN_REQUESTED".
    assert (duplicate_guard c2 = g) as Hg.
    { rewrite Hg2. cbn. unfold announced. by destruct (apply_event e (snapshot c1)).1. }
    rewrite Hg, (is_duplicate_again _ _ _ _ _ Hdup Hw). rewrite bind_run. cbn [modify mret M_ret].
    f_equal. rewrite <- Hg. by destruct c2.
Qed.

(** ** Failure detection, end to end *)

Section Detection.
Context (u : string).

(** What the steps for other members leave alone about [u]. *)
Definition frame (c c' : Coordinator) : Prop :=
  healthy c' ∧ dget u (tracked (presence c')) = dget u (tracked (presence c)) ∧
  member (snapshot c') u = member (snapshot c) u ∧
  heartbeat_interval (presence c') = heartbeat_interval (presence c) ∧
  suspect_after_missed (presence c') = suspect_after_missed (presence c) ∧
  dead_after_suspect (presence c') = dead_after_suspect (presence c) ∧
  subscribers c' = subscribers c ∧ notified c `prefix_of` notified c' ∧
  (dwf (members (snapshot c)) → dwf (members (snapshot c'))).

Definition runs {A} (m : M Coordinator A) : Prop :=
  ∀ c, healthy c → ∃ a c', m c = (Ok a, c') ∧ frame c c'.

Lemma frame_trans c1 c2 c3 : frame c1 c2 → frame c2 c3 → frame c1 c3.
Proof.
  intros (_ & A2 & A3 & A4 & A5 & A6 & A7 & A8 & A9) (B1 & B2 & B3 & B4 & B5 & B6 & B7 & B8 & B9).
  split; [done|]. split_and!; first [congruence|by transitivity (notified c2)|by auto].
Qed.
Lemma frame_refl c : healthy c → frame c c.
Proof. by intros; split_and!. Qed.

Lemma runs_ret {A} (a : A) : runs (mret a).
Proof. intros c Hc. exists a, c. split; [done|]. by apply frame_refl. Qed.
Lemma runs_bind {A B} (m : M Coordinator A) (k : A → M Coordinator B) :
  runs m → (∀ a, runs (k a)) → runs (m ≫= k).
Proof.
  intros Hm Hk c Hc. destruct (Hm c Hc) as (a & c1 & E1 & F1). destruct (Hk a c1) as (b & c2 & E2 & F2); [apply F1|].
  exists b, c2. rewrite bind_run, E1. split; [done|]. by eapply frame_trans.
Qed.
Lemma runs_get_bind {B} (k : Coordinator → M Coordinator B) :
  (∀ c, healthy c → ∃ b c', k c c = (Ok b, c') ∧ frame c c') → runs (get ≫= k).
Proof. intros Hk c Hc. rewrite bind_run. by apply Hk. Qed.
Lemma runs_forM {A} (l : list A) f : (∀ x, x ∈ l → runs (f x)) → runs (forM l f).
Proof.
  induction l as [|x l IH]; intros Hf; [apply runs_ret|]. cbn. apply runs_bind; [apply Hf; left|].
  intros []. apply IH. intros y Hy. apply Hf. by right.
Qed.
Lemma runs_checkpoint : runs checkpoint.
Proof.
  intros c Hc. destruct (checkpoint_run c) as [d Hd]. exists (), (set_disk d c). split; [done|].
  by split_and!.
Qed.
Lemma runs_untrack v : v ≠ u → runs (untrack v).
Proof.
  intros Hv c Hc. eexists _, _. split; [reflexivity|]. split_and!; try done. cbn.
  by apply dget_ddel_ne.
Qed.
Lemma runs_commit now et v src dn tr pk : v ≠ u → runs (commit_and_dispatch now et v src dn tr pk).
Proof.
  intros Hv c Hc. eexists _, _. split; [by apply commit_and_dispatch_ok|].
  unfold frame. rewrite announced_presence, announced_snapshot.
  split_and!; try done; [by apply announced_healthy|by apply committed_other| | |].
  - unfold announced. by destruct (apply_event _ _).1.
  - rewrite announced_notified. by eexists.
  - apply apply_event_dwf.
Qed.

Lemma runs_presence_change now v ch : v ≠ u → runs (_handle_presence_change now v ch).
Proof.
  intros Hv. unfold _handle_presence_change. apply runs_get_bind. intros c Hc.
  destruct (get_member v (snapshot c)) as [m|]; [|exists (), c; split; [done|by apply frame_refl]].
  cbv zeta. revert c Hc. fold (@runs unit). apply runs_bind; [by apply runs_commit|]. intros _.
  apply runs_bind; [destruct ch; try apply runs_ret; by apply runs_untrack|]. intros _. apply runs_checkpoint.
Qed.

Lemma runs_check_entry now kv : kv.1 ≠ u →
  runs (check_entry presence set_presence (_handle_presence_change now) now kv).
Proof.
  intros Hv c Hc. unfold check_entry. rewrite bind_run. cbn [get].
  destruct (liveness_step now (presence c) kv.2) as [e' [ch|]]; [|exists (), c; split; [done|by apply frame_refl]].
  rewrite bind_run. cbn [modify]. set (c1 := set_presence _ c).
  assert (frame c c1) as F1.
  { split_and!; try done. cbn. by apply dget_dset_ne. }
  destruct (runs_presence_change now kv.1 ch Hv c1) as ([] & c2 & E2 & F2); [done|].
  exists (), c2. split; [done|]. by eapply frame_trans.
Qed.

Lemma runs_sweep_entry now kv : kv.1 ≠ u ∨ state kv.2 ≠ BACKFILLING →
  runs (let m := kv.2 in
    if negb (bool_decide (state m = BACKFILLING)) then mret ()
    else if (now - joined_at m <=? BACKFILL_TIMEOUT)%Z then mret ()
    else
      commit_and_dispatch now DISCONNECT_TIMEOUT kv.1 "coordinator" (m_display_name m) None None;;
      untrack kv.1;;
      checkpoint).
Proof.
  intros Hv. cbv zeta. destruct (decide (state kv.2 = BACKFILLING)) as [E|E].
  - destruct Hv as [Hv|]; [|done]. rewrite bool_decide_eq_true_2 by done. cbn [negb].
    destruct (_ <=? _)%Z; [apply runs_ret|].
    apply runs_bind; [by apply runs_commit|]. intros _.
    apply runs_bind; [by apply runs_untrack|]. intros _. apply runs_checkpoint.
  - rewrite bool_decide_eq_false_2 by done. apply runs_ret.
Qed.

(** The sweep leaves a member alone that is not backfilling. *)
Lemma sweep_frame now c : healthy c → dwf (members (snapshot c)) →
  state_of (snapshot c) u ≠ Some BACKFILLING →
  ∃ c', _sweep_backfill_timeouts now c = (Ok (), c') ∧ frame c c'.
Proof.
  intros Hc Hwf Hst. unfold _sweep_backfill_timeouts. rewrite bind_run. cbn [get].
  assert (runs (forM (members (snapshot c)) (λ kv,
    let m := kv.2 in
    if negb (bool_decide (state m = BACKFILLING)) then mret ()
    else if (now - joined_at m <=? BACKFILL_TIMEOUT)%Z then mret ()
    else
      commit_and_dispatch now DISCONNECT_TIMEOUT kv.1 "coordinator" (m_display_name m) None None;;
      untrack kv.1;;
      checkpoint))) as Hr.
  { apply runs_forM. intros [v m] Hin. apply runs_sweep_entry. cbn.
    destruct (decide (v = u)) as [->|]; [right|by left]. intros Hm. apply Hst.
    unfold state_of, member. by rewrite (elem_dget _ _ _ Hwf Hin), <- Hm. }
  destruct (Hr c Hc) as ([] & c' & E & F). by exists c'.
Qed.

Lemma runs_entries now l : u ∉ dkeys l →
  runs (forM l (check_entry presence set_presence (_handle_presence_change now) now)).
Proof.
  intros Hu. apply runs_forM. intros kv Hin. apply runs_check_entry. intros E. apply Hu.
  apply list_elem_of_fmap. by exists kv.
Qed.

(** A tick is the turns of the others, [u]'s own turn in a state where nothing of [u] has
    changed, and a sweep. *)
Lemma liveness_split now c e (Q : Coordinator → Prop) : healthy c →
  dwf (tracked (presence c)) → dget u (tracked (presence c)) = Some e →
  (∀ c1, frame c c1 → ∃ c2, check_entry presence set_presence (_handle_presence_change now) now (u, e) c1 = (Ok (), c2) ∧
     healthy c2 ∧ Q c2) →
  ∃ c2 c3, check_liveness presence set_presence (_handle_presence_change now) now c = (Ok (), c3) ∧
    Q c2 ∧ frame c2 c3.
Proof.
  intros Hc Hwf He Hown. unfold check_liveness. rewrite bind_run. cbn [get].
  apply dget_elem in He as Hin. apply list_elem_of_split in Hin as (l1 & l2 & Hl).
  assert (u ∉ dkeys l1 ∧ u ∉ dkeys l2) as [Hu1 Hu2].
  { unfold dwf in Hwf. rewrite Hl in Hwf. unfold dkeys in *. rewrite fmap_app in Hwf. cbn in Hwf.
    apply NoDup_app in Hwf as (_ & Hd & [Hn2 _]%NoDup_cons). split; [|done].
    intros Hi. apply (Hd u Hi). apply list_elem_of_here. }
  rewrite Hl, forM_app, bind_run.
  destruct (runs_entries now l1 Hu1 c Hc) as ([] & c1 & -> & F1). rewrite forM_cons.
  destruct (Hown c1 F1) as (c2 & -> & Hc2 & HQ).
  destruct (runs_entries now l2 Hu2 c2 Hc2) as ([] & c3 & -> & F3). by exists c2, c3.
Qed.
End Detection.

(** [u]'s change of presence, committed. *)
Lemma presence_change_moves u now ch et st' t c : healthy c →
  et = match ch with suspected => DISCONNECT_SUSPECTED | timed_out => DISCONNECT_TIMEOUT
                   | reconnected => RECONNECTED end →
  transition et (state_of (snapshot c) u) st' → delta_type et = Some t →
  ∃ c', _handle_presence_change now u ch c = (Ok (), c') ∧ healthy c' ∧
    state_of (snapshot c') u = Some st' ∧ told c c' t u ∧
    presence c' = match ch with timed_out => unregister_member u (presence c) | _ => presence c end ∧
    subscribers c' = subscribers c ∧ (dwf (members (snapshot c)) → dwf (members (snapshot c'))).
Proof.
  intros Hc Het Htr Ht. unfold _handle_presence_change. rewrite bind_run. cbn [get].
  destruct (get_member u (snapshot c)) as [m|] eqn:Em.
  2:{ exfalso. unfold state_of, get_member in *. rewrite Em in Htr. cbn in Htr. subst et.
      destruct ch; inversion Htr. }
  cbv zeta. rewrite <- Het. rewrite bind_run, commit_and_dispatch_ok by done.
  set (e := built _ _ _ _ _ _ _ _).
  destruct (committed_moves now et u "presence" (m_display_name m) None None c st' Hc Htr) as [Hd Hs].
  fold e in Hd, Hs. rewrite bind_run.
  assert (match ch with timed_out => untrack u | _ => mret () end (announced e c) =
    (Ok (), set_presence (match ch with timed_out => unregister_member u (presence c) | _ => presence c end) (announced e c)))
    as ->.
  { rewrite <- (announced_presence e c). assert (∀ x, (Ok tt, x) = (Ok tt, set_presence (presence x) x)) as Hid by (by intros []).
    destruct ch; [exact (Hid _)|exact (Hid _)|reflexivity]. }
  destruct (checkpoint_run (set_presence (match ch with timed_out => unregister_member u (presence c)
    | _ => presence c end) (announced e c))) as [d ->]. eexists. split; [done|].
  cbn [snapshot presence subscribers set_disk set_presence].
  rewrite announced_snapshot. split; [by apply (announced_healthy now et u)|]. split_and!; [done| |done| |].
  - by apply (told_by et u c e t).
  - unfold announced. by destruct (apply_event _ _).1.
  - apply apply_event_dwf.
Qed.

Definition watched (c : Coordinator) : Prop :=
  heartbeat_interval (presence c) = seconds 5 ∧ suspect_after_missed (presence c) = 3%Z ∧
  dead_after_suspect (presence c) = seconds 15.

(** A tick in which [u]'s own turn ends in a state where [u] is not backfilling. *)
Lemma tick_split u now c e (Q : Coordinator → Prop) : healthy c →
  dwf (tracked (presence c)) → dwf (members (snapshot c)) → dget u (tracked (presence c)) = Some e →
  (∀ c1, frame u c c1 → ∃ c2,
     check_entry presence set_presence (_handle_presence_change now) now (u, e) c1 = (Ok (), c2) ∧
     healthy c2 ∧ dwf (members (snapshot c2)) ∧ state_of (snapshot c2) u ≠ Some BACKFILLING ∧ Q c2) →
  ∃ c2 c', tick now c = (Ok (), c') ∧ Q c2 ∧ frame u c2 c'.
Proof.
  intros Hc Hwf Hwm He Hown.
  destruct (liveness_split u now c e (λ c2, dwf (members (snapshot c2)) ∧
    state_of (snapshot c2) u ≠ Some BACKFILLING ∧ Q c2) Hc Hwf He) as (c2 & c3 & E & (Hwm2 & Hst2 & HQ) & F).
  { intros c1 F1. destruct (Hown c1 F1) as (c2 & ? & ? & ?). by exists c2. }
  pose proof F as (Hc3 & _ & Hm3 & _ & _ & _ & _ & _ & Hwm3).
  destruct (sweep_frame u now c3) as (c' & E' & F'); [done|by apply Hwm3| |].
  { unfold state_of in *. by rewrite Hm3. }
  exists c2, c'. unfold tick. rewrite bind_run, E. split_and!; [done|done|]. by eapply frame_trans.
Qed.

Lemma active_tick u now c h sa :
  healthy c → watched c → dwf (tracked (presence c)) → dwf (members (snapshot c)) →
  state_of (snapshot c) u = Some ACTIVE → dget u (tracked (presence c)) = Some (mkEntry h ALIVE sa) →
  ∃ c', tick now c = (Ok (), c') ∧
  if (now - h <=? seconds 15)%Z then
     state_of (snapshot c') u = Some ACTIVE ∧ dget u (tracked (presence c')) = Some (mkEntry h ALIVE sa)
   else
     state_of (snapshot c') u = Some SUSPECTED ∧
     dget u (tracked (presence c')) = Some (mkEntry h P_SUSPECTED (Some now)) ∧
     ∀ i, i ∈ dkeys (subscribers c) → ∃ e, (i, e, mkDelta "suspected" u e) ∈ notified c'.
Proof.
  intros Hc (Hh & Hs & Hd) Hwf Hwm Hst He.
  set (P := λ c2, if (now - h <=? seconds 15)%Z then
     state_of (snapshot c2) u = Some ACTIVE ∧ dget u (tracked (presence c2)) = Some (mkEntry h ALIVE sa)
   else
     state_of (snapshot c2) u = Some SUSPECTED ∧
     dget u (tracked (presence c2)) = Some (mkEntry h P_SUSPECTED (Some now)) ∧
     ∀ i, i ∈ dkeys (subscribers c) → ∃ e, (i, e, mkDelta "suspected" u e) ∈ notified c2).
  destruct (tick_split u now c _ P Hc Hwf Hwm He) as (c2 & c3 & E & HQ & F).
  - intros c1 (Hc1 & Ht1 & Hm1 & H1 & H2 & H3 & Hsub & _ & Hwm1). unfold check_entry.
    rewrite bind_run. cbn [get snd fst].
    unfold liveness_step. cbn [p_state p_last_heartbeat]. rewrite H1, H2, Hh, Hs.
    change (seconds 5 * 3)%Z with (seconds 15).
    assert (state_of (snapshot c1) u = Some ACTIVE) as Hst1 by (unfold state_of in *; by rewrite Hm1).
    unfold P. rewrite Z.leb_antisym. destruct (Z.ltb_spec (seconds 15) (now - h)) as [Hlt|Hge]; cbn [negb].
    + rewrite bind_run. cbn [modify]. set (c1' := set_presence _ c1).
      destruct (presence_change_moves u now suspected DISCONNECT_SUSPECTED SUSPECTED "suspected" c1')
        as (c2 & E2 & Hc2 & Hst2 & Ht2 & Hp2 & Hs2 & Hw2);
        [done|reflexivity|change (snapshot c1') with (snapshot c1); rewrite Hst1; constructor|done|].
      exists c2. split; [done|]. split; [done|]. split_and!; [by apply Hw2, Hwm1|by rewrite Hst2|done| |].
      * rewrite Hp2. cbn. by rewrite dget_dset_eq.
      * intros i Hi. destruct Ht2 as (e & _ & ->). exists e. apply elem_of_app. right.
        apply list_elem_of_fmap. exists i. split; [done|]. change (subscribers c1') with (subscribers c1). by rewrite Hsub.
    + exists c1. split; [done|]. split; [done|]. split_and!; [by apply Hwm1|by rewrite Hst1|done|by rewrite Ht1].
  - exists c3. split; [done|]. unfold P in HQ. destruct F as (Hc3 & Ht3 & Hm3 & _ & _ & _ & _ & Hpre & _).
    unfold state_of in *. rewrite Ht3, Hm3. destruct (_ <=? _)%Z; [done|].
    destruct HQ as (? & ? & Hn). split_and!; [done|done|]. intros i Hi. destruct (Hn i Hi) as [e Hin]. exists e.
    destruct Hpre as [l ->]. apply elem_of_app. by left.
Qed.

Lemma suspected_tick u now c h t :
  healthy c → watched c → dwf (tracked (presence c)) → dwf (members (snapshot c)) →
  state_of (snapshot c) u = Some SUSPECTED →
  dget u (tracked (presence c)) = Some (mkEntry h P_SUSPECTED (Some t)) →
  ∃ c', tick now c = (Ok (), c') ∧
  if (now - t <=? seconds 15)%Z then
     state_of (snapshot c') u = Some SUSPECTED ∧
     dget u (tracked (presence c')) = Some (mkEntry h P_SUSPECTED (Some t))
   else state_of (snapshot c') u = Some DISCONNECTED ∧ dget u (tracked (presence c')) = None.
Proof.
  intros Hc (Hh & Hs & Hd) Hwf Hwm Hst He.
  set (P := λ c2, if (now - t <=? seconds 15)%Z then
     state_of (snapshot c2) u = Some SUSPECTED ∧
     dget u (tracked (presence c2)) = Some (mkEntry h P_SUSPECTED (Some t))
   else state_of (snapshot c2) u = Some DISCONNECTED ∧ dget u (tracked (presence c2)) = None).
  destruct (tick_split u now c _ P Hc Hwf Hwm He) as (c2 & c3 & E & HQ & F).
  - intros c1 (Hc1 & Ht1 & Hm1 & H1 & H2 & H3 & Hsub & _ & Hwm1). unfold check_entry.
    rewrite bind_run. cbn [get snd fst].
    unfold liveness_step. cbn [p_state suspected_at]. rewrite H3, Hd.
    assert (state_of (snapshot c1) u = Some SUSPECTED) as Hst1 by (unfold state_of in *; by rewrite Hm1).
    unfold P. rewrite Z.leb_antisym. destruct (Z.ltb_spec (seconds 15) (now - t)) as [Hlt|Hge]; cbn [negb].
    + rewrite bind_run. cbn [modify]. set (c1' := set_presence _ c1).
      destruct (presence_change_moves u now timed_out DISCONNECT_TIMEOUT DISCONNECTED "disconnected" c1')
        as (c2 & E2 & Hc2 & Hst2 & _ & Hp2 & _ & Hw2);
        [done|reflexivity|change (snapshot c1') with (snapshot c1); rewrite Hst1; constructor|done|].
      exists c2. split; [done|]. split; [done|]. split_and!; [by apply Hw2, Hwm1|by rewrite Hst2|done|].
      rewrite Hp2. apply unregister_untracks.
    + exists c1. split; [done|]. split; [done|]. split_and!; [by apply Hwm1|by rewrite Hst1|done|by rewrite Ht1].
  - exists c3. split; [done|]. unfold P in HQ. destruct F as (Hc3 & Ht3 & Hm3 & _).
    unfold state_of in *. rewrite Ht3, Hm3. by destruct (_ <=? _)%Z.
Qed.

(** C17: Failure detection end to end.  A tick leaves an active member alone within fifteen
    seconds of its last heartbeat; after that it declares the member suspected, in the
    snapshot and to every subscriber; a suspected member is left alone for fifteen more
    seconds, then disconnected and no longer tracked.  All this whatever happens to the
    other members in the same tick. *)
Theorem silent_member_is_disconnected u now c :
  healthy c → watched c → dwf (tracked (presence c)) → dwf (members (snapshot c)) →
  ∃ c', ∀ h sa, 
  (state_of (snapshot c) u = Some ACTIVE → dget u (tracked (presence c)) = Some (mkEntry h ALIVE sa) →
   tick now c = (Ok (), c') ∧
   if (now - h <=? seconds 15)%Z then
     state_of (snapshot c') u = Some ACTIVE ∧ dget u (tracked (presence c')) = Some (mkEntry h ALIVE sa)
   else
     state_of (snapshot c') u = Some SUSPECTED ∧
     dget u (tracked (presence c')) = Some (mkEntry h P_SUSPECTED (Some now)) ∧
     ∀ i, i ∈ dkeys (subscribers c) → ∃ e, (i, e, mkDelta "suspected" u e) ∈ notified c') ∧
  (∀ t, state_of (snapshot c) u = Some SUSPECTED →
   dget u (tracked (presence c)) = Some (mkEntry h P_SUSPECTED (Some t)) →
   tick now c = (Ok (), c') ∧
   if (now - t <=? seconds 15)%Z then
     state_of (snapshot c') u = Some SUSPECTED ∧
     dget u (tracked (presence c')) = Some (mkEntry h P_SUSPECTED (Some t))
   else state_of (snapshot c') u = Some DISCONNECTED ∧ dget u (tracked (presence c')) = None).
Proof.
  intros Hc Hw Hwf Hwm. exists (tick now c).2. intros h sa. split.
  - intros Hst He. destruct (active_tick u now c h sa) as (c' & -> & H); done.
  - intros t Hst He. destruct (suspected_tick u now c h t) as (c' & -> & H); done.
Qed.

(** ** A room in use *)

Definition demo_hooks : Hooks := mkHooks "lobby" None None (Some (_auto_complete_backfill_handler (seconds 1))).
Definition demo_calls : list (time * call) :=
  [(seconds 1, subscribe_membership_events "h" 0);
   (seconds 1, join_member "t1" "alice" "Alice" (Some "k") None);
   (seconds 2, join_member "t2" "bob" "Bob" None None);
   (seconds 3, leave_member "bob");
   (seconds 4, join_member "t2" "bob" "Bob" None None);
   (seconds 5, heartbeat_member "alice"); (seconds 19, service_tick)].
Definition demo_room : Coordinator := serve_all demo_hooks demo_calls (new_coordinator "lobby" [] true).
(** A room without a history handler: members stay joining. *)
Definition plain_hooks : Hooks := mkHooks "lobby" None None None.
Definition joining_room : Coordinator :=
  (handle_join plain_hooks (seconds 1) "t" "bob" "Bob" None None (new_coordinator "lobby" [] false)).2.

Lemma demo_lawful : lawful demo_hooks.
Proof.
  split; [by vm_compute|]. intros base Hb h uid e [= <-]. apply auto_handler_stays. rewrite Hb. by vm_compute.
Qed.
Lemma demo_keys : Forall (λ tx, call_keys_ok tx.2) demo_calls.
Proof. repeat constructor; by intros [=]. Qed.

Lemma snapshot_is_projection_witness :
  snapshot demo_room = replay (events (log demo_room)) (new_snapshot "lobby") ∧
  length (events (log demo_room)) = 9.
Proof.
  split; [|by vm_compute]. exact (proj1 (snapshot_is_projection demo_hooks demo_calls true demo_lawful demo_keys)).
Defined.

Lemma restart_resumes_witness :
  let c' := service_init demo_hooks (seconds 60) (_write_checkpoint (log demo_room) (snapshot demo_room) (disk demo_room)) false in
  snapshot c' = snapshot demo_room ∧ state_of (snapshot demo_room) "bob" = Some LEFT.
Proof.
  split; [|vm_compute; reflexivity].
  exact (proj1 (restart_resumes demo_hooks demo_calls true (seconds 60) false demo_lawful demo_keys)).
Defined.

Lemma demo_healthy : healthy demo_room.
Proof. split; vm_compute; congruence. Qed.
Lemma joining_healthy : healthy joining_room.
Proof. split; vm_compute; congruence. Qed.


Lemma leave_without_permission_witness : ∃ c', handle_leave (seconds 2) "bob" joining_room = (Ok (), c') ∧
  snapshot c' = snapshot joining_room ∧ state_of (snapshot joining_room) "bob" = Some JOINING.
Proof.
  destruct (leave_without_permission (seconds 2) "bob" joining_room JOINING joining_healthy)
    as (c' & E & Hs & _); [vm_compute; reflexivity|apply list_elem_of_here|]. exists c'. split; [exact E|]. split; [exact Hs|vm_compute; reflexivity].
Defined.

Lemma join_once_witness : ∃ r c',
  handle_join plain_hooks (seconds 2) "t" "carol" "Carol" None None joining_room = (Ok r, c') ∧ accepted r = true.
Proof.
  destruct (join_once plain_hooks (seconds 2) "t" "carol" "Carol" None None joining_room
    (is_duplicate (seconds 2) "carol" "JOIN_REQUESTED" (duplicate_guard joining_room)).2 joining_healthy)
    as (r & c' & E & Ha & _); [done|done|vm_compute; reflexivity|vm_compute; lia|by left|].
  exists r, c'. exact (conj E Ha).
Defined.

Lemma silent_member_is_disconnected_witness : ∃ c',
  tick (seconds 100) demo_room = (Ok (), c') ∧ state_of (snapshot c') "alice" = Some SUSPECTED.
Proof.
  destruct (silent_member_is_disconnected "alice" (seconds 100) demo_room demo_healthy) as (c' & H);
    [split_and!; vm_compute; reflexivity|by apply (bool_decide_unpack _); vm_compute|by apply (bool_decide_unpack _); vm_compute|].
  destruct (H (seconds 5) None) as [H1 _].
  destruct H1 as (E & Hs & _); [vm_compute; reflexivity|vm_compute; reflexivity|]. exists c'. exact (conj E Hs).
Defined.
