(* ===== verification/MembershipRouter.v ===== *)
(** * The membership-aware routing table ([distribution/membership_router.py])

    A [PeerRegistry] fed by the membership service: the active members are routed to,
    the joining, backfilling and suspected ones are held.  The router is a subscriber of
    the coordinator; its callback is run here on the notifications the coordinator
    records for it. *)

From stdpp Require Import prelude gmap strings.
From S2P Require Import Prelude PyDict PyStr PeerRegistry Membership EventLog Snapshot Presence Durability Coordinator CoordinatorKeeps CoordinatorFacts.

Local Open Scope string_scope.
Local Open Scope list_scope.

Definition _parse_address (uid : string) : result (string * Z) := parse_host_port uid.

Record Router := mkRouter {
  self_address : string;
  active : pydict string (string * Z);
  hold : gset string;
}.

Definition set_active x (r : Router) : Router := mkRouter (self_address r) x (hold r).
Definition set_hold x (r : Router) : Router := mkRouter (self_address r) (active r) x.

(** ** Start *)

(** One turn of the loop over the snapshot's members. *)
Definition route_member (r : Router) (kv : string * MemberInfo) : Router :=
  match _parse_address kv.1 with
  | Raise _ => r
  | Ok a =>
    if decide (kv.1 = self_address r) then r
    else match state kv.2 with
         | ACTIVE => set_active (dset kv.1 a (active r)) r
         | JOINING | BACKFILLING | SUSPECTED => set_hold ({[kv.1]} ∪ hold r) r
         | DISCONNECTED | LEFT | LEAVING => r
         end
  end.

Definition from_snapshot (self : string) (s : MembershipSnapshotData) : Router :=
  foldl route_member (mkRouter self [] ∅) (s_members s).

(** [_initialize_from_membership]: the table from the snapshot, then the subscription
    past the snapshot's version, under the handle [fresh]. *)
Definition _initialize_from_membership (self fresh : string) : M Coordinator Router :=
  c ← get;
  let snap := get_snapshot (snapshot c) in
  subscribe fresh (s_version snap);;
  mret (from_snapshot self snap).

(** ** Events *)

Definition _handle_join_accepted (uid : string) (r : Router) : Router :=
  if decide (uid = self_address r) then r
  else match _parse_address uid with
       | Raise _ => r
       | Ok _ => mkRouter (self_address r) (ddel uid (active r)) ({[uid]} ∪ hold r)
       end.

Definition _handle_backfill_complete (uid : string) (r : Router) : Router :=
  if decide (uid ∈ hold r) then
    let r := set_hold (hold r ∖ {[uid]}) r in
    match _parse_address uid with
    | Raise _ => r
    | Ok a => set_active (dset uid a (active r)) r
    end
  else r.

Definition _handle_disconnect_suspected (uid : string) (r : Router) : Router :=
  if dmem uid (active r) then mkRouter (self_address r) (ddel uid (active r)) ({[uid]} ∪ hold r) else r.

Definition _handle_reconnected (uid : string) (r : Router) : Router :=
  if decide (uid ∈ hold r) then
    let r := set_hold (hold r ∖ {[uid]}) r in
    match _parse_address uid with
    | Raise _ => r
    | Ok a => set_active (dset uid a (active r)) r
    end
  else r.

Definition _handle_leave_confirmed (uid : string) (r : Router) : Router :=
  mkRouter (self_address r) (ddel uid (active r)) (hold r ∖ {[uid]}).

Definition _handle_disconnect_timeout (uid : string) (r : Router) : Router :=
  mkRouter (self_address r) (ddel uid (active r)) (hold r ∖ {[uid]}).

Definition _on_membership_event (e : MembershipEvent) (r : Router) : Router :=
  match event_type e with
  | JOIN_ACCEPTED => _handle_join_accepted (user_id e) r
  | HISTORY_BACKFILL_COMPLETE => _handle_backfill_complete (user_id e) r
  | DISCONNECT_SUSPECTED => _handle_disconnect_suspected (user_id e) r
  | RECONNECTED => _handle_reconnected (user_id e) r
  | LEAVE_CONFIRMED => _handle_leave_confirmed (user_id e) r
  | DISCONNECT_TIMEOUT => _handle_disconnect_timeout (user_id e) r
  | _ => r
  end.

(** [get_peers] *)
Definition active_peers (r : Router) : list (string * Z) := dvalues (active r).

(** The router as the broadcast node's registry: it knows no public keys. *)
#[export] Instance membership_router : PeerRegistry := {|
  registry := Router;
  get_peers := λ _ r, (Ok (active_peers r), r);
  get_pub_key := None;
|}.

#[export] Instance membership_router_laws : PeerRegistryLaws.
Proof. split. intros now r. by eexists _, _. Qed.

(** ** The table against the snapshot *)

(** Where a member in a given state belongs. *)
Definition placed (r : Router) (u : string) (st : option MemberState) : Prop :=
  match _parse_address u, st with
  | Ok a, Some ACTIVE => if decide (u = self_address r) then dget u (active r) = None ∧ u ∉ hold r
                         else dget u (active r) = Some a ∧ u ∉ hold r
  | Ok a, Some LEAVING => if decide (u = self_address r) then dget u (active r) = None ∧ u ∉ hold r
                          else (dget u (active r) = Some a ∨ dget u (active r) = None) ∧ u ∉ hold r
  | Ok a, Some (JOINING | BACKFILLING | SUSPECTED) =>
      if decide (u = self_address r) then dget u (active r) = None ∧ u ∉ hold r
      else dget u (active r) = None ∧ u ∈ hold r
  | _, _ => dget u (active r) = None ∧ u ∉ hold r
  end.

Record routes (r : Router) (s : Snapshot) : Prop := {
  active_wf : dwf (active r);
  all_placed : ∀ u, placed r u (state_of s u);
}.

(** Only what the table says of a member matters for its place. *)
Lemma placed_ext r r' u st : self_address r' = self_address r → dget u (active r') = dget u (active r) →
  (u ∈ hold r' ↔ u ∈ hold r) → placed r u st → placed r' u st.
Proof. unfold placed. intros -> -> E. destruct (_parse_address u), st as [[]|]; try case_decide; tauto. Qed.

Lemma event_local e r u : u ≠ user_id e →
  dget u (active (_on_membership_event e r)) = dget u (active r) ∧
  (u ∈ hold (_on_membership_event e r) ↔ u ∈ hold r).
Proof.
  intros Hu. unfold _on_membership_event, _handle_join_accepted, _handle_backfill_complete,
    _handle_disconnect_suspected, _handle_reconnected, _handle_leave_confirmed, _handle_disconnect_timeout.
  destruct (event_type e); repeat case_match; cbn [active hold set_active set_hold];
    rewrite ?dget_ddel_ne, ?dget_dset_ne by done; (split; [done|set_solver]).
Qed.

Lemma event_wf e r : dwf (active r) → dwf (active (_on_membership_event e r)) ∧
  self_address (_on_membership_event e r) = self_address r.
Proof.
  intros H. unfold _on_membership_event, _handle_join_accepted, _handle_backfill_complete,
    _handle_disconnect_suspected, _handle_reconnected, _handle_leave_confirmed, _handle_disconnect_timeout.
  destruct (event_type e); repeat case_match; cbn [active set_active set_hold];
    (split; [by auto using dwf_dset, dwf_ddel|done]).
Qed.

(** A transition of the member moves its entry to where the new state belongs. *)
Lemma event_places e r st st' : transition (event_type e) st st' → placed r (user_id e) st →
  placed (match delta_of e with Some _ => _on_membership_event e r | None => r end) (user_id e) (Some st').
Proof.
  intros Ht Hp. unfold delta_of, _on_membership_event.
  destruct (event_type e); inversion Ht; subst; cbn [delta_type fmap option_fmap option_map];
    unfold placed, _handle_join_accepted, _handle_backfill_complete, _handle_disconnect_suspected,
      _handle_reconnected, _handle_leave_confirmed, _handle_disconnect_timeout in *;
    destruct (_parse_address (user_id e)) as [a|x] eqn:Ea.
  all: try destruct (dmem (user_id e) (active r)) eqn:Em.
  all: repeat (case_decide; cbn [active hold set_active set_hold self_address] in *; try done).
  all: cbn [active hold set_active set_hold self_address] in *; rewrite ?Ea; cbn [active hold set_active set_hold self_address].
  all: try done.
  all: rewrite ?decide_True, ?decide_False by done.
  all: rewrite ?dget_ddel_eq, ?dget_dset_eq.
  all: try (apply dmem_true, dget_is_Some in Em as [? Em]); try (apply dmem_false, dget_None in Em).
  all: try (split; [done|set_solver]).
  all: try (destruct Hp; congruence).
  all: tauto.
Qed.

(** The table follows the snapshot: an event the snapshot applies moves the entry of its
    member, an event it skips is never dispatched. *)
Lemma routes_step e r s : routes r s →
  let '(d, s') := apply_event e s in
  routes (match d with Some _ => _on_membership_event e r | None => r end) s'.
Proof.
  intros [Hw Hp]. destruct (apply_event e s) as [d s'] eqn:E.
  destruct (apply_event_cases _ _ _ _ E) as [(-> & -> & _)|(_ & Hv & _ & _ & _ & Hother & Hm & ->)]; [done|].
  rewrite dispatch_delta. destruct (event_wf e r Hw) as [Hw' Hself].
  split; [by destruct (delta_of e)|]. intros u. destruct (decide (u = user_id e)) as [->|Hu].
  - apply valid_transition in Hv as [Hn|[st' Ht]].
    + assert (delta_of e = None) as -> by (unfold delta_of; by destruct (event_type e)).
      assert (member s' (user_id e) = member s (user_id e)) as Hsame
        by (rewrite Hm; unfold _dispatch; by destruct (event_type e)).
      unfold state_of. rewrite Hsame. apply Hp.
    + assert (state_of s' (user_id e) = Some st') as ->.
      { unfold state_of. rewrite Hm. destruct (dispatch_state e (member s (user_id e)) st' Ht) as (m' & -> & <- & _). done. }
      by eapply event_places.
  - assert (state_of s' u = state_of s u) as -> by (unfold state_of; by rewrite Hother).
    destruct (delta_of e); [|apply Hp]. destruct (event_local e r u Hu) as [Ha Hh].
    by apply (placed_ext r).
Qed.

Lemma from_snapshot_self self s : self_address (from_snapshot self s) = self.
Proof.
  unfold from_snapshot. apply (foldl_inv (λ r, self_address r = self)); [done|]. intros kv r _ H.
  unfold route_member. by repeat case_match.
Qed.

(** What the table tells the broadcast node. *)
Lemma routes_peers r s : routes r s →
  (∀ u a, _parse_address u = Ok a → u ≠ self_address r → state_of s u = Some ACTIVE → a ∈ active_peers r) ∧
  (∀ a, a ∈ active_peers r → ∃ u, _parse_address u = Ok a ∧ u ≠ self_address r ∧
     (state_of s u = Some ACTIVE ∨ state_of s u = Some LEAVING)).
Proof.
  intros [Hw Hp]. split.
  - intros u a Ha Hu Hst. specialize (Hp u). unfold placed in Hp. rewrite Ha, Hst, decide_False in Hp by done.
    destruct Hp as [Hg _]. apply list_elem_of_fmap. exists (u, a). split; [done|]. by apply dget_elem.
  - intros a ((u & a') & -> & Hin)%list_elem_of_fmap. exists u. cbn [snd].
    apply elem_dget in Hin; [|done]. specialize (Hp u). unfold placed in Hp. rewrite Hin in Hp.
    destruct (_parse_address u) as [b|] eqn:Eu, (state_of s u) as [[]|]; try case_decide; try (destruct Hp; congruence).
    + destruct Hp as [[= ->] _]. auto.
    + destruct Hp as [[[= ->]|?] _]; [auto|congruence].
Qed.

(** The table built from a snapshot. *)
Lemma from_snapshot_routes self s : dwf (members s) → routes (from_snapshot self (get_snapshot s)) s.
Proof.
  intros Hwf. unfold from_snapshot. cbn [s_members get_snapshot].
  assert (∀ l r s0, dwf (active r) → dwf l → self_address r = self →
    (∀ u, u ∉ dkeys l → placed r u (s0 u)) →
    (∀ u, u ∈ dkeys l → dget u (active r) = None ∧ u ∉ hold r ∧ s0 u = state <$> dget u l) →
    dwf (active (foldl route_member r l)) ∧ self_address (foldl route_member r l) = self ∧
    ∀ u, placed (foldl route_member r l) u (s0 u)) as Hgen.
  { induction l as [|[v m] l IH]; intros r s0 Hr Hl Hself Hout Hin.
    { split_and!; [done|done|]. intros u. apply Hout. apply not_elem_of_nil. }
    apply NoDup_cons in Hl as [Hv Hl]. cbn [foldl]. apply IH.
    - unfold route_member. repeat case_match; cbn [active set_active set_hold]; auto using dwf_dset.
    - done.
    - unfold route_member. by repeat case_match.
    - intros u Hu. destruct (decide (u = v)) as [->|Huv].
      + destruct (Hin v) as (Ha & Hh & Hs); [apply list_elem_of_here|]. rewrite Hs. cbn. rewrite decide_True by done.
        cbn [fmap option_fmap option_map]. unfold route_member, placed. cbn [fst snd].
        destruct (_parse_address v) eqn:Ev; [|done].
        destruct (decide (v = self_address r)) as [E|E]; [by destruct (state m); rewrite ?decide_True by done|].
        destruct (state m); cbn [active hold set_active set_hold self_address];
          rewrite ?decide_False by done; rewrite ?dget_dset_eq; (split; [auto|set_solver]).
      + eapply (placed_ext r); [..|apply Hout]; unfold route_member; cbn [fst snd].
        * by repeat case_match.
        * repeat case_match; cbn [active set_active set_hold]; rewrite ?dget_dset_ne by done; done.
        * repeat case_match; cbn [hold set_active set_hold]; set_solver.
        * unfold dkeys in *. cbn. rewrite elem_of_cons. tauto.
    - intros u Hu. assert (u ≠ v) as Huv by by intros ->.
      destruct (Hin u) as (Ha & Hh & Hs); [unfold dkeys; cbn; rewrite elem_of_cons; by right|].
      rewrite Hs. cbn [dget]. rewrite decide_False by done.
      unfold route_member; cbn [fst snd]; repeat case_match; cbn [active hold set_active set_hold];
        rewrite ?dget_dset_ne by done; split_and!; (done || set_solver). }
  destruct (Hgen (members s) (mkRouter self [] ∅) (state_of s)) as (H1 & _ & H3); try done.
  - constructor.
  - intros u Hu. unfold state_of, member. apply dget_None in Hu. rewrite Hu. cbn.
    unfold placed. cbn. by destruct (_parse_address u).
Qed.

(** ** The subscription *)

Section Following.
Context (fresh : string).

(** The callback, run on the notifications recorded for the handle. *)
Definition feed (ns : list (string * MembershipEvent * MembershipDelta)) (r : Router) : Router :=
  foldl (λ r n, if decide (n.1.1 = fresh) then _on_membership_event n.1.2 r else r) r ns.

Lemma feed_app ns ns' r : feed (ns ++ ns') r = feed ns' (feed ns r).
Proof. apply foldl_app. Qed.

Lemma feed_others ids e d r : fresh ∉ ids → feed ((λ i, (i, e, d)) <$> ids) r = r.
Proof.
  unfold feed. intros H. revert r. induction ids as [|i ids IH]; intros r; [done|]. cbn.
  rewrite decide_False by set_solver. apply IH. set_solver.
Qed.

Lemma feed_broadcast ids e d r : NoDup ids → fresh ∈ ids →
  feed ((λ i, (i, e, d)) <$> ids) r = _on_membership_event e r.
Proof.
  induction ids as [|i ids IH]; [by intros _ ?%not_elem_of_nil|]. intros [Hi Hn]%NoDup_cons Hin.
  cbn. case_decide as E; cbn in E.
  - subst i. by apply (feed_others ids e d).
  - apply IH; [done|]. by apply elem_of_cons in Hin as [->|].
Qed.

(** The coordinator goes from [c] to [c'], and a table that followed the snapshot before
    follows it after, once it has been told what was recorded for it in between. *)
Definition followed (c c' : Coordinator) : Prop :=
  dwf (subscribers c) → fresh ∈ dkeys (subscribers c) →
  dwf (subscribers c') ∧ fresh ∈ dkeys (subscribers c') ∧
  ∃ ns, notified c' = notified c ++ ns ∧ ∀ r, routes r (snapshot c) → routes (feed ns r) (snapshot c').

#[local] Instance followed_preorder : PreOrder followed.
Proof.
  split.
  - intros c Hw Hf. split_and!; [done|done|]. exists []. by rewrite app_nil_r.
  - intros c1 c2 c3 H12 H23 Hw Hf. destruct (H12 Hw Hf) as (Hw2 & Hf2 & ns & Hn & Hr).
    destruct (H23 Hw2 Hf2) as (Hw3 & Hf3 & ns' & Hn' & Hr'). split_and!; [done|done|].
    exists (ns ++ ns'). rewrite Hn', Hn, app_assoc. split; [done|]. intros r H. rewrite feed_app. auto.
Qed.

(** A change of something else. *)
Lemma still_followed c c' : subscribers c' = subscribers c → snapshot c' = snapshot c →
  notified c' = notified c → followed c c'.
Proof.
  intros H1 H2 H3 Hw Hf. rewrite H1, H2, H3. split_and!; [done|done|]. exists []. by rewrite app_nil_r.
Qed.

(** Something said to other subscribers. *)
Lemma others_followed ids e d c : fresh ∉ ids → followed c (deliver_to ids e d c).
Proof.
  intros Hi Hw Hf. split_and!; [done|done|]. eexists. split; [done|]. intros r Hr.
  cbn [snapshot deliver_to set_notified]. by rewrite feed_others.
Qed.

(** An event applied and dispatched. *)
Lemma announced_followed e l c :
  followed c (match (apply_event e (snapshot c)).1 with
    | None => set_snapshot (apply_event e (snapshot c)).2 (set_log l c)
    | Some d => deliver_to (dkeys (subscribers c)) e d (set_snapshot (apply_event e (snapshot c)).2 (set_log l c))
    end).
Proof.
  intros Hw Hf.
  assert (∀ r, routes r (snapshot c) → routes (match (apply_event e (snapshot c)).1 with
    | Some _ => _on_membership_event e r | None => r end) (apply_event e (snapshot c)).2) as Hstep.
  { intros r Hr. pose proof (routes_step e r _ Hr) as H. by destruct (apply_event e (snapshot c)). }
  destruct (apply_event e (snapshot c)).1 as [d|]; (split_and!; [done|done|]).
  - eexists. split; [done|]. intros r Hr. rewrite feed_broadcast by done. by apply Hstep.
  - exists []. rewrite app_nil_r. split; [done|]. apply Hstep.
Qed.

(** An event applied and not dispatched, or dispatched with a delta of its own: it is one
    the table does not act upon. *)
Lemma unseen_followed e l c : unseen (event_type e) →
  followed c (set_snapshot (apply_event e (snapshot c)).2 (set_log l c)).
Proof.
  intros Ht Hw Hf. split_and!; [done|done|]. exists []. rewrite app_nil_r. split; [done|]. intros r Hr.
  pose proof (routes_step e r _ Hr) as H. destruct (apply_event e (snapshot c)) as [d s] eqn:E.
  assert (d = None) as ->; [|done].
  destruct (apply_event_cases _ _ _ _ E) as [(-> & _)|(_ & _ & _ & _ & _ & _ & _ & ->)]; [done|].
  rewrite dispatch_delta. unfold delta_of. by rewrite Ht.
Qed.

Lemma unseen_callback e r : unseen (event_type e) → _on_membership_event e r = r.
Proof. unfold unseen, _on_membership_event. by destruct (event_type e). Qed.

Lemma feed_unseen ids e d r : unseen (event_type e) → feed ((λ i, (i, e, d)) <$> ids) r = r.
Proof.
  intros Ht. unfold feed. revert r. induction ids as [|i ids IH]; intros r; [done|]. cbn.
  rewrite unseen_callback by done. case_decide; apply IH.
Qed.

Lemma commit_and_dispatch_followed now et uid src dn tr pk :
  keeps followed (commit_and_dispatch now et uid src dn tr pk).
Proof.
  intros c. unfold commit_and_dispatch. rewrite bind_run, commit_run.
  destruct (append _ _ _ _ _ _ _ _ _) as [[e|x] l]; [|by apply still_followed].
  pose proof (announced_followed e l c) as H. rewrite bind_run. unfold dispatch. cbn [fst snd].
  destruct (apply_event e (snapshot c)).1; cbn [mret M_ret modify snd subscribers set_snapshot set_log]; exact H.
Qed.

Lemma commit_followed now et uid src dn tr pk : unseen et → keeps followed (commit now et uid src dn tr pk).
Proof.
  intros Ht c. rewrite commit_run. destruct (append _ _ _ _ _ _ _ _ _) as [[e|x] l] eqn:E.
  - apply append_push in E as (_ & _ & He). apply unseen_followed. by rewrite He.
  - by apply still_followed.
Qed.

(** The rejection of a join is dispatched with a delta of the coordinator's making. *)
Lemma reject_followed {B} now uid src dn tr pk d (k : MembershipEvent * option MembershipDelta → M Coordinator B) :
  (∀ ed, keeps followed (k ed)) →
  keeps followed (ed ← commit now JOIN_REJECTED uid src dn tr pk; dispatch ed.1 (Some (d ed.1));; k ed).
Proof.
  intros Hk c. rewrite bind_run, commit_run. destruct (append _ _ _ _ _ _ _ _ _) as [[e|x] l] eqn:E; [|by apply still_followed].
  apply append_push in E as (_ & _ & He). rewrite bind_run. cbn [dispatch modify].
  etransitivity; [|apply Hk]. etransitivity; [apply (unseen_followed e l); by rewrite He|].
  intros Hw Hf. split_and!; [done|done|]. eexists. split; [done|]. intros r Hr.
  cbn [fst]. rewrite feed_unseen; [done|by rewrite He].
Qed.

Lemma remote_followed {B} e (k : MembershipEvent * option MembershipDelta → M Coordinator B) :
  (∀ ed, keeps followed (k ed)) →
  keeps followed (ed ← commit_remote e; dispatch ed.1 ed.2;; k ed).
Proof.
  intros Hk c. rewrite bind_run. destruct (commit_remote_run e c) as (e' & _ & _ & _ & _ & ->).
  pose proof (announced_followed e' (push e' (term e') (log c)) c) as H. rewrite bind_run. unfold dispatch. cbn [fst snd].
  etransitivity; [exact H|].
  destruct (apply_event e' (snapshot c)).1; cbn [mret M_ret modify subscribers set_snapshot set_log]; apply Hk.
Qed.

Lemma subscribe_followed other v : other ≠ fresh → keeps followed (subscribe other v).
Proof.
  intros Ho. unfold subscribe. keeps_tac.
  - intros Hw Hf. cbn [subscribers set_subscribers]. split_and!; [by apply dwf_dset| |].
    + rewrite dkeys_dset. case_decide; set_solver.
    + exists []. rewrite app_nil_r. done.
  - apply others_followed. set_solver.
Qed.

Lemma unsubscribe_followed other : other ≠ fresh → keeps followed (unsubscribe other).
Proof.
  intros Ho. unfold unsubscribe. keeps_tac. intros Hw Hf. cbn [subscribers set_subscribers].
  split_and!; [by apply dwf_ddel| |].
  - rewrite dkeys_ddel. apply list_elem_of_filter. by split.
  - exists []. rewrite app_nil_r. done.
Qed.

#[export] Instance followed_respected : Respected (λ _, True) (λ h, h ≠ fresh) followed.
Proof.
  split; try typeclasses eauto.
  - done.
  - intros. by apply still_followed.
  - intros. apply commit_and_dispatch_followed.
  - intros. by apply commit_followed.
  - intros. by apply reject_followed.
  - intros. by apply remote_followed.
  - unfold checkpoint. keeps_tac. by apply still_followed.
  - intros. by apply subscribe_followed.
  - intros. by apply unsubscribe_followed.
Qed.

(** Calls that leave the router's own subscription alone. *)
Definition leaves_handle (x : call) : Prop := call_ok (λ _, True) (λ h, h ≠ fresh) x.

End Following.

Lemma feed_self fresh ns r : self_address (feed fresh ns r) = self_address r.
Proof.
  unfold feed. apply (foldl_inv (λ r', self_address r' = self_address r)); [done|]. intros n r' _ <-.
  case_decide; [|done]. unfold _on_membership_event, _handle_join_accepted, _handle_backfill_complete,
    _handle_disconnect_suspected, _handle_reconnected, _handle_leave_confirmed, _handle_disconnect_timeout.
  destruct (event_type _); by repeat case_match.
Qed.

(** The catch-up of a subscription past the snapshot's version says nothing: no event the
    snapshot skipped is waiting there. *)
Definition quiet (c : Coordinator) : Prop :=
  Forall (λ e, delta_of e = None) (get_events_since (version (snapshot c)) (log c)).

Lemma quiet_catch_up fresh es c : Forall (λ e, delta_of e = None) es →
  forM es (λ e, match delta_of e with
    | None => mret () | Some d => modify (deliver_to [fresh] e d) end) c = (Ok (), c).
Proof. induction 1 as [|e es He _ IH]; [done|]. rewrite forM_cons, He. exact IH. Qed.

Lemma initialize_run self fresh c : quiet c →
  _initialize_from_membership self fresh c =
    (Ok (from_snapshot self (get_snapshot (snapshot c))),
     set_subscribers (dset fresh (version (snapshot c)) (subscribers c)) c).
Proof.
  intros Hq. unfold _initialize_from_membership, subscribe. rewrite bind_run. cbn [get]. cbv zeta.
  rewrite bind_run, bind_run. cbn [modify]. rewrite bind_run. cbn [get]. rewrite bind_run.
  cbn [s_version get_snapshot]. rewrite quiet_catch_up; done.
Qed.


(** ** A room with a router *)

Definition routed_calls : list (time * call) :=
  [(seconds 20, join_member "t3" "10.0.0.3:8000" "Carol" None None);
   (seconds 21, join_member "t4" "10.0.0.4:8000" "Dave" None None);
   (seconds 22, leave_member "10.0.0.3:8000")].

