(* ===== verification/Demo.v ===== *)
(** * The demonstration of the membership service ([demo_membership.py])

    The script registers a ban list, a history handler and a subscriber, lets four members
    join and two leave, and prints what it sees.  It is run here on the coordinator's model:
    the calls in their order with the times at which the script makes them, and the ticks of
    the scheduler between them. *)

From stdpp Require Import prelude gmap strings.
From S2P Require Import Prelude PyDict PyStr Json Membership EventLog Snapshot Presence Durability Coordinator.

Local Open Scope string_scope.
Local Open Scope list_scope.

(** [security_validator] *)
Definition security_validator (uid dn : string) (ctx : JoinContext) : result (bool * option string) :=
  if decide (uid = "eve") then Ok (false, Some "User is on the ban list") else Ok (true, None).

(** [history_handler]: it replays for a second and a half. *)
Definition script_history_handler (uid : string) (e : MembershipEvent) : M Coordinator unit :=
  handle_start_backfill (timestamp e) uid;;
  handle_complete_backfill (timestamp e + 1500000) uid.

Definition script_hooks : Hooks := mkHooks "demo-room" None (Some security_validator) (Some script_history_handler).

Definition users_to_join : list (string * string) :=
  [("alice", "Alice"); ("bob", "Bob"); ("charlie", "Charlie"); ("dave", "Dave")].

(** A join takes the replay and a sleep of 1.6 seconds. *)
Definition join_calls : list (time * call) :=
  imap (λ i u, ((500000 + Z.of_nat i * 3100000)%Z, join_member ("trace-" +:+ u.1) u.1 u.2 None None)) users_to_join.

Definition ticks_until (a b : Z) : list (time * call) :=
  (λ i, (seconds (Z.of_nat i), service_tick)) <$> seq (Z.to_nat a) (Z.to_nat (b - a)).

Definition script_calls : list (time * call) :=
  [(500000%Z, subscribe_membership_events "sub" 0); (500000%Z, join_member "trace-eve" "eve" "Eve" None None)] ++
  (imap (λ i c, c :: ticks_until (1 + 3 * Z.of_nat i) (4 + 3 * Z.of_nat i)) join_calls ≫= id) ++
  [(12900000%Z, leave_member "bob"); (seconds 13, service_tick); (13400000%Z, leave_member "charlie")].

Definition demo_end : Coordinator := serve_all script_hooks script_calls (service_init script_hooks 0 [] true).

(** [on_membership_event] *)
Definition upper_char (a : Ascii.ascii) : Ascii.ascii :=
  let n := code a in if ((97 <=? n) && (n <=? 122))%N then chr (n - 32) else a.
Fixpoint upper (s : string) : string :=
  match s with "" => "" | String a s => String (upper_char a) (upper s) end.
Definition event_line (ed : string * MembershipEvent * MembershipDelta) : string :=
  "   [EVENT] User '" +:+ d_user_id ed.2 +:+ "' is now " +:+ upper (d_type ed.2) +:+ "! (Version " +:+
  string_of_Z (membership_version ed.1.2) +:+ ")".

(** The loop over [snap.members]. *)
Definition snapshot_lines (c : Coordinator) : list string :=
  (λ kv, "   - " +:+ m_display_name kv.2 +:+ " (ID: " +:+ kv.1 +:+ ") -> State: " +:+ state_value (state kv.2))
    <$> members (snapshot c).

(** The trace that is announced as "Alice's join flow". *)
Definition shown_trace (c : Coordinator) : option (string * list string) :=
  t ← tracer c; r ← head (get_recent_traces 1 t); Some (t_user_id r, span_name <$> spans r).

(** What the demonstration shows: the banned user is rejected, every other member goes
    through a backfill, two leave; and the trace shown last is that of the last to join, not
    Alice's. *)
Example demo_shows :
  event_line <$> notified demo_end =
    ["   [EVENT] User 'eve' is now REJECTED! (Version 1)"; "   [EVENT] User 'alice' is now JOINED! (Version 2)";
     "   [EVENT] User 'alice' is now ACTIVE! (Version 4)"; "   [EVENT] User 'bob' is now JOINED! (Version 5)";
     "   [EVENT] User 'bob' is now ACTIVE! (Version 7)"; "   [EVENT] User 'charlie' is now JOINED! (Version 8)";
     "   [EVENT] User 'charlie' is now ACTIVE! (Version 10)"; "   [EVENT] User 'dave' is now JOINED! (Version 11)";
     "   [EVENT] User 'dave' is now ACTIVE! (Version 13)"; "   [EVENT] User 'bob' is now LEFT! (Version 15)";
     "   [EVENT] User 'charlie' is now LEFT! (Version 17)"] ∧
  snapshot_lines demo_end =
    ["   - Alice (ID: alice) -> State: ACTIVE"; "   - Bob (ID: bob) -> State: LEFT";
     "   - Charlie (ID: charlie) -> State: LEFT"; "   - Dave (ID: dave) -> State: ACTIVE"] ∧
  shown_trace demo_end = Some ("dave", ["join_requested"; "join_accepted"; "backfill_started"; "backfill_complete"]).
Proof. split_and!; vm_compute; reflexivity. Qed.
