(* ===== verification/Deployment.v ===== *)
(** * Identity and DNS discovery in the cluster ([deploy/identity.py],
    [deploy/dns_registry.py])

    A pod's identity is a function of its environment, and its peers are what the DNS
    publishes.  The resolver ([dns.resolver]) and the system's [getaddrinfo] are not part of
    the repository: they are the operations of the class [Dns], whose answers may change
    with time. *)

From stdpp Require Import prelude gmap strings sorting.
From Stdlib Require Import Ascii.
From S2P Require Import Prelude PyDict PyStr PeerRegistry.

Local Open Scope string_scope.
Local Open Scope list_scope.

(** ** [identity.py] *)

Definition DEFAULT_CHAT_PORT : Z := 5678.
Definition DEFAULT_CONTROL_PORT : Z := 8080.
Definition DEFAULT_CLUSTER_DOMAIN : string := "cluster.local".

Record PeerIdentity := mkIdentity {
  pod_name : string;
  ordinal : Z;
  service : string;
  namespace : string;
  cluster_domain : string;
  chat_port : Z;
  control_port : Z;
}.

(** The part of the names all the pods of the Service share. *)
Definition domain (i : PeerIdentity) : string :=
  "." +:+ service i +:+ "." +:+ namespace i +:+ ".svc." +:+ cluster_domain i.

Definition fqdn (i : PeerIdentity) : string := pod_name i +:+ domain i.
Definition identity_address (i : PeerIdentity) : string := addr (fqdn i) (chat_port i).

(** [pod_name.rsplit("-", 1)[0]]: the whole name when it has no dash. *)
Definition pod_stem (name : string) : string :=
  match rsplit1 "-" name with Some (stem, _) => stem | None => name end.

Definition peer_fqdn (i : PeerIdentity) (n : Z) : string :=
  pod_stem (pod_name i) +:+ "-" +:+ string_of_Z n +:+ domain i.

(** [str.isdigit]: the decimal digits and the superscripts one to three. *)
Definition isdigit (s : string) : bool :=
  negb (bool_decide (s = "")) &&
  sforall (λ a, is_digit a || (code a =? 178)%N || (code a =? 179)%N || (code a =? 185)%N) s.

Definition _split_ordinal (name : string) : result Z :=
  match rsplit1 "-" name with
  | Some (stem, tail) =>
    if bool_decide (stem = "") || negb (isdigit tail) then Raise IdentityError
    else of_option ValueError (py_int tail)
  | None => Raise IdentityError
  end.

(** [env.get(k) or dflt] and [int(env.get(k, dflt))] *)
Definition env_or (k dflt : string) (env : pydict string string) : string :=
  match dget k env with Some v => if decide (v = "") then dflt else v | None => dflt end.
Definition env_int (k : string) (dflt : Z) (env : pydict string string) : result Z :=
  match dget k env with Some v => of_option ValueError (py_int v) | None => Ok dflt end.

Definition identity_from_env (hostname : string) (env : pydict string string) : result PeerIdentity :=
  let pod := env_or "PEERCHAT_POD_NAME" hostname env in
  let svc := env_or "PEERCHAT_SERVICE" "" env in
  if decide (svc = "") then Raise IdentityError
  else
    n ← _split_ordinal pod;
    chat ← env_int "PEERCHAT_PORT" DEFAULT_CHAT_PORT env;
    control ← env_int "PEERCHAT_CONTROL_PORT" DEFAULT_CONTROL_PORT env;
    mret (mkIdentity pod n svc (default "default" (dget "PEERCHAT_NAMESPACE" env))
      (default DEFAULT_CLUSTER_DOMAIN (dget "PEERCHAT_CLUSTER_DOMAIN" env)) chat control).

(** ** [dns_registry.py] *)

(** [resolve_srv] is [None] when no resolver is available; an answer is the records'
    target and port.  [lookup] is [getaddrinfo]: [OSError] is its [gaierror]. *)
Class Dns := {
  resolve_srv : option (time → string → result (list (string * Z)));
  lookup : time → string → Z → result unit;
}.

Record DnsPeerRegistry := mkDnsRegistry {
  cached : list (string * Z);
  cached_at : time;
  last_error : option exn;
}.

Definition new_dns_registry : DnsPeerRegistry := mkDnsRegistry [] 0 None.

(** The order of Python's pairs of a text and a number. *)
Definition pair_leb (a b : string * Z) : bool :=
  match String.compare a.1 b.1 with Lt => true | Gt => false | Eq => (a.2 <=? b.2)%Z end.
Definition pair_le (a b : string * Z) : Prop := Is_true (pair_leb a b).

#[export] Instance pair_le_dec : RelDecision pair_le.
Proof. intros a b. apply Is_true_dec. Defined.

(** [target.rstrip(".")] *)
Fixpoint rstrip_dots (s : string) : string :=
  match s with
  | "" => ""
  | String a s =>
    match rstrip_dots s with
    | "" => if decide (a = "."%char) then "" else String a ""
    | s' => String a s'
    end
  end.

Section Registry.
Context `{Dns}.
Variable identity : PeerIdentity.
Variable replicas : nat.
Variable refresh_interval : time.

Definition me : string * Z := (fqdn identity, chat_port identity).

Definition srv_name : string :=
  "_chat._tcp." +:+ service identity +:+ "." +:+ namespace identity +:+ ".svc." +:+ cluster_domain identity.

(** [_resolve_srv]; the empty list stands for [None], which the caller treats alike. *)
Definition _resolve_srv (resolve : time → string → result (list (string * Z))) (now : time) :
    result (list (string * Z)) :=
  answer ← resolve now srv_name;
  mret (List.filter (λ hp, negb (bool_decide (hp.1 = ""))) ((λ hp, (rstrip_dots hp.1, hp.2)) <$> answer)).

(** [_resolve_per_pod]: a name that does not resolve is no peer. *)
Fixpoint resolve_pods (now : time) (ordinals : list nat) : result (list (string * Z)) :=
  match ordinals with
  | [] => Ok []
  | n :: ordinals =>
    let name := peer_fqdn identity (Z.of_nat n) in
    match lookup now name (chat_port identity) with
    | Ok _ => rest ← resolve_pods now ordinals; mret ((name, chat_port identity) :: rest)
    | Raise OSError => resolve_pods now ordinals
    | Raise e => Raise e
    end
  end.
Definition _resolve_per_pod (now : time) : result (list (string * Z)) := resolve_pods now (seq 0 replicas).

(** [_resolve]: the pods' names are tried when SRV fails or says nothing; if they say
    nothing either, the SRV error is raised. *)
Definition _resolve (now : time) : result (list (string * Z)) :=
  let '(found, srv_error) :=
    match resolve_srv with
    | None => ([], None)
    | Some resolve => match _resolve_srv resolve now with
                      | Ok l => (l, None)
                      | Raise e => ([], Some e)
                      end
    end in
  peers ← (match found with [] => _resolve_per_pod now | _ => Ok found end);
  match peers, srv_error with
  | [], Some e => Raise e
  | _, _ => mret (merge_sort pair_le (List.filter (λ hp, negb (bool_decide (hp = me))) peers))
  end.

Definition is_fresh (now : time) (r : DnsPeerRegistry) : bool :=
  match cached r with [] => false | _ => (now - cached_at r <? refresh_interval)%Z end.

Definition get_peers (now : time) : M DnsPeerRegistry (list (string * Z)) := λ r,
  if is_fresh now r then (Ok (cached r), r)
  else
    match _resolve now with
    | Ok peers => (Ok peers, mkDnsRegistry peers now None)
    | Raise e => (Ok (cached r), mkDnsRegistry (cached r) (cached_at r) (Some e))
    end.

(** [get_pub_key]: the DNS distributes no keys. *)
Definition get_pub_key (r : DnsPeerRegistry) (h : string) (p : Z) : string := "".

#[export] Instance dns_registry : PeerRegistry := {|
  registry := DnsPeerRegistry;
  PeerRegistry.get_peers := get_peers;
  PeerRegistry.get_pub_key := Some get_pub_key;
|}.

#[export] Instance dns_registry_laws : PeerRegistryLaws.
Proof.
  split. intros now r. cbn. unfold get_peers. destruct (is_fresh now r); [by eexists _, _|].
  destruct (_resolve now); by eexists _, _.
Qed.
End Registry.

(** ** Names agree across the cluster *)

Lemma string_app_cancel_r (s1 s2 t : string) : s1 +:+ t = s2 +:+ t → s1 = s2.
Proof.
  revert s2. induction s1 as [|a s1 IH]; intros s2 E.
  - destruct s2 as [|b s2]; [done|]. apply (f_equal String.length) in E. cbn in E.
    rewrite string_length_app in E. lia.
  - destruct s2 as [|b s2].
    + apply (f_equal String.length) in E. cbn in E. rewrite string_length_app in E. lia.
    + cbn in E. injection E as -> E. f_equal. by apply IH.
Qed.

Lemma digits_no_dash s : sforall is_digit s = true → no_char "-" s = true.
Proof.
  apply sforall_impl. intros a Ha. apply negb_true_iff, bool_decide_eq_false. intros ->. by vm_compute in Ha.
Qed.
Lemma ordinal_digits n : (0 ≤ n)%Z → sforall is_digit (string_of_Z n) = true.
Proof. intros Hn. unfold string_of_Z. destruct n; [done|apply uint_digits0|lia]. Qed.
Lemma ordinal_nonempty n : (0 ≤ n)%Z → string_of_Z n ≠ "".
Proof. intros Hn. unfold string_of_Z. destruct n; [done|apply uint_string_nonempty|lia]. Qed.

Lemma pod_name_parts stem n : (0 ≤ n)%Z →
  rsplit1 "-" (stem +:+ "-" +:+ string_of_Z n) = Some (stem, string_of_Z n).
Proof. intros Hn. apply rsplit1_app, digits_no_dash, ordinal_digits, Hn. Qed.

Lemma split_ordinal_name stem n : (0 ≤ n)%Z → stem ≠ "" → _split_ordinal (stem +:+ "-" +:+ string_of_Z n) = Ok n.
Proof.
  intros Hn Hs. unfold _split_ordinal. rewrite pod_name_parts by done.
  rewrite bool_decide_eq_false_2 by done. unfold isdigit.
  rewrite bool_decide_eq_false_2 by by apply ordinal_nonempty. cbn [negb andb orb].
  rewrite (sforall_impl is_digit _ (string_of_Z n)); [|by intros a ->|by apply ordinal_digits]. cbn [negb].
  by rewrite py_int_string_of_Z.
Qed.

Lemma identity_inv host env i : identity_from_env host env = Ok i →
  pod_name i = env_or "PEERCHAT_POD_NAME" host env ∧ _split_ordinal (pod_name i) = Ok (ordinal i).
Proof.
  unfold identity_from_env. case_decide; [done|]. destruct (_split_ordinal _) as [n|] eqn:E; [|done]. cbn [mbind result_bind].
  destruct (env_int "PEERCHAT_PORT" _ _); [|done]. cbn [mbind result_bind].
  destruct (env_int "PEERCHAT_CONTROL_PORT" _ _); [|done]. intros [= <-]. by split.
Qed.

(** Every pod derives the same names: if two pods of one StatefulSet, of the same Service,
    namespace and cluster, start from their environments, the name one of them computes for
    the other's ordinal is the very name the other advertises; and two pods share an
    address only if they have the same pod name. *)
Theorem siblings_agree hosta hostb enva envb a b stem n :
  identity_from_env hosta enva = Ok a → identity_from_env hostb envb = Ok b → (0 ≤ n)%Z → stem ≠ "" →
  pod_name a = stem +:+ "-" +:+ string_of_Z n → pod_stem (pod_name b) = stem → domain a = domain b →
  ordinal a = n ∧ peer_fqdn b (ordinal a) = fqdn a ∧
  (identity_address a = identity_address b → pod_name a = pod_name b).
Proof.
  intros Ha Hb Hn Hs Hpa Hpb Hd. apply identity_inv in Ha as [_ Ha]. rewrite Hpa, split_ordinal_name in Ha by done.
  injection Ha as <-. split; [done|]. split.
  - unfold peer_fqdn, fqdn. by rewrite Hpb, Hpa, Hd, !string_app_assoc.
  - intros [E _]%addr_inj. unfold fqdn in E. rewrite Hd in E. by apply string_app_cancel_r in E.
Qed.

(** ** What the registry answers *)

Section Answers.
Context `{Dns}.
Variable identity : PeerIdentity.
Variable replicas : nat.
Variable refresh_interval : time.
Abbreviation resolve := (_resolve identity replicas).
Abbreviation ask := (get_peers identity replicas refresh_interval).

Definition after (ts : list time) : DnsPeerRegistry := foldl (λ r t, (ask t r).2) new_dns_registry ts.

#[local] Instance pair_le_total : Total pair_le.
Proof.
  intros [h p] [h' p']. unfold pair_le, pair_leb. cbn. rewrite (String.compare_antisym h h').
  destruct (String.compare h' h); cbn; auto.
  destruct (Z.leb_spec p p'); [by left|]. right. by rewrite (proj2 (Z.leb_le _ _)) by lia.
Qed.

Lemma resolve_ok now l : resolve now = Ok l → me identity ∉ l ∧ Sorted.Sorted pair_le l.
Proof.
  unfold _resolve. destruct (match resolve_srv with Some _ => _ | None => _ end) as [found err].
  destruct (match found with [] => _ | _ => _ end) as [peers|]; [|done]. cbn [mbind result_bind].
  intros E. assert (l = merge_sort pair_le (List.filter (λ hp, negb (bool_decide (hp = me identity))) peers)) as ->.
  { unfold mret, result_ret in E. by destruct peers, err; simplify_eq. }
  split; [|apply Sorted_merge_sort, _].
  intros Hin. rewrite merge_sort_Permutation in Hin. apply list_elem_of_In, filter_In in Hin as [_ Hn].
  by rewrite bool_decide_eq_true_2 in Hn.
Qed.

Lemma after_snoc ts t : after (ts ++ [t]) = (ask t (after ts)).2.
Proof. unfold after. by rewrite foldl_app. Qed.

Lemma cached_resolved ts : cached (after ts) = [] ∨
  (cached_at (after ts) ∈ ts ∧ resolve (cached_at (after ts)) = Ok (cached (after ts))).
Proof.
  induction ts as [|t ts IH] using rev_ind; [by left|]. rewrite after_snoc.
  assert (cached (after ts) = [] ∨ cached_at (after ts) ∈ ts ++ [t] ∧
    resolve (cached_at (after ts)) = Ok (cached (after ts))) as IH' by set_solver.
  unfold get_peers. destruct (is_fresh _ _ _); [exact IH'|].
  destruct (resolve t) as [l|] eqn:E; [|exact IH']. right. cbn. split; [set_solver|done].
Qed.


(** When SRV fails and no name but the node's own resolves, the lookup counts as a success
    with no peers, and the last known peers are dropped. *)
Lemma own_name_empties now r query e : resolve_srv = Some query → query now (srv_name identity) = Raise e →
  _resolve_per_pod identity replicas now = Ok [me identity] → is_fresh refresh_interval now r = false →
  ask now r = (Ok [], mkDnsRegistry [] now None).
Proof.
  intros Hsrv Hq Hpod Hf. unfold get_peers, _resolve. rewrite Hf, Hsrv. unfold _resolve_srv. rewrite Hq. cbn [mbind result_bind].
  rewrite Hpod. cbn. by rewrite bool_decide_eq_true_2.
Qed.
End Answers.

(** ** Two pods *)

Definition pod_env (name : string) : pydict string string :=
  [("PEERCHAT_POD_NAME", name); ("PEERCHAT_SERVICE", "peerchat-hl"); ("PEERCHAT_NAMESPACE", "chat")].
Definition pod (name : string) (n : Z) : PeerIdentity :=
  mkIdentity name n "peerchat-hl" "chat" "cluster.local" 5678 8080.

Lemma siblings_agree_witness :
  identity_from_env "h" (pod_env "peer-chat-3") = Ok (pod "peer-chat-3" 3) ∧
  peer_fqdn (pod "peer-chat-0" 0) 3 = "peer-chat-3.peerchat-hl.chat.svc.cluster.local".
Proof.
  destruct (siblings_agree "h" "h" (pod_env "peer-chat-3") (pod_env "peer-chat-0") (pod "peer-chat-3" 3)
    (pod "peer-chat-0" 0) "peer-chat" 3) as (_ & E & _); [vm_compute; reflexivity|vm_compute; reflexivity|done|done|done|done|done|].
  split; [vm_compute; reflexivity|]. exact E.
Defined.
