(* ===== verification/CausalCheck.v ===== *)
(** * The offline causality checker ([harness/causal_check.py])

    The harness replays the delivery log of every peer against the causal order and
    reports breaches, duplicates, losses and latencies.  Latencies are computed in exact
    arithmetic: a time stamp is a whole number of microseconds, and [round(x, 2)] of
    milliseconds is a whole number of units of ten microseconds. *)

From stdpp Require Import prelude gmap strings.
From S2P Require Import Prelude PyDict PyStr.

Local Open Scope string_scope.
Local Open Scope list_scope.

(** A delivery record.  [r_vc] lists the clock in the order of the dictionary. *)
Record Delivery := mkDelivery {
  r_seq : Z;
  r_id : string;
  r_sender : string;
  r_vc : pydict string Z;
  ts_recv : option time;
  ts_send : option time;
}.

Record Violation := mkViolation {
  v_pod : string;
  v_seq : Z;
  v_id : string;
  v_sender : string;
  v_kind : string;
  v_detail : string;
  v_held_ms : option Z;
}.

(** ** Rounding *)

(** [round(a / b)], ties to even. *)
Definition round_div (a b : Z) : Z :=
  let q := (a / b)%Z in
  let r := (2 * (a mod b))%Z in
  if (r <? b)%Z then q else if (b <? r)%Z then (q + 1)%Z else if Z.even q then q else (q + 1)%Z.

(** [round(d * 1000, 2)] for a duration: units of ten microseconds. *)
Definition round_ms (d : time) : Z := round_div d 10.

Definition held_ms (r : Delivery) : option Z :=
  match ts_recv r, ts_send r with
  | Some a, Some b => Some (round_ms (a - b))
  | _, _ => None
  end.

(** ** [check_peer_log] *)

Definition count_of (d : pydict string Z) (k : string) : Z := default 0%Z (dget k d).

(** [delivered[k]] on a [defaultdict(int)]: a missing key is created. *)
Definition dread (k : string) (d : pydict string Z) : Z * pydict string Z :=
  match dget k d with Some v => (v, d) | None => (0%Z, dset k 0%Z d) end.

(** (1): the sender's own sequence. *)
Definition check_sender (pod : string) (r : Delivery) (d : pydict string Z) : list Violation * pydict string Z :=
  let '(have, d) := dread (r_sender r) d in
  let expected := (have + 1)%Z in
  let got := count_of (r_vc r) (r_sender r) in
  if (got =? expected)%Z then ([], d)
  else ([mkViolation pod (r_seq r) (r_id r) (r_sender r)
           (if (expected <? got)%Z then "sender_gap" else "sender_regress")
           ("V[" +:+ r_sender r +:+ "]=" +:+ string_of_Z got +:+ ", expected " +:+ string_of_Z expected)
           (held_ms r)], d).

(** (2): the dependencies on other senders. *)
Fixpoint check_dependencies (pod : string) (r : Delivery) (vc : list (string * Z)) (d : pydict string Z) :
    list Violation * pydict string Z :=
  match vc with
  | [] => ([], d)
  | (node, count) :: vc =>
    if decide (node = r_sender r) then check_dependencies pod r vc d
    else
      let '(have, d) := dread node d in
      let '(vs, d') := check_dependencies pod r vc d in
      (if (have <? count)%Z then
         mkViolation pod (r_seq r) (r_id r) (r_sender r) "missing_dependency"
           ("needs " +:+ node +:+ "<=" +:+ string_of_Z count +:+ " but only " +:+ string_of_Z have +:+
            " delivered from " +:+ node) (held_ms r) :: vs
       else vs, d')
  end.

(** Advancing past the record. *)
Definition advance_entry (d : pydict string Z) (kc : string * Z) : pydict string Z :=
  let '(have, d) := dread kc.1 d in
  if (have <? kc.2)%Z then dset kc.1 kc.2 d else d.
Definition advance (vc d : pydict string Z) : pydict string Z := foldl advance_entry d vc.

Record Replay := mkReplay {
  delivered_clock : pydict string Z;
  violations : list Violation;
  seen_ids : gset string;
  duplicates : nat;
}.

Definition check_record (pod : string) (s : Replay) (r : Delivery) : Replay :=
  let dup := bool_decide (r_id r ∈ seen_ids s) in
  let '(v1, d) := check_sender pod r (delivered_clock s) in
  let '(v2, d) := check_dependencies pod r (r_vc r) d in
  mkReplay (advance (r_vc r) d) (violations s ++ v1 ++ v2) ({[r_id r]} ∪ seen_ids s)
    (if dup then S (duplicates s) else duplicates s).

Record PeerReport := mkPeerReport {
  p_pod : string;
  p_delivered : nat;
  p_unique : nat;
  p_duplicates : nat;
  p_violations : list Violation;
  p_final_clock : pydict string Z;
}.

Definition check_peer_log (pod : string) (deliveries : list Delivery) (baseline : pydict string Z) : PeerReport :=
  let s := foldl (check_record pod) (mkReplay baseline [] ∅ 0) deliveries in
  mkPeerReport pod (length deliveries) (size (seen_ids s)) (duplicates s) (violations s) (delivered_clock s).

(** ** [percentile] and [latency_stats] *)

(** The rank is [ceil(pct / 100 * N)]. *)
Definition percentile (values : list Z) (pct : Z) : option Z :=
  match values with
  | [] => None
  | _ =>
    let ordered := sort_on (λ z, z) values in
    let n := Z.of_nat (length ordered) in
    let rank := (- ((- (pct * n)) / 100))%Z in
    ordered !! Z.to_nat (Z.min (Z.max (rank - 1) 0) (n - 1))
  end.

Definition latency_samples (deliveries : list Delivery) (remote_only : bool) (pod : option string) : list Z :=
  omap (λ r, match ts_send r, ts_recv r with
             | Some s, Some t => if remote_only && bool_decide (pod = Some (r_sender r)) then None else Some (t - s)%Z
             | _, _ => None
             end) deliveries.

Record LatencyStats := mkLatency {
  l_count : nat;
  p50 : option Z; p95 : option Z; p99 : option Z;
  l_max : option Z;
  l_mean : option Z;
}.

Definition sum_Z (l : list Z) : Z := foldr Z.add 0%Z l.
Definition max_Z (l : list Z) : option Z :=
  match l with [] => None | x :: l => Some (foldl Z.max x l) end.

Definition latency_stats (deliveries : list Delivery) (remote_only : bool) (pod : option string) : LatencyStats :=
  let samples := latency_samples deliveries remote_only pod in
  match samples with
  | [] => mkLatency 0 None None None None None
  | _ => mkLatency (length samples) (round_ms <$> percentile samples 50) (round_ms <$> percentile samples 95)
           (round_ms <$> percentile samples 99) (round_ms <$> max_Z samples)
           (Some (round_div (sum_Z samples) (10 * Z.of_nat (length samples))))
  end.

(** ** [analyze] *)

Record SentRecord := mkSent { m_id : string; m_ts : time; m_n : Z }.

Record PodRow := mkRow {
  row_pod : string;
  row_sent : nat;
  row_delivered : nat;
  row_unique : nat;
  row_duplicates : nat;
  row_missing : nat;
  row_violations : nat;
  row_latency : LatencyStats;
  row_final_clock : pydict string Z;
}.

Record Analysis := mkAnalysis {
  messages_sent : nat;
  unique_message_ids : nat;
  a_peers : nat;
  total_delivered : nat;
  expected_deliveries : nat;
  violations_total : nat;
  violating_deliveries : nat;
  violations_by_kind : pydict string nat;
  violations_past_holdback_timeout : nat;
  latency_remote_all_peers : LatencyStats;
  per_pod : list PodRow;
  violation_samples : list Violation;
}.

Definition baseline_of (baselines : pydict string (pydict string Z)) (pod : string) : pydict string Z :=
  default [] (dget pod baselines).

Definition delivered_ids (ds : list Delivery) : gset string := list_to_set (r_id <$> ds).

Definition pod_row (sent : pydict string (list SentRecord)) (sent_ids : gset string) (pod : string)
    (ds : list Delivery) (rep : PeerReport) : PodRow :=
  mkRow pod (length (default [] (dget pod sent))) (p_delivered rep) (p_unique rep) (p_duplicates rep)
    (size (sent_ids ∖ delivered_ids ds)) (length (p_violations rep)) (latency_stats ds true (Some pod))
    (p_final_clock rep).

(** The samples of one pod for the overall latency: a record with a sending time must
    have a receiving one. *)
Definition remote_samples (pod : string) (ds : list Delivery) : result (list Z) :=
  mapR (λ r, match ts_send r, ts_recv r with
             | Some s, Some t => Ok (t - s)%Z
             | _, _ => Raise KeyError
             end)
    (List.filter (λ r, match ts_send r with Some _ => negb (bool_decide (r_sender r = pod)) | None => false end) ds).

(** Counting per kind, on a [defaultdict(int)]. *)
Definition count_kind (d : pydict string nat) (v : Violation) : pydict string nat :=
  dset (v_kind v) (S (default 0 (dget (v_kind v) d))) d.

Definition held_long (v : Violation) : bool := (500000 <=? default 0 (v_held_ms v))%Z.

Definition analyze (deliveries : pydict string (list Delivery)) (sent : pydict string (list SentRecord))
    (baselines : pydict string (pydict string Z)) : result Analysis :=
  let total_sent := sum_list (length <$> dvalues sent) in
  let sent_ids : gset string := list_to_set (m_id <$> concat (dvalues sent)) in
  let reports := (λ kv, (kv, check_peer_log kv.1 kv.2 (baseline_of baselines kv.1))) <$> sort_keys deliveries in
  let all_violations := reports ≫= (λ x, p_violations x.2) in
  samples ← mapR (λ x, remote_samples x.1.1 x.1.2) reports;
  let all := concat samples in
  mret (mkAnalysis total_sent (size sent_ids) (length deliveries) (sum_list (length <$> dvalues deliveries))
    (total_sent * length deliveries) (length all_violations)
    (size (list_to_set ((λ v, (v_pod v, v_seq v)) <$> all_violations) : gset (string * Z)))
    (foldl count_kind [] all_violations)
    (length (List.filter held_long all_violations))
    (mkLatency (length all) (round_ms <$> percentile all 50) (round_ms <$> percentile all 95)
       (round_ms <$> percentile all 99) (round_ms <$> max_Z all) None)
    ((λ x, pod_row sent sent_ids x.1.1 x.1.2 x.2) <$> reports)
    (take 20 all_violations)).

(** ** The causal order, stated on the log *)

(** [r] may be delivered when [D] counts what has been delivered from each sender. *)
Definition causal (D : string → Z) (r : Delivery) : Prop :=
  count_of (r_vc r) (r_sender r) = (D (r_sender r) + 1)%Z ∧
  ∀ k c, (k, c) ∈ r_vc r → k ≠ r_sender r → (c ≤ D k)%Z.

(** What has been accounted for from [k] after the records [rs]. *)
Definition past (base : string → Z) (rs : list Delivery) (k : string) : Z :=
  foldl (λ v r, match dget k (r_vc r) with Some c => Z.max v c | None => v end) (base k) rs.

Definition causal_log (base : string → Z) (ds : list Delivery) : Prop :=
  ∀ i r, ds !! i = Some r → causal (past base (take i ds)) r.

(** ** The checker against it *)

Lemma dread_count k d k' : count_of (dread k d).2 k' = count_of d k'.
Proof.
  unfold dread, count_of. destruct (dget k d) eqn:E; [done|]. cbn. rewrite dget_dset. case_decide; [|done].
  subst. by rewrite E.
Qed.
Lemma dread_value k d : (dread k d).1 = count_of d k.
Proof. unfold dread, count_of. by destruct (dget k d). Qed.

Lemma check_sender_spec pod r d : ∃ vs d', check_sender pod r d = (vs, d') ∧
  (∀ k, count_of d' k = count_of d k) ∧
  (vs = [] ↔ count_of (r_vc r) (r_sender r) = (count_of d (r_sender r) + 1)%Z).
Proof.
  unfold check_sender. pose proof (dread_count (r_sender r) d) as Hc. pose proof (dread_value (r_sender r) d) as Hv.
  destruct (dread (r_sender r) d) as [have d']. cbn [fst snd] in Hc, Hv. subst have. cbv zeta.
  destruct (Z.eqb_spec (count_of (r_vc r) (r_sender r)) (count_of d (r_sender r) + 1));
    (eexists _, _; split; [reflexivity|]; split; [done|]); split; first [done|intros; exfalso; congruence].
Qed.

Lemma check_dependencies_spec pod r vc d : ∃ vs d', check_dependencies pod r vc d = (vs, d') ∧
  (∀ k, count_of d' k = count_of d k) ∧
  (vs = [] ↔ ∀ k c, (k, c) ∈ vc → k ≠ r_sender r → (c ≤ count_of d k)%Z).
Proof.
  revert d. induction vc as [|[n c] vc IH]; intros d; cbn [check_dependencies].
  { exists [], d. split_and!; [done|done|]. split; [|done]. by intros _ k c ?%not_elem_of_nil. }
  destruct (decide (n = r_sender r)) as [E|E].
  { destruct (IH d) as (vs & d' & -> & Hc & Hvs). exists vs, d'. split_and!; [done|done|].
    rewrite Hvs. split; intros H k c' Hin; [|by apply H; right].
    apply elem_of_cons in Hin as [[= -> ->]|Hin]; [done|by apply H]. }
  pose proof (dread_count n d) as Hc0. pose proof (dread_value n d) as Hv0.
  destruct (dread n d) as [have d0]. cbn [fst snd] in Hc0, Hv0. subst have.
  destruct (IH d0) as (vs & d' & -> & Hc & Hvs). eexists _, d'. split; [done|].
  split; [intros k; by rewrite Hc, Hc0|]. destruct (Z.ltb_spec (count_of d n) c) as [Hlt|Hge].
  - split; [done|]. intros H. specialize (H n c ltac:(left) E). lia.
  - rewrite Hvs. split; intros H k c' Hin Hk.
    + apply elem_of_cons in Hin as [[= -> ->]|Hin]; [done|]. rewrite <- Hc0. by apply H.
    + rewrite Hc0. apply H; [by right|done].
Qed.

Lemma advance_entry_count d kc k :
  count_of (advance_entry d kc) k = if decide (k = kc.1) then Z.max (count_of d k) kc.2 else count_of d k.
Proof.
  unfold advance_entry. pose proof (dread_count kc.1 d) as Hc. pose proof (dread_value kc.1 d) as Hv.
  destruct (dread kc.1 d) as [have d']. cbn [fst snd] in Hc, Hv. subst have.
  destruct (Z.ltb_spec (count_of d kc.1) kc.2); case_decide as E; subst.
  - unfold count_of at 1. rewrite dget_dset_eq. cbn. lia.
  - unfold count_of at 1. rewrite dget_dset_ne by done. apply Hc.
  - rewrite Hc. lia.
  - apply Hc.
Qed.

Lemma advance_count vc d k : dwf vc → count_of (advance vc d) k =
  match dget k vc with Some c => Z.max (count_of d k) c | None => count_of d k end.
Proof.
  unfold advance. revert d. induction vc as [|[n c] vc IH]; intros d Hw; [done|].
  apply NoDup_cons in Hw as [Hn Hw]. cbn [foldl dget]. rewrite IH, advance_entry_count by done. cbn [fst snd].
  repeat case_decide; subst; try done. by rewrite (proj2 (dget_None vc _) Hn).
Qed.

Lemma past_cons base r rs k : past base (r :: rs) k =
  past (λ k, match dget k (r_vc r) with Some c => Z.max (base k) c | None => base k end) rs k.
Proof. done. Qed.
Lemma past_ext b b' rs k : b k = b' k → past b rs k = past b' rs k.
Proof. unfold past. by intros ->. Qed.
Lemma causal_ext D D' r : (∀ k, D k = D' k) → causal D r ↔ causal D' r.
Proof. intros H. unfold causal. rewrite (H (r_sender r)). by setoid_rewrite H. Qed.
Lemma causal_log_ext D D' rs : (∀ k, D k = D' k) → causal_log D rs ↔ causal_log D' rs.
Proof.
  intros H. unfold causal_log. split; intros Hl i r Hr; eapply causal_ext; [|by apply Hl| |by apply Hl];
    intros k; apply past_ext; by rewrite H.
Qed.

Lemma causal_log_cons base r rs : causal_log base (r :: rs) ↔ causal base r ∧
  causal_log (λ k, match dget k (r_vc r) with Some c => Z.max (base k) c | None => base k end) rs.
Proof.
  split.
  - intros H. split; [apply (H 0 r eq_refl)|]. intros i x Hx. exact (H (S i) x Hx).
  - intros [H0 H] [|i] x Hx; [by injection Hx as <-|]. exact (H i x Hx).
Qed.

Lemma check_record_spec pod s r : dwf (r_vc r) → ∃ vs,
  violations (check_record pod s r) = violations s ++ vs ∧
  (vs = [] ↔ causal (count_of (delivered_clock s)) r) ∧
  (∀ k, count_of (delivered_clock (check_record pod s r)) k =
     match dget k (r_vc r) with
     | Some c => Z.max (count_of (delivered_clock s) k) c | None => count_of (delivered_clock s) k end) ∧
  seen_ids (check_record pod s r) = {[r_id r]} ∪ seen_ids s ∧
  duplicates (check_record pod s r) + size (seen_ids (check_record pod s r)) =
    S (duplicates s + size (seen_ids s)).
Proof.
  intros Hr. unfold check_record.
  destruct (check_sender_spec pod r (delivered_clock s)) as (v1 & d1 & -> & Hc1 & Hv1).
  destruct (check_dependencies_spec pod r (r_vc r) d1) as (v2 & d2 & -> & Hc2 & Hv2).
  cbn [violations seen_ids duplicates delivered_clock]. exists (v1 ++ v2). split_and!; [done| | |done|].
  - rewrite (app_nil v1), Hv1, Hv2. unfold causal. by setoid_rewrite Hc1.
  - intros k. rewrite advance_count by exact Hr. by rewrite Hc2, Hc1.
  - destruct (bool_decide (r_id r ∈ seen_ids s)) eqn:E; zbool.
    + assert ({[r_id r]} ∪ seen_ids s = seen_ids s) as -> by (apply subseteq_union_1_L, singleton_subseteq_l; exact E).
      lia.
    + rewrite size_union by (by apply disjoint_singleton_l). rewrite size_singleton. lia.
Qed.

Lemma check_log_spec pod ds s : Forall (λ r, dwf (r_vc r)) ds → ∃ vs,
  violations (foldl (check_record pod) s ds) = violations s ++ vs ∧
  (vs = [] ↔ causal_log (count_of (delivered_clock s)) ds) ∧
  seen_ids (foldl (check_record pod) s ds) = seen_ids s ∪ list_to_set (r_id <$> ds) ∧
  duplicates (foldl (check_record pod) s ds) + size (seen_ids (foldl (check_record pod) s ds)) =
    duplicates s + size (seen_ids s) + length ds.
Proof.
  intros Hw. revert s. induction Hw as [|r ds Hr Hw IH]; intros s; cbn [foldl].
  { exists []. rewrite app_nil_r. split_and!; [done| |set_solver|cbn; lia]. split; [|done]. by intros _ i x Hx. }
  destruct (IH (check_record pod s r)) as (vs & Hv & Hvs & Hs & Hd).
  destruct (check_record_spec pod s r Hr) as (v & Hv' & Hv0 & Hc & Hs' & Hd').
  exists (v ++ vs). split_and!.
  - by rewrite Hv, Hv', app_assoc.
  - rewrite app_nil, Hv0, Hvs, causal_log_cons, (causal_log_ext _ _ ds Hc). done.
  - rewrite Hs, Hs'. cbn. by rewrite (comm_L (∪) {[r_id r]}), assoc_L by typeclasses eauto.
  - cbn [length]. lia.
Qed.

Lemma checker_exact pod ds baseline : Forall (λ r, dwf (r_vc r)) ds →
  let rep := check_peer_log pod ds baseline in
  (p_violations rep = [] ↔ causal_log (count_of baseline) ds) ∧
  p_unique rep = size (delivered_ids ds) ∧
  p_duplicates rep + p_unique rep = length ds.
Proof.
  intros Hw rep. destruct (check_log_spec pod ds (mkReplay baseline [] ∅ 0) Hw) as (vs & Hv & Hvs & Hs & Hd).
  cbn [violations seen_ids duplicates delivered_clock app] in *. unfold rep, check_peer_log. cbn [p_violations p_unique p_duplicates].
  rewrite Hv. rewrite size_empty in Hd. split_and!; [exact Hvs| |lia].
  rewrite Hs. unfold delivered_ids. by rewrite (left_id_L ∅ (∪)).
Qed.

(** C40: The checker is exact.  Its verdict on a log is empty exactly when every record, in
    its place, is the next one from its sender and depends on nothing that has not been
    accounted for before it; and it counts as duplicates what exceeds the number of
    distinct identifiers. *)
Theorem checker_is_exact pod ds baseline : Forall (λ r, dwf (r_vc r)) ds →
  let rep := check_peer_log pod ds baseline in
  (p_violations rep = [] ↔ causal_log (count_of baseline) ds) ∧
  p_unique rep = size (delivered_ids ds) ∧
  p_duplicates rep + p_unique rep = length ds.
Proof. apply checker_exact. Qed.

(** ** The statistics *)

Lemma filter_length_perm {A} (f : A → bool) l k : l ≡ₚ k → length (List.filter f l) = length (List.filter f k).
Proof. induction 1; cbn; repeat case_match; cbn; lia. Qed.

Lemma sorted_counts (l : list Z) i v : sorted_on (λ z, z) l → l !! i = Some v →
  (S i ≤ length (List.filter (λ w, w <=? v)%Z l))%nat ∧ (length (List.filter (λ w, w <? v)%Z l) ≤ i)%nat.
Proof.
  revert i. induction l as [|x l IH]; intros i Hs Hi; [done|].
  inversion Hs as [|? ? Hs' Hx]; subst. destruct i as [|i].
  - injection Hi as ->. cbn. rewrite Z.leb_refl, Z.ltb_irrefl. cbn. split; [lia|].
    rewrite filter_none; [cbn; lia|]. eapply Forall_impl; [exact Hx|]. intros w Hw. apply Z.ltb_ge. exact Hw.
  - cbn [lookup list_lookup] in Hi. destruct (IH i Hs' Hi) as [H1 H2].
    assert (x ≤ v)%Z as Hxv by (rewrite Forall_forall in Hx; apply Hx; by eapply list_elem_of_lookup_2).
    cbn [List.filter]. rewrite (proj2 (Z.leb_le x v) Hxv). cbn [length]. split; [lia|].
    destruct (x <? v)%Z; cbn [length]; lia.
Qed.

(** [percentile] is the nearest rank: the smallest of the values that at least [pct] per
    cent of them do not exceed.  It exists for every non-empty sample. *)
Theorem percentile_is_nearest_rank values pct : values ≠ [] → (0 < pct ≤ 100)%Z →
  ∃ v, percentile values pct = Some v ∧ v ∈ values ∧
    (pct * Z.of_nat (length values) ≤ 100 * Z.of_nat (length (List.filter (λ w, w <=? v)%Z values)))%Z ∧
    (100 * Z.of_nat (length (List.filter (λ w, w <? v)%Z values)) < pct * Z.of_nat (length values))%Z.
Proof.
  intros Hne Hp. pose proof (sort_on_perm (λ z : Z, z) values) as Hperm. pose proof (sort_on_sorted (λ z : Z, z) values) as Hsort.
  set (o := sort_on (λ z, z) values) in *. assert (length o = length values) as Hl by by rewrite Hperm.
  set (n := Z.of_nat (length values)). assert (1 ≤ n)%Z as Hn by (destruct values; [done|subst n; cbn; lia]).
  set (rank := (- ((- (pct * n)) / 100))%Z).
  assert (100 * (rank - 1) < pct * n ≤ 100 * rank)%Z as Hrank.
  { unfold rank. pose proof (Z.div_mod (- (pct * n)) 100 ltac:(lia)) as H1.
    pose proof (Z.mod_pos_bound (- (pct * n)) 100 ltac:(lia)) as H2. lia. }
  assert (1 ≤ rank ≤ n)%Z as Hr by nia.
  destruct (lookup_lt_is_Some_2 o (Z.to_nat (rank - 1))) as [v Hv]; [lia|].
  exists v. split.
  { unfold percentile. destruct values; [done|]. fold o. rewrite Hl. fold n. fold rank.
    rewrite Z.max_l, Z.min_l by lia. exact Hv. }
  destruct (sorted_counts o _ v Hsort Hv) as [Hle Hlt].
  assert (∀ f : Z → bool, length (List.filter f o) = length (List.filter f values)) as Hf.
  { intros f. by apply filter_length_perm. }
  rewrite !Hf in *. split; [|lia]. rewrite <- Hperm. by eapply list_elem_of_lookup_2.
Qed.

Lemma percentile_is_nearest_rank_witness : ∃ v, percentile [5; 1; 4; 2; 3]%Z 50 = Some v ∧ v = 3%Z.
Proof.
  destruct (percentile_is_nearest_rank [5; 1; 4; 2; 3]%Z 50) as (v & Hv & _); [done|lia|].
  exists v. split; [exact Hv|]. vm_compute in Hv. congruence.
Defined.

(** ** The verdict *)

Lemma sum_dset k n (d : pydict string nat) :
  sum_list (dvalues (dset k n d)) + default 0 (dget k d) = sum_list (dvalues d) + n.
Proof.
  assert (∀ k m (d : pydict string nat), sum_list (dvalues ((k, m) :: d)) = m + sum_list (dvalues d)) as Hc by done.
  induction d as [|[k' m] d IH]; cbn [dset dget]; [rewrite Hc; cbn; lia|].
  destruct (decide (k = k')) as [->|]; rewrite !Hc; unfold default, id in *; lia.
Qed.

Lemma count_kind_sum vs d : sum_list (dvalues (foldl count_kind d vs)) = sum_list (dvalues d) + length vs.
Proof.
  revert d. induction vs as [|v vs IH]; intros d; [cbn [foldl length]; lia|]. cbn [foldl length]. rewrite IH. unfold count_kind.
  pose proof (sum_dset (v_kind v) (S (default 0 (dget (v_kind v) d))) d). unfold default, id in *.
  destruct (dget (v_kind v) d); lia.
Qed.

Lemma size_list_to_set_le `{Countable A} (l : list A) : (size (list_to_set l : gset A) ≤ length l)%nat.
Proof.
  induction l as [|x l IH]; [cbn [list_to_set length]; by rewrite size_empty|]. cbn [list_to_set length].
  destruct (decide (x ∈ (list_to_set l : gset A))) as [Hx|Hx].
  - rewrite subseteq_union_1_L by (by apply singleton_subseteq_l). lia.
  - rewrite size_union by (by apply disjoint_singleton_l). rewrite size_singleton. lia.
Qed.

(** The records of a log from which [analyze] takes latencies: the remote ones sent with
    a time stamp. *)
Definition timed (pod : string) (r : Delivery) : Prop :=
  r_sender r ≠ pod → is_Some (ts_send r) → is_Some (ts_recv r).

Lemma remote_samples_ok pod ds : Forall (timed pod) ds → ∃ l, remote_samples pod ds = Ok l.
Proof.
  intros H. unfold remote_samples. induction H as [|r ds Hr _ IH]; [by eexists|]. cbn [List.filter].
  destruct (ts_send r) as [t|] eqn:Et; [|done]. case_bool_decide as Es; cbn [negb]; [done|].
  destruct IH as [l IH]. destruct (Hr Es) as [t' Ht']; [by eexists|].
  cbn [mapR]. rewrite Et, Ht'. cbn. rewrite IH. by eexists.
Qed.

Lemma mapR_some {A B} (f : A → result B) l : Forall (λ x, ∃ y, f x = Ok y) l → ∃ ys, mapR f l = Ok ys.
Proof. induction 1 as [|x l [y Hy] _ [ys IH]]; [by eexists|]. cbn. rewrite Hy. cbn. rewrite IH. by eexists. Qed.

Lemma analyze_total deliveries sent baselines a :
  Forall (λ kv, Forall (λ r, dwf (r_vc r)) kv.2) deliveries → analyze deliveries sent baselines = Ok a →
  (violations_total a = 0 ↔ ∀ pod ds, (pod, ds) ∈ deliveries → causal_log (count_of (baseline_of baselines pod)) ds).
Proof.
  intros Hok. unfold analyze. set (reports := _ <$> sort_keys deliveries).
  assert (∀ x, x ∈ reports ↔ ∃ kv, kv ∈ deliveries ∧ x = (kv, check_peer_log kv.1 kv.2 (baseline_of baselines kv.1))) as Hrep.
  { intros x. unfold reports. rewrite list_elem_of_fmap.
    split; intros (kv & H1 & H2); exists kv; [by rewrite sort_keys_perm in H2|by rewrite sort_keys_perm]. }
  rewrite Forall_forall in Hok. destruct (mapR _ reports) as [ys|]; [|done]. cbn [mbind result_bind]. intros [= <-].
  cbn [violations_total]. rewrite length_zero_iff_nil.
  assert (reports ≫= (λ x, p_violations x.2) = [] ↔ ∀ x, x ∈ reports → p_violations x.2 = []) as ->.
  { clear. induction reports as [|x l IH]; [split; [by intros _ x ?%not_elem_of_nil|done]|].
    cbn. rewrite app_nil, IH. split.
    - intros [H1 H2] y [->|Hy]%elem_of_cons; auto.
    - intros H. split; [apply H; left|]. intros y Hy. apply H. by right. }
  split.
  - intros H pod ds Hin. apply (checker_exact pod ds (baseline_of baselines pod)); [exact (Hok _ Hin)|].
    apply (H (pod, ds, check_peer_log pod ds (baseline_of baselines pod))). apply Hrep. by exists (pod, ds).
  - intros H x ([pod ds] & Hin & ->)%Hrep. apply checker_exact; [exact (Hok _ Hin)|]. by apply H.
Qed.

(** The report answers what it is asked.  On logs with their time stamps [analyze]
    returns; its violations are none exactly when the log of every peer is causally
    ordered from that peer's baseline; the counts by kind add up to the total, and no more
    deliveries are called violating than there are violations. *)
Theorem analyze_verdict deliveries sent baselines :
  Forall (λ kv, Forall (λ r, dwf (r_vc r)) kv.2 ∧ Forall (timed kv.1) kv.2) deliveries →
  ∃ a, analyze deliveries sent baselines = Ok a ∧
    (violations_total a = 0 ↔
       ∀ pod ds, (pod, ds) ∈ deliveries → causal_log (count_of (baseline_of baselines pod)) ds) ∧
    sum_list (dvalues (violations_by_kind a)) = violations_total a ∧
    (violating_deliveries a ≤ violations_total a)%nat.
Proof.
  intros Hok. assert (∃ a, analyze deliveries sent baselines = Ok a) as [a E].
  { unfold analyze. destruct (mapR_some (λ x : string * list Delivery * PeerReport, remote_samples x.1.1 x.1.2)
      ((λ kv, (kv, check_peer_log kv.1 kv.2 (baseline_of baselines kv.1))) <$> sort_keys deliveries)) as [ys ->]; [|by eexists].
    apply Forall_fmap, Forall_forall. intros [k ds] Hin. rewrite sort_keys_perm in Hin. rewrite Forall_forall in Hok.
    apply remote_samples_ok. by apply (Hok (k, ds)). }
  exists a. split; [done|]. split; [|].
  - apply analyze_total with sent; [|done]. eapply Forall_impl; [exact Hok|]. by intros kv [? _].
  - unfold analyze in E. destruct (mapR _ _) as [ys|]; [|done]. injection E as <-.
    cbn [violations_total violations_by_kind violating_deliveries]. split.
    + by rewrite count_kind_sum.
    + etransitivity; [apply size_list_to_set_le|]. by rewrite length_fmap.
Qed.

(** ** A log with a breach *)

Definition sample_deliveries : list Delivery :=
  [mkDelivery 0 "m1" "chat-0" [("chat-0", 1%Z)] (Some 2000%Z) (Some 1000%Z);
   mkDelivery 1 "m3" "chat-0" [("chat-0", 3%Z)] (Some 3000%Z) (Some 1000%Z);
   mkDelivery 2 "m3" "chat-1" [("chat-0", 3%Z); ("chat-1", 1%Z)] (Some 4000%Z) (Some 1000%Z)].

Lemma sample_wf : Forall (λ r, dwf (r_vc r)) sample_deliveries.
Proof. repeat constructor; by apply (bool_decide_unpack _); vm_compute. Qed.

Lemma checker_is_exact_witness :
  ¬ causal_log (count_of []) sample_deliveries ∧ p_duplicates (check_peer_log "chat-1" sample_deliveries []) = 1.
Proof.
  split; [|reflexivity]. rewrite <- (proj1 (checker_is_exact "chat-1" sample_deliveries [] sample_wf)).
  vm_compute. discriminate.
Defined.

Lemma analyze_verdict_witness : ∃ a,
  analyze [("chat-1", sample_deliveries)] [("chat-0", [mkSent "m1" 1000 0; mkSent "m3" 1000 1])] [] = Ok a ∧
  (violating_deliveries a ≤ violations_total a)%nat.
Proof.
  destruct (analyze_verdict [("chat-1", sample_deliveries)] [("chat-0", [mkSent "m1" 1000 0; mkSent "m3" 1000 1])] [])
    as (a & E & _ & _ & H).
  - apply Forall_singleton. split; [apply sample_wf|]. repeat constructor; by eexists.
  - exists a. split; [exact E|exact H].
Defined.
