(* ===== verification/PeerRuntime.v ===== *)
(** * The headless peer's delivery log ([deploy/peer_node.py])

    The runtime observes its broadcast node: every call of [on_message] is recorded, with
    the clock of what has been delivered, for the harness to replay.  What the history
    service answers for a message is an argument; the recovery state machine that gates
    the join is modelled round by round. *)

From stdpp Require Import prelude gmap strings.
From S2P Require Import Prelude PyDict PyStr Message Security PeerRegistry VectorClock BroadcastNode BroadcastFacts CausalCheck.

Local Open Scope string_scope.
Local Open Scope list_scope.

Definition RECOVERY_SETTLE : time := seconds 3.
Definition RECOVERY_MAX : time := seconds 30.

(** [short_key]: the text up to the first dot. *)
Fixpoint short_key (address : string) : string :=
  match address with
  | EmptyString => ""
  | String c rest => if decide (c = chr 46) then "" else String c (short_key rest)
  end.

(** [short_vc]: a later entry of the same short name wins. *)
Definition short_vc (vc : list (string * Z)) : pydict string Z :=
  foldl (λ d kc, dset (short_key kc.1) kc.2 d) [] vc.

Record PeerRuntime := mkRuntime {
  deliveries : list Delivery;
  sent : list SentRecord;
  baseline_vc : pydict string Z;
  delivered_vc : pydict string Z;
  recovery_chunks : nat;
  recovery_last_chunk_at : option time;
  recovery_requested_at : option time;
  recovery_took : option Z;
  deliveries_before_ready : nat;
  joined_at : option time;
}.

(** [__init__], and [start] with the clock [restored] from the store. *)
Definition start_runtime (restored : list (string * Z)) : PeerRuntime :=
  mkRuntime [] [] [] (short_vc restored) 0 None None None 0 None.

Definition set_delivered_vc x (rt : PeerRuntime) : PeerRuntime :=
  mkRuntime (deliveries rt) (sent rt) (baseline_vc rt) x (recovery_chunks rt) (recovery_last_chunk_at rt)
    (recovery_requested_at rt) (recovery_took rt) (deliveries_before_ready rt) (joined_at rt).

(** [if count > self._delivered_vc.get(node, 0): self._delivered_vc[node] = count] *)
Definition account (d : pydict string Z) (kc : string * Z) : pydict string Z :=
  if (count_of d kc.1 <? kc.2)%Z then dset kc.1 kc.2 d else d.
Definition account_all (vc d : pydict string Z) : pydict string Z := foldl account d vc.

(** What the history service makes of a message: a chat message; a frame it absorbs; or
    a chunk of history, with the clock its store has afterwards. *)
Inductive absorbed := chat | frame | chunk (store_clock : list (string * Z)).

(** [_on_message] *)
Definition observe (now : time) (h : absorbed) (msg : Message) (rt : PeerRuntime) : PeerRuntime :=
  match h with
  | frame => rt
  | chunk clock =>
    mkRuntime (deliveries rt) (sent rt) (baseline_vc rt) (account_all (short_vc clock) (delivered_vc rt))
      (S (recovery_chunks rt)) (Some now) (recovery_requested_at rt) (recovery_took rt)
      (deliveries_before_ready rt) (joined_at rt)
  | chat =>
    let vc := short_vc (map_to_list (vector_clock msg)) in
    let rt := set_delivered_vc (account_all vc (delivered_vc rt)) rt in
    mkRuntime
      (deliveries rt ++ [mkDelivery (Z.of_nat (length (deliveries rt))) (id msg) (short_key (sender msg)) vc
                           (Some now) (Some (timestamp msg))])
      (sent rt) (baseline_vc rt) (delivered_vc rt) (recovery_chunks rt) (recovery_last_chunk_at rt)
      (recovery_requested_at rt) (recovery_took rt) (deliveries_before_ready rt) (joined_at rt)
  end.

(** [send]: one message per identifier and time stamp, handed to [broadcast] in turn. *)
Definition send (pod_name prefix address : string) (draws : list (string * time)) (rt : PeerRuntime) :
    list Message * PeerRuntime :=
  (imap (λ i ut, new_message (prefix +:+ ":" +:+ pod_name +:+ ":" +:+ string_of_Z (Z.of_nat i)) address ut.1 ut.2) draws,
   mkRuntime (deliveries rt) (sent rt ++ imap (λ i ut, mkSent ut.1 ut.2 (Z.of_nat i)) draws) (baseline_vc rt)
     (delivered_vc rt) (recovery_chunks rt) (recovery_last_chunk_at rt) (recovery_requested_at rt)
     (recovery_took rt) (deliveries_before_ready rt) (joined_at rt)).

(** [reset] *)
Definition reset (rt : PeerRuntime) : PeerRuntime :=
  mkRuntime [] [] (delivered_vc rt) (delivered_vc rt) (recovery_chunks rt) (recovery_last_chunk_at rt)
    (recovery_requested_at rt) (recovery_took rt) (deliveries_before_ready rt) (joined_at rt).

(** [_begin_causal_log]; the seeding of the node's seen set is [seed_seen_set] below. *)
Definition _begin_causal_log (rt : PeerRuntime) : PeerRuntime :=
  mkRuntime [] (sent rt) (delivered_vc rt) (delivered_vc rt) (recovery_chunks rt) (recovery_last_chunk_at rt)
    (recovery_requested_at rt) (recovery_took rt) (length (deliveries rt)) (joined_at rt).

(** [_recovery_settled]: asked for, quiet for long enough, and nothing held back; or out
    of time.  [depth] is the length of the hold-back queue. *)
Definition _recovery_settled (now : time) (history_enabled : bool) (depth : nat) (rt : PeerRuntime) :
    bool * PeerRuntime :=
  if negb history_enabled then (true, rt)
  else match recovery_requested_at rt with
  | None =>
    (false, mkRuntime (deliveries rt) (sent rt) (baseline_vc rt) (delivered_vc rt) (recovery_chunks rt)
              (recovery_last_chunk_at rt) (Some now) (recovery_took rt) (deliveries_before_ready rt) (joined_at rt))
  | Some asked =>
    let last := default asked (recovery_last_chunk_at rt) in
    if ((now - last <? RECOVERY_SETTLE) && (now - asked <? RECOVERY_MAX))%Z then (false, rt)
    else if ((0 <? Z.of_nat depth) && (now - asked <? RECOVERY_MAX))%Z then (false, rt)
    else (true, mkRuntime (deliveries rt) (sent rt) (baseline_vc rt) (delivered_vc rt) (recovery_chunks rt)
                  (recovery_last_chunk_at rt) (recovery_requested_at rt) (Some (round_div (now - asked) 1000))
                  (deliveries_before_ready rt) (joined_at rt))
  end.

(** One round of [_probe_loop], with the number of peers that answered the hello. *)
Definition probe_round (now : time) (history_enabled : bool) (min_peers reachable depth : nat) (rt : PeerRuntime) :
    PeerRuntime :=
  if (min_peers <=? reachable)%nat && negb (bool_decide (is_Some (joined_at rt))) then
    let '(settled, rt) := _recovery_settled now history_enabled depth rt in
    if negb settled then rt
    else
      let rt := _begin_causal_log rt in
      mkRuntime (deliveries rt) (sent rt) (baseline_vc rt) (delivered_vc rt) (recovery_chunks rt)
        (recovery_last_chunk_at rt) (recovery_requested_at rt) (recovery_took rt) (deliveries_before_ready rt)
        (Some now)
  else rt.

(** [_seed_seen_set]: the stored identifiers are marked as seen; how many were new. *)
Fixpoint seed_seen_set `{Crypto, PeerRegistry} (stored : list string) : M Node nat :=
  match stored with
  | [] => mret 0
  | i :: stored =>
    fresh ← deduplicate i;
    seeded ← seed_seen_set stored;
    mret (if (fresh : bool) then S seeded else seeded)
  end.

(** ** The log *)

(** What happens to the log: a message shown by the node, a reset by the driver, and the
    opening of the causal log when the peer joins. *)
Inductive log_event :=
  | LMessage (now : time) (h : absorbed) (m : Message)
  | LReset
  | LSend (pod_name prefix address : string) (draws : list (string * time))
  | LProbe (now : time) (history_enabled : bool) (min_peers reachable depth : nat).

Definition log_step (rt : PeerRuntime) (e : log_event) : PeerRuntime :=
  match e with
  | LMessage now h m => observe now h m rt
  | LReset => reset rt
  | LSend pod_name prefix address draws => (send pod_name prefix address draws rt).2
  | LProbe now h k n d => probe_round now h k n d rt
  end.

Definition shown (es : list log_event) : list Message :=
  omap (λ e, match e with LMessage _ _ m => Some m | _ => None end) es.

(** ** Short names *)

Section Names.
Context (known : string → Prop).
(** Distinct peers have distinct short names, as the pods of a StatefulSet do. *)
Context (distinct : ∀ k k', known k → known k' → short_key k = short_key k' → k = k').

Lemma short_vc_snoc l kc : short_vc (l ++ [kc]) = dset (short_key kc.1) kc.2 (short_vc l).
Proof. unfold short_vc. by rewrite foldl_app. Qed.

Lemma short_vc_wf l : dwf (short_vc l).
Proof.
  induction l as [|kc l IH] using rev_ind; [constructor|]. rewrite short_vc_snoc. by apply dwf_dset.
Qed.

(** The entries of the shortened clock are those of the clock. *)
Lemma short_vc_get l k : NoDup l.*1 → Forall known l.*1 → known k → dget (short_key k) (short_vc l) = dget k l.
Proof.
  intros Hn Hl Hk. induction l as [|[k' n] l IH] using rev_ind; [done|].
  rewrite fmap_app in *. apply NoDup_app in Hn as (Hn & Hd & _). apply Forall_app in Hl as [Hl Hk']. apply (proj1 (Forall_singleton known k')) in Hk'.
  rewrite short_vc_snoc, dget_dset. cbn [fst snd] in *.
  assert (∀ j, dget j (l ++ [(k', n)]) = match dget j l with Some v => Some v | None => if decide (j = k') then Some n else None end) as Happ.
  { intros j. clear. induction l as [|[j' v] l IH]; [done|]. cbn [app dget]. destruct (decide (j = j')); [done|exact IH]. }
  rewrite Happ. case_decide as E.
  - assert (k = k') as -> by (by apply distinct). rewrite decide_True by done.
    assert (dget k' l = None) as ->; [|done]. apply dget_None. intros Hin. apply (Hd k' Hin). left.
  - rewrite decide_False by congruence. rewrite IH by done. by destruct (dget k l).
Qed.

Lemma short_vc_entry l s n : NoDup l.*1 → Forall known l.*1 → (s, n) ∈ short_vc l →
  ∃ k, known k ∧ s = short_key k ∧ dget k l = Some n.
Proof.
  intros Hn Hl Hin. apply elem_dget in Hin as Hg; [|apply short_vc_wf].
  assert (s ∈ short_key <$> l.*1) as (k & -> & Hk)%list_elem_of_fmap.
  { assert (s ∈ dkeys (short_vc l)) as Hs by (apply dget_is_Some; by eexists). clear -Hs.
    induction l as [|kc l IH] using rev_ind; [by apply not_elem_of_nil in Hs|].
    rewrite short_vc_snoc, dkeys_dset in Hs. rewrite !fmap_app, elem_of_app. cbn.
    case_decide; [by left; apply IH|]. apply elem_of_app in Hs as [Hs|Hs]; [by left; apply IH|by right]. }
  rewrite Forall_forall in Hl. exists k. split_and!; [by apply Hl|done|].
  rewrite short_vc_get in Hg; [done|done|by apply Forall_forall|by apply Hl].
Qed.

Lemma account_count d kc k :
  count_of (account d kc) k = if decide (k = kc.1) then Z.max (count_of d k) kc.2 else count_of d k.
Proof.
  unfold account. destruct (Z.ltb_spec (count_of d kc.1) kc.2); case_decide as E; subst.
  - unfold count_of at 1. rewrite dget_dset_eq. cbn. lia.
  - unfold count_of at 1. by rewrite dget_dset_ne.
  - lia.
  - done.
Qed.

Lemma account_all_count vc d k : dwf vc → count_of (account_all vc d) k =
  match dget k vc with Some c => Z.max (count_of d k) c | None => count_of d k end.
Proof.
  unfold account_all. revert d. induction vc as [|[n c] vc IH]; intros d Hw; [done|].
  apply NoDup_cons in Hw as [Hn Hw]. cbn [foldl dget]. rewrite IH, account_count by done. cbn [fst snd].
  repeat case_decide; subst; try done. by rewrite (proj2 (dget_None vc _) Hn).
Qed.

(** ** A causal history gives a causal log *)

Lemma history_nonneg a c0 c ms : clock_nonneg c0 → history a c0 c ms → clock_nonneg c.
Proof. intros H0. induction 1; [done|by apply merge_nonneg|by apply increment_nonneg]. Qed.

(** The last message was ready for the clock before it, and advanced it by its own. *)
Lemma history_snoc a c0 c ms m : clock_nonneg c0 → history a c0 c (ms ++ [m]) → ∃ c1,
  history a c0 c1 ms ∧ (vector_clock m = ∅ ∨ causally_ready c1 m) ∧
  ∀ k, vget c k = match vector_clock m !! k with Some n => Z.max (vget c1 k) n | None => vget c1 k end.
Proof.
  intros H0 H. inversion H as [Hn|c1 ms0 m0 Hh Hr Hc Heq|c1 ms0 m0 Hh Hv Hs Hc Heq].
  - by destruct ms.
  - apply app_inj_tail in Heq as [-> ->]. exists c1. split_and!; [done| |intros; apply vget_merge_lookup].
    apply is_ready_spec in Hr; [done|by eapply history_nonneg].
  - apply app_inj_tail in Heq as [-> ->]. apply history_nonneg in Hh as Hnn; [|done]. exists c1. split_and!; [done| |].
    + right. split; rewrite Hv, Hs; [rewrite vget_increment, decide_True by done; done|].
      intros k Hk. rewrite vget_increment, decide_False by done. lia.
    + intros k. rewrite Hv. unfold increment. rewrite vget_insert. rewrite lookup_insert.
      case_decide; [subst; lia|]. unfold vget. destruct (c1 !! k); cbn; lia.
Qed.

(** The messages come from known peers and carry clocks about known peers. *)
Definition from_known (m : Message) : Prop :=
  vector_clock m ≠ ∅ ∧ known (sender m) ∧ ∀ k n, vector_clock m !! k = Some n → known k.

(** What may be shown while the log is open: chat messages of known peers, and frames of
    the recovery, which carry no clock; no chunk of history. *)
Definition recordable (e : log_event) : Prop :=
  match e with
  | LMessage _ chat m => from_known m
  | LMessage _ frame m => vector_clock m = ∅
  | LMessage _ (chunk _) _ => False
  | _ => True
  end.

(** The runtime has accounted for what the node's clock counts. *)
Definition caught_up (c : VectorClock) (rt : PeerRuntime) : Prop :=
  ∀ k, known k → count_of (delivered_vc rt) (short_key k) = vget c k.

Record log_inv (c : VectorClock) (rt : PeerRuntime) : Prop := {
  accounted_for : caught_up c rt;
  causal_so_far : causal_log (count_of (baseline_vc rt)) (deliveries rt);
  log_past : ∀ s, past (count_of (baseline_vc rt)) (deliveries rt) s = count_of (delivered_vc rt) s;
  records_wf : Forall (λ r, dwf (r_vc r)) (deliveries rt);
}.

Lemma causal_log_snoc base ds r : causal_log base ds → causal (past base ds) r → causal_log base (ds ++ [r]).
Proof.
  intros Hl Hr i x Hx. apply lookup_app_Some in Hx as [Hx|[Hi Hx]].
  - rewrite take_app_le by (apply lookup_lt_Some in Hx; lia). by apply Hl.
  - apply list_lookup_singleton_Some in Hx as [Hi0 <-]. rewrite take_app_length' by lia. exact Hr.
Qed.

Lemma past_snoc base ds r s : past base (ds ++ [r]) s =
  match dget s (r_vc r) with Some c => Z.max (past base ds s) c | None => past base ds s end.
Proof. unfold past. by rewrite foldl_app. Qed.

Lemma log_inv_clear c rt rt' : delivered_vc rt' = delivered_vc rt → baseline_vc rt' = delivered_vc rt →
  deliveries rt' = [] → log_inv c rt → log_inv c rt'.
Proof.
  intros H1 H2 H3 [Ha _ _ _]. split; unfold caught_up in *; rewrite ?H1, ?H2, ?H3; [exact Ha|by intros i r Hi|done|constructor].
Qed.

(** The record of a ready message is the causally next one of the log. *)
Lemma observe_inv c c' now m rt : log_inv c rt → from_known m → causally_ready c m →
  (∀ k, vget c' k = match vector_clock m !! k with Some n => Z.max (vget c k) n | None => vget c k end) →
  log_inv c' (observe now chat m rt).
Proof.
  intros [Ha Hc Hp Hw] (Hne & Hs & Hk) [Hnext Hdeps] Hc'. unfold observe.
  set (vc := short_vc (map_to_list (vector_clock m))).
  assert (NoDup (map_to_list (vector_clock m)).*1) as Hnd by apply NoDup_fst_map_to_list.
  assert (Forall known (map_to_list (vector_clock m)).*1) as Hkn.
  { apply Forall_forall. intros k ((k', n) & -> & Hin)%list_elem_of_fmap. eapply Hk. by apply elem_of_map_to_list. }
  assert (∀ k, known k → dget (short_key k) vc = vector_clock m !! k) as Hget.
  { intros k Hkk. unfold vc. rewrite short_vc_get by done. apply dget_map_to_list. }
  assert (dwf vc) as Hvw by apply short_vc_wf.
  split; cbn [delivered_vc set_delivered_vc baseline_vc deliveries].
  - intros k Hkk. cbn [delivered_vc]. rewrite account_all_count, Hget, Hc', Ha by done. done.
  - apply causal_log_snoc; [done|]. split; cbn [r_vc r_sender].
    + rewrite Hp, Ha by done. rewrite <- Hnext. unfold count_of, vget. by rewrite Hget.
    + intros s n Hin Hns. apply short_vc_entry in Hin as (k & Hkk & -> & Hg); [|done..].
      rewrite Hp, Ha by done. rewrite dget_map_to_list in Hg. specialize (Hdeps k ltac:(congruence)).
      unfold vget at 1 in Hdeps. by rewrite Hg in Hdeps.
  - intros s. rewrite past_snoc. cbn [r_vc]. rewrite account_all_count by done. by rewrite Hp.
  - apply Forall_app. split; [done|]. by apply Forall_singleton.
Qed.

Lemma shown_snoc es e : shown (es ++ [e]) = shown es ++ match e with LMessage _ _ m => [m] | _ => [] end.
Proof. unfold shown. rewrite omap_app. by destruct e. Qed.

Lemma log_inv_clock c c' rt : (∀ k, vget c' k = vget c k) → log_inv c rt → log_inv c' rt.
Proof. intros H [Ha ? ? ?]. split; [|done..]. intros k Hk. rewrite H. by apply Ha. Qed.

Lemma log_steps a es c0 c rt0 : clock_nonneg c0 → log_inv c0 rt0 → history a c0 c (shown es) →
  Forall recordable es → log_inv c (foldl log_step rt0 es).
Proof.
  intros H0 Hi0. revert c. induction es as [|e es IH] using rev_ind; intros c Hh Hf.
  - inversion Hh as [Hn| |]; subst; try (by destruct ms). done.
  - rewrite foldl_app. cbn [foldl]. rewrite shown_snoc in *. apply Forall_app in Hf as [Hf Hm].
    apply (proj1 (Forall_singleton recordable e)) in Hm.
    destruct e as [now h m| |pod_name prefix address draws|now h k n d]; cbn [recordable] in Hm.
    + destruct (history_snoc _ _ _ _ _ H0 Hh) as (c1 & Hh1 & Hr & Hc). destruct h; [| |done].
      * eapply observe_inv; [by apply IH|done| |done]. destruct Hr as [E|?]; [|done]. by destruct Hm.
      * eapply log_inv_clock; [|by apply IH]. intros k. rewrite Hc, Hm. by rewrite lookup_empty.
    + rewrite app_nil_r in *. eapply log_inv_clear; [..|by apply IH]; done.
    + rewrite app_nil_r in *. destruct (IH c Hh Hf). by split.
    + rewrite app_nil_r in *. specialize (IH c Hh Hf). cbn [log_step]. unfold probe_round.
      destruct (_ && _); [|done]. destruct (_recovery_settled now h d _) as [ok rt'] eqn:E.
      assert (log_inv c rt') as Hi.
      { unfold _recovery_settled in E. repeat case_match; injection E as _ <-; try done; by destruct IH; split. }
      destruct ok; cbn [negb]; [|done]. by eapply log_inv_clear; [..|exact Hi].
Qed.

(** A log just opened, by a reset or on joining, with the runtime caught up. *)
Definition opened (c : VectorClock) (rt : PeerRuntime) : Prop :=
  deliveries rt = [] ∧ baseline_vc rt = delivered_vc rt ∧ caught_up c rt.

Lemma opened_inv c rt : opened c rt → log_inv c rt.
Proof. intros (Hd & Hb & Hc). by split; [done|rewrite Hd; intros i r Hi|rewrite Hd, Hb|rewrite Hd; constructor]. Qed.

(** A restarted runtime is caught up with the clock restored from the store, and a chunk
    of history followed by the synchronisation it triggers leaves it caught up. *)
Lemma restart_caught_up (restored : gmap string Z) : clock_nonneg restored →
  (∀ k n, restored !! k = Some n → known k) → caught_up (merge ∅ restored) (start_runtime (map_to_list restored)).
Proof.
  intros Hn Hk k Hkk. cbn [start_runtime delivered_vc]. unfold count_of. rewrite short_vc_get; [|apply NoDup_fst_map_to_list| |done].
  - rewrite dget_map_to_list, vget_merge by apply empty_nonneg. specialize (Hn k). unfold vget in *. rewrite lookup_empty. cbn. lia.
  - apply Forall_forall. intros x ((k', n) & -> & Hin)%list_elem_of_fmap. eapply Hk. by apply elem_of_map_to_list.
Qed.

Lemma chunk_caught_up now c (clock : gmap string Z) m rt : clock_nonneg c →
  (∀ k n, clock !! k = Some n → known k) → caught_up c rt →
  caught_up (merge c clock) (observe now (chunk (map_to_list clock)) m rt).
Proof.
  intros Hn Hk Hc k Hkk. cbn [observe delivered_vc]. rewrite account_all_count by apply short_vc_wf.
  rewrite short_vc_get; [|apply NoDup_fst_map_to_list| |done].
  - by rewrite dget_map_to_list, vget_merge_lookup, Hc.
  - apply Forall_forall. intros x ((k', n) & -> & Hin)%list_elem_of_fmap. eapply Hk. by apply elem_of_map_to_list.
Qed.
End Names.

(** The log lists what was shown, in its order. *)
Lemma log_is_shown es rt0 :
  (r_id <$> deliveries (foldl log_step rt0 es)) `sublist_of` (r_id <$> deliveries rt0) ++ (id <$> shown es).
Proof.
  induction es as [|e es IH] using rev_ind; [by rewrite app_nil_r|].
  rewrite foldl_app, shown_snoc, fmap_app. cbn [foldl]. set (rt := foldl log_step rt0 es) in *.
  assert ((r_id <$> deliveries rt) `sublist_of` (r_id <$> deliveries rt0) ++ (id <$> shown es) ++
    (id <$> match e with LMessage _ _ m => [m] | _ => [] end)) as Hsame.
  { rewrite app_assoc. by apply sublist_inserts_r. }
  destruct e as [now h m| |pod_name prefix address draws|now h k n d]; cbn [log_step].
  - destruct h; cbn [observe deliveries set_delivered_vc]; [|exact Hsame..].
    rewrite fmap_app, app_assoc. apply sublist_app; [exact IH|done].
  - apply sublist_nil_l.
  - exact Hsame.
  - unfold probe_round. destruct (_ && _); [|exact Hsame].
    destruct (_recovery_settled _ _ _ _) as [[] rt'] eqn:E; cbn [negb].
    + apply sublist_nil_l.
    + assert (deliveries rt' = deliveries rt) as ->; [|exact Hsame].
      unfold _recovery_settled in E. repeat case_match; by simplify_eq.
Qed.

(** The node of a restarted pod: [wire_node] merges the stored clock, [_seed_seen_set]
    marks what is stored. *)
Definition restarted `{Crypto, PeerRegistry} (ks : KeyState) (reg : registry) (restored : gmap string Z) (stored : gset string) :
    Node :=
  set_seen stored (set_causal (merge ∅ restored) new_queue (init_node ks reg)).

(** C6: The harness finds nothing to report.  Take a pod restarted with any stored clock and
    messages, after any past, recovery included, whose runtime has caught up with its node
    and has just opened its log.  From then on let the node show its messages, chat and
    frames of recovery but no chunk of history, in a run of any length in which no message
    outstays the hold-back time-out, while the driver sends and resets and the join probe
    goes on, in any interleaving.  If peers have distinct short names and every chat message
    carries a clock, replaying the log from its baseline finds no violation and no
    duplicate. *)
Theorem log_passes_check `{Crypto, PeerRegistry} cfg ks reg restored stored past_events run_events
    (known : string → Prop) es rt0 pod :
  let n0 := run cfg past_events (restarted ks reg restored stored) in
  callback_total cfg → prompt cfg run_events n0 = true →
  delivered (run cfg run_events n0) = delivered n0 ++ shown es →
  (∀ k k', known k → known k' → short_key k = short_key k' → k = k') →
  Forall (recordable known) es → opened known (vc n0) rt0 →
  let rt := foldl log_step rt0 es in
  p_violations (check_peer_log pod (deliveries rt) (baseline_vc rt)) = [] ∧
  p_duplicates (check_peer_log pod (deliveries rt) (baseline_vc rt)) = 0.
Proof.
  intros n0 Ht Hp Hsh Hd Hf Ho rt.
  assert (sane n0) as [Hnn Hto].
  { apply run_inv; [intros; by apply handle_sane|]. split; [apply merge_nonneg, empty_nonneg|done]. }
  assert (at_most_once_inv n0) as Hinv.
  { apply run_inv; [intros; by apply handle_at_most_once|].
    split; [apply NoDup_nil_2|]. intros i Hi. by apply not_elem_of_nil in Hi. }
  destruct (run_causal cfg _ _ run_events n0 Ht Hp (causal_since_now cfg n0 Hto)) as [(ms & Hms & Hh) _].
  rewrite Hsh in Hms. apply app_inv_head in Hms as <-.
  destruct (log_steps known Hd _ es _ _ rt0 Hnn (opened_inv _ _ _ Ho) Hh Hf) as [_ Hc _ Hw].
  destruct (checker_exact pod _ (baseline_vc rt) Hw) as (Hv & Hu & Hsum). split; [by apply Hv|].
  destruct (run_inv cfg at_most_once_inv (handle_at_most_once cfg) run_events n0 Hinv) as [Hnd _].
  apply NoDup_app in Hnd as (Hnd & _ & _). rewrite Hsh, fmap_app in Hnd. apply NoDup_app in Hnd as (_ & _ & Hnd).
  pose proof (log_is_shown es rt0) as Hsub. rewrite (proj1 Ho) in Hsub. cbn [fmap list_fmap app] in Hsub.
  apply sublist_submseteq in Hsub. apply submseteq_NoDup in Hsub; [|exact Hnd].
  unfold delivered_ids in Hu. rewrite size_list_to_set, length_fmap in Hu by exact Hsub. fold rt in Hu, Hsum. lia.
Qed.

(** ** Two pods *)

Import Toy InMemoryRegistry.

Definition pod_1 : Config := mkConfig "chat-1.hl" 5678 false true (Some (λ _, Ok ())) None.
Definition from_pod_0 (i : string) (tick : Z) : Message :=
  mkMessage "hi" "chat-0.hl:5678" i 1000000 "" 10 {["chat-0.hl:5678" := tick]}.
(** Pod 1 restarts with three messages of pod 0 stored, and recovers two more. *)
Definition stored_clock : gmap string Z := {["chat-0.hl:5678" := 3%Z]}.
Definition recovered_clock : gmap string Z := {["chat-0.hl:5678" := 5%Z]}.
Definition pod_restarted : Node := restarted (mkKeys None ∅) [] stored_clock ∅.
Definition pod_past : list (time * event) := [(0%Z, ESync recovered_clock)].
Definition pod_joined : PeerRuntime :=
  log_step (observe 0 (chunk (map_to_list recovered_clock)) (new_message "{}" "chat-0.hl:5678" "c1" 0)
    (start_runtime (map_to_list stored_clock))) (LProbe 5500 false 1 1 0).
(** The seventh message of pod 0 arrives before the sixth, and a request in between. *)
Definition pod_trace : list (time * event) :=
  [(6000, EFrame "x" (to_json (from_pod_0 "m7" 7))); (6000, EReceive);
   (7000, EBroadcast "" (new_message "ho" "chat-1.hl:5678" "b1" 2000000));
   (7500, EFrame "x" (to_json (with_ttl 0 (new_message "{}" "chat-0.hl:5678" "q1" 7000)))); (7500, EReceive);
   (8000, EFrame "x" (to_json (from_pod_0 "m6" 6))); (9000, EReceive)]%Z.
Definition pod_shown : list Message := delivered (run pod_1 pod_trace (run pod_1 pod_past pod_restarted)).
(** The driver resets after the first message shown. *)
Definition pod_log : list log_event :=
  match pod_shown with
  | m :: q :: ms => LMessage 7000 chat m :: LReset :: LMessage 7500 frame q :: (LMessage 9000 chat <$> ms)
  | _ => []
  end.

Lemma log_passes_check_witness :
  let rt := foldl log_step pod_joined pod_log in
  p_violations (check_peer_log "chat-1" (deliveries rt) (baseline_vc rt)) = [] ∧
  r_id <$> deliveries rt = ["m6"; "m7"].
Proof.
  split; [|vm_compute; reflexivity].
  refine (proj1 (log_passes_check pod_1 (mkKeys None ∅) [] stored_clock ∅ pod_past pod_trace
    (λ k, k ∈ ["chat-0.hl:5678"; "chat-1.hl:5678"]) pod_log pod_joined "chat-1" _ _ _ _ _ _)).
  - by exists (λ _, Ok ()).
  - by vm_compute.
  - vm_compute. reflexivity.
  - intros k k'. rewrite !elem_of_cons, !elem_of_nil. 
    intros [?|[?|[]]] [?|[?|[]]] E; subst; (reflexivity || (vm_compute in E; congruence)).
  - assert (forallb (λ e, match e with
      | LMessage _ chat m => negb (bool_decide (vector_clock m = ∅)) &&
          bool_decide (sender m ∈ ["chat-0.hl:5678"; "chat-1.hl:5678"]) &&
          bool_decide (Forall (λ kn, kn.1 ∈ ["chat-0.hl:5678"; "chat-1.hl:5678"]) (map_to_list (vector_clock m)))
      | LMessage _ frame m => bool_decide (vector_clock m = ∅)
      | LMessage _ _ _ => false
      | _ => true end) pod_log = true) as Hall by (vm_compute; reflexivity).
    apply forallb_Forall_true in Hall. eapply Forall_impl; [exact Hall|]. intros [now [| |] m| | |] He; cbn beta iota in He; zbool; try done.
    split_and!; [done|done|]. intros k n Hk. apply elem_of_map_to_list in Hk.
    match goal with H : Forall _ _ |- _ => rewrite Forall_forall in H; exact (H _ Hk) end.
  - split_and!; [reflexivity|reflexivity|]. intros k [->|[->|Hk%not_elem_of_nil]%elem_of_cons]%elem_of_cons; [vm_compute; reflexivity..|done].
Defined.

(** A chunk of history that comes after the log was opened advances the accounts but not
    the baseline: the next message of its sender looks like a gap. *)
Example late_chunk_is_reported :
  let rt0 := log_step (start_runtime (map_to_list stored_clock)) (LProbe 5500 false 1 1 0) in
  let rt := foldl log_step rt0
    [LMessage 6000 (chunk (map_to_list recovered_clock)) (new_message "{}" "chat-0.hl:5678" "c1" 0);
     LMessage 7000 chat (from_pod_0 "m6" 6)] in
  delivered (run pod_1 [(6000, ESync recovered_clock); (7000, EFrame "x" (to_json (from_pod_0 "m6" 6))); (7000, EReceive)]%Z
    pod_restarted) = [from_pod_0 "m6" 6] ∧
  v_kind <$> p_violations (check_peer_log "chat-1" (deliveries rt) (baseline_vc rt)) = ["sender_gap"].
Proof. split; by vm_compute. Qed.
