(* ===== verification/LogWire.v ===== *)
(** * The harness's logs as JSON ([deploy/peer_node.py], [harness/driver.py])

    The control server of a pod answers with its delivery log, its send log and its
    baseline; the driver reads them back and hands them to the checker.  [OnWire] is what
    the two sides promise each other: every value is well-formed JSON, and reading it back
    gives the value.  A field the reader gets with [.get] may be missing or null; a field
    of another type raises here, where Python fails at its first use. *)

From stdpp Require Import prelude gmap strings.
From S2P Require Import Prelude PyDict PyStr Json CausalCheck.

Local Open Scope string_scope.
Local Open Scope list_scope.

Class OnWire (A : Type) := {
  to_wire : A → json;
  of_wire : json → result A;
  wire_ok : A → Prop;
  to_wire_wf a : wire_ok a → json_wf (to_wire a);
  of_to_wire a : wire_ok a → of_wire (to_wire a) = Ok a;
}.

(** ** Readers *)

(** [d[k]]: a missing key raises, and so does what is no dictionary. *)
Definition read (k : string) (j : json) : result json :=
  match j with JObj d => of_option KeyError (dget k d) | _ => Raise TypeError end.

(** [d.get(k)], read by [dec] unless it is [None]. *)
Definition read_opt {A} (k : string) (dec : json → result A) (j : json) : result (option A) :=
  match j with
  | JObj d => match dget k d with None | Some JNull => Ok None | Some v => x ← dec v; mret (Some x) end
  | _ => Raise AttributeError
  end.

Lemma read_eq k d v : dget k d = Some v → read k (JObj d) = Ok v.
Proof. intros E. cbn. by rewrite E. Qed.

Lemma read_opt_eq {A} k (dec : json → result A) d v : dget k d = Some v →
  read_opt k dec (JObj d) = match v with JNull => Ok None | v => x ← dec v; mret (Some x) end.
Proof. intros E. cbn. rewrite E. by destruct v. Qed.

(** Reading the fields of an object written out. *)
Ltac wire_read := repeat (first [erewrite read_eq by reflexivity|erewrite read_opt_eq by reflexivity]; cbn [mbind result_bind mret result_ret as_int as_str as_float]).

Definition opt_wire {A} (f : A → json) (o : option A) : json :=
  match o with Some a => f a | None => JNull end.

(** [round(d, 3)] and [round(d, 2)] of a duration. *)
Definition round3 (d : time) : json := JFloat (round_div d 1000 * 1000).
Definition round2 (d : time) : json := JFloat (round_div d 10000 * 10000).

(** ** Counts by name *)

Definition counts_to_json (d : pydict string Z) : json := JObj ((λ kc, (kc.1, JInt kc.2)) <$> d).
Definition counts_of_json (j : json) : result (pydict string Z) :=
  match j with
  | JObj d => mapR (λ kv, n ← as_int kv.2; mret (kv.1, n)) d
  | _ => Raise AttributeError
  end.

Lemma counts_wf d : dwf d → json_wf (counts_to_json d).
Proof.
  intros Hd. apply json_wf_obj. split.
  - unfold dwf, dkeys in *. by rewrite <- list_fmap_compose.
  - apply Forall_forall. intros [k x] (y & Hy & _)%list_elem_of_fmap. by inv Hy.
Qed.

Lemma counts_back d : counts_of_json (counts_to_json d) = Ok d.
Proof.
  unfold counts_of_json, counts_to_json. induction d as [|[k n] d IH]; [done|]. cbn in *. by rewrite IH.
Qed.

#[export, program] Instance counts_on_wire : OnWire (pydict string Z) :=
  {| to_wire := counts_to_json; of_wire := counts_of_json; wire_ok := dwf |}.
Next Obligation. exact counts_wf. Qed.
Next Obligation. intros d _. apply counts_back. Qed.

(** ** Records *)

(** What [_on_message] appends to the log. *)
Definition delivery_to_json (r : Delivery) : json :=
  JObj [("seq", JInt (r_seq r)); ("id", JStr (r_id r)); ("sender", JStr (r_sender r)); ("vc", to_wire (r_vc r));
        ("ts_recv", opt_wire JFloat (ts_recv r)); ("ts_send", opt_wire JFloat (ts_send r))].

Definition delivery_of_json (j : json) : result Delivery :=
  seq ← (read "seq" j ≫= as_int); i ← (read "id" j ≫= as_str); s ← (read "sender" j ≫= as_str);
  vc ← (read "vc" j ≫= of_wire);
  r ← read_opt "ts_recv" as_float j; t ← read_opt "ts_send" as_float j;
  mret (mkDelivery seq i s vc r t).

(** What [send] appends. *)
Definition sent_to_json (r : SentRecord) : json :=
  JObj [("id", JStr (m_id r)); ("ts_send", JFloat (m_ts r)); ("n", JInt (m_n r))].

Definition sent_of_json (j : json) : result SentRecord :=
  i ← (read "id" j ≫= as_str); t ← (read "ts_send" j ≫= as_float); n ← (read "n" j ≫= as_int);
  mret (mkSent i t n).

Lemma opt_wire_wf (o : option time) : json_wf (opt_wire JFloat o).
Proof. by destruct o. Qed.

Ltac obj_wf := apply json_wf_obj; split; [unfold dwf; apply (bool_decide_unpack _); by vm_compute|];
  repeat (apply Forall_cons; split; [cbn [snd]|]); [..|by apply Forall_nil_2].

#[export, program] Instance delivery_on_wire : OnWire Delivery :=
  {| to_wire := delivery_to_json; of_wire := delivery_of_json; wire_ok := λ r, dwf (r_vc r) |}.
Next Obligation.
  intros r Hr. unfold delivery_to_json. obj_wf; try done; [by apply (to_wire_wf (r_vc r))|apply opt_wire_wf..].
Qed.
Next Obligation.
  intros [q i s vc r t] Hr. unfold delivery_of_json, delivery_to_json. wire_read. rewrite of_to_wire by exact Hr.
  cbn [mbind result_bind]. wire_read. by destruct r, t.
Qed.

#[export, program] Instance sent_on_wire : OnWire SentRecord :=
  {| to_wire := sent_to_json; of_wire := sent_of_json; wire_ok := λ _, True |}.
Next Obligation. intros r _. unfold sent_to_json. obj_wf; done. Qed.
Next Obligation. intros [i t n] _. unfold sent_of_json, sent_to_json. by wire_read. Qed.

(** ** Lists *)

Definition list_of_json {A} `{OnWire A} (j : json) : result (list A) :=
  match j with JList l => mapR of_wire l | _ => Raise TypeError end.

#[export, program] Instance list_on_wire {A} `{OnWire A} : OnWire (list A) :=
  {| to_wire := λ l, JList (to_wire <$> l); of_wire := list_of_json; wire_ok := Forall wire_ok |}.
Next Obligation.
  intros A ? l Hl. apply json_wf_list, Forall_fmap. eapply Forall_impl; [exact Hl|]. intros a Ha. by apply to_wire_wf.
Qed.
Next Obligation.
  intros A ? l Hl. cbn. induction Hl as [|a l Ha Hl IH]; [done|]. cbn. rewrite of_to_wire by done. cbn.
  by rewrite IH.
Qed.

(** What is sent as text is read back, whatever the separators. *)
Lemma wire_roundtrip {A} `{OnWire A} sty `{!StyleOk sty} (a : A) : wire_ok a →
  loads (dumps sty (to_wire a)) = Some (to_wire a) ∧ of_wire (to_wire a) = Ok a.
Proof. intros Ha. split; [by apply loads_dumps_wf, to_wire_wf|by apply of_to_wire]. Qed.

(** Whatever counts are read from a decoded document name no key twice. *)
Lemma counts_of_json_wf j d : json_wf j → counts_of_json j = Ok d → dwf d.
Proof.
  destruct j as [| | | | | |o]; try done. intros [Ho _]%json_wf_obj. cbn [counts_of_json]. intros E.
  assert (dkeys d = dkeys o) as Hk; [|unfold dwf; by rewrite Hk].
  clear Ho. revert d E. induction o as [|[k x] o IH]; intros d; cbn; [by intros [= <-]|].
  destruct (as_int x) as [n|]; [|done]. cbn. destruct (mapR _ o) as [d'|]; [|done]. cbn. intros [= <-]. cbn. f_equal. by apply IH.
Qed.

Lemma read_wf k j x : json_wf j → read k j = Ok x → json_wf x.
Proof.
  destruct j as [| | | | | |o]; try done. intros [_ Ho]%json_wf_obj. cbn. destruct (dget k o) as [y|] eqn:E; [|done].
  intros [= <-]. apply dget_elem in E. rewrite Forall_forall in Ho. exact (Ho _ E).
Qed.

Lemma delivery_of_json_wf j r : json_wf j → delivery_of_json j = Ok r → dwf (r_vc r).
Proof.
  intros Hj. unfold delivery_of_json. destruct (read "seq" j ≫= as_int); [|done]. cbn. destruct (read "id" j ≫= as_str); [|done]. cbn.
  destruct (read "sender" j ≫= as_str); [|done]. cbn. destruct (read "vc" j) as [v|] eqn:Ev; [|done]. cbn.
  destruct (counts_of_json v) as [vc|] eqn:Ec; [|done]. cbn. destruct (read_opt "ts_recv" _ j); [|done]. cbn.
  destruct (read_opt "ts_send" _ j); [|done]. cbn. intros [= <-]. cbn. eapply counts_of_json_wf; [|exact Ec]. by eapply read_wf.
Qed.

Lemma deliveries_of_json_wf j (l : list Delivery) : json_wf j → of_wire j = Ok l → Forall (λ r, dwf (r_vc r)) l.
Proof.
  destruct j as [| | | | |js|]; try done. rewrite json_wf_list. cbn. intros Hj. revert l.
  induction Hj as [|j js Hj Hjs IH]; intros l; cbn; [by intros [= <-]|].
  destruct (delivery_of_json j) as [r|] eqn:Er; [|done]. cbn. destruct (mapR _ js) as [l'|]; [|done]. cbn. intros [= <-].
  constructor; [by eapply delivery_of_json_wf|by apply IH].
Qed.
