(* ===== verification/StoredMessage.v ===== *)
(** * Stored messages ([message_history/storage/models.py]) and JSON-lines files

    The record the history keeps for every chat message, its one-line encoding,
    its decoder with every exception it can raise, and the reading of a file of
    such lines: splitting at line ends, byte offsets, and what the readers skip.
    [store_]-prefixed names tell the record apart from the wire message of
    [Message]. *)

From stdpp Require Import prelude gmap strings.
From Stdlib Require Import Ascii.
From S2P Require Import Prelude PyDict PyStr Json.

Local Open Scope string_scope.

Record StoredMessage := mkStored {
  st_id : string;
  st_content : string;
  st_sender : string;
  st_timestamp : time;
  st_signature : string;
  st_ttl : Z;
  st_vc : gmap string Z;
}.

#[export] Instance StoredMessage_eq_dec : EqDecision StoredMessage.
Proof. solve_decision. Defined.

(** [Message.sender_seq] *)
Definition sender_seq (m : StoredMessage) : Z := default 0%Z (st_vc m !! st_sender m).

Definition stored_dict (m : StoredMessage) : json :=
  JObj [("id", JStr (st_id m)); ("content", JStr (st_content m)); ("sender", JStr (st_sender m));
        ("timestamp", JFloat (st_timestamp m)); ("signature", JStr (st_signature m));
        ("ttl", JInt (st_ttl m)); ("vector_clock", json_of_vc (st_vc m))].

(** [Message.to_json] *)
Definition stored_to_json (m : StoredMessage) : string := dumps compact (stored_dict m).

(** ** Conversions of decoded values *)

(** [int(x)]: a float is truncated toward zero, a string parsed. *)
Definition int_of_json (j : json) : result Z :=
  match j with
  | JInt z => Ok z
  | JFloat us => Ok (Z.quot us 1000000)
  | JBool b => Ok (if b then 1 else 0)%Z
  | JStr s => of_option ValueError (py_int s)
  | _ => Raise TypeError
  end.

(** An underscore between two digits is dropped; any other stays and fails. *)
Fixpoint join_digits (after_digit : bool) (s : string) : string :=
  match s with
  | "" => ""
  | String a s' =>
    if bool_decide (a = "_"%char) && after_digit &&
       match s' with String b _ => is_digit b | "" => false end
    then join_digits false s'
    else String a (join_digits (is_digit a) s')
  end.

(** [float(s)] for a string; [nan] and [inf] are refused. *)
Definition py_float (s : string) : option time :=
  let s := join_digits false (strip s) in
  let '(neg, s1) := match s with
    | String "-" r => (true, r) | String "+" r => (false, r) | _ => (false, s) end in
  let '(ip, r) := span_digits s1 in
  let '(fd, r1) := match r with String "." r' => span_digits r' | _ => ("", r) end in
  if bool_decide (ip +:+ fd = "") then None else
  let '(e, r2) := default (0%Z, r1) (scan_exp r1) in
  if bool_decide (r2 = "")
  then Some (signed neg (scale10 (digits_val (digits_val 0 ip) fd) (6 + e - Z.of_nat (String.length fd))))
  else None.

Example float_forms :
  py_float <$> [" 1_0.5 "; "-.25"; "1e3"; "1."; "_1"; "."; "1.5x"; ""] =
  [Some 10500000%Z; Some (-250000)%Z; Some 1000000000%Z; Some 1000000%Z; None; None; None; None].
Proof. vm_compute. reflexivity. Qed.

Definition float_of_json (j : json) : result time :=
  match j with
  | JInt z => Ok (seconds z)
  | JFloat us => Ok us
  | JBool b => Ok (if b then seconds 1 else 0%Z)
  | JStr s => of_option ValueError (py_float s)
  | _ => Raise TypeError
  end.

(** [{k: int(v) for k, v in d.items()}] *)
Definition int_items (d : pydict string json) : result (gmap string Z) :=
  l ← mapR (λ kv, n ← int_of_json kv.2; mret (kv.1, n)) d;
  mret (list_to_map l).

(** [data[k]] for a field the code stores as it comes: a missing key raises.  A
    value of a type the record does not have raises here, where Python stores it
    and fails, if at all, at its first use. *)
Definition field {A} (k : string) (dec : json → result A) (d : pydict string json) : result A :=
  j ← of_option KeyError (dget k d); dec j.
Definition field_or {A} (k : string) (dec : json → result A) (dflt : A) (d : pydict string json) : result A :=
  match dget k d with Some j => dec j | None => Ok dflt end.

(** [.items()] of what is no dictionary raises [AttributeError]. *)
Definition clock_items (j : json) : result (gmap string Z) :=
  match j with JObj d => int_items d | _ => Raise AttributeError end.

(** [Message.from_dict] *)
Definition stored_from_dict (data : json) : result StoredMessage :=
  match data with
  | JObj d =>
    i ← field "id" as_str d;
    c ← field "content" as_str d;
    s ← field "sender" as_str d;
    t ← field "timestamp" float_of_json d;
    g ← field_or "signature" as_str "" d;
    h ← field_or "ttl" int_of_json 0%Z d;
    vc ← field_or "vector_clock" clock_items ∅ d;
    mret (mkStored i c s t g h vc)
  | _ => Raise TypeError
  end.

(** [Message.from_json] *)
Definition stored_from_json (line : string) : result StoredMessage :=
  data ← of_option JSONDecodeError (loads line);
  stored_from_dict data.

(** ** Lines *)

(** The bytes UTF-8 spends on a character. *)
Definition char_width (a : ascii) : Z := if (code a <? 128)%N then 1 else 2.
Definition newline : ascii := chr 10.
Definition is_newline (a : ascii) : bool := (code a =? 10)%N.
Definition is_return (a : ascii) : bool := (code a =? 13)%N.

(** What [readline] yields until the end of the file, each line with the byte
    offset [tell] gave before it: universal newlines, terminators dropped. *)
Fixpoint lines_at (off : Z) (s : string) : list (string * Z) :=
  match s with
  | "" => []
  | String a s' =>
    if is_newline a then ("", off) :: lines_at (off + 1) s'
    else if is_return a then
      match s' with
      | String b s'' =>
        if is_newline b then ("", off) :: lines_at (off + 2) s''
        else ("", off) :: lines_at (off + 1) s'
      | "" => [("", off)]
      end
    else match lines_at (off + char_width a) s' with
         | (l, _) :: rest => (String a l, off) :: rest
         | [] => [(String a "", off)]
         end
  end.

(** [f.seek(n)] and the text from there; [None] when [n] splits a character. *)
Fixpoint seek (n : Z) (s : string) : option string :=
  if (n =? 0)%Z then Some s else
  match s with
  | "" => Some ""
  | String a s' => if (n <? char_width a)%Z then None else seek (n - char_width a) s'
  end.

(** [except (KeyError, json.JSONDecodeError, TypeError, ValueError)] *)
Definition line_catches (e : exn) : bool :=
  match e with
  | KeyError | JSONDecodeError | TypeError | ValueError | UnicodeError => true
  | _ => false
  end.

(** One turn of the loop over the lines: [None] is a blank line, [Some None] one
    that is skipped. *)
Definition read_line (line : string) : result (option (option StoredMessage)) :=
  if bool_decide (strip line = "") then Ok None else
  match stored_from_json (strip line) with
  | Ok m => Ok (Some (Some m))
  | Raise e => if line_catches e then Ok (Some None) else Raise e
  end.

(** The messages of a file with their offsets, and whether a line was skipped. *)
Fixpoint read_lines (ls : list (string * Z)) : result (list (StoredMessage * Z) * bool) :=
  match ls with
  | [] => Ok ([], false)
  | (l, off) :: ls =>
    r ← read_line l;
    '(ms, bad) ← read_lines ls;
    mret match r with
      | None => (ms, bad)
      | Some None => (ms, true)
      | Some (Some m) => ((m, off) :: ms, bad)
      end
  end.

Definition read_text (txt : string) : result (list (StoredMessage * Z) * bool) :=
  read_lines (lines_at 0 txt).

(** [msg.to_json() + "\n"], and the payload of several messages. *)
Definition stored_line (m : StoredMessage) : string := stored_to_json m +:+ String newline "".
Fixpoint payload (ms : list StoredMessage) : string :=
  match ms with
  | [] => ""
  | m :: ms => stored_line m +:+ payload ms
  end.

(** The byte offsets at which the lines of a payload start. *)
Definition line_size (m : StoredMessage) : Z := Z.of_nat (String.length (stored_line m)).
Fixpoint with_offsets (off : Z) (ms : list StoredMessage) : list (StoredMessage * Z) :=
  match ms with
  | [] => []
  | m :: ms => (m, off) :: with_offsets (off + line_size m) ms
  end.
Definition payload_size (ms : list StoredMessage) : Z := Z.of_nat (String.length (payload ms)).

(** ** Decoding an encoded message *)

Lemma int_items_vc vc : int_items ((λ kv, (kv.1, JInt kv.2)) <$> map_to_list vc) = Ok vc.
Proof.
  unfold int_items.
  assert (mapR (λ kv : string * json, n ← int_of_json kv.2; mret (kv.1, n))
    ((λ kv : string * Z, (kv.1, JInt kv.2)) <$> map_to_list vc) = Ok (map_to_list vc)) as ->.
  { induction (map_to_list vc) as [|[k n] l IH]; [done|]. cbn in *. by rewrite IH. }
  cbn. unfold mret, result_ret. f_equal. apply list_to_map_to_list.
Qed.

Lemma stored_dict_wf m : json_wf (stored_dict m).
Proof.
  apply json_wf_obj. split; [unfold dwf; apply (bool_decide_unpack _); by vm_compute|].
  repeat (constructor; [try done; apply json_of_vc_wf|]). constructor.
Qed.

Lemma stored_from_stored_dict m : stored_from_dict (stored_dict m) = Ok m.
Proof.
  unfold stored_from_dict, stored_dict, field, field_or.
  cbv -[json_of_vc clock_items st_vc st_id st_content st_sender st_timestamp st_signature st_ttl].
  unfold clock_items, json_of_vc. rewrite int_items_vc. by destruct m.
Qed.

Lemma stored_roundtrip m : stored_from_json (stored_to_json m) = Ok m.
Proof.
  unfold stored_from_json, stored_to_json. rewrite (loads_dumps_wf compact) by apply stored_dict_wf.
  apply stored_from_stored_dict.
Qed.

(** ** A payload reads back *)

Lemma stored_printable m : sforall printable (stored_to_json m) = true.
Proof. apply dumps_printable; [apply _|by right]. Qed.

Lemma printable_plain a : printable a = true →
  is_newline a = false ∧ is_return a = false ∧ char_width a = 1%Z.
Proof. destruct a as [[] [] [] [] [] [] [] []]; done. Qed.

Lemma lines_at_cons t rest off : sforall printable t = true →
  lines_at off (t +:+ String newline rest) =
  (t, off) :: lines_at (off + Z.of_nat (String.length t) + 1) rest.
Proof.
  revert off. induction t as [|a t IH]; intros off.
  - intros _. cbn. do 2 f_equal. lia.
  - intros [Ha Ht]%andb_true_iff. destruct (printable_plain a Ha) as (Hn & Hr & Hw).
    cbn [String.append lines_at]. rewrite Hn, Hr, Hw, IH by done. cbn [String.length]. do 2 f_equal. lia.
Qed.

(** [strip] leaves a text alone that neither starts nor ends with a blank. *)
Lemma rstrip_last s a : last_char s = Some a → is_blank a = false → rstrip s = s.
Proof.
  intros Hs Ha. induction s as [|b s IH]; [done|]. destruct s as [|c s].
  - cbn in *. inv Hs. by rewrite Ha.
  - change (rstrip (String b (String c s))) with
      (match rstrip (String c s) with "" => if is_blank b then "" else String b "" | s' => String b s' end).
    by rewrite IH.
Qed.

Lemma strip_ends a s z : is_blank a = false → last_char (String a s) = Some z → is_blank z = false →
  strip (String a s) = String a s.
Proof. intros Ha Hz Hb. unfold strip. cbn [lstrip]. rewrite Ha. by eapply rstrip_last. Qed.

Lemma strip_stored m : strip (stored_to_json m) = stored_to_json m.
Proof.
  unfold stored_to_json, stored_dict. rewrite dumps_obj. cbn [inside indent compact].
  change ("{" +:+ ?x +:+ "}") with (String "{" (x +:+ "}")).
  eapply (strip_ends _ _ "}"%char); [done| |done].
  change (String "{" (?x +:+ "}")) with ("{" +:+ (x +:+ "}")). rewrite string_app_assoc. by apply last_char_app.
Qed.

Lemma stored_nonempty m : stored_to_json m ≠ "".
Proof. done. Qed.

Lemma read_line_stored m : read_line (stored_to_json m) = Ok (Some (Some m)).
Proof.
  unfold read_line. rewrite strip_stored, bool_decide_eq_false_2 by apply stored_nonempty.
  by rewrite stored_roundtrip.
Qed.

Lemma line_size_eq m : line_size m = (Z.of_nat (String.length (stored_to_json m)) + 1)%Z.
Proof. unfold line_size, stored_line. rewrite string_length_app. cbn. lia. Qed.

Lemma lines_at_payload off m txt :
  lines_at off (stored_line m +:+ txt) = (stored_to_json m, off) :: lines_at (off + line_size m) txt.
Proof.
  unfold stored_line. rewrite <- string_app_assoc. cbn [String.append].
  rewrite lines_at_cons by apply stored_printable. rewrite line_size_eq. do 2 f_equal. lia.
Qed.

(** Whatever follows a payload is read as if it stood alone. *)
Lemma read_payload_app ms txt off :
  read_lines (lines_at off (payload ms +:+ txt)) =
  '(rest, bad) ← read_lines (lines_at (off + payload_size ms) txt);
  mret ((with_offsets off ms ++ rest)%list, bad).
Proof.
  revert off. induction ms as [|m ms IH]; intros off; cbn [payload with_offsets].
  - cbn. replace (off + payload_size [])%Z with off by (unfold payload_size; cbn; lia).
    destruct (read_lines _) as [[rest bad]|e]; done.
  - rewrite <- string_app_assoc, lines_at_payload. cbn [read_lines]. rewrite read_line_stored. cbn [mbind result_bind].
    rewrite IH. replace (off + line_size m + payload_size ms)%Z with (off + payload_size (m :: ms))%Z.
    + destruct (read_lines _) as [[rest bad]|e]; done.
    + unfold payload_size, line_size. cbn [payload]. rewrite string_length_app. lia.
Qed.

Lemma read_payload ms : read_text (payload ms) = Ok (with_offsets 0 ms, false).
Proof.
  unfold read_text. rewrite <- (string_app_nil_r (payload ms)), read_payload_app. cbn.
  by rewrite (app_nil_r (with_offsets 0 ms)).
Qed.

Lemma with_offsets_fst off ms : (with_offsets off ms).*1 = ms.
Proof. revert off. induction ms as [|m ms IH]; intros off; [done|]. cbn. by rewrite IH. Qed.

Lemma payload_app ms ms' : payload (ms ++ ms') = payload ms +:+ payload ms'.
Proof. induction ms as [|m ms IH]; [done|]. cbn [payload app]. by rewrite IH, string_app_assoc. Qed.

Lemma with_offsets_app off ms ms' :
  with_offsets off (ms ++ ms') = (with_offsets off ms ++ with_offsets (off + payload_size ms) ms')%list.
Proof.
  revert off. induction ms as [|m ms IH]; intros off; cbn [with_offsets app].
  - f_equal. unfold payload_size. cbn. lia.
  - rewrite IH. do 3 f_equal. unfold payload_size, line_size. cbn [payload]. rewrite string_length_app. lia.
Qed.

Lemma payload_printable_width ms :
  sforall (λ a, (char_width a =? 1)%Z) (payload ms) = true.
Proof.
  induction ms as [|m ms IH]; [done|]. cbn [payload]. unfold stored_line. rewrite !sforall_app, IH.
  rewrite (sforall_impl _ _ _ (λ a H, proj2 (Z.eqb_eq _ _) (proj2 (proj2 (printable_plain a H)))) (stored_printable m)).
  done.
Qed.

Lemma seek_app s t : sforall (λ a, (char_width a =? 1)%Z) s = true →
  seek (Z.of_nat (String.length s)) (s +:+ t) = Some t.
Proof.
  induction s as [|a s IH]; [by destruct t|]. intros [Ha Hs]%andb_true_iff. apply Z.eqb_eq in Ha.
  cbn [String.append seek String.length]. rewrite Ha.
  destruct (Z.eqb_spec (Z.of_nat (S (String.length s))) 0); [lia|].
  destruct (Z.ltb_spec (Z.of_nat (S (String.length s))) 1); [lia|].
  replace (Z.of_nat (S (String.length s)) - 1)%Z with (Z.of_nat (String.length s)) by lia. by apply IH.
Qed.
