(* ===== verification/MessageStore.v ===== *)
(** * The local message store ([message_history/storage/local_message_store.py])

    [LocalMessageStore] keeps every chat message of a node in an append-only log
    of JSON lines and in compressed snapshots of older ones, with three indexes in
    memory and on disk.  The disk is part of the state: the texts of the log and of
    the index files (a missing file and an empty one read the same, [""]) and the
    snapshot directory, a map from names to contents.  [os.replace] is atomic; disk
    errors are not modelled, nor are log and index files that are not UTF-8.
    [gzip] and [hashlib] are the class [Archive]. *)

From stdpp Require Import prelude gmap strings list_numbers.
From Stdlib Require Import Ascii.
From S2P Require Import Prelude PyDict PyStr Json PyText Base64 Utf8 StoredMessage.

Local Open Scope string_scope.
Local Open Scope list_scope.

(** ** What the store takes from the standard library *)

Class Archive := {
  (** [gzip.open(name, "wb")]: the header holds the name and the time. *)
  gzip : string → time → bytes → bytes;
  gunzip : bytes → result bytes;
  (** [hashlib.sha256(data).hexdigest()] *)
  sha256_hex : bytes → string;
}.

Class ArchiveLaws `{Archive} := gunzip_gzip name t b : gunzip (gzip name t b) = Ok b.

(** ** State *)

Definition DEFAULT_SNAPSHOT_THRESHOLD : option Z := Some 3%Z.

Record Disk := mkDisk {
  active_log : string;
  message_id_index : string;
  sender_seq_index : string;
  latest_vector_clock_file : string;
  recovery_state_file : string;
  snapshot_dir : gmap string string;
}.

(** The three in-memory indexes. *)
Record Index := mkIndex {
  message_ids : gset string;
  sender_seqs : gmap string (gmap string Z);
  latest_vc : gmap string Z;
}.
Definition no_index : Index := mkIndex ∅ ∅ ∅.

#[export] Instance Index_eq_dec : EqDecision Index.
Proof. solve_decision. Defined.

Record Store := mkStore {
  snapshot_threshold : option Z;
  index : Index;
  force_full_recovery_cursor : bool;
  needs_snapshot_rebuild : bool;
  disk : Disk;
}.

Definition set_index (i : Index) (s : Store) : Store :=
  mkStore (snapshot_threshold s) i (force_full_recovery_cursor s) (needs_snapshot_rebuild s) (disk s).
Definition set_flags (force rebuild : bool) (s : Store) : Store :=
  mkStore (snapshot_threshold s) (index s) force rebuild (disk s).
Definition set_disk (d : Disk) (s : Store) : Store :=
  mkStore (snapshot_threshold s) (index s) (force_full_recovery_cursor s) (needs_snapshot_rebuild s) d.
Definition set_log (txt : string) (d : Disk) : Disk :=
  mkDisk txt (message_id_index d) (sender_seq_index d) (latest_vector_clock_file d)
    (recovery_state_file d) (snapshot_dir d).
Definition set_snapshots (dir : gmap string string) (d : Disk) : Disk :=
  mkDisk (active_log d) (message_id_index d) (sender_seq_index d) (latest_vector_clock_file d)
    (recovery_state_file d) dir.

(** ** Small helpers of the source *)

(** [_safe_int] *)
Definition _safe_int (j : json) : Z :=
  match int_of_json j with Ok n => n | Raise _ => 0 end.

(** [_read_json]; [None] stands for the default. *)
Definition _read_json (txt : string) : option json :=
  if bool_decide (txt = "") then None else loads txt.

(** [f"snapshot-{n:04d}"] for a natural number *)
Definition pad4 (s : string) : string := str_take (4 - String.length s) "0000" +:+ s.
Definition snapshot_name (n : Z) : string := "snapshot-" +:+ pad4 (string_of_Z n).
Definition meta_name (sid : string) : string := sid +:+ ".meta.json".
Definition data_name (sid : string) : string := sid +:+ ".jsonl.gz".

Definition has_suffix (suf s : string) : bool := bool_decide (is_Some (strip_suffix suf s)).

(** [list(range(a, b + 1))] and [sorted(l) != that] *)
Definition range_incl (a b : Z) : list Z := seqZ a (b + 1 - a).

(** ** Indexing one message: the bodies of [save] and of both rebuilding loops *)

(** [if seq > vc.get(sender, 0): vc[sender] = seq] *)
Definition raise_clock (m : StoredMessage) (vc : gmap string Z) : gmap string Z :=
  if (default 0 (vc !! st_sender m) <? sender_seq m)%Z
  then <[st_sender m := sender_seq m]> vc else vc.

Definition index_message (m : StoredMessage) (offset : Z) (i : Index) : Index :=
  mkIndex ({[st_id m]} ∪ message_ids i)
    (<[st_sender m := <[string_of_Z (sender_seq m) := offset]> (default ∅ (sender_seqs i !! st_sender m))]>
       (sender_seqs i))
    (raise_clock m (latest_vc i)).

(** [_vector_clock_for_messages] *)
Definition _vector_clock_for_messages (ms : list StoredMessage) : gmap string Z :=
  foldl (λ vc m, raise_clock m vc) ∅ ms.

(** [_has_sender_sequence_gaps]: the positive sequence numbers of a sender must be
    [1..n]. *)
Definition positive_seqs (seq_map : gmap string Z) : list Z :=
  sort_on id (List.filter (λ n, (0 <? n)%Z) ((λ kv, _safe_int (JStr kv.1)) <$> map_to_list seq_map)).
Definition has_gap (seq_map : gmap string Z) : bool :=
  match last (positive_seqs seq_map) with
  | None => false
  | Some n => negb (bool_decide (positive_seqs seq_map = range_incl 1 n))
  end.
Definition _has_sender_sequence_gaps (seqs : gmap string (gmap string Z)) : bool :=
  existsb (λ kv, has_gap kv.2) (map_to_list seqs).

(** ** Reading *)

Section Read.
Context `{Archive}.

(** [list_snapshots] *)
Definition list_snapshots (dir : gmap string string) : list (pydict string json) :=
  omap (λ f, if has_suffix ".meta.json" f.1 then
               match _read_json f.2 with Some (JObj meta) => Some meta | _ => None end
             else None)
    (sort_keys (map_to_list dir)).

(** [_read_snapshot_file_unlocked] *)
Definition _read_snapshot_file (data : bytes) : result (list StoredMessage) :=
  match gunzip data with
  | Ok b =>
    text ← of_option UnicodeError (utf8_decode b);
    '(ms, _) ← read_text text;
    mret ms.*1
  | Raise OSError => Ok []
  | Raise e => Raise e
  end.

(** [read_snapshot_messages]: an empty [data_file] names the directory itself, which
    exists and cannot be opened. *)
Definition read_snapshot_messages (dir : gmap string string) (sid : string) : result (list StoredMessage) :=
  match (dir !! meta_name sid) ≫= _read_json with
  | Some (JObj meta) =>
    let name := py_str (default (JStr "") (dget "data_file" meta)) in
    if bool_decide (name = "") || bool_decide (name = ".") then Raise OSError else
    match dir !! name with
    | None => Ok []
    | Some data =>
      match dget "checksum" meta with
      | Some (JStr c) => if bool_decide (c = sha256_hex data) then _read_snapshot_file data else Ok []
      | _ => Ok []
      end
    end
  | _ => Ok []
  end.

Definition meta_id (meta : pydict string json) : string :=
  py_str (default (JStr "") (dget "snapshot_id" meta)).

(** [_read_active_messages_with_offsets_unlocked], with the flag
    [_active_log_had_invalid_lines]. *)
Definition _read_active_messages_with_offsets (d : Disk) : result (list (StoredMessage * Z) * bool) :=
  read_text (active_log d).

Definition _read_active_messages (d : Disk) : result (list StoredMessage) :=
  '(ms, _) ← _read_active_messages_with_offsets d;
  mret ms.*1.

(** [_iter_readable_messages_with_offsets_unlocked]: a snapshot message has offset
    [-1], an active one its own. *)
Definition _iter_readable_messages_with_offsets (d : Disk) : result (list (StoredMessage * Z) * bool) :=
  snaps ← mapR (λ meta, read_snapshot_messages (snapshot_dir d) (meta_id meta)) (list_snapshots (snapshot_dir d));
  '(active, bad) ← _read_active_messages_with_offsets d;
  mret (((λ m, (m, (-1)%Z)) <$> mjoin snaps) ++ active, bad).

(** The first message of every identifier. *)
Fixpoint dedup (seen : gset string) (ms : list StoredMessage) : list StoredMessage :=
  match ms with
  | [] => []
  | m :: ms =>
    if decide (st_id m ∈ seen) then dedup seen ms
    else m :: dedup ({[st_id m]} ∪ seen) ms
  end.

(** [_read_all_messages_unlocked] *)
Definition _read_all_messages (d : Disk) : result (list StoredMessage) :=
  '(items, _) ← _iter_readable_messages_with_offsets d;
  mret (sort_on st_timestamp (dedup ∅ items.*1)).

(** [_has_unreadable_snapshot_unlocked] *)
Fixpoint unreadable_in (dir : gmap string string) (metas : list (pydict string json)) : result bool :=
  match metas with
  | [] => Ok false
  | meta :: metas =>
    let expected := _safe_int (default (JInt 0) (dget "message_count" meta)) in
    if (expected <=? 0)%Z then unreadable_in dir metas else
    ms ← read_snapshot_messages dir (meta_id meta);
    if (Z.of_nat (length ms) <? expected)%Z then Ok true else unreadable_in dir metas
  end.
Definition _has_unreadable_snapshot (dir : gmap string string) : result bool :=
  unreadable_in dir (list_snapshots dir).

(** [_has_snapshot_sequence_gaps_unlocked] *)
Definition snapshot_numbers (dir : gmap string string) : list Z :=
  sort_on id (omap (λ meta, rest ← strip_prefix "snapshot-" (meta_id meta); py_int rest) (list_snapshots dir)).
Definition _has_snapshot_sequence_gaps (dir : gmap string string) : bool :=
  match snapshot_numbers dir, last (snapshot_numbers dir) with
  | a :: _, Some b => negb (bool_decide (snapshot_numbers dir = range_incl a b))
  | _, _ => false
  end.

(** [_next_snapshot_id_unlocked]: [stem] drops the last extension. *)
Definition name_number (name : string) : option Z :=
  if startswith "snapshot-" name && has_suffix ".meta.json" name then
    let stem := match rsplit1 "." name with Some (s, _) => s | None => name end in
    let stem := default stem (strip_suffix ".meta" stem) in
    py_int (default stem (strip_prefix "snapshot-" stem))
  else None.
Definition _next_snapshot_id (dir : gmap string string) : string :=
  snapshot_name (foldl Z.max 0%Z (omap (λ f, name_number f.1) (map_to_list dir)) + 1).

(** [_read_message_at_offset]: a negative offset or one inside a character is the
    caught [ValueError]. *)
Definition _read_message_at_offset (offset : Z) (d : Disk) : result (option StoredMessage) :=
  if (offset <? 0)%Z then Ok None else
  match seek offset (active_log d) with
  | None => Ok None
  | Some rest =>
    match lines_at 0 rest with
    | [] => Ok None
    | (line, _) :: _ =>
      match read_line line with
      | Ok (Some m) => Ok m
      | Ok None => Ok None
      | Raise e => Raise e
      end
    end
  end.

(** [get_recent] and the slice [messages[-limit:]] *)
Definition slice_from {A} (k : Z) (l : list A) : list A :=
  if (k <? 0)%Z then drop (Z.to_nat (Z.of_nat (length l) + k)) l else drop (Z.to_nat k) l.
Definition get_recent (limit : Z) (d : Disk) : result (list StoredMessage) :=
  messages ← _read_all_messages d;
  mret (if (limit <? Z.of_nat (length messages))%Z then slice_from (- limit) messages else messages).

(** [get_missing_since]: the cursor is the dictionary a peer sent. *)
Definition cursor_seq (have : pydict string json) (sender : string) : Z :=
  _safe_int (default (JInt 0) (dget sender have)).
Definition get_missing_since (have : pydict string json) (d : Disk) : result (list StoredMessage) :=
  messages ← _read_all_messages d;
  mret (List.filter (λ m, (cursor_seq have (st_sender m) <? sender_seq m)%Z) (dedup ∅ messages)).

(** [build_history_chunks]: [messages[start:start + size]] from each multiple. *)
Definition slices {A} (size : nat) (l : list A) : list (list A) :=
  (λ i, take size (drop (i * size) l)) <$> seq 0 (Z.to_nat ((Z.of_nat (length l) + Z.of_nat size - 1) / Z.of_nat size)).

Definition chunk_json (transfer_id : json) (size total : nat) (i : nat) (ms : list StoredMessage) : json :=
  JObj [("type", JStr "history_chunk"); ("transfer_id", transfer_id);
        ("chunk_id", JInt (Z.of_nat i + 1)); ("is_snapshot", JBool false);
        ("is_last", JBool (total <=? i * size + size)%nat); ("messages", JList (stored_dict <$> ms))].

Definition build_history_chunks (have : pydict string json) (transfer_id : json) (chunk_size : Z)
    (d : Disk) : result (list json) :=
  if (chunk_size <=? 0)%Z then Raise ValueError else
  missing ← get_missing_since have d;
  let size := Z.to_nat chunk_size in
  mret (imap (chunk_json transfer_id size (length missing)) (slices size missing)).
End Read.

(** ** Operations that change the store *)

Section Operations.
Context `{Archive} (now : time).

Definition json_of_seqs (seqs : gmap string (gmap string Z)) : json :=
  JObj ((λ kv, (kv.1, json_of_vc kv.2)) <$> map_to_list seqs).

(** [_flush_indexes]: four files, each replaced atomically. *)
Definition flushed (s : Store) : Disk :=
  mkDisk (active_log (disk s))
    (dumps compact (JList (JStr <$> elements (message_ids (index s)))))
    (dumps compact (json_of_seqs (sender_seqs (index s))))
    (dumps compact (json_of_vc (latest_vc (index s))))
    (dumps compact (JObj [("force_full_recovery_cursor", JBool (force_full_recovery_cursor s));
                          ("needs_snapshot_rebuild", JBool (needs_snapshot_rebuild s))]))
    (snapshot_dir (disk s)).
Definition _flush_indexes : M Store unit := modify (λ s, set_disk (flushed s) s).

(** The loop of [_repair_indexes_from_readable_storage], with its [changed]. *)
Fixpoint repaired_index (items : list (StoredMessage * Z)) (i : Index) (changed : bool) : Index * bool :=
  match items with
  | [] => (i, changed)
  | (m, offset) :: items =>
    if decide (st_id m ∈ message_ids i) then repaired_index items i true
    else repaired_index items (index_message m offset i) changed
  end.

(** [_repair_indexes_from_readable_storage].  [foreign]: the loaded identifier set
    holds values that are not strings, which match no message. *)
Definition _repair_indexes_from_readable_storage (foreign : bool) : M Store unit :=
  s ← get;
  let d := disk s in
  unreadable ← lift (_has_unreadable_snapshot (snapshot_dir d));
  '(items, bad) ← lift (_iter_readable_messages_with_offsets d);
  let '(repaired, duplicate) := repaired_index items no_index false in
  let damage := unreadable || _has_snapshot_sequence_gaps (snapshot_dir d) || bad
                || _has_sender_sequence_gaps (sender_seqs repaired) in
  if duplicate || foreign || negb (bool_decide (repaired = index s)) then
    let lost := foreign || negb (bool_decide (message_ids (index s) ⊆ message_ids repaired)) in
    _ ← modify (λ s, set_index repaired (if damage || lost then set_flags true true s else s));
    _flush_indexes
  else if damage then
    _ ← modify (set_flags true true);
    _flush_indexes
  else mret tt.

(** [_load_indexes]: the set of identifiers keeps what is hashable; a list or a
    dictionary among them raises, as an offset or a count [int] refuses does. *)
Definition load_ids (j : option json) : result (gset string * bool) :=
  match j with
  | Some (JList l) =>
    if existsb (λ x, match x with JList _ | JObj _ => true | _ => false end) l then Raise TypeError
    else Ok (list_to_set (omap (λ x, match x with JStr s => Some s | _ => None end) l),
             existsb (λ x, match x with JStr _ => false | _ => true end) l)
  | _ => Ok (∅, false)
  end.

Definition load_seqs (j : option json) : result (gmap string (gmap string Z)) :=
  match j with
  | Some (JObj d) =>
    l ← mapR (λ kv, m ← int_items kv.2; mret (kv.1, m))
          (omap (λ kv, match kv.2 with JObj m => Some (kv.1, m) | _ => None end) d);
    mret (list_to_map l)
  | _ => Ok ∅
  end.

Definition load_vc (j : option json) : result (gmap string Z) :=
  match j with Some (JObj d) => int_items d | _ => Ok ∅ end.

Definition load_flag (k : string) (j : option json) : bool :=
  match j with Some (JObj d) => truthy (default JNull (dget k d)) | _ => false end.

Definition _load_indexes (threshold : option Z) (d : Disk) : result (Store * bool) :=
  '(ids, foreign) ← load_ids (_read_json (message_id_index d));
  seqs ← load_seqs (_read_json (sender_seq_index d));
  vc ← load_vc (_read_json (latest_vector_clock_file d));
  let flags := _read_json (recovery_state_file d) in
  mret (mkStore threshold (mkIndex ids seqs vc) (load_flag "force_full_recovery_cursor" flags)
          (load_flag "needs_snapshot_rebuild" flags) d, foreign).

(** [LocalMessageStore(snapshot_threshold)] on a disk *)
Definition open_store (threshold : option Z) (d : Disk) : result Store :=
  '(s, foreign) ← _load_indexes threshold d;
  match _repair_indexes_from_readable_storage foreign s with
  | (Ok _, s') => Ok s'
  | (Raise e, _) => Raise e
  end.

(** [_append_to_log]: the offset is the size of the file in bytes. *)
Fixpoint byte_size (txt : string) : Z :=
  match txt with "" => 0 | String a txt => char_width a + byte_size txt end.
Definition _append_to_log (m : StoredMessage) : M Store Z :=
  s ← get;
  let offset := byte_size (active_log (disk s)) in
  _ ← modify (set_disk (set_log (active_log (disk s) +:+ stored_line m) (disk s)));
  mret offset.

(** [_rebuild_indexes_unlocked] *)
Definition _rebuild_indexes : M Store unit :=
  _ ← modify (set_index no_index);
  s ← get;
  messages ← lift (_read_all_messages (disk s));
  modify (set_index (foldl (λ i m, index_message m (-1) i) no_index messages)).

(** [_write_snapshot_files_unlocked] *)
Definition snapshot_meta (sid : string) (ms : list StoredMessage) (data : bytes) : json :=
  JObj [("snapshot_id", JStr sid); ("created_at", JFloat now);
        ("covers_until_vector_clock", json_of_vc (_vector_clock_for_messages ms));
        ("message_count", JInt (Z.of_nat (length ms))); ("checksum", JStr (sha256_hex data));
        ("data_file", JStr (data_name sid))].
Definition snapshot_data (sid : string) (ms : list StoredMessage) : bytes :=
  gzip (data_name sid) now (utf8_encode (payload ms)).
Definition write_snapshot (sid : string) (ms : list StoredMessage) (dir : gmap string string) : gmap string string :=
  let data := snapshot_data sid ms in
  <[meta_name sid := dumps compact (snapshot_meta sid ms data)]> (<[data_name sid := data]> dir).
Definition _write_snapshot_files (sid : string) (ms : list StoredMessage) : M Store json :=
  _ ← modify (λ s, set_disk (set_snapshots (write_snapshot sid ms (snapshot_dir (disk s))) (disk s)) s);
  mret (snapshot_meta sid ms (snapshot_data sid ms)).

(** [create_snapshot] *)
Definition create_snapshot (snapshot_id : option string) (compact_log : bool) : M Store (option json) :=
  s ← get;
  messages ← lift (_read_active_messages (disk s));
  if bool_decide (messages = []) then mret None else
  let sid := match snapshot_id with
             | Some i => if bool_decide (i = "") then _next_snapshot_id (snapshot_dir (disk s)) else i
             | None => _next_snapshot_id (snapshot_dir (disk s))
             end in
  meta ← _write_snapshot_files sid messages;
  if compact_log then
    _ ← modify (λ s, set_disk (set_log "" (disk s)) s);
    _ ← _rebuild_indexes;
    _ ← _flush_indexes;
    mret (Some meta)
  else mret (Some meta).

(** [_maybe_create_snapshot_unlocked] *)
Definition _maybe_create_snapshot : M Store unit :=
  s ← get;
  match snapshot_threshold s with
  | None => mret tt
  | Some t =>
    if (t <=? 0)%Z then mret tt else
    messages ← lift (_read_active_messages (disk s));
    if (t <=? Z.of_nat (length messages))%Z
    then _ ← create_snapshot None true; mret tt
    else mret tt
  end.

(** [_delete_snapshot_files_unlocked] *)
Definition _delete_snapshot_files (dir : gmap string string) : gmap string string :=
  filter (λ f, negb (has_suffix ".jsonl.gz" f.1 || has_suffix ".meta.json" f.1 || has_suffix ".tmp" f.1) = true) dir.

Definition rebuild_chunk_size (threshold : option Z) (n : nat) : nat :=
  match threshold with
  | Some t => if (0 <? t)%Z then Z.to_nat t else n
  | None => n
  end.

(** [_rebuild_snapshots_from_readable_messages_unlocked]: snapshots of [chunk_size]
    messages numbered from one; the rest goes to the active log. *)
Definition _rebuild_snapshots_from_readable_messages : M Store unit :=
  s ← get;
  messages ← lift (_read_all_messages (disk s));
  if bool_decide (messages = []) then mret tt else
  let chunk_size := rebuild_chunk_size (snapshot_threshold s) (length messages) in
  let snapshot_message_count := length messages / chunk_size * chunk_size in
  _ ← modify (λ s, set_disk (set_snapshots (_delete_snapshot_files (snapshot_dir (disk s))) (disk s)) s);
  _ ← forM (imap pair (slices chunk_size (take snapshot_message_count messages)))
        (λ c, _ ← _write_snapshot_files (snapshot_name (Z.of_nat c.1 + 1)) c.2; mret tt);
  _ ← modify (λ s, set_disk (set_log (payload (drop snapshot_message_count messages)) (disk s)) s);
  _ ← modify (set_flags false false);
  _ ← _rebuild_indexes;
  _flush_indexes.

(** [_maybe_rebuild_snapshots_after_recovery_unlocked] *)
Definition _maybe_rebuild_snapshots_after_recovery : M Store unit :=
  s ← get;
  if _has_sender_sequence_gaps (sender_seqs (index s)) then mret tt
  else _rebuild_snapshots_from_readable_messages.

(** [save] *)
Definition save (m : StoredMessage) : M Store bool :=
  s ← get;
  if decide (st_id m ∈ message_ids (index s)) then mret false else
  offset ← _append_to_log m;
  _ ← modify (λ s, set_index (index_message m offset (index s)) s);
  _ ← _flush_indexes;
  s ← get;
  _ ← (if needs_snapshot_rebuild s then _maybe_rebuild_snapshots_after_recovery
       else _maybe_create_snapshot);
  mret true.

(** [has_message] *)
Definition has_message (i : string) (s : Store) : bool := bool_decide (i ∈ message_ids (index s)).

(** [save_many]: what is no [Message] is counted and dropped. *)
Record SaveCounts := mkCounts { saved : nat; duplicates : nat; invalid : nat }.
Inductive item := Decoded (m : StoredMessage) | Raw (j : json).

Definition save_catches (e : exn) : bool :=
  match e with AttributeError | TypeError | ValueError | JSONDecodeError | UnicodeError => true | _ => false end.

Fixpoint save_items (items : list item) (r : SaveCounts) : M Store SaveCounts :=
  match items with
  | [] => mret r
  | Raw _ :: items => save_items items (mkCounts (saved r) (duplicates r) (S (invalid r)))
  | Decoded m :: items => λ s,
    match save m s with
    | (Ok true, s') => save_items items (mkCounts (S (saved r)) (duplicates r) (invalid r)) s'
    | (Ok false, s') => save_items items (mkCounts (saved r) (S (duplicates r)) (invalid r)) s'
    | (Raise e, s') =>
      if save_catches e then save_items items (mkCounts (saved r) (duplicates r) (S (invalid r))) s'
      else (Raise e, s')
    end
  end.

Definition save_many (items : list item) : M Store SaveCounts :=
  r ← save_items items (mkCounts 0 0 0);
  s ← get;
  _ ← (if needs_snapshot_rebuild s then _maybe_rebuild_snapshots_after_recovery else mret tt);
  mret r.

(** [get_latest_vector_clock] *)
Definition get_latest_vector_clock : M Store (gmap string Z) :=
  _ ← _repair_indexes_from_readable_storage false;
  s ← get;
  if force_full_recovery_cursor s then
    if _has_sender_sequence_gaps (sender_seqs (index s)) then mret ∅ else
    _ ← modify (λ s, set_flags false (needs_snapshot_rebuild s) s);
    _ ← _flush_indexes;
    s ← get;
    mret (latest_vc (index s))
  else mret (latest_vc (index s)).
End Operations.
