(* ===== verification/MessageStoreFacts.v ===== *)
(** * The message store keeps its messages

    What the disk of a working store looks like, what the readers make of it, and
    the invariant every operation preserves. *)

From stdpp Require Import prelude gmap strings list_numbers sorting.
From Stdlib Require Import Ascii DecimalString.
From S2P Require Import Prelude PyDict PyStr Json PyText Base64 Utf8 StoredMessage MessageStore.

Local Open Scope string_scope.
Local Open Scope list_scope.

(** ** Snapshot names *)

Lemma py_int_digits ds u : sforall is_digit ds = true → ds ≠ "" →
  NilZero.uint_of_string ds = Some u → py_int ds = Some (Z.of_uint u).
Proof.
  intros Hd Hne Hu. unfold py_int.
  rewrite strip_id by (eapply sforall_impl, Hd; apply digit_not_blank).
  rewrite digits_head_sign by done. rewrite drop_underscores_digits by done. cbn.
  by rewrite Hu.
Qed.

Lemma uint_digits_some ds : sforall is_digit ds = true → ds ≠ "" →
  ∃ u, NilEmpty.uint_of_string ds = Some u.
Proof.
  induction ds as [|a ds IH]; [done|]. intros [Ha Hd]%andb_true_iff _. cbn [NilEmpty.uint_of_string].
  destruct (decide (ds = "")) as [->|Hne].
  - destruct a as [[] [] [] [] [] [] [] []]; try done; by eexists.
  - destruct (IH Hd Hne) as [u ->]. destruct a as [[] [] [] [] [] [] [] []]; try done; by eexists.
Qed.

Lemma py_int_zero ds n : sforall is_digit ds = true → ds ≠ "" → py_int ds = Some n →
  py_int (String "0" ds) = Some n.
Proof.
  intros Hd Hne Hn. destruct (uint_digits_some ds Hd Hne) as [u Hu].
  assert (NilZero.uint_of_string ds = Some u) as Hz by (destruct ds; [done|exact Hu]).
  rewrite (py_int_digits ds u) in Hn by done. injection Hn as <-.
  apply (py_int_digits _ (Decimal.D0 u)); [cbn; by rewrite Hd|done|].
  cbn. by rewrite Hu.
Qed.

Lemma py_int_pad4 n : (0 ≤ n)%Z → py_int (pad4 (string_of_Z n)) = Some n.
Proof.
  intros Hn. unfold pad4. pose proof (py_int_string_of_Z n) as H.
  assert (sforall is_digit (string_of_Z n) = true ∧ string_of_Z n ≠ "") as [Hd Hne].
  { unfold string_of_Z. destruct n as [|p|p]; [done| |lia]. split; [apply uint_digits0|apply uint_string_nonempty]. }
  destruct (4 - String.length (string_of_Z n)) as [|[|[|[|[|k]]]]]; cbn [str_take String.append];
    repeat (apply py_int_zero; [cbn; by rewrite ?Hd|done|]); done.
Qed.

Lemma snapshot_name_number n : (0 ≤ n)%Z →
  (rest ← strip_prefix "snapshot-" (snapshot_name n); py_int rest) = Some n.
Proof. intros Hn. unfold snapshot_name. rewrite strip_prefix_app. by apply py_int_pad4. Qed.

Lemma has_suffix_app s suf : has_suffix suf (s +:+ suf) = true.
Proof. unfold has_suffix. rewrite strip_suffix_app. by apply bool_decide_eq_true_2. Qed.

Lemma has_suffix_last suf suf' s : suf ≠ "" → suf' ≠ "" → last_char suf ≠ last_char suf' →
  has_suffix suf (s +:+ suf') = false.
Proof.
  intros Hs Hs' Hl. unfold has_suffix, strip_suffix. apply bool_decide_eq_false_2.
  destruct (decide _) as [E|]; [|by intros [? ?]]. exfalso. apply Hl.
  rewrite <- E, last_char_drop, last_char_app by (rewrite ?E; done). done.
Qed.

Lemma meta_name_inj a b : meta_name a = meta_name b → a = b.
Proof.
  unfold meta_name. intros E. pose proof (strip_suffix_app a ".meta.json") as Ha.
  rewrite E, strip_suffix_app in Ha. congruence.
Qed.
Lemma data_name_inj a b : data_name a = data_name b → a = b.
Proof.
  unfold data_name. intros E. pose proof (strip_suffix_app a ".jsonl.gz") as Ha.
  rewrite E, strip_suffix_app in Ha. congruence.
Qed.
Lemma meta_data_name a b : meta_name a ≠ data_name b.
Proof.
  intros E. pose proof (has_suffix_app a ".meta.json") as Ha. fold (meta_name a) in Ha.
  rewrite E in Ha. unfold data_name in Ha. by rewrite has_suffix_last in Ha.
Qed.

Lemma has_suffix_meta i : has_suffix ".meta.json" (meta_name i) = true.
Proof. unfold meta_name. apply has_suffix_app. Qed.

Lemma data_name_plain i : data_name i ≠ "" ∧ data_name i ≠ ".".
Proof.
  split; intros E; pose proof (has_suffix_app i ".jsonl.gz") as H; fold (data_name i) in H;
    rewrite E in H; discriminate H.
Qed.

(** The name of the [k]-th snapshot, from zero. *)
Definition sid (k : nat) : string := snapshot_name (Z.of_nat k + 1).

Lemma sid_number k : (rest ← strip_prefix "snapshot-" (sid k); py_int rest) = Some (Z.of_nat k + 1)%Z.
Proof. apply snapshot_name_number. lia. Qed.

Lemma sid_inj j k : sid j = sid k → j = k.
Proof. intros E. pose proof (sid_number j) as H. rewrite E, sid_number in H. inv H. lia. Qed.

Lemma name_number_meta k : name_number (meta_name (sid k)) = Some (Z.of_nat k + 1)%Z.
Proof.
  unfold name_number, meta_name, sid, snapshot_name. set (p := pad4 _). rewrite <- !string_app_assoc.
  rewrite startswith_app. rewrite !string_app_assoc, has_suffix_app, <- !string_app_assoc. cbn [andb].
  replace ("snapshot-" +:+ p +:+ ".meta.json") with (("snapshot-" +:+ p +:+ ".meta") +:+ String "." "json")
    by (by rewrite <- !string_app_assoc).
  rewrite rsplit1_app by done. rewrite string_app_assoc, strip_suffix_app. cbn [default]. unfold id.
  rewrite strip_prefix_app. cbn [default]. unfold id, p. apply py_int_pad4. lia.
Qed.

(** ** What the disk of a working store holds *)

Lemma omap_fmap_on {A B C} (f : A → option C) (num : A → option B) (h : B → C) (l : list A) :
  (∀ x, x ∈ l → f x = h <$> num x) → omap f l = h <$> omap num l.
Proof.
  induction l as [|x l IH]; intros Hf; [done|]. cbn. rewrite Hf by set_solver.
  rewrite IH by set_solver. by destruct (num x).
Qed.

Lemma omap_NoDup_key {A B K} (f : A → option B) (key : A → K) (name : B → K) (l : list A) :
  (∀ x b, x ∈ l → f x = Some b → name b = key x) → NoDup (key <$> l) → NoDup (omap f l).
Proof.
  induction l as [|x l IH]; intros Hf Hn; [constructor|]. cbn in Hn. apply NoDup_cons in Hn as [Hx Hn].
  cbn. destruct (f x) as [b|] eqn:E; [|apply IH; [set_solver|done]]. constructor; [|apply IH; [set_solver|done]].
  intros (y & Hy & Eb)%list_elem_of_omap. apply Hx. rewrite <- (Hf x b) by (set_solver || done).
  rewrite (Hf y b) by (set_solver || done). by apply list_elem_of_fmap_2.
Qed.

Lemma seqZ_sorted a n : Sorted.StronglySorted Z.le (seqZ a n).
Proof.
  destruct (Z_lt_le_dec n 0) as [Hn|Hn]; [rewrite seqZ_nil by lia; constructor|].
  revert a. pattern n. apply natlike_ind; [|clear n Hn; intros n Hn IH a|done].
  - intros a. rewrite seqZ_nil by lia. constructor.
  - rewrite seqZ_cons, Z.pred_succ by lia. constructor; [apply IH|].
    apply Forall_forall. intros x Hx%elem_of_seqZ. lia.
Qed.

Lemma sort_on_id_seqZ l a n : l ≡ₚ seqZ a n → sort_on id l = seqZ a n.
Proof.
  intros Hl. apply (Sorted_unique_strong Z.le).
  - intros x y _ _. lia.
  - apply Sorted.StronglySorted_Sorted. apply (sort_on_sorted id).
  - apply Sorted.StronglySorted_Sorted, seqZ_sorted.
  - by rewrite sort_on_perm.
Qed.

Section Layout.
Context `{!Archive} `{!ArchiveLaws}.

Definition holds_snapshot (dir : gmap string string) (k : nat) (ms : list StoredMessage) : Prop :=
  ms ≠ [] ∧ ∃ t, dir !! meta_name (sid k) =
      Some (dumps compact (snapshot_meta t (sid k) ms (snapshot_data t (sid k) ms))) ∧
    dir !! data_name (sid k) = Some (snapshot_data t (sid k) ms).

(** The snapshots numbered one to [length snaps], and no other metadata file. *)
Definition snapshots_are (dir : gmap string string) (snaps : list (list StoredMessage)) : Prop :=
  (∀ k ms, snaps !! k = Some ms → holds_snapshot dir k ms) ∧
  ∀ name, is_Some (dir !! name) → has_suffix ".meta.json" name = true →
    ∃ k, k < length snaps ∧ name = meta_name (sid k).

Definition disk_is (d : Disk) (snaps : list (list StoredMessage)) (act : list StoredMessage) : Prop :=
  active_log d = payload act ∧ snapshots_are (snapshot_dir d) snaps.

Definition meta_dict (dir : gmap string string) (k : nat) : pydict string json :=
  match dir !! meta_name (sid k) ≫= _read_json with Some (JObj m) => m | _ => [] end.

Lemma read_json_dumps j : json_wf j → dumps compact j ≠ "" → _read_json (dumps compact j) = Some j.
Proof.
  intros Hwf Hne. unfold _read_json. rewrite bool_decide_eq_false_2 by done.
  by apply (loads_dumps_wf compact).
Qed.

Lemma dumps_nonempty j : dumps compact j ≠ "".
Proof. intros E. destruct (dump_head compact 0 j) as (a & t & Ht & _). unfold dumps in E. congruence. Qed.

Lemma read_meta t i ms data : _read_json (dumps compact (snapshot_meta t i ms data)) = Some (snapshot_meta t i ms data).
Proof.
  apply read_json_dumps; [|apply dumps_nonempty]. apply json_wf_obj. split.
  - unfold dwf. apply (bool_decide_unpack _). by vm_compute.
  - repeat (constructor; [try done; apply json_of_vc_wf|]). constructor.
Qed.

Lemma meta_dict_of dir k ms : holds_snapshot dir k ms →
  ∃ t, dir !! data_name (sid k) = Some (snapshot_data t (sid k) ms) ∧
    dir !! meta_name (sid k) ≫= _read_json = Some (snapshot_meta t (sid k) ms (snapshot_data t (sid k) ms)) ∧
    JObj (meta_dict dir k) = snapshot_meta t (sid k) ms (snapshot_data t (sid k) ms).
Proof.
  intros (_ & t & Hm & Hd). exists t. unfold meta_dict. rewrite Hm. cbn [mbind option_bind].
  rewrite read_meta. done.
Qed.

Lemma meta_id_of dir k ms : holds_snapshot dir k ms → meta_id (meta_dict dir k) = sid k.
Proof. intros (t & _ & _ & E)%meta_dict_of. injection E as ->. done. Qed.

Lemma meta_count_of dir k ms : holds_snapshot dir k ms →
  _safe_int (default (JInt 0) (dget "message_count" (meta_dict dir k))) = Z.of_nat (length ms).
Proof. intros (t & _ & _ & E)%meta_dict_of. injection E as ->. done. Qed.

Lemma read_snapshot_of dir k ms : holds_snapshot dir k ms → read_snapshot_messages dir (sid k) = Ok ms.
Proof.
  intros (t & Hd & Hm & _)%meta_dict_of. unfold read_snapshot_messages. rewrite Hm. unfold snapshot_meta.
  match goal with |- context [dget _ ?m] =>
    assert (dget "data_file" m = Some (JStr (data_name (sid k)))) as -> by done;
    assert (dget "checksum" m = Some (JStr (sha256_hex (snapshot_data t (sid k) ms)))) as -> by done
  end.
  change (py_str (default (JStr "") (Some (JStr (data_name (sid k)))))) with (data_name (sid k)). cbv zeta.
  rewrite !bool_decide_eq_false_2 by apply data_name_plain.
  cbn [orb]. rewrite Hd, bool_decide_eq_true_2 by done. unfold _read_snapshot_file, snapshot_data.
  rewrite gunzip_gzip, utf8_decode_encode. cbn [mbind result_bind of_option]. rewrite read_payload.
  cbn. by rewrite with_offsets_fst.
Qed.

(** The metadata files come in some order of the snapshots. *)
Lemma list_snapshots_spec dir snaps : snapshots_are dir snaps →
  ∃ ks, ks ≡ₚ seq 0 (length snaps) ∧ list_snapshots dir = meta_dict dir <$> ks.
Proof.
  intros [Hs Hall]. unfold list_snapshots.
  set (l := sort_keys (map_to_list dir)).
  assert (∀ f, f ∈ l → dir !! f.1 = Some f.2) as Hl.
  { intros [n x] Hin. unfold l in Hin. rewrite sort_keys_perm in Hin. by apply elem_of_map_to_list in Hin. }
  set (num := λ f : string * string, if has_suffix ".meta.json" f.1
                then (λ n, Z.to_nat (n - 1)) <$> name_number f.1 else None).
  assert (∀ f, f ∈ l → has_suffix ".meta.json" f.1 = true →
    ∃ k, k < length snaps ∧ f.1 = meta_name (sid k) ∧ num f = Some k) as Hnum.
  { intros f Hf Hx. destruct (Hall f.1) as (k & Hk & E); [by eexists; apply Hl|done|].
    exists k. split_and!; [done|done|]. unfold num. rewrite Hx, E, name_number_meta. cbn. f_equal. lia. }
  exists (omap num l). split.
  - apply NoDup_Permutation; [|apply NoDup_seq|].
    + apply (omap_NoDup_key num fst (λ k, meta_name (sid k))).
      * intros f k Hf E. destruct (has_suffix ".meta.json" f.1) eqn:Hx; [|by unfold num in E; rewrite Hx in E].
        destruct (Hnum f Hf Hx) as (k' & _ & -> & E'). congruence.
      * eapply NoDup_Permutation_proper; [|apply (NoDup_fst_map_to_list dir)].
        apply fmap_Permutation. unfold l. by rewrite sort_keys_perm.
    + intros k. rewrite list_elem_of_omap, elem_of_seq. split.
      * intros (f & Hf & E). destruct (has_suffix ".meta.json" f.1) eqn:Hx; [|by unfold num in E; rewrite Hx in E].
        destruct (Hnum f Hf Hx) as (k' & Hk & _ & E'). assert (k = k') by congruence. lia.
      * intros [_ Hk]. destruct (lookup_lt_is_Some_2 snaps k) as [ms Hms]; [lia|].
        destruct (Hs k ms Hms) as (_ & t & Hm & _). revert Hm.
        generalize (dumps compact (snapshot_meta t (sid k) ms (snapshot_data t (sid k) ms))).
        intros txt Hm. exists (meta_name (sid k), txt).
        assert ((meta_name (sid k), txt) ∈ l) as Hin.
        { unfold l. rewrite sort_keys_perm. apply elem_of_map_to_list, Hm. }
        split; [exact Hin|]. destruct (Hnum _ Hin) as (k' & _ & E & E').
        { cbn [fst]. apply has_suffix_meta. }
        apply meta_name_inj, sid_inj in E. congruence.
  - apply omap_fmap_on. intros f Hf. destruct (has_suffix ".meta.json" f.1) eqn:Hx.
    + destruct (Hnum f Hf Hx) as (k & Hk & E & ->). cbn [fmap option_fmap option_map].
      destruct (lookup_lt_is_Some_2 snaps k) as [ms Hms]; [lia|].
      destruct (meta_dict_of dir k ms (Hs k ms Hms)) as (t & _ & Hr & Hd).
      pose proof (Hl f Hf) as Hlk. rewrite E in Hlk. rewrite Hlk in Hr. cbn [mbind option_bind] in Hr. rewrite Hr, <- Hd. done.
    + unfold num. by rewrite Hx.
Qed.

Lemma foldl_max l a n : (∀ x, x ∈ l → (x ≤ n)%Z) → (a ≤ n)%Z → (n = a ∨ n ∈ l) → foldl Z.max a l = n.
Proof.
  revert a. induction l as [|x l IH]; intros a Hl Ha Hn; cbn.
  - destruct Hn as [|?%not_elem_of_nil]; done.
  - pose proof (Hl x ltac:(constructor)). apply IH; [set_solver|lia|].
    destruct Hn as [->|[->|Hn]%elem_of_cons]; [left; lia|left; lia|by right].
Qed.

Lemma next_id_spec dir snaps : snapshots_are dir snaps → _next_snapshot_id dir = sid (length snaps).
Proof.
  intros [Hs Hall]. unfold _next_snapshot_id, sid. do 2 f_equal.
  assert (∀ n, n ∈ omap (λ f : string * string, name_number f.1) (map_to_list dir) ↔
    ∃ k, k < length snaps ∧ n = (Z.of_nat k + 1)%Z) as Hin.
  { intros n. rewrite list_elem_of_omap. split.
    - intros ([name txt] & Hf & E). cbn in E. apply elem_of_map_to_list in Hf.
      destruct (has_suffix ".meta.json" name) eqn:Hx.
      + destruct (Hall name) as (k & Hk & ->); [by eexists|done|]. rewrite name_number_meta in E.
        exists k. split; [done|congruence].
      + unfold name_number in E. by rewrite Hx, andb_false_r in E.
    - intros (k & Hk & ->). destruct (lookup_lt_is_Some_2 snaps k Hk) as [ms Hms].
      destruct (Hs k ms Hms) as (_ & t & Hm & _). eexists (meta_name (sid k), _). split.
      + apply elem_of_map_to_list, Hm.
      + apply name_number_meta. }
  apply foldl_max.
  - intros x (k & Hk & ->)%Hin. lia.
  - lia.
  - destruct (decide (length snaps = 0)) as [E|E]; [left; lia|right]. apply Hin.
    exists (length snaps - 1). lia.
Qed.

Section Readers.
Context (d : Disk) (snaps : list (list StoredMessage)) (act : list StoredMessage).
Hypothesis Hd : disk_is d snaps act.

Lemma each_snapshot ks : ks ≡ₚ seq 0 (length snaps) → ∀ k, k ∈ ks →
  ∃ ms, snaps !! k = Some ms ∧ holds_snapshot (snapshot_dir d) k ms.
Proof.
  intros Hks k Hk. rewrite Hks, elem_of_seq in Hk. destruct (lookup_lt_is_Some_2 snaps k) as [ms Hms]; [lia|].
  exists ms. split; [done|]. by apply (proj1 (proj2 Hd)).
Qed.

Lemma unreadable_spec : _has_unreadable_snapshot (snapshot_dir d) = Ok false.
Proof.
  unfold _has_unreadable_snapshot. destruct (list_snapshots_spec _ _ (proj2 Hd)) as (ks & Hks & ->).
  pose proof (each_snapshot ks Hks) as Hk. clear Hks. induction ks as [|k ks IH]; [done|].
  cbn [fmap list_fmap unreadable_in]. destruct (Hk k ltac:(constructor)) as (ms & _ & Hms).
  rewrite (meta_count_of _ _ _ Hms), (meta_id_of _ _ _ Hms), (read_snapshot_of _ _ _ Hms).
  cbn [mbind result_bind]. destruct (_ <=? 0)%Z; [apply IH; set_solver|]. rewrite Z.ltb_irrefl. apply IH. set_solver.
Qed.

Lemma numbers_spec : snapshot_numbers (snapshot_dir d) = seqZ 1 (Z.of_nat (length snaps)).
Proof.
  unfold snapshot_numbers. destruct (list_snapshots_spec _ _ (proj2 Hd)) as (ks & Hks & ->).
  apply sort_on_id_seqZ.
  assert (omap (λ meta, rest ← strip_prefix "snapshot-" (meta_id meta); py_int rest)
    (meta_dict (snapshot_dir d) <$> ks) = (λ k, Z.of_nat k + 1)%Z <$> ks) as ->.
  { pose proof (each_snapshot ks Hks) as Hk. clear Hks. induction ks as [|k ks IH]; [done|]. cbn.
    destruct (Hk k ltac:(constructor)) as (ms & _ & Hms). rewrite (meta_id_of _ _ _ Hms), sid_number.
    f_equal. apply IH. set_solver. }
  rewrite Hks. unfold seqZ. rewrite Nat2Z.id. apply reflexive_eq, list_fmap_ext. intros _ x _. lia.
Qed.

Lemma snapshot_gaps_spec : _has_snapshot_sequence_gaps (snapshot_dir d) = false.
Proof.
  unfold _has_snapshot_sequence_gaps. rewrite numbers_spec. destruct snaps as [|s l]; [done|].
  set (n := Z.of_nat (length (s :: l))). assert (0 < n)%Z by (unfold n; cbn; lia).
  assert (last (seqZ 1 n) = Some n) as ->.
  { rewrite last_lookup, length_seqZ. rewrite lookup_seqZ_lt by lia. f_equal. lia. }
  rewrite seqZ_cons by done. rewrite <- seqZ_cons by done. unfold range_incl.
  rewrite bool_decide_eq_true_2; [done|]. f_equal. lia.
Qed.

Lemma fmap_lookup_seq {A} (l : list (list A)) : (λ k, default [] (l !! k)) <$> seq 0 (length l) = l.
Proof.
  apply list_eq. intros i. rewrite list_lookup_fmap. destruct (decide (i < length l)) as [Hi|Hi].
  - rewrite lookup_seq_lt by done. cbn. destruct (lookup_lt_is_Some_2 l i Hi) as [x ->]. done.
  - rewrite lookup_seq_ge by lia. by rewrite lookup_ge_None_2 by lia.
Qed.

Lemma iter_spec : ∃ old, old ≡ₚ mjoin snaps ∧
  _iter_readable_messages_with_offsets d = Ok (((λ m, (m, (-1)%Z)) <$> old) ++ with_offsets 0 act, false).
Proof.
  unfold _iter_readable_messages_with_offsets, _read_active_messages_with_offsets.
  destruct (list_snapshots_spec _ _ (proj2 Hd)) as (ks & Hks & ->).
  exists (mjoin ((λ k, default [] (snaps !! k)) <$> ks)). split; [by rewrite Hks, fmap_lookup_seq|].
  assert (mapR (λ meta, read_snapshot_messages (snapshot_dir d) (meta_id meta)) (meta_dict (snapshot_dir d) <$> ks)
    = Ok ((λ k, default [] (snaps !! k)) <$> ks)) as ->.
  { pose proof (each_snapshot ks Hks) as Hk. clear Hks. induction ks as [|k ks IH]; [done|].
    cbn [fmap list_fmap mapR]. destruct (Hk k ltac:(constructor)) as (ms & -> & Hms).
    rewrite (meta_id_of _ _ _ Hms), (read_snapshot_of _ _ _ Hms). cbn [mbind result_bind].
    rewrite IH by set_solver. done. }
  cbn [mbind result_bind]. rewrite (proj1 Hd), read_payload. done.
Qed.
End Readers.
End Layout.

(** ** Deduplication and the indexes, by membership *)

Definition one_per_id (ms : list StoredMessage) : Prop :=
  ∀ m m', m ∈ ms → m' ∈ ms → st_id m = st_id m' → m = m'.

Definition same_messages (ms ms' : list StoredMessage) : Prop := ∀ m, m ∈ ms ↔ m ∈ ms'.

#[export] Instance same_messages_equiv : Equivalence same_messages.
Proof. split; [by intros ??|by intros ?? H m; rewrite (H m)|by intros ??? H1 H2 m; rewrite (H1 m), (H2 m)]. Qed.

#[export] Instance elem_of_same_messages m : Proper (same_messages ==> iff) (elem_of m).
Proof. intros ms ms' H. apply H. Qed.

Lemma nodup_one_per_id ms : NoDup (st_id <$> ms) → one_per_id ms.
Proof.
  induction ms as [|x ms IH]; [by intros _ ?? ?%not_elem_of_nil|]. intros [Hx Hn]%NoDup_cons m m'.
  rewrite !elem_of_cons. intros [->|Hm] [->|Hm'] E; [done| | |by apply IH]; exfalso; apply Hx.
  - rewrite E. by apply list_elem_of_fmap_2.
  - rewrite <- E. by apply list_elem_of_fmap_2.
Qed.

Lemma one_per_id_same ms ms' : same_messages ms ms' → one_per_id ms → one_per_id ms'.
Proof. intros Hs H m m' Hm Hm'. apply H; by apply Hs. Qed.

Lemma dedup_spec seen ms :
  NoDup (st_id <$> dedup seen ms) ∧
  (∀ m, m ∈ dedup seen ms → m ∈ ms ∧ st_id m ∉ seen) ∧
  (∀ m, m ∈ ms → st_id m ∉ seen → ∃ m', m' ∈ dedup seen ms ∧ st_id m' = st_id m).
Proof.
  revert seen. induction ms as [|x ms IH]; intros seen; cbn [dedup].
  { split_and!; [constructor|by intros ? ?%not_elem_of_nil..]. }
  case_decide as Hx.
  - destruct (IH seen) as (H1 & H2 & H3). split_and!; [done|set_solver|].
    intros m [->|Hm]%elem_of_cons Hn; [done|by apply H3].
  - destruct (IH ({[st_id x]} ∪ seen)) as (H1 & H2 & H3). split_and!.
    + cbn. constructor; [|done]. intros (m & E & Hm)%list_elem_of_fmap. apply H2 in Hm as [_ Hm]. set_solver.
    + intros m [->|Hm]%elem_of_cons; [set_solver|]. apply H2 in Hm. set_solver.
    + intros m [->|Hm]%elem_of_cons Hn; [exists x; set_solver|].
      destruct (decide (st_id m = st_id x)) as [->|Hne]; [exists x; set_solver|].
      destruct (H3 m Hm) as (m' & Hm' & E); [set_solver|]. exists m'. set_solver.
Qed.

Lemma dedup_same ms : one_per_id ms → same_messages (dedup ∅ ms) ms.
Proof.
  intros H m. destruct (dedup_spec ∅ ms) as (_ & H2 & H3). split; [by intros [? _]%H2|].
  intros Hm. destruct (H3 m Hm) as (m' & Hm' & E); [set_solver|].
  rewrite (H m m'); [done|done|by apply H2|done].
Qed.

Lemma NoDup_of_ids ms : NoDup (st_id <$> ms) → NoDup ms.
Proof. apply NoDup_fmap_1. Qed.

Lemma same_perm ms ms' : NoDup (st_id <$> ms) → NoDup (st_id <$> ms') → same_messages ms ms' → ms ≡ₚ ms'.
Proof. intros H H' Hs. apply NoDup_Permutation; [by apply NoDup_of_ids..|done]. Qed.

(** The largest sequence number of a sender, zero when it has none. *)
Fixpoint top (x : string) (ms : list StoredMessage) : Z :=
  match ms with
  | [] => 0
  | m :: ms => if decide (st_sender m = x) then Z.max (sender_seq m) (top x ms) else top x ms
  end.

Lemma top_nonneg x ms : (0 ≤ top x ms)%Z.
Proof. induction ms as [|m ms IH]; cbn; [done|]. case_decide; lia. Qed.
Lemma top_ge x ms m : m ∈ ms → st_sender m = x → (sender_seq m ≤ top x ms)%Z.
Proof.
  induction ms as [|y ms IH]; [by intros ?%not_elem_of_nil|]. cbn.
  intros [->|Hm]%elem_of_cons E; [rewrite decide_True by done; lia|].
  specialize (IH Hm E). case_decide; lia.
Qed.
Lemma top_attained x ms : top x ms = 0%Z ∨ ∃ m, m ∈ ms ∧ st_sender m = x ∧ sender_seq m = top x ms.
Proof.
  induction ms as [|y ms IH]; [by left|]. cbn. case_decide as E.
  - destruct (Z.max_spec (sender_seq y) (top x ms)) as [[Hl ->]|[Hl ->]].
    + destruct IH as [->|(m & ? & ? & ?)]; [by left|]. right. exists m. set_solver.
    + right. exists y. set_solver.
  - destruct IH as [->|(m & ? & ? & ?)]; [by left|]. right. exists m. set_solver.
Qed.

Lemma top_mono x ms ms' : (∀ m, m ∈ ms → m ∈ ms') → (top x ms ≤ top x ms')%Z.
Proof.
  intros Hs. destruct (top_attained x ms) as [->|(m & Hm & Hx & <-)]; [apply top_nonneg|].
  by apply top_ge; [apply Hs|].
Qed.
Lemma top_same x ms ms' : same_messages ms ms' → top x ms = top x ms'.
Proof. intros H. apply Z.le_antisymm; apply top_mono; intros m; apply H. Qed.

Record index_is (i : Index) (ms : list StoredMessage) : Prop := {
  ii_ids : ∀ x, x ∈ message_ids i ↔ ∃ m, m ∈ ms ∧ st_id m = x;
  ii_vc : ∀ x, latest_vc i !! x = if decide (0 < top x ms)%Z then Some (top x ms) else None;
  ii_seqs : ∀ x k, is_Some (sender_seqs i !! x ≫= (.!! k)) ↔
    ∃ m, m ∈ ms ∧ st_sender m = x ∧ string_of_Z (sender_seq m) = k;
}.

Lemma no_index_is : index_is no_index [].
Proof.
  split; cbn; intros; rewrite ?lookup_empty; cbn; [set_solver|done|].
  split; [by intros [? ?]|intros (m & ?%not_elem_of_nil & _); done].
Qed.

Lemma index_is_same i ms ms' : same_messages ms ms' → index_is i ms → index_is i ms'.
Proof.
  intros Hs [H1 H2 H3]. split.
  - intros x. rewrite H1. by setoid_rewrite (Hs _).
  - intros x. by rewrite H2, (top_same x ms ms').
  - intros x k. rewrite H3. by setoid_rewrite (Hs _).
Qed.

Lemma index_message_is i ms m off : index_is i ms → index_is (index_message m off i) (m :: ms).
Proof.
  intros [H1 H2 H3]. split; cbn [message_ids latest_vc sender_seqs index_message].
  - intros x. rewrite elem_of_union, elem_of_singleton, H1. set_solver.
  - intros x. unfold raise_clock. cbn [top]. rewrite !H2. pose proof (top_nonneg (st_sender m) ms).
    destruct (decide (st_sender m = x)) as [<-|Hne].
    + destruct (decide (0 < top (st_sender m) ms)%Z) as [Hp|Hp]; unfold default, id;
        match goal with |- context [(?a <? ?b)%Z] => destruct (Z.ltb_spec a b) as [Hl|Hl] end; rewrite ?lookup_insert_eq, ?H2;
        repeat case_decide; try lia; try (f_equal; lia); done.
    + by destruct (_ <? _)%Z; rewrite ?lookup_insert_ne, H2 by done.
  - intros x k. destruct (decide (st_sender m = x)) as [<-|Hne].
    + rewrite lookup_insert_eq. cbn [mbind option_bind].
      destruct (decide (string_of_Z (sender_seq m) = k)) as [<-|Hk].
      * rewrite lookup_insert_eq. split; [|by eexists]. intros _. exists m. set_solver.
      * rewrite lookup_insert_ne by done.
        assert (default ∅ (sender_seqs i !! st_sender m) !! k = sender_seqs i !! st_sender m ≫= (.!! k)) as ->.
        { by destruct (sender_seqs i !! st_sender m). }
        rewrite H3. set_solver.
    + rewrite lookup_insert_ne by done. rewrite H3. set_solver.
Qed.

Lemma repaired_index_dedup items i seen ch : index_is i seen →
  index_is (repaired_index items i ch).1 (seen ++ dedup (message_ids i) items.*1).
Proof.
  revert i seen ch. induction items as [|[m off] items IH]; intros i seen ch Hi; cbn [fmap list_fmap fst].
  - by rewrite app_nil_r.
  - cbn [repaired_index dedup]. case_decide as Hm; [by apply IH|].
    apply (index_is_same _ ((m :: seen) ++ dedup ({[st_id m]} ∪ message_ids i) items.*1)); [intros y; set_solver|].
    apply (IH (index_message m off i)). by apply index_message_is.
Qed.

Lemma repaired_index_is items ch : one_per_id items.*1 →
  index_is (repaired_index items no_index ch).1 items.*1.
Proof.
  intros Ho. eapply index_is_same; [by apply dedup_same|].
  exact (repaired_index_dedup items no_index [] ch no_index_is).
Qed.

Lemma rebuilt_index_is ms i seen : index_is i seen →
  index_is (foldl (λ i m, index_message m (-1) i) i ms) (seen ++ ms).
Proof.
  revert i seen. induction ms as [|m ms IH]; intros i seen Hi; cbn; [by rewrite app_nil_r|].
  apply (index_is_same _ ((m :: seen) ++ ms)); [intros y; set_solver|]. apply IH. by apply index_message_is.
Qed.

(** The identifier set and the cursor are determined by the messages. *)
Lemma index_is_unique i j ms : index_is i ms → index_is j ms →
  message_ids i = message_ids j ∧ latest_vc i = latest_vc j.
Proof.
  intros [H1 H2 _] [H1' H2' _]. split.
  - apply set_eq. intros x. by rewrite H1, H1'.
  - apply map_eq. intros x. by rewrite H2, H2'.
Qed.

(** ** Sequence gaps *)

Lemma seqZ_elem a n x : x ∈ seqZ a n ↔ (a ≤ x < a + n)%Z.
Proof. apply elem_of_seqZ. Qed.

Lemma last_elem {A} (l : list A) x : last l = Some x → x ∈ l.
Proof. intros H. apply last_Some in H as [l' ->]. set_solver. Qed.

Lemma positive_seqs_spec sm n :
  n ∈ positive_seqs sm ↔ (0 < n)%Z ∧ ∃ k, is_Some (sm !! k) ∧ _safe_int (JStr k) = n.
Proof.
  unfold positive_seqs. rewrite sort_on_perm, list_elem_of_In, filter_In, <- list_elem_of_In, Z.ltb_lt.
  rewrite list_elem_of_fmap. split.
  - intros [([k v] & -> & Hk%elem_of_map_to_list) Hn]. split; [done|]. exists k. split; [by eexists|done].
  - intros [Hn (k & [v Hk] & E)]. split; [|done]. exists (k, v). split; [done|]. by apply elem_of_map_to_list.
Qed.

Lemma safe_int_key n : _safe_int (JStr (string_of_Z n)) = n.
Proof. unfold _safe_int. cbn. by rewrite py_int_string_of_Z. Qed.

(** Without a gap the sequence numbers of a sender go down to one. *)
Lemma no_gap_below i ms m n : index_is i ms → _has_sender_sequence_gaps (sender_seqs i) = false →
  m ∈ ms → (0 < n ≤ sender_seq m)%Z → ∃ m', m' ∈ ms ∧ st_sender m' = st_sender m ∧ sender_seq m' = n.
Proof.
  intros Hi Hg Hm Hn. destruct (sender_seqs i !! st_sender m) as [sm|] eqn:Esm.
  2:{ destruct (proj2 (ii_seqs i ms Hi (st_sender m) (string_of_Z (sender_seq m)))) as [? E]; [by exists m|].
      by rewrite Esm in E. }
  assert (has_gap sm = false) as Hgap.
  { destruct (has_gap sm) eqn:E; [|done]. rewrite <- Hg. symmetry. apply existsb_exists. exists (st_sender m, sm).
    split; [|done]. apply list_elem_of_In. by apply elem_of_map_to_list. }
  assert (sender_seq m ∈ positive_seqs sm) as Hin.
  { apply positive_seqs_spec. split; [lia|]. exists (string_of_Z (sender_seq m)). split; [|apply safe_int_key].
    destruct (proj2 (ii_seqs i ms Hi (st_sender m) (string_of_Z (sender_seq m)))) as [v E]; [by exists m|].
    rewrite Esm in E. by exists v. }
  unfold has_gap in Hgap. destruct (last (positive_seqs sm)) as [b|] eqn:Eb.
  2:{ apply last_None in Eb. rewrite Eb in Hin. by apply not_elem_of_nil in Hin. }
  apply negb_false_iff, bool_decide_eq_true in Hgap. unfold range_incl in Hgap.
  assert (n ∈ positive_seqs sm) as Hnin.
  { rewrite Hgap, seqZ_elem in *. lia. }
  apply positive_seqs_spec in Hnin as [_ (k & [v Hk] & E)].
  destruct (proj1 (ii_seqs i ms Hi (st_sender m) k)) as (m' & Hm' & Hs & <-); [rewrite Esm; by exists v|].
  exists m'. rewrite safe_int_key in E. done.
Qed.
