(* ===== verification/MessageHistory.v ===== *)
(** * The message store implements a set of messages

    The invariant of [LocalMessageStore], that every operation preserves it and
    never raises, and the abstract history the store refines. *)

From stdpp Require Import prelude gmap strings list_numbers sorting.
From S2P Require Import Prelude PyDict PyStr Json PyText Base64 Utf8 StoredMessage MessageStore MessageStoreFacts.

Local Open Scope string_scope.
Local Open Scope list_scope.

Section History.
Context `{!Archive} `{!ArchiveLaws}.

(** Loading the index files gives the indexes and the flags in memory. *)
Definition loads_back (s : Store) : Prop := ∀ threshold,
  _load_indexes threshold (disk s) =
  Ok (mkStore threshold (index s) (force_full_recovery_cursor s) (needs_snapshot_rebuild s) (disk s), false).

Lemma loads_back_disk s d : loads_back s →
  message_id_index d = message_id_index (disk s) → sender_seq_index d = sender_seq_index (disk s) →
  latest_vector_clock_file d = latest_vector_clock_file (disk s) →
  recovery_state_file d = recovery_state_file (disk s) → loads_back (set_disk d s).
Proof.
  intros Hl E1 E2 E3 E4 threshold. specialize (Hl threshold). revert Hl. unfold _load_indexes.
  cbn [disk set_disk]. rewrite E1, E2, E3, E4.
  destruct (load_ids _) as [[ids fg]|e]; [|done]. destruct (load_seqs _) as [sq|e]; [|done].
  destruct (load_vc _) as [vc|e]; [|done]. cbn. by intros [= -> -> -> ->].
Qed.

Lemma load_ids_elements (ids : gset string) : load_ids (Some (JList (JStr <$> elements ids))) = Ok (ids, false).
Proof.
  unfold load_ids.
  assert (∀ l, existsb (λ x, match x with JList _ | JObj _ => true | _ => false end) (JStr <$> l) = false ∧
    existsb (λ x, match x with JStr _ => false | _ => true end) (JStr <$> l) = false ∧
    omap (λ x, match x with JStr s => Some s | _ => None end) (JStr <$> l) = l) as Hl.
  { induction l as [|x l (IH1 & IH2 & IH3)]; [done|]. cbn. by rewrite IH1, IH2, IH3. }
  destruct (Hl (elements ids)) as (-> & -> & ->). by rewrite list_to_set_elements_L.
Qed.

Lemma load_seqs_json seqs : load_seqs (Some (json_of_seqs seqs)) = Ok seqs.
Proof.
  unfold load_seqs, json_of_seqs.
  assert (∀ l : list (string * gmap string Z),
    mapR (λ kv, m ← int_items kv.2; mret (kv.1, m))
      (omap (λ kv, match kv.2 with JObj m => Some (kv.1, m) | _ => None end)
        ((λ kv, (kv.1, json_of_vc kv.2)) <$> l)) = Ok l) as Hl.
  { induction l as [|[x m] l IH]; [done|]. pose proof (int_items_vc m) as Hm. revert Hm.
    change (((λ kv, (kv.1, json_of_vc kv.2)) <$> (x, m) :: l)) with
      ((x, JObj ((λ kv, (kv.1, JInt kv.2)) <$> map_to_list m)) :: ((λ kv, (kv.1, json_of_vc kv.2)) <$> l)).
    generalize ((λ kv : string * Z, (kv.1, JInt kv.2)) <$> map_to_list m). intros d Hm.
    cbn [omap list_omap snd fst mapR]. rewrite Hm. cbn [mbind result_bind]. by rewrite IH. }
  rewrite Hl. cbn. unfold mret, result_ret. f_equal. apply list_to_map_to_list.
Qed.

Lemma json_of_seqs_wf seqs : json_wf (json_of_seqs seqs).
Proof.
  apply json_wf_obj. split.
  - unfold dwf, dkeys. rewrite <- list_fmap_compose. cbn. apply NoDup_fst_map_to_list.
  - apply Forall_fmap, Forall_true. intros [x m]. apply json_of_vc_wf.
Qed.

Lemma flushed_loads s : loads_back (set_disk (flushed s) s).
Proof.
  intros threshold. unfold _load_indexes. cbn [disk set_disk flushed message_id_index sender_seq_index
    latest_vector_clock_file recovery_state_file].
  rewrite !read_json_dumps by (apply dumps_nonempty || apply json_of_seqs_wf || apply json_of_vc_wf ||
    (apply json_wf_list, Forall_fmap, Forall_true; done) ||
    (apply json_wf_obj; split; [unfold dwf; apply (bool_decide_unpack _); by vm_compute|by repeat constructor])).
  rewrite load_ids_elements, load_seqs_json. cbn [mbind result_bind].
  unfold json_of_vc at 1. unfold load_vc. rewrite int_items_vc. cbn [mbind result_bind].
  cbn [index set_disk force_full_recovery_cursor needs_snapshot_rebuild].
  generalize (flushed s). intros d. by destruct (index s), (force_full_recovery_cursor s), (needs_snapshot_rebuild s).
Qed.

(** [store_ok s h]: the store holds the messages [h], each in the log or in a
    snapshot, the indexes are exact and the index files hold them. *)
Record store_ok (s : Store) (h : list StoredMessage) : Prop := {
  ok_disk : ∃ snaps act, disk_is (disk s) snaps act ∧ same_messages (mjoin snaps ++ act) h;
  ok_ids : NoDup (st_id <$> h);
  ok_index : index_is (index s) h;
  ok_loads : loads_back s;
}.

Lemma store_ok_perm s h h' : h ≡ₚ h' → store_ok s h → store_ok s h'.
Proof.
  intros Hp [(snaps & act & Hd & Hs) Hn Hi Hf]. assert (same_messages h h') as Hsm by (intros m; by rewrite Hp).
  split; [|by rewrite <- Hp|by eapply index_is_same|done].
  exists snaps, act. split; [done|]. by etrans.
Qed.

(** ** Reading *)

Lemma read_all_spec d snaps act h : disk_is d snaps act → same_messages (mjoin snaps ++ act) h →
  NoDup (st_id <$> h) → ∃ l, _read_all_messages d = Ok l ∧ l ≡ₚ h ∧ sorted_on st_timestamp l.
Proof.
  intros Hd Hs Hn. destruct (iter_spec d snaps act Hd) as (old & Hold & E).
  set (items := ((λ m, (m, (-1)%Z)) <$> old) ++ with_offsets 0 act).
  assert (items.*1 = old ++ act) as Ei.
  { unfold items. rewrite fmap_app, with_offsets_fst. f_equal. rewrite <- list_fmap_compose.
    apply list_fmap_id. }
  exists (sort_on st_timestamp (dedup ∅ (old ++ act))). unfold _read_all_messages. rewrite E.
  cbn [mbind result_bind]. fold items. rewrite Ei. split_and!; [done| |apply sort_on_sorted].
  rewrite sort_on_perm. destruct (dedup_spec ∅ (old ++ act)) as (Hnd & _ & _).
  assert (same_messages (old ++ act) h) as Hsame.
  { intros m. rewrite <- (Hs m), !elem_of_app. by rewrite Hold. }
  apply same_perm; [done|done|]. intros m. rewrite <- (Hsame m). apply dedup_same.
  eapply one_per_id_same; [symmetry; exact Hsame|by apply nodup_one_per_id].
Qed.

Lemma read_all_ok s h : store_ok s h →
  ∃ l, _read_all_messages (disk s) = Ok l ∧ l ≡ₚ h ∧ sorted_on st_timestamp l.
Proof. intros [(snaps & act & Hd & Hs) Hn _ _]. by eapply read_all_spec. Qed.

Lemma read_active_spec d snaps act : disk_is d snaps act → _read_active_messages d = Ok act.
Proof.
  intros [Hl _]. unfold _read_active_messages, _read_active_messages_with_offsets. rewrite Hl, read_payload.
  cbn. by rewrite with_offsets_fst.
Qed.

Lemma disk_is_flushed s snaps act : disk_is (disk s) snaps act → disk_is (flushed s) snaps act.
Proof. done. Qed.

(** ** Rebuilding the indexes and flushing *)

Lemma rebuild_flush s snaps act h : disk_is (disk s) snaps act → same_messages (mjoin snaps ++ act) h →
  NoDup (st_id <$> h) →
  ∃ s', (_rebuild_indexes ≫= λ _, _flush_indexes) s = (Ok tt, s') ∧ store_ok s' h ∧
    snapshot_threshold s' = snapshot_threshold s ∧
    force_full_recovery_cursor s' = force_full_recovery_cursor s ∧
    needs_snapshot_rebuild s' = needs_snapshot_rebuild s.
Proof.
  intros Hd Hs Hn. destruct (read_all_spec _ _ _ _ Hd Hs Hn) as (l & Hl & Hp & _).
  unfold _rebuild_indexes, _flush_indexes. mrun. cbn [disk set_index]. rewrite Hl.
  eexists. split; [reflexivity|]. split; [|done]. split; [|done| |apply (flushed_loads (set_index _ _))].
  - exists snaps, act. done.
  - cbn [index set_disk set_index]. apply (index_is_same _ ([] ++ l)); [intros m; cbn; by rewrite Hp|].
    apply rebuilt_index_is, no_index_is.
Qed.

(** ** Snapshots *)

Lemma write_snapshot_spec t dir snaps ms : snapshots_are dir snaps → ms ≠ [] →
  snapshots_are (write_snapshot t (sid (length snaps)) ms dir) (snaps ++ [ms]).
Proof.
  intros [Hs Hall] Hms. unfold write_snapshot. split.
  - intros k ms' Hk. unfold holds_snapshot. apply lookup_app_Some in Hk as [Hk|[Hge Hk]].
    + pose proof (lookup_lt_Some _ _ _ Hk) as Hlt. destruct (Hs k ms' Hk) as (Hne & t' & Hm & Hd).
      split; [done|]. exists t'. rewrite !lookup_insert_ne; [done|..].
      * intros E%data_name_inj%sid_inj. lia.
      * apply meta_data_name.
      * intros E. symmetry in E. by apply meta_data_name in E.
      * intros E%meta_name_inj%sid_inj. lia.
    + apply list_lookup_singleton_Some in Hk as [Hk <-].
      assert (k = length snaps) as -> by lia. split; [done|]. exists t.
      rewrite lookup_insert_eq. split; [done|]. rewrite lookup_insert_ne by apply meta_data_name.
      by rewrite lookup_insert_eq.
  - intros name Hn Hx. rewrite length_app. cbn.
    destruct (decide (name = meta_name (sid (length snaps)))) as [->|Hne]; [exists (length snaps); split; [lia|done]|].
    rewrite lookup_insert_ne in Hn by done.
    destruct (decide (name = data_name (sid (length snaps)))) as [->|Hne'].
    { unfold data_name in Hx. by rewrite has_suffix_last in Hx. }
    rewrite lookup_insert_ne in Hn by done. destruct (Hall name Hn Hx) as (k & Hk & ->). exists k. split; [lia|done].
Qed.

Lemma mjoin_snoc {A} (l : list (list A)) x : mjoin (l ++ [x]) = mjoin l ++ x.
Proof. rewrite join_app. cbn. by rewrite app_nil_r. Qed.

Definition same_setup (s s' : Store) : Prop :=
  snapshot_threshold s' = snapshot_threshold s ∧
  force_full_recovery_cursor s' = force_full_recovery_cursor s ∧
  needs_snapshot_rebuild s' = needs_snapshot_rebuild s.

(** [create_snapshot()], compacting or not, keeps every message. *)
Lemma create_snapshot_ok now compact s h : store_ok s h →
  ∃ r s', create_snapshot now None compact s = (Ok r, s') ∧ store_ok s' h ∧ same_setup s s'.
Proof.
  intros Hok. destruct (ok_disk s h Hok) as (snaps & act & Hd & Hs).
  unfold create_snapshot. mrun. rewrite (read_active_spec _ _ _ Hd).
  destruct (decide (act = [])) as [->|Hne].
  { rewrite bool_decide_eq_true_2 by done. by exists None, s. }
  rewrite bool_decide_eq_false_2 by done. rewrite (next_id_spec _ _ (proj2 Hd)).
  unfold _write_snapshot_files. mrun.
  set (dir := write_snapshot now (sid (length snaps)) act (snapshot_dir (disk s))).
  assert (snapshots_are dir (snaps ++ [act])) as Hdir by (apply write_snapshot_spec; [apply Hd|done]).
  destruct compact.
  - cbv beta iota. cbn [set_disk set_snapshots set_log].
    match goal with |- context [_rebuild_indexes ?s1] =>
      destruct (rebuild_flush s1 (snaps ++ [act]) [] h) as (s' & E & Hok' & Hsetup) end.
    + split; [done|exact Hdir].
    + rewrite app_nil_r, mjoin_snoc. done.
    + apply Hok.
    + unfold mbind, M_bind in E. destruct (_rebuild_indexes _) as [[[]|e] s1]; [|done].
      rewrite E. eexists _, s'. done.
  - eexists _, _. split; [reflexivity|]. split; [|done]. destruct Hok as [_ Hn Hi Hf].
    split; [|done|done|].
    + exists (snaps ++ [act]), act. split; [split; [apply Hd|exact Hdir]|].
      rewrite mjoin_snoc. intros m. rewrite <- (Hs m), !elem_of_app. tauto.
    + by apply loads_back_disk.
Qed.

(** ** Rebuilding the snapshots *)

Lemma mjoin_slices {A} n (l : list A) : 0 < n → mjoin (slices n l) = l.
Proof.
  intros Hn. unfold slices.
  assert (∀ k, mjoin ((λ i, take n (drop (i * n) l)) <$> seq 0 k) = take (k * n) l) as Hk.
  { induction k as [|k IH]; [done|]. rewrite seq_S, fmap_app, join_app, IH. cbn. rewrite app_nil_r.
    rewrite take_take_drop. f_equal. lia. }
  rewrite Hk. apply take_ge.
  set (L := Z.of_nat (length l)). set (N := Z.of_nat n).
  assert (L ≤ (L + N - 1) / N * N)%Z; [|lia].
  pose proof (Z.div_mod (L + N - 1) N ltac:(lia)). pose proof (Z.mod_pos_bound (L + N - 1) N ltac:(lia)). lia.
Qed.

Lemma slices_nonempty {A} n (l : list A) : 0 < n → Forall (λ p, p ≠ []) (slices n l).
Proof.
  intros Hn. apply Forall_fmap, Forall_forall. intros i Hi%elem_of_seq. cbn.
  intros E%(f_equal length). rewrite length_take, length_drop in E. cbn in E.
  set (L := Z.of_nat (length l)) in *. set (N := Z.of_nat n) in *.
  assert (Z.of_nat i < (L + N - 1) / N)%Z as Hlt by lia.
  assert (Z.of_nat i * N < L)%Z; [|lia].
  pose proof (Z.div_mod (L + N - 1) N ltac:(lia)). pose proof (Z.mod_pos_bound (L + N - 1) N ltac:(lia)).
  assert ((Z.of_nat i + 1) * N ≤ (L + N - 1) / N * N)%Z by (apply Z.mul_le_mono_nonneg_r; lia). lia.
Qed.

Lemma delete_files_spec dir : snapshots_are (_delete_snapshot_files dir) [].
Proof.
  split; [intros k ms Hk; by rewrite lookup_nil in Hk|]. intros name [txt Hn] Hx. exfalso.
  unfold _delete_snapshot_files in Hn. apply map_lookup_filter_Some in Hn as [_ Hn]. cbn in Hn.
  by rewrite Hx, orb_true_r in Hn.
Qed.

Definition with_snapshots (dir : gmap string string) (s : Store) : Store :=
  set_disk (set_snapshots dir (disk s)) s.

Lemma write_all now parts done_ s : snapshots_are (snapshot_dir (disk s)) done_ → Forall (λ p, p ≠ []) parts →
  ∃ dir, forM (imap (λ i p, (length done_ + i, p)) parts)
      (λ c, _ ← _write_snapshot_files now (snapshot_name (Z.of_nat c.1 + 1)) c.2; mret tt) s
    = (Ok tt, with_snapshots dir s) ∧ snapshots_are dir (done_ ++ parts).
Proof.
  revert done_ s. induction parts as [|p parts IH]; intros done_ s Hs Hp.
  - exists (snapshot_dir (disk s)). rewrite app_nil_r. split; [|done]. cbn. unfold with_snapshots. by destruct s as [? ? ? ? []].
  - apply Forall_cons in Hp as [Hp Hps]. cbn [imap]. rewrite forM_cons. unfold _write_snapshot_files. mrun.
    rewrite Nat.add_0_r. cbn [fst snd].
    set (s1 := set_disk _ s).
    destruct (IH (done_ ++ [p]) s1) as (dir & E & Hdir); [by apply (write_snapshot_spec now)|done|].
    exists dir. rewrite <- app_assoc in Hdir. split; [|exact Hdir].
    etransitivity; [|exact E]. f_equal. apply imap_ext. intros i x _. cbn. rewrite length_app. cbn. f_equal. lia.
Qed.

Lemma chunk_pos threshold n : 0 < n → 0 < rebuild_chunk_size threshold n.
Proof. intros Hn. unfold rebuild_chunk_size. destruct threshold as [t|]; [|done]. destruct (Z.ltb_spec 0 t); lia. Qed.

(** Rewriting all snapshots keeps every message; the damage flags are cleared when
    there was anything to rewrite. *)
Lemma rebuild_snapshots_ok now s h : store_ok s h →
  ∃ s', _rebuild_snapshots_from_readable_messages now s = (Ok tt, s') ∧ store_ok s' h ∧
    snapshot_threshold s' = snapshot_threshold s.
Proof.
  intros Hok. destruct (read_all_ok s h Hok) as (l & Hl & Hp & _).
  unfold _rebuild_snapshots_from_readable_messages. rewrite bind_run. cbn [get].
  rewrite bind_run. unfold lift. rewrite Hl.
  destruct (decide (l = [])) as [->|Hne].
  { rewrite bool_decide_eq_true_2 by done. by exists s. }
  rewrite bool_decide_eq_false_2 by done. cbv zeta.
  set (n := rebuild_chunk_size _ _).
  assert (0 < n) as Hn by (apply chunk_pos; destruct l; [done|cbn; lia]). set (cnt := length l / n * n).
  rewrite bind_run. cbn [modify].
  set (s1 := set_disk (set_snapshots (_delete_snapshot_files _) _) s).
  destruct (write_all now (slices n (take cnt l)) [] s1) as (dir & E & Hdir);
    [apply delete_files_spec|by apply slices_nonempty|].
  rewrite bind_run. change (forM (imap pair (slices n (take cnt l)))
    (λ c, _ ← _write_snapshot_files now (snapshot_name (Z.of_nat c.1 + 1)) c.2; mret tt) s1
    = (Ok tt, with_snapshots dir s1)) in E. rewrite E.
  rewrite bind_run. cbn [modify]. rewrite bind_run. cbn [modify]. cbn [app] in Hdir.
  match goal with |- context [(_rebuild_indexes ≫= _) ?s2] =>
    destruct (rebuild_flush s2 (slices n (take cnt l)) (drop cnt l) h) as (s' & Es & Hok' & Ht & _) end.
  - split; [done|exact Hdir].
  - rewrite mjoin_slices, take_drop by done. intros m. by rewrite Hp.
  - apply Hok.
  - exists s'. split; [exact Es|]. split; [done|]. by rewrite Ht.
Qed.

Lemma maybe_rebuild_ok now s h : store_ok s h →
  ∃ s', _maybe_rebuild_snapshots_after_recovery now s = (Ok tt, s') ∧ store_ok s' h ∧
    snapshot_threshold s' = snapshot_threshold s.
Proof.
  intros Hok. unfold _maybe_rebuild_snapshots_after_recovery. rewrite bind_run. cbn [get].
  destruct (_has_sender_sequence_gaps _); [by exists s|]. by apply rebuild_snapshots_ok.
Qed.

Lemma maybe_create_ok now s h : store_ok s h →
  ∃ s', _maybe_create_snapshot now s = (Ok tt, s') ∧ store_ok s' h ∧
    snapshot_threshold s' = snapshot_threshold s.
Proof.
  intros Hok. unfold _maybe_create_snapshot. rewrite bind_run. cbn [get].
  destruct (snapshot_threshold s) as [t|] eqn:Et; [|by exists s].
  destruct (t <=? 0)%Z; [by exists s|]. destruct (ok_disk s h Hok) as (snaps & act & Hd & _).
  rewrite bind_run. unfold lift. rewrite (read_active_spec _ _ _ Hd).
  destruct (_ <=? _)%Z; [|by exists s].
  destruct (create_snapshot_ok now true s h Hok) as (r & s' & E & Hok' & Ht & _).
  rewrite bind_run, E. exists s'. split; [done|]. split; [done|]. by rewrite Ht.
Qed.

(** ** Saving *)

Lemma byte_size_payload ms : byte_size (payload ms) = payload_size ms.
Proof.
  unfold payload_size. generalize (payload_printable_width ms).
  induction (payload ms) as [|a t IH]; [done|]. intros [Ha Ht]%andb_true_iff. apply Z.eqb_eq in Ha.
  cbn [byte_size String.length]. rewrite Ha, IH by done. lia.
Qed.

Definition known (m : StoredMessage) (h : list StoredMessage) : bool :=
  bool_decide (st_id m ∈ st_id <$> h).

Lemma known_index s h m : store_ok s h → (st_id m ∈ message_ids (index s) ↔ st_id m ∈ st_id <$> h).
Proof.
  intros Hok. rewrite (ii_ids _ _ (ok_index s h Hok)), list_elem_of_fmap.
  split; intros (x & ? & ?); exists x; done.
Qed.

(** The state after the log and the indexes took the message. *)
Lemma append_ok s h m : store_ok s h → st_id m ∉ st_id <$> h →
  let offset := byte_size (active_log (disk s)) in
  let s1 := set_disk (set_log (active_log (disk s) +:+ stored_line m) (disk s)) s in
  let s2 := set_index (index_message m offset (index s1)) s1 in
  store_ok (set_disk (flushed s2) s2) (m :: h).
Proof.
  intros [(snaps & act & [Hl Hd] & Hs) Hn Hi Hf] Hm offset s1 s2. split.
  - exists snaps, (act ++ [m]). split.
    + split; [|exact Hd]. cbn [disk set_disk flushed active_log s2 s1 set_index set_log].
      rewrite Hl, payload_app. cbn [payload]. by rewrite string_app_nil_r.
    + rewrite app_assoc. intros x. rewrite elem_of_app, list_elem_of_singleton, elem_of_cons, (Hs x). tauto.
  - cbn [fmap list_fmap]. by constructor.
  - cbn [index set_disk s2 s1 set_index]. by apply index_message_is.
  - apply flushed_loads.
Qed.

Lemma save_ok now s h m : store_ok s h →
  ∃ s', save now m s = (Ok (negb (known m h)), s') ∧
    store_ok s' (if known m h then h else m :: h) ∧ snapshot_threshold s' = snapshot_threshold s.
Proof.
  intros Hok. unfold save. rewrite bind_run. cbn [get]. unfold known.
  case_decide as Hm; rewrite (known_index s h m Hok) in Hm.
  { rewrite bool_decide_eq_true_2 by done. by exists s. }
  rewrite bool_decide_eq_false_2 by done. pose proof (append_ok s h m Hok Hm) as Hok2. cbv zeta in Hok2.
  unfold _append_to_log, _flush_indexes. mrun. 
  set (s2 := set_disk (flushed _) _) in *.
  assert (∃ s', (if needs_snapshot_rebuild s2 then _maybe_rebuild_snapshots_after_recovery now
    else _maybe_create_snapshot now) s2 = (Ok tt, s') ∧ store_ok s' (m :: h) ∧
    snapshot_threshold s' = snapshot_threshold s2) as (s' & -> & Hok' & Ht).
  { destruct (needs_snapshot_rebuild s2); [by apply maybe_rebuild_ok|by apply maybe_create_ok]. }
  exists s'. done.
Qed.

Fixpoint save_all (items : list item) (r : SaveCounts) (h : list StoredMessage) :
    SaveCounts * list StoredMessage :=
  match items with
  | [] => (r, h)
  | Raw _ :: items => save_all items (mkCounts (saved r) (duplicates r) (S (invalid r))) h
  | Decoded m :: items =>
    if known m h then save_all items (mkCounts (saved r) (S (duplicates r)) (invalid r)) h
    else save_all items (mkCounts (S (saved r)) (duplicates r) (invalid r)) (m :: h)
  end.

Lemma save_items_ok now items r s h : store_ok s h →
  ∃ s', save_items now items r s = (Ok (save_all items r h).1, s') ∧
    store_ok s' (save_all items r h).2 ∧ snapshot_threshold s' = snapshot_threshold s.
Proof.
  revert r s h. induction items as [|[m|j] items IH]; intros r s h Hok; cbn [save_items save_all].
  - by exists s.
  - destruct (save_ok now s h m Hok) as (s1 & E & Hok1 & Ht1). rewrite E.
    destruct (known m h); cbn [negb]; [destruct (IH (mkCounts (saved r) (S (duplicates r)) (invalid r)) s1 h Hok1)
      as (s2 & E2 & Hok2 & Ht2)|destruct (IH (mkCounts (S (saved r)) (duplicates r) (invalid r)) s1 (m :: h) Hok1)
      as (s2 & E2 & Hok2 & Ht2)]; exists s2; by rewrite Ht2.
  - by apply IH.
Qed.

Lemma save_many_ok now items s h : store_ok s h →
  ∃ s', save_many now items s = (Ok (save_all items (mkCounts 0 0 0) h).1, s') ∧
    store_ok s' (save_all items (mkCounts 0 0 0) h).2.
Proof.
  intros Hok. unfold save_many. rewrite bind_run.
  destruct (save_items_ok now items (mkCounts 0 0 0) s h Hok) as (s1 & -> & Hok1 & _).
  rewrite bind_run. cbn [get]. rewrite bind_run. destruct (needs_snapshot_rebuild s1).
  - destruct (maybe_rebuild_ok now s1 _ Hok1) as (s2 & -> & Hok2 & _). by exists s2.
  - by exists s1.
Qed.

(** ** Repair, start-up and the cursor *)

Lemma repair_ok s snaps act h : disk_is (disk s) snaps act → same_messages (mjoin snaps ++ act) h →
  NoDup (st_id <$> h) → loads_back s →
  ∃ s', _repair_indexes_from_readable_storage false s = (Ok tt, s') ∧ store_ok s' h.
Proof.
  intros Hd Hs Hn Hl. unfold _repair_indexes_from_readable_storage. rewrite bind_run. cbn [get].
  rewrite bind_run. unfold lift. rewrite (unreadable_spec _ _ _ Hd). rewrite bind_run.
  destruct (iter_spec _ _ _ Hd) as (old & Hold & ->).
  set (items := ((λ m, (m, (-1)%Z)) <$> old) ++ with_offsets 0 act).
  assert (items.*1 = old ++ act) as Ei.
  { unfold items. rewrite fmap_app, with_offsets_fst. f_equal. rewrite <- list_fmap_compose.
    apply list_fmap_id. }
  assert (same_messages (old ++ act) h) as Hsame.
  { intros m. rewrite <- (Hs m), !elem_of_app. by rewrite Hold. }
  assert (index_is (repaired_index items no_index false).1 h) as Hi.
  { apply (index_is_same _ items.*1); [by rewrite Ei|].
    apply repaired_index_is. rewrite Ei.
    eapply one_per_id_same; [symmetry; exact Hsame|by apply nodup_one_per_id]. }
  destruct (repaired_index items no_index false) as [ix dup]. cbn [fst] in Hi. cbv zeta.
  rewrite (snapshot_gaps_spec _ _ _ Hd). set (damage := _ || _has_sender_sequence_gaps _).
  destruct (dup || false || negb (bool_decide (ix = index s))) eqn:Hch.
  - rewrite bind_run. cbn [modify _flush_indexes].
    set (s1 := set_index ix _). exists (set_disk (flushed s1) s1). split; [done|]. split; [|done|done|apply flushed_loads].
    exists snaps, act. split; [|done]. unfold s1. destruct (damage || _); exact Hd.
  - apply orb_false_iff in Hch as [_ Hch]. apply negb_false_iff, bool_decide_eq_true in Hch as ->.
    destruct damage.
    + rewrite bind_run. cbn [modify _flush_indexes]. eexists. split; [reflexivity|].
      split; [by exists snaps, act|done|done|apply (flushed_loads (set_flags true true s))].
    + exists s. split; [done|]. split; [by exists snaps, act|done|done|done].
Qed.

(** The index files of a disk whose log and snapshots are sound may hold any earlier
    flush, or nothing: opening rebuilds them. *)
Lemma open_ok threshold d s0 snaps act h : disk_is d snaps act → same_messages (mjoin snaps ++ act) h →
  NoDup (st_id <$> h) → loads_back s0 → disk s0 = d →
  ∃ s, open_store threshold d = Ok s ∧ store_ok s h.
Proof.
  intros Hd Hs Hn Hl <-. unfold open_store. rewrite (Hl threshold). cbn [mbind result_bind].
  set (s1 := mkStore _ _ _ _ _). destruct (repair_ok s1 snaps act h) as (s' & -> & Hok); [done..|].
  by exists s'.
Qed.

Lemma restart_ok threshold s snaps act h : disk_is (disk s) snaps act →
  same_messages (mjoin snaps ++ act) h → NoDup (st_id <$> h) → loads_back s →
  ∃ s', open_store threshold (disk s) = Ok s' ∧ store_ok s' h.
Proof. intros Hd Hs Hn Hl. by eapply open_ok. Qed.

Lemma reopen_ok threshold s h : store_ok s h →
  ∃ s', open_store threshold (disk s) = Ok s' ∧ store_ok s' h.
Proof. intros [(snaps & act & Hd & Hs) Hn _ Hl]. by eapply open_ok. Qed.

Lemma store_ok_flags s h f r : store_ok s h → store_ok (set_disk (flushed (set_flags f r s)) (set_flags f r s)) h.
Proof.
  intros [(snaps & act & Hd & Hs) Hn Hi _]. split; [by exists snaps, act|done|done|apply flushed_loads].
Qed.

Lemma latest_clock_ok s h : store_ok s h →
  ∃ vc s', get_latest_vector_clock s = (Ok vc, s') ∧ store_ok s' h ∧
    (vc = ∅ ∨ ∀ x, vc !! x = if decide (0 < top x h)%Z then Some (top x h) else None).
Proof.
  intros Hok. destruct Hok as [(snaps & act & Hd & Hs) Hn Hi Hl].
  unfold get_latest_vector_clock. rewrite bind_run.
  destruct (repair_ok s snaps act h Hd Hs Hn Hl) as (s1 & -> & Hok1). rewrite bind_run. cbn [get].
  destruct (force_full_recovery_cursor s1).
  - destruct (_has_sender_sequence_gaps _); [exists ∅, s1; auto|].
    rewrite bind_run. cbn [modify]. rewrite bind_run. cbn [_flush_indexes modify]. eexists _, _.
    split; [reflexivity|]. split; [by apply (store_ok_flags _ _ false (needs_snapshot_rebuild s1))|].
    right. apply (ii_vc _ _ (ok_index s1 h Hok1)).
  - eexists _, s1. split; [reflexivity|]. split; [done|]. right. apply (ii_vc _ _ (ok_index s1 h Hok1)).
Qed.

(** ** Histories *)

(** What can happen to a store: calls, a restart of the process, and a crash in
    [save] after the line has reached the log and before the indexes have reached
    their files. *)
Inductive store_op :=
  | OpSave (now : time) (m : StoredMessage)
  | OpSaveMany (now : time) (items : list item)
  | OpSnapshot (now : time) (compact_log : bool)
  | OpCursor
  | OpRestart (threshold : option Z)
  | OpCrash (m : StoredMessage) (threshold : option Z).

Inductive answer :=
  | Saved (b : bool)
  | Counted (r : SaveCounts)
  | Done
  | Cursor (vc : gmap string Z).

Definition restart (threshold : option Z) : M Store answer := λ s,
  match open_store threshold (disk s) with
  | Ok s' => (Ok Done, s')
  | Raise e => (Raise e, s)
  end.

Definition store_step (o : store_op) : M Store answer :=
  match o with
  | OpSave now m => b ← save now m; mret (Saved b)
  | OpSaveMany now items => r ← save_many now items; mret (Counted r)
  | OpSnapshot now compact_log => _ ← create_snapshot now None compact_log; mret Done
  | OpCursor => vc ← get_latest_vector_clock; mret (Cursor vc)
  | OpRestart threshold => restart threshold
  | OpCrash m threshold =>
    s ← get;
    _ ← (if decide (st_id m ∈ message_ids (index s)) then mret 0%Z else _append_to_log m);
    restart threshold
  end.

Fixpoint run_store (ops : list store_op) : M Store (list answer) :=
  match ops with
  | [] => mret []
  | o :: ops => a ← store_step o; l ← run_store ops; mret (a :: l)
  end.

(** The abstract history is a list of messages with distinct identifiers; the
    newest save comes first. *)
Definition remember (m : StoredMessage) (h : list StoredMessage) : list StoredMessage :=
  if known m h then h else m :: h.

Inductive history_step (h : list StoredMessage) : store_op → answer → list StoredMessage → Prop :=
  | hs_save now m : history_step h (OpSave now m) (Saved (negb (known m h))) (remember m h)
  | hs_save_many now items :
    history_step h (OpSaveMany now items)
      (Counted (save_all items (mkCounts 0 0 0) h).1) (save_all items (mkCounts 0 0 0) h).2
  | hs_snapshot now c : history_step h (OpSnapshot now c) Done h
  | hs_cursor vc :
    vc = ∅ ∨ (∀ x, vc !! x = if decide (0 < top x h)%Z then Some (top x h) else None) →
    history_step h OpCursor (Cursor vc) h
  | hs_restart t : history_step h (OpRestart t) Done h
  | hs_crash m t : history_step h (OpCrash m t) Done (remember m h).

Inductive history_run : list StoredMessage → list store_op → list answer → list StoredMessage → Prop :=
  | hr_nil h : history_run h [] [] h
  | hr_cons h o a h1 ops l h2 :
    history_step h o a h1 → history_run h1 ops l h2 → history_run h (o :: ops) (a :: l) h2.

Lemma crash_ok threshold m s h : store_ok s h →
  ∃ s', store_step (OpCrash m threshold) s = (Ok Done, s') ∧ store_ok s' (remember m h).
Proof.
  intros Hok. cbn [store_step]. rewrite bind_run. cbn [get]. unfold remember, known.
  case_decide as Hm; rewrite (known_index s h m Hok) in Hm.
  - rewrite bool_decide_eq_true_2 by done. rewrite bind_run. unfold restart. cbn [mret M_ret].
    destruct (reopen_ok threshold s h Hok) as (s' & E & Hok'). exists s'.
    unfold mret, M_ret. by rewrite E.
  - rewrite bool_decide_eq_false_2 by done. destruct Hok as [(snaps & act & [Hl Hd] & Hs) Hn Hi Hb].
    unfold _append_to_log. mrun. unfold restart.
    match goal with |- context [open_store _ (disk ?x)] =>
      destruct (restart_ok threshold x snaps (act ++ [m]) (m :: h)) as (s' & -> & Hok') end.
    + split; [|exact Hd]. cbn [disk set_disk active_log set_log].
      rewrite Hl, payload_app. cbn [payload]. by rewrite string_app_nil_r.
    + rewrite app_assoc. intros x. rewrite elem_of_app, list_elem_of_singleton, elem_of_cons, (Hs x). tauto.
    + cbn [fmap list_fmap]. by constructor.
    + by apply loads_back_disk.
    + by exists s'.
Qed.

Lemma store_step_ok o s h : store_ok s h →
  ∃ a s' h', store_step o s = (Ok a, s') ∧ history_step h o a h' ∧ store_ok s' h'.
Proof.
  intros Hok. destruct o as [now m|now items|now c| |t|m t].
  - destruct (save_ok now s h m Hok) as (s' & E & Hok' & _). eexists _, s', _. cbn [store_step].
    rewrite bind_run, E. split; [done|]. split; [constructor|done].
  - destruct (save_many_ok now items s h Hok) as (s' & E & Hok'). eexists _, s', _. cbn [store_step].
    rewrite bind_run, E. split; [done|]. split; [constructor|done].
  - destruct (create_snapshot_ok now c s h Hok) as (r & s' & E & Hok' & _). eexists _, s', _. cbn [store_step].
    rewrite bind_run, E. split; [done|]. split; [constructor|done].
  - destruct (latest_clock_ok s h Hok) as (vc & s' & E & Hok' & Hvc). eexists _, s', _. cbn [store_step].
    rewrite bind_run, E. split; [done|]. split; [by constructor|done].
  - destruct (reopen_ok t s h Hok) as (s' & E & Hok'). eexists _, s', _. cbn [store_step]. unfold restart.
    rewrite E. split; [done|]. split; [constructor|done].
  - destruct (crash_ok t m s h Hok) as (s' & E & Hok'). eexists _, s', _.
    split; [exact E|]. split; [constructor|done].
Qed.

Lemma run_store_ok ops s h : store_ok s h →
  ∃ l s' h', run_store ops s = (Ok l, s') ∧ history_run h ops l h' ∧ store_ok s' h'.
Proof.
  revert s h. induction ops as [|o ops IH]; intros s h Hok.
  - exists [], s, h. split; [done|]. split; [constructor|done].
  - destruct (store_step_ok o s h Hok) as (a & s1 & h1 & E & Hh & Hok1).
    destruct (IH s1 h1 Hok1) as (l & s2 & h2 & E2 & Hh2 & Hok2). exists (a :: l), s2, h2. cbn [run_store].
    rewrite bind_run, E, bind_run, E2. split; [done|]. split; [by econstructor|done].
Qed.

Definition empty_disk : Disk := mkDisk "" "" "" "" "" ∅.

Lemma open_empty threshold : ∃ s, open_store threshold empty_disk = Ok s ∧ store_ok s [].
Proof.
  apply (open_ok _ _ (mkStore None no_index false false empty_disk) [] []); [|done|constructor|done|done].
  split; [done|]. split; [intros k ms Hk; by rewrite lookup_nil in Hk|].
  intros name [x Hn]. cbn [snapshot_dir empty_disk] in Hn. by rewrite lookup_empty in Hn.
Qed.

(** [get_recent]: the newest messages by time stamp. *)
Lemma get_recent_ok limit s h : store_ok s h → (0 < limit)%Z →
  ∃ older l, get_recent limit (disk s) = Ok l ∧ older ++ l ≡ₚ h ∧ sorted_on st_timestamp (older ++ l) ∧
    length l = min (Z.to_nat limit) (length h).
Proof.
  intros Hok Hlim. destruct (read_all_ok s h Hok) as (l & Hl & Hp & Hs).
  unfold get_recent. rewrite Hl. cbn [mbind result_bind].
  assert (length h = length l) as -> by by rewrite Hp.
  destruct (Z.ltb_spec limit (Z.of_nat (length l))) as [Hlt|Hge].
  - unfold slice_from. rewrite (proj2 (Z.ltb_lt (- limit) 0)) by lia.
    set (n := Z.to_nat (Z.of_nat (length l) + - limit)). exists (take n l), (drop n l).
    rewrite take_drop, length_drop. split_and!; [done|done|done|lia].
  - exists [], l. split_and!; [done|done|done|lia].
Qed.

End History.

(** ** A concrete run *)

(** An archive that stores without compressing. *)
#[export] Instance plain_archive : Archive := {|
  gzip := λ _ _ b, b; gunzip := Ok; sha256_hex := λ b, b |}.
#[export] Instance plain_archive_laws : ArchiveLaws.
Proof. done. Qed.

Definition demo_stored (i s : string) (n t : Z) : StoredMessage :=
  mkStored i ("text of " +:+ i) s t "" 10 {[s := n]}.
Definition demo_history : list store_op :=
  [OpSave 10 (demo_stored "a1" "a:1" 1 5); OpSave 11 (demo_stored "a1" "a:1" 1 5);
   OpCrash (demo_stored "b1" "b:1" 1 3) (Some 2%Z); OpCursor;
   OpSaveMany 12 [Decoded (demo_stored "a2" "a:1" 2 4); Raw JNull; Decoded (demo_stored "b1" "b:1" 1 3)];
   OpSnapshot 13 false; OpRestart None; OpCursor].

