(* ===== verification/Recovery.v ===== *)
(** * History recovery between peers ([message_history/storage/recovery_stream.py],
    [recovery_fanout.py], [node_setup.py], [history_service.py])

    A peer asks others for the messages it misses, they stream them back in chunks,
    and the asker saves what it gets.  The state is the store, what was handed to
    [BroadcastNode.send_to_peer], the clocks given to [sync_vector_clock] and the
    number of identifiers drawn from [uuid.uuid4], which is a function of that
    number. *)

From stdpp Require Import prelude gmap strings list_numbers.
From S2P Require Import Prelude PyDict PyStr Json PyText Message StoredMessage MessageStore.

Local Open Scope string_scope.
Local Open Scope list_scope.

Record History := mkHistory {
  store : Store;
  self_user_id : string;
  sent : list (string * Z * Message);
  synced : list (gmap string Z);
  drawn : nat;
}.

Definition set_store (st : Store) (h : History) : History :=
  mkHistory st (self_user_id h) (sent h) (synced h) (drawn h).

(** A call of the store. *)
Definition on_store {A} (m : M Store A) : M History A := λ h,
  let '(r, st) := m (store h) in (r, set_store st h).

Section Recovery.
Context `{Archive} (uuid : nat → string) (now : time).

(** [str(uuid.uuid4())] *)
Definition uuid4 : M History string := λ h,
  (Ok (uuid (drawn h)), mkHistory (store h) (self_user_id h) (sent h) (synced h) (S (drawn h))).

(** [transfer_id or str(uuid.uuid4())] *)
Definition transfer_or_uuid (transfer_id : json) : M History json :=
  if truthy transfer_id then mret transfer_id else i ← uuid4; mret (JStr i).

(** [message_factory(content=..., sender=self_user_id)] and [send_to_peer] *)
Definition post (host : string) (port : Z) (payload : json) : M History unit :=
  i ← uuid4;
  modify (λ h, mkHistory (store h) (self_user_id h)
    (sent h ++ [(host, port, new_message (dumps compact payload) (self_user_id h) i now)]) (synced h) (drawn h)).

(** [payload["source_user_id"] = self.self_user_id] *)
Definition with_source (source : string) (chunk : json) : json :=
  match chunk with JObj d => JObj (dset "source_user_id" (JStr source) d) | j => j end.

(** [stream_missing_history]; the result is (transfer_id, chunks_sent,
    messages_sent). *)
Definition chunk_messages (chunk : json) : list json :=
  match jget "messages" chunk with Some (JList l) => l | _ => [] end.

Definition stream_missing_history (target_host : string) (target_port : Z) (have : pydict string json)
    (transfer_id : json) (chunk_size : Z) : M History (json * nat * nat) :=
  tid ← transfer_or_uuid transfer_id;
  h ← get;
  chunks ← lift (build_history_chunks have tid chunk_size (disk (store h)));
  _ ← forM chunks (λ chunk, post target_host target_port (with_source (self_user_id h) chunk));
  mret (tid, length chunks, length (mjoin (chunk_messages <$> chunks))).

(** [send_recover_request]; the result is (transfer_id, have_vector_clock). *)
Definition recover_request (tid : json) (requester_id host : string) (port : Z) (vc : gmap string Z) : json :=
  JObj [("type", JStr "recover_request"); ("transfer_id", tid); ("requester_id", JStr requester_id);
        ("requester_host", JStr host); ("requester_port", JInt port); ("have_vector_clock", json_of_vc vc)].

Definition send_recover_request (provider_host : string) (provider_port : Z) (requester_host : string)
    (requester_port : Z) (transfer_id : json) : M History (json * gmap string Z) :=
  tid ← transfer_or_uuid transfer_id;
  vc ← on_store get_latest_vector_clock;
  h ← get;
  _ ← post provider_host provider_port (recover_request tid (self_user_id h) requester_host requester_port vc);
  mret (tid, vc).

(** What [handle_transport_message] returns. *)
Inductive handled :=
  | NotJson
  | NotRecovery
  | InvalidRequest
  | Streamed (requester_id transfer_id : json) (chunks_sent messages_sent : nat)
  | Ingested (transfer_id chunk_id : json) (is_last : bool) (counts : SaveCounts).

Definition is_handled (r : handled) : bool :=
  match r with Streamed _ _ _ _ | Ingested _ _ _ _ => true | _ => false end.

(** [str(payload["requester_host"])], [int(payload["requester_port"])] *)
Definition requester (payload : pydict string json) : result (string * Z) :=
  host ← of_option KeyError (dget "requester_host" payload);
  port ← of_option KeyError (dget "requester_port" payload);
  port ← int_of_json port;
  mret (py_str host, port).

Definition request_catches (e : exn) : bool :=
  match e with KeyError | TypeError | ValueError => true | _ => false end.

(** [_handle_recover_request] *)
Definition _handle_recover_request (payload : pydict string json) : M History handled :=
  match requester payload with
  | Raise e => if request_catches e then mret InvalidRequest else lift (Raise e)
  | Ok (host, port) =>
    let have := match dget "have_vector_clock" payload with Some (JObj d) => d | _ => [] end in
    '(tid, chunks, messages) ← stream_missing_history host port have
        (default JNull (dget "transfer_id" payload)) 100;
    mret (Streamed (default JNull (dget "requester_id" payload)) tid chunks messages)
  end.

(** One turn of the loop of [_handle_history_chunk]. *)
Definition decode_item (raw : json) : result item :=
  match stored_from_dict raw with
  | Ok m => Ok (Decoded m)
  | Raise e => if request_catches e then Ok (Raw raw) else Raise e
  end.

(** [_handle_history_chunk] *)
Definition _handle_history_chunk (payload : pydict string json) : M History handled :=
  raws ← lift (py_iter (default (JList []) (dget "messages" payload)));
  items ← lift (mapR decode_item raws);
  counts ← on_store (save_many now items);
  mret (Ingested (default JNull (dget "transfer_id" payload)) (default JNull (dget "chunk_id" payload))
    (truthy (default (JBool false) (dget "is_last" payload))) counts).

(** [handle_transport_message]: [.get] of what is no dictionary raises. *)
Definition handle_transport_message (message_content : string) : M History handled :=
  match loads message_content with
  | None => mret NotJson
  | Some (JObj payload) =>
    match dget "type" payload with
    | Some (JStr t) =>
      if bool_decide (t = "recover_request") then _handle_recover_request payload
      else if bool_decide (t = "history_chunk") then _handle_history_chunk payload
      else mret NotRecovery
    | _ => mret NotRecovery
    end
  | Some _ => lift (Raise AttributeError)
  end.

(** ** [node_setup.py] *)

(** [_to_storage_message] *)
Definition _to_storage_message (m : Message) : StoredMessage :=
  mkStored (id m) (content m) (sender m) (timestamp m) (signature m) (ttl m) (vector_clock m).

Inductive storage_result :=
  | Recovered (r : handled)
  | Chat (was_saved : bool).

(** [handle_storage_message] *)
Definition handle_storage_message (m : Message) : M History storage_result :=
  r ← handle_transport_message (content m);
  if is_handled r then
    _ ← match r with
        | Ingested _ _ true _ =>
          vc ← on_store get_latest_vector_clock;
          modify (λ h, mkHistory (store h) (self_user_id h) (sent h) (synced h ++ [vc]) (drawn h))
        | _ => mret tt
        end;
    mret (Recovered r)
  else
    try_except (_ ← on_store (save now (_to_storage_message m)); mret (Chat true))
      (λ _, mret (Chat false)).

(** [wire_node]: the node's clock is raised to the stored one. *)
Definition wire_node (host : string) (port : Z) (d : Disk) : result (History * gmap string Z) :=
  st ← open_store DEFAULT_SNAPSHOT_THRESHOLD d;
  match get_latest_vector_clock st with
  | (Ok vc, st) => Ok (mkHistory st (addr host port) [] [] 0, vc)
  | (Raise e, _) => Raise e
  end.

(** ** [recovery_fanout.py] *)

(** [peer[n]] *)
Definition py_index (n : nat) (peer : json) : result json :=
  match peer with
  | JList l => of_option IndexError (l !! n)
  | JStr s => of_option IndexError (chars s !! n)
  | JObj _ => Raise KeyError
  | _ => Raise TypeError
  end.

Definition target_of (peer : json) : result (string * Z) :=
  host ← py_index 0 peer;
  port ← py_index 1 peer;
  port ← int_of_json port;
  mret (py_str host, port).

Definition target_catches (e : exn) : bool :=
  match e with IndexError | TypeError | ValueError => true | _ => false end.

(** [_resolve_recovery_targets] *)
Fixpoint resolve_loop (excluded seen : gset string) (peers : list json) : result (list (string * Z)) :=
  match peers with
  | [] => Ok []
  | peer :: peers =>
    match target_of peer with
    | Raise e => if target_catches e then resolve_loop excluded seen peers else Raise e
    | Ok (host, port) =>
      if decide (addr host port ∈ excluded ∪ seen) then resolve_loop excluded seen peers
      else rest ← resolve_loop excluded ({[addr host port]} ∪ seen) peers; mret ((host, port) :: rest)
    end
  end.

Definition _resolve_recovery_targets (self requester_host : string) (requester_port : Z) (peers : list json) :
    result (list (string * Z)) :=
  resolve_loop {[addr requester_host requester_port; self]} ∅ peers.

(** [request_missing_history_from_all_peers]; [peers] is the given list or the
    registry's.  The result is (transfer_id, have_vector_clock, targets). *)
Definition request_missing_history_from_all_peers (requester_host : string) (requester_port : Z)
    (peers : list json) (transfer_id : json) : M History (json * gmap string Z * list (string * Z)) :=
  tid ← transfer_or_uuid transfer_id;
  vc ← on_store get_latest_vector_clock;
  h ← get;
  targets ← lift (_resolve_recovery_targets (self_user_id h) requester_host requester_port peers);
  _ ← forM targets (λ t, _ ← send_recover_request t.1 t.2 requester_host requester_port tid; mret tt);
  mret (tid, vc, targets).
End Recovery.

(** ** [history_service.py] *)

Section Service.
Context `{Archive} (uuid : nat → string).

(** [HistoryService]: the storage root is the service's own disk; [wiring] is absent
    until [start]. *)
Record HistoryService := mkService {
  host : string;
  port : Z;
  clean_storage : bool;
  root : Disk;
  wiring : option History;
}.

(** [configure_storage_root] *)
Definition configure_storage_root (clean : bool) (d : Disk) : Disk :=
  if clean then mkDisk "" "" "" "" "" ∅ else d.

(** [HistoryService.start]; the result is the clock merged into the node's. *)
Definition start : M HistoryService (gmap string Z) := λ s,
  match wiring s with
  | Some _ => (Ok ∅, s)
  | None =>
    let d := configure_storage_root (clean_storage s) (root s) in
    match wire_node (host s) (port s) d with
    | Ok (w, vc) => (Ok vc, mkService (host s) (port s) (clean_storage s) d (Some w))
    | Raise e => (Raise e, mkService (host s) (port s) (clean_storage s) d None)
    end
  end.

(** [_require_started], then a call on the wiring. *)
Definition started {A} (m : HistoryService → M History A) : M HistoryService A := λ s,
  match wiring s with
  | None => (Raise RuntimeError, s)
  | Some w => let '(r, w) := m s w in
              (r, mkService (host s) (port s) (clean_storage s) (root s) (Some w))
  end.

Definition request_missing_history (now : time) (peers : list json) (transfer_id : json) :
    M HistoryService (json * gmap string Z * list (string * Z)) :=
  started (λ s, request_missing_history_from_all_peers uuid now (host s) (port s) peers transfer_id).

(** The fields of the [SimpleNamespace] shown to the user. *)
Definition get_recent_messages (limit : Z) : M HistoryService (list (string * string * time * string)) :=
  started (λ _, h ← get;
    messages ← lift (get_recent limit (disk (store h)));
    mret ((λ m, (st_id m, st_sender m, st_timestamp m, st_content m)) <$> messages)).

Definition handle_message (now : time) (m : Message) : M HistoryService storage_result :=
  started (λ _, handle_storage_message uuid now m).
End Service.
