(* ===== verification/RecoveryFacts.v ===== *)
(** * Recovery completes a history

    What the recovery cursor of a store means, on any disk, and what one exchange
    between an asking and a providing peer achieves. *)

From stdpp Require Import prelude gmap strings list_numbers sorting.
From S2P Require Import Prelude PyDict PyStr Json PyText Message StoredMessage MessageStore MessageStoreFacts MessageHistory Recovery.

Local Open Scope string_scope.
Local Open Scope list_scope.

(** ** The cursor on any disk *)

Lemma mapR_inv {A B} (f : A → result B) l ys : mapR f l = Ok ys → ∀ x, x ∈ l → ∃ y, f x = Ok y.
Proof.
  revert ys. induction l as [|x l IH]; intros ys E z Hz; [by apply not_elem_of_nil in Hz|].
  cbn [mapR] in E. destruct (f x) as [y|e] eqn:Ex; [|done]. cbn in E.
  destruct (mapR f l) as [ys'|e]; [|done].
  apply elem_of_cons in Hz as [->|Hz]; [by exists y|by eapply IH].
Qed.

Section Cursor.
Context `{!Archive}.

Lemma unreadable_total dir metas :
  (∀ meta, meta ∈ metas → ∃ ms, read_snapshot_messages dir (meta_id meta) = Ok ms) →
  ∃ b, unreadable_in dir metas = Ok b.
Proof.
  induction metas as [|meta metas IH]; intros Hall; cbn [unreadable_in]; [by exists false|].
  destruct (IH ltac:(set_solver)) as [b Hb]. destruct (_ <=? 0)%Z; [by exists b|].
  destruct (Hall meta ltac:(constructor)) as [ms ->]. cbn. destruct (_ <? _)%Z; [by exists true|by exists b].
Qed.

(** When the storage can be read, a repair succeeds, makes the indexes those of the
    readable messages, and raises the flag when a sender's numbers have a gap. *)
Lemma repair_run s items bad : _iter_readable_messages_with_offsets (disk s) = Ok (items, bad) →
  ∃ s1, _repair_indexes_from_readable_storage false s = (Ok tt, s1) ∧
    index s1 = (repaired_index items no_index false).1 ∧
    (_has_sender_sequence_gaps (sender_seqs (index s1)) = true → force_full_recovery_cursor s1 = true) ∧
    active_log (disk s1) = active_log (disk s) ∧ snapshot_dir (disk s1) = snapshot_dir (disk s).
Proof.
  intros E. unfold _repair_indexes_from_readable_storage. rewrite bind_run. cbn [get].
  assert (∃ b, _has_unreadable_snapshot (snapshot_dir (disk s)) = Ok b) as [b Hb].
  { apply unreadable_total. unfold _iter_readable_messages_with_offsets in E.
    destruct (mapR _ _) as [snaps|e] eqn:Em; [|done]. by eapply mapR_inv. }
  rewrite bind_run. unfold lift. rewrite Hb, bind_run, E. cbv zeta.
  destruct (repaired_index items no_index false) as [ix dup]. cbn [fst].
  set (damage := _ || _has_sender_sequence_gaps _).
  assert (_has_sender_sequence_gaps (sender_seqs ix) = true → damage = true) as Hdam.
  { intros Hg. unfold damage. by rewrite Hg, orb_true_r. }
  destruct (dup || false || negb (bool_decide (ix = index s))) eqn:Hch.
  - rewrite bind_run. cbn [modify _flush_indexes]. eexists. split; [reflexivity|].
    cbn [index set_index set_disk disk force_full_recovery_cursor]. split_and!; [done| |by destruct (damage || _)..].
    intros Hg. by rewrite Hdam.
  - apply orb_false_iff in Hch as [_ Hch]. apply negb_false_iff, bool_decide_eq_true in Hch as ->.
    destruct damage.
    + rewrite bind_run. cbn [modify _flush_indexes]. eexists. split; [reflexivity|]. done.
    + exists s. split_and!; [done|done| |done|done]. intros Hg. by discriminate (Hdam Hg).
Qed.

Definition same_storage (d d' : Disk) : Prop :=
  active_log d' = active_log d ∧ snapshot_dir d' = snapshot_dir d.

Lemma read_all_storage d d' : same_storage d d' → _read_all_messages d' = _read_all_messages d.
Proof.
  intros [E1 E2]. unfold _read_all_messages, _iter_readable_messages_with_offsets,
    _read_active_messages_with_offsets. by rewrite E1, E2.
Qed.

Lemma cursor_run s l : _read_all_messages (disk s) = Ok l →
  ∃ vc s', get_latest_vector_clock s = (Ok vc, s') ∧ same_storage (disk s) (disk s') ∧
    (vc = ∅ ∨ ∃ i, index_is i l ∧ _has_sender_sequence_gaps (sender_seqs i) = false ∧ vc = latest_vc i).
Proof.
  unfold _read_all_messages. intros E.
  destruct (_iter_readable_messages_with_offsets (disk s)) as [[items bad]|e] eqn:Ei; [|done].
  cbn in E. injection E as <-.
  destruct (repair_run s items bad Ei) as (s1 & E1 & Hix & Hg & Hl & Hd).
  assert (index_is (index s1) (sort_on st_timestamp (dedup ∅ items.*1))) as Hi.
  { rewrite Hix. eapply index_is_same; [|exact (repaired_index_dedup items no_index [] false no_index_is)].
    intros m. by rewrite sort_on_perm. }
  unfold get_latest_vector_clock. rewrite bind_run, E1, bind_run. cbn [get].
  destruct (force_full_recovery_cursor s1).
  - destruct (_has_sender_sequence_gaps (sender_seqs (index s1))) eqn:Hgap.
    + exists ∅, s1. split; [done|]. split; [done|]. by left.
    + rewrite bind_run. cbn [modify]. rewrite bind_run. cbn [_flush_indexes modify]. eexists _, _.
      split; [reflexivity|]. split; [done|]. right. by exists (index s1).
  - eexists _, s1. split; [reflexivity|]. split; [done|]. right. exists (index s1). split_and!; [done| |done].
    destruct (_has_sender_sequence_gaps _); [|done]. by specialize (Hg eq_refl).
Qed.

(** C16: the recovery cursor tells the truth on any disk, damaged or not.  Whenever the
    stored messages can be read, the request returns a cursor and leaves them as
    they are; every entry [x: n] of the cursor means that messages [1..n] of [x]
    are all readable and none beyond; and a non-empty cursor has an entry for every
    sender of a numbered message.  So a peer that sends what lies beyond the cursor
    sends everything missing. *)
Theorem cursor_is_exact s l : _read_all_messages (disk s) = Ok l →
  ∃ vc s', get_latest_vector_clock s = (Ok vc, s') ∧ _read_all_messages (disk s') = Ok l ∧
    (∀ x n, vc !! x = Some n → (0 < n)%Z ∧
      (∀ k, (0 < k ≤ n)%Z → ∃ m, m ∈ l ∧ st_sender m = x ∧ sender_seq m = k) ∧
      (∀ m, m ∈ l → st_sender m = x → (sender_seq m ≤ n)%Z)) ∧
    (vc = ∅ ∨ ∀ m, m ∈ l → (0 < sender_seq m)%Z → is_Some (vc !! st_sender m)).
Proof.
  intros Hl. destruct (cursor_run s l Hl) as (vc & s' & E & Hst & Hvc). exists vc, s'.
  split; [done|]. split; [by rewrite (read_all_storage (disk s))|].
  destruct Hvc as [->|(i & Hi & Hg & ->)]; [split; [intros x n Hn; by rewrite lookup_empty in Hn|by left]|].
  split.
  - intros x n Hn. rewrite (ii_vc _ _ Hi) in Hn. case_decide as Hp; [|done]. injection Hn as <-.
    split; [done|]. split; [|intros m; apply top_ge].
    intros k Hk. destruct (top_attained x l) as [E0|(m & Hm & Hx & Hs)]; [lia|].
    destruct (no_gap_below i l m k Hi Hg Hm) as (m' & Hm' & Hx' & Hk'); [lia|]. exists m'. by rewrite Hx', Hx.
  - right. intros m Hm Hp. rewrite (ii_vc _ _ Hi). pose proof (top_ge (st_sender m) l m Hm eq_refl).
    rewrite decide_True by lia. by eexists.
Qed.
End Cursor.

(** A log with a torn line and a missing message: the cursor asks for everything;
    once the gap is filled it is exact again. *)
Definition torn_disk : Disk := set_log
  (payload [demo_stored "a1" "a:1" 1 5] +:+ "{torn" +:+ String newline "" +:+
   payload [demo_stored "a3" "a:1" 3 7]) empty_disk.
Definition torn_store : Store := mkStore None no_index false false torn_disk.

Lemma cursor_is_exact_witness :
  (get_latest_vector_clock torn_store).1 = Ok ∅ ∧
  ((_ ← save 1 (demo_stored "a2" "a:1" 2 6); get_latest_vector_clock) torn_store).1 = Ok {["a:1" := 3%Z]} ∧
  ∃ l, map st_id l = ["a1"; "a3"] ∧
    ∃ vc s', get_latest_vector_clock torn_store = (Ok vc, s') ∧ _read_all_messages (disk s') = Ok l ∧
    (∀ x n, vc !! x = Some n → (0 < n)%Z ∧
      (∀ k, (0 < k ≤ n)%Z → ∃ m, m ∈ l ∧ st_sender m = x ∧ sender_seq m = k) ∧
      (∀ m, m ∈ l → st_sender m = x → (sender_seq m ≤ n)%Z)) ∧
    (vc = ∅ ∨ ∀ m, m ∈ l → (0 < sender_seq m)%Z → is_Some (vc !! st_sender m)).
Proof.
  split; [vm_compute; reflexivity|]. split; [vm_compute; reflexivity|].
  exists [demo_stored "a1" "a:1" 1 5; demo_stored "a3" "a:1" 3 7]. split; [done|].
  apply (cursor_is_exact torn_store). vm_compute. reflexivity.
Defined.

(** ** One exchange *)

Section Exchange.
Context `{!Archive} `{!ArchiveLaws} (uuid : nat → string).

Definition send_all (now : time) (ms : list Message) : M History unit :=
  forM ms (λ m, _ ← handle_storage_message uuid now m; mret tt).

(** [a] asks [b], [b] answers, [a] takes the answers in; [None] when a step raises.
    The request and the chunks are what each of them handed to [send_to_peer]. *)
Definition exchange (now : time) (host_b : string) (port_b : Z) (host_a : string) (port_a : Z)
    (tid : string) (a b : History) : option (History * History) :=
  match send_recover_request uuid now host_b port_b host_a port_a (JStr tid) a with
  | (Ok _, a1) =>
    match last (sent a1) with
    | Some (_, _, request) =>
      match handle_storage_message uuid now request b with
      | (Ok _, b1) =>
        match send_all now (drop (length (sent b)) (sent b1)).*2 a1 with
        | (Ok _, a2) => Some (a2, b1)
        | _ => None
        end
      | _ => None
      end
    | None => None
    end
  | _ => None
  end.

(** Two peers agree: an identifier names one message, and a sender's positive
    sequence number too. *)
Definition agree (h h' : list StoredMessage) : Prop := ∀ m m', m ∈ h → m' ∈ h' →
  (st_id m = st_id m' → m = m') ∧
  (st_sender m = st_sender m' → sender_seq m = sender_seq m' → (0 < sender_seq m)%Z → m = m').

(** *** The provider *)

Lemma loads_payload j : json_wf j → loads (dumps compact j) = Some j.
Proof. apply (loads_dumps_wf compact). Qed.

Lemma transfer_string t (h : History) : ∃ t' h', transfer_or_uuid uuid (JStr t) h = (Ok (JStr t'), h') ∧
  store h' = store h ∧ self_user_id h' = self_user_id h ∧ sent h' = sent h.
Proof.
  unfold transfer_or_uuid. destruct (truthy _); [by exists t, h|].
  rewrite bind_run. cbn [uuid4]. eexists _, _. done.
Qed.

Lemma post_run now host port payload h : ∃ m h', post uuid now host port payload h = (Ok tt, h') ∧
  sent h' = sent h ++ [(host, port, m)] ∧ content m = dumps compact payload ∧
  store h' = store h ∧ self_user_id h' = self_user_id h.
Proof. unfold post. rewrite bind_run. cbn [uuid4]. eexists _, _. split; [reflexivity|]. done. Qed.

Lemma post_all_run now host port payloads h :
  ∃ ms h', forM payloads (post uuid now host port) h = (Ok tt, h') ∧
    sent h' = sent h ++ ((λ m, (host, port, m)) <$> ms) ∧ content <$> ms = dumps compact <$> payloads ∧
    store h' = store h ∧ self_user_id h' = self_user_id h.
Proof.
  revert h. induction payloads as [|p payloads IH]; intros h.
  { exists [], h. cbn. by rewrite app_nil_r. }
  rewrite forM_cons. destruct (post_run now host port p h) as (m & h1 & -> & Es & Ec & Est & Eid).
  destruct (IH h1) as (ms & h2 & E & Es2 & Ec2 & Est2 & Eid2). exists (m :: ms), h2.
  split_and!; [done| | |congruence|congruence].
  - by rewrite Es2, Es, <- app_assoc.
  - cbn. by rewrite Ec, <- Ec2.
Qed.

Lemma clock_entry vc x :
  cursor_seq ((λ kv, (kv.1, JInt kv.2)) <$> map_to_list vc) x = default 0%Z (vc !! x).
Proof.
  unfold cursor_seq.
  assert (∀ l : list (string * Z), NoDup l.*1 →
    dget x ((λ kv, (kv.1, JInt kv.2)) <$> l) = JInt <$> (list_to_map l : gmap string Z) !! x) as Hl.
  { induction l as [|[k n] l IH]; [done|]. intros [Hk Hn]%NoDup_cons. cbn.
    destruct (decide (x = k)) as [->|Hne]; [by rewrite lookup_insert_eq|].
    rewrite lookup_insert_ne by done. by apply IH. }
  rewrite Hl by apply NoDup_fst_map_to_list. rewrite list_to_map_to_list. by destruct (vc !! x).
Qed.

(** What [b] selects for a cursor. *)
Lemma missing_spec vc (st : Store) h : store_ok st h →
  ∃ l, get_missing_since ((λ kv, (kv.1, JInt kv.2)) <$> map_to_list vc) (disk st) = Ok l ∧
    ∀ m, m ∈ l ↔ m ∈ h ∧ (default 0%Z (vc !! st_sender m) < sender_seq m)%Z.
Proof.
  intros Hok. destruct (read_all_ok st h Hok) as (l & Hl & Hp & _). unfold get_missing_since. rewrite Hl.
  eexists. split; [reflexivity|]. intros m.
  rewrite list_elem_of_In, filter_In, <- list_elem_of_In, Z.ltb_lt, clock_entry.
  rewrite (dedup_same l), Hp; [done|]. apply nodup_one_per_id. rewrite Hp. apply Hok.
Qed.

Definition chunk_payload (tid source : string) (total i : nat) (ms : list StoredMessage) : json :=
  JObj [("type", JStr "history_chunk"); ("transfer_id", JStr tid);
        ("chunk_id", JInt (Z.of_nat i + 1)); ("is_snapshot", JBool false);
        ("is_last", JBool (total <=? i * 100 + 100)%nat); ("messages", JList (stored_dict <$> ms));
        ("source_user_id", JStr source)].

Lemma chunk_payload_eq tid source total i ms :
  with_source source (chunk_json (JStr tid) 100 total i ms) = chunk_payload tid source total i ms.
Proof. reflexivity. Qed.

Lemma chunk_payload_wf tid source total i ms : json_wf (chunk_payload tid source total i ms).
Proof.
  apply json_wf_obj. split; [unfold dwf; apply (bool_decide_unpack _); by vm_compute|].
  repeat (constructor; [try done|]); [|constructor].
  apply json_wf_list, Forall_fmap, Forall_true. intros m. apply stored_dict_wf.
Qed.

Lemma stream_run now host port vc t (b : History) h : store_ok (store b) h →
  ∃ missing parts ms tid r b', stream_missing_history uuid now host port
      ((λ kv, (kv.1, JInt kv.2)) <$> map_to_list vc) (JStr t) 100 b = (Ok r, b') ∧
    sent b' = sent b ++ ((λ m, (host, port, m)) <$> ms) ∧
    content <$> ms = imap (λ i p, dumps compact (chunk_payload tid (self_user_id b) (length missing) i p)) parts ∧
    mjoin parts = missing ∧ store b' = store b ∧
    ∀ m, m ∈ missing ↔ m ∈ h ∧ (default 0%Z (vc !! st_sender m) < sender_seq m)%Z.
Proof.
  intros Hok. unfold stream_missing_history. rewrite bind_run.
  destruct (transfer_string t b) as (tid & b1 & -> & Est1 & Eid1 & Es1). rewrite bind_run. cbn [get].
  destruct (missing_spec vc (store b) h Hok) as (missing & Hm & Hspec).
  rewrite bind_run. unfold lift, build_history_chunks. cbn [Z.leb Z.compare]. rewrite Est1, Hm. cbn [mbind result_bind].
  set (parts := slices (Z.to_nat 100) missing). unfold mret at 1, result_ret. rewrite bind_run, Eid1.
  assert (∀ cs h0, forM cs (λ c, post uuid now host port (with_source (self_user_id b) c)) h0 =
    forM (with_source (self_user_id b) <$> cs) (post uuid now host port) h0) as Hmap.
  { induction cs as [|c cs IH]; intros h0; [done|]. cbn [fmap list_fmap]. rewrite !forM_cons.
    destruct (post _ _ _ _ _ h0) as [[[]|e] h1]; [apply IH|done]. }
  rewrite Hmap.
  match goal with |- context [forM (_ <$> ?cs)] =>
    destruct (post_all_run now host port (with_source (self_user_id b) <$> cs) b1)
      as (ms & b2 & -> & Es2 & Ec2 & Est2 & _) end.
  eexists missing, parts, ms, tid, _, b2. split; [reflexivity|].
  split_and!; [by rewrite Es2, Es1| | |congruence|done].
  - rewrite Ec2, !fmap_imap. apply imap_ext. intros i p _. cbn [compose].
    by rewrite <- chunk_payload_eq.
  - apply mjoin_slices. lia.
Qed.

Lemma recover_request_wf t u host port vc : json_wf (recover_request (JStr t) u host port vc).
Proof.
  apply json_wf_obj. split; [unfold dwf; apply (bool_decide_unpack _); by vm_compute|].
  repeat (constructor; [try done; apply json_of_vc_wf|]). constructor.
Qed.

(** The provider streams what lies beyond the cursor of the request. *)
Lemma provide_run now request t u host port vc (b : History) h : store_ok (store b) h →
  content request = dumps compact (recover_request (JStr t) u host port vc) →
  ∃ missing parts ms tid r b', handle_storage_message uuid now request b = (Ok r, b') ∧
    sent b' = sent b ++ ((λ m, (host, port, m)) <$> ms) ∧
    content <$> ms = imap (λ i p, dumps compact (chunk_payload tid (self_user_id b) (length missing) i p)) parts ∧
    mjoin parts = missing ∧ store b' = store b ∧
    ∀ m, m ∈ missing ↔ m ∈ h ∧ (default 0%Z (vc !! st_sender m) < sender_seq m)%Z.
Proof.
  intros Hok Hc. destruct (stream_run now host port vc t b h Hok) as (missing & parts & ms & tid & r & b' & E & Hrest).
  exists missing, parts, ms, tid. unfold handle_storage_message. rewrite bind_run.
  assert (handle_transport_message uuid now (content request) b =
    (Ok (Streamed (JStr u) r.1.1 r.1.2 r.2), b')) as ->.
  { unfold handle_transport_message. rewrite Hc, loads_payload by apply recover_request_wf.
    unfold recover_request. 
    match goal with |- context [dget "type" ?d] => change (dget "type" d) with (Some (JStr "recover_request")) end.
    cbv beta iota.
    rewrite bool_decide_eq_true_2 by done. unfold _handle_recover_request.
    match goal with |- context [requester ?d] => change (requester d) with (Ok (host, port)) end. cbv iota beta.
    match goal with |- context [dget "have_vector_clock" ?d] => change (dget "have_vector_clock" d) with (Some (json_of_vc vc)) end.
    unfold json_of_vc. cbv beta iota zeta. rewrite bind_run.
    match goal with |- context [default JNull (dget "transfer_id" ?d)] => change (default JNull (dget "transfer_id" d)) with (JStr t) end.
    rewrite E. by destruct r as [[? ?] ?]. }
  exists (Recovered (Streamed (JStr u) r.1.1 r.1.2 r.2)), b'. split; [done|exact Hrest].
Qed.

(** *** The asking peer *)

Fixpoint remember_all (ms h : list StoredMessage) : list StoredMessage :=
  match ms with [] => h | m :: ms => remember_all ms (remember m h) end.

Lemma save_all_decoded ms r h : (save_all (Decoded <$> ms) r h).2 = remember_all ms h.
Proof.
  revert r h. induction ms as [|m ms IH]; intros r h; [done|]. cbn. unfold remember.
  destruct (known m h); apply IH.
Qed.

Lemma remember_all_app l1 l2 h : remember_all (l1 ++ l2) h = remember_all l2 (remember_all l1 h).
Proof. revert h. induction l1 as [|m l1 IH]; intros h; [done|]. apply IH. Qed.

Lemma remember_all_old ms h m : m ∈ h → m ∈ remember_all ms h.
Proof.
  revert h. induction ms as [|x ms IH]; intros h Hm; [done|]. cbn. apply IH. unfold remember.
  destruct (known x h); [done|by right].
Qed.
Lemma remember_all_from ms h m : m ∈ remember_all ms h → m ∈ h ∨ m ∈ ms.
Proof.
  revert h. induction ms as [|x ms IH]; intros h; [by left|]. cbn. intros [Hm|Hm]%IH; [|set_solver].
  unfold remember in Hm. destruct (known x h); set_solver.
Qed.
Lemma remember_all_new ms h m : m ∈ ms → ∃ m', m' ∈ remember_all ms h ∧ st_id m' = st_id m.
Proof.
  revert h. induction ms as [|x ms IH]; intros h; [by intros ?%not_elem_of_nil|].
  intros [->|Hm]%elem_of_cons; [|by apply IH]. cbn. unfold remember, known.
  case_bool_decide as Hk.
  - apply list_elem_of_fmap in Hk as (m' & E & Hm'). exists m'. split; [by apply remember_all_old|done].
  - exists x. split; [apply remember_all_old; left|done].
Qed.

Lemma mapR_decode ms : mapR decode_item (stored_dict <$> ms) = Ok (Decoded <$> ms).
Proof.
  assert (∀ m, decode_item (stored_dict m) = Ok (Decoded m)) as Hm.
  { intros m. unfold decode_item. by rewrite stored_from_stored_dict. }
  induction ms as [|m ms IH]; [done|]. cbn [fmap list_fmap mapR]. rewrite Hm. cbn [mbind result_bind].
  by rewrite IH.
Qed.

Lemma ingest_run now m tid source total i part (a : History) h : store_ok (store a) h →
  content m = dumps compact (chunk_payload tid source total i part) →
  ∃ r a', handle_storage_message uuid now m a = (Ok r, a') ∧ store_ok (store a') (remember_all part h).
Proof.
  intros Hok Hc. destruct (save_many_ok now (Decoded <$> part) (store a) h Hok) as (st & Es & Hst).
  rewrite save_all_decoded in Hst. set (cnt := (save_all _ _ _).1) in Es.
  unfold handle_storage_message. rewrite bind_run.
  assert (handle_transport_message uuid now (content m) a =
    (Ok (Ingested (JStr tid) (JInt (Z.of_nat i + 1)) (total <=? i * 100 + 100)%nat cnt), set_store st a)) as ->.
  { unfold handle_transport_message. rewrite Hc, loads_payload by apply chunk_payload_wf.
    unfold chunk_payload.
    match goal with |- context [dget "type" ?d] => change (dget "type" d) with (Some (JStr "history_chunk")) end.
    cbv beta iota.
    rewrite bool_decide_eq_false_2, bool_decide_eq_true_2 by done. unfold _handle_history_chunk.
    match goal with |- context [dget "messages" ?d] => change (dget "messages" d) with (Some (JList (stored_dict <$> part))) end.
    rewrite bind_run. change (py_iter (default (JList []) (Some ?x))) with (py_iter x). cbn [py_iter]. unfold lift.
    rewrite bind_run, mapR_decode.
    rewrite bind_run. unfold on_store. rewrite Es. reflexivity. }
  cbn [is_handled]. rewrite bind_run. destruct (total <=? _)%nat.
  - rewrite bind_run. unfold on_store. cbn [store set_store].
    destruct (latest_clock_ok st _ Hst) as (vc & st' & -> & Hst' & _). eexists _, _. split; [reflexivity|exact Hst'].
  - eexists _, _. split; [reflexivity|exact Hst].
Qed.

Lemma send_all_run now ms tid source total parts j (a : History) h : store_ok (store a) h →
  content <$> ms = imap (λ i p, dumps compact (chunk_payload tid source total (j + i) p)) parts →
  ∃ a', send_all now ms a = (Ok tt, a') ∧ store_ok (store a') (remember_all (mjoin parts) h).
Proof.
  revert parts j a h. induction ms as [|m ms IH]; intros [|p parts] j a h Hok Hc; try done.
  { by exists a. }
  cbn in Hc. injection Hc as Hc Hcs. unfold send_all. rewrite forM_cons, bind_run.
  destruct (ingest_run now m tid source total (j + 0) p a h Hok Hc) as (r & a1 & -> & Hok1).
  cbn [mjoin list_join]. rewrite remember_all_app. apply (IH parts (S j)); [done|].
  rewrite Hcs. apply imap_ext. intros i x _. unfold compose. by replace (j + S i) with (S j + i) by lia.
Qed.

(** C5: one exchange with a provider completes the asker's history.  When the two
    peers agree on what their identifiers and sequence numbers name, the request,
    the streamed chunks (through their JSON texts) and the batches saved go through
    without an exception, the provider keeps its store, and afterwards the asker
    holds all it had and every numbered message of the provider, and nothing else. *)
Theorem recovery_completes now host_b port_b host_a port_a tid a b ha hb :
  store_ok (store a) ha → store_ok (store b) hb → agree ha hb →
  ∃ a' b' h', exchange now host_b port_b host_a port_a tid a b = Some (a', b') ∧
    store_ok (store a') h' ∧ store_ok (store b') hb ∧
    (∀ m, m ∈ ha → m ∈ h') ∧ (∀ m, m ∈ hb → (0 < sender_seq m)%Z → m ∈ h') ∧
    (∀ m, m ∈ h' → m ∈ ha ∨ m ∈ hb).
Proof.
  intros Ha Hb Hagree. unfold exchange, send_recover_request. rewrite bind_run.
  destruct (transfer_string tid a) as (t & a1 & -> & Est1 & Eid1 & Es1). rewrite bind_run.
  destruct (latest_clock_ok (store a) ha Ha) as (vc & st & Ev & Hst & _).
  unfold on_store at 1. rewrite Est1, Ev. rewrite bind_run. cbn [get]. rewrite bind_run.
  destruct (post_run now host_b port_b (recover_request (JStr t) (self_user_id (set_store st a1)) host_a port_a vc) (set_store st a1))
    as (request & a2 & -> & Es2 & Ec2 & Est2 & _).
  cbn [mret M_ret]. rewrite Es2, last_snoc.
  destruct (provide_run now request t _ host_a port_a vc b hb Hb Ec2)
    as (missing & parts & ms & tid' & r & b' & -> & Esb & Ecb & Hparts & Estb & Hmiss).
  assert ((drop (length (sent b)) (sent b')).*2 = ms) as ->.
  { rewrite Esb, drop_app_length, <- list_fmap_compose. apply list_fmap_id. }
  destruct (send_all_run now ms tid' (self_user_id b) (length missing) parts 0 a2 ha) as (a' & -> & Ha');
    [rewrite Est2; exact Hst|exact Ecb|]. rewrite Hparts in Ha'.
  exists a', b', (remember_all missing ha). split; [done|]. split; [done|]. split; [by rewrite Estb|].
  split; [intros m; apply remember_all_old|]. split.
  - intros m Hm Hp. destruct (read_all_ok (store a) ha Ha) as (l & Hl & Hperm & _).
    destruct (cursor_run (store a) l Hl) as (vc' & s' & E' & _ & Hvc). rewrite Ev in E'. injection E' as <- <-.
    destruct (decide (default 0%Z (vc !! st_sender m) < sender_seq m)%Z) as [Hlt|Hge].
    + assert (m ∈ missing) as Hin by (by apply Hmiss).
      destruct (remember_all_new missing ha m Hin) as (m' & Hm' & Eid).
      destruct (remember_all_from _ _ _ Hm') as [Hold|Hnew].
      * by rewrite <- (proj1 (Hagree m' m Hold Hm) Eid).
      * apply Hmiss in Hnew as [Hnew _].
        by rewrite <- (nodup_one_per_id hb (ok_ids _ _ Hb) m' m Hnew Hm Eid).
    + apply remember_all_old. destruct Hvc as [->|(i & Hi & Hg & ->)].
      { rewrite lookup_empty in Hge. cbn in Hge. lia. }
      rewrite (ii_vc _ _ Hi) in Hge. destruct (decide (0 < top (st_sender m) l)%Z) as [Ht|Ht]; cbn in Hge; [|lia].
      destruct (top_attained (st_sender m) l) as [E0|(x & Hx & Exs & Exn)]; [lia|].
      destruct (no_gap_below i l x (sender_seq m) Hi Hg Hx) as (m' & Hm' & Es & En); [unfold id in Hge; lia|].
      rewrite <- (proj2 (Hagree m' m ltac:(by rewrite <- Hperm) Hm)); [by rewrite <- Hperm|congruence|done|lia].
  - intros m [Hm|Hm]%remember_all_from; [by left|right]. by apply Hmiss.
Qed.
End Exchange.

(** Two peers: [a] misses two of the messages of [b] and has one of its own. *)
Definition fresh_store : Store := mkStore (Some 2%Z) no_index false false empty_disk.

Definition saved_store `{Archive} (ms : list StoredMessage) : Store :=
  (forM ms (λ m, _ ← save 1 m; mret tt) fresh_store).2.

Lemma saved_store_ok `{!Archive} `{!ArchiveLaws} ms : store_ok (saved_store ms) (remember_all ms []).
Proof.
  assert (store_ok fresh_store []) as Hfresh.
  { split; [|constructor|apply no_index_is|done]. exists [], []. split; [|done].
    split; [done|]. split; [intros k x Hk; by rewrite lookup_nil in Hk|].
    intros name [x Hn]. cbn in Hn. by rewrite lookup_empty in Hn. }
  unfold saved_store. revert Hfresh. generalize fresh_store ([] : list StoredMessage).
  induction ms as [|m ms IH]; intros s h Hok; [done|]. rewrite forM_cons, bind_run.
  destruct (save_ok 1 s h m Hok) as (s' & -> & Hok' & _). cbn [remember_all]. by apply IH.
Qed.

Definition demo_a : list StoredMessage := [demo_stored "a1" "a:1" 1 5; demo_stored "c1" "c:1" 1 9].
Definition demo_b : list StoredMessage :=
  [demo_stored "a1" "a:1" 1 5; demo_stored "a2" "a:1" 2 6; demo_stored "b1" "b:1" 1 7].
(** [uuid4] of the demonstration: numbered. *)
Definition string_of_Z_nat (n : nat) : string := string_of_Z (Z.of_nat n).
Definition demo_peer (who : string) (ms : list StoredMessage) : History :=
  mkHistory (saved_store ms) who [] [] 0.

Lemma demo_agree : agree (remember_all demo_a []) (remember_all demo_b []).
Proof.
  intros m m'.
  assert (remember_all demo_a [] = reverse demo_a) as -> by (vm_compute; reflexivity).
  assert (remember_all demo_b [] = reverse demo_b) as -> by (vm_compute; reflexivity).
  rewrite !elem_of_reverse. unfold demo_a, demo_b. rewrite !elem_of_cons, !elem_of_nil.
  intros [->|[->|[]]] [->|[->|[->|[]]]]; (split; [|intros E1 E2 _; revert E1 E2]);
    try (intros E; vm_compute in E; discriminate E); try done; intros E; vm_compute in E; discriminate E.
Qed.

Lemma recovery_completes_witness :
  match exchange string_of_Z_nat 20 "b" 1 "a" 1 "" (demo_peer "a:1" demo_a) (demo_peer "b:1" demo_b) with
  | Some (a', _) => result_fmap _ _ (map st_id) (get_recent 10 (disk (store a')))
  | None => Raise RuntimeError
  end = Ok ["a1"; "a2"; "b1"; "c1"] ∧
  ∃ a' b' h', exchange string_of_Z_nat 20 "b" 1 "a" 1 "" (demo_peer "a:1" demo_a) (demo_peer "b:1" demo_b) = Some (a', b') ∧
    store_ok (store a') h' ∧ store_ok (store b') (remember_all demo_b []) ∧
    (∀ m, m ∈ remember_all demo_a [] → m ∈ h') ∧
    (∀ m, m ∈ remember_all demo_b [] → (0 < sender_seq m)%Z → m ∈ h') ∧
    (∀ m, m ∈ h' → m ∈ remember_all demo_a [] ∨ m ∈ remember_all demo_b []).
Proof.
  split; [vm_compute; reflexivity|].
  apply (recovery_completes string_of_Z_nat); [apply saved_store_ok..|apply demo_agree].
Defined.
