(* ===== verification/ControlServer.v ===== *)
(** * The headless peer and its control server ([deploy/peer_node.py])

    A pod is the broadcast node, the observing runtime and, when a directory is given, the
    history service, wired together by [_on_message]; the join probe and the hold-back
    sampler are threads of it, and the HTTP handler answers from it.  The name server and
    the libraries are the parameters of the components; [exn_text] is [str(exc)].  One clock
    stands for [time.time] and [time.monotonic]. *)

From stdpp Require Import prelude gmap strings.
From Stdlib Require Import Ascii.
From S2P Require Import Prelude PyDict PyStr Json PyText Base64 Utf8 Message Security PeerRegistry VectorClock BroadcastNode.
From S2P Require Import StoredMessage MessageStore Recovery Deployment CausalCheck PeerRuntime LogWire.

Local Open Scope string_scope.
Local Open Scope list_scope.

Definition SEEN_SEED_LIMIT : Z := 50000.

(** ** The hold-back sampler *)

Record HoldBackSamples := mkSamples {
  hb_peak : nat;
  hb_first_nonzero : option time;
  hb_last_nonzero : option time;
  hb_samples : nat;
}.

Definition no_samples : HoldBackSamples := mkSamples 0 None None 0.

(** One turn of [_holdback_sampler]. *)
Definition holdback_sample (now : time) (depth : nat) (s : HoldBackSamples) : HoldBackSamples :=
  match depth with
  | 0 => mkSamples (hb_peak s) (hb_first_nonzero s) (hb_last_nonzero s) (S (hb_samples s))
  | _ => mkSamples (Nat.max (hb_peak s) depth) (Some (default now (hb_first_nonzero s))) (Some now) (S (hb_samples s))
  end.

(** ** Values of the answers *)

(** [f(t) if t else None]: zero is false. *)
Definition if_time (o : option time) (f : time → json) : json :=
  match o with Some t => if (t =? 0)%Z then JNull else f t | None => JNull end.

Definition JNat (n : nat) : json := JInt (Z.of_nat n).
Definition JStrs (l : list string) : json := JList (JStr <$> l).

(** ** The request line *)

(** The text up to the first character [c]. *)
Fixpoint before (c : ascii) (s : string) : string :=
  match s with
  | "" => ""
  | String a s => if decide (a = c) then "" else String a (before c s)
  end.

(** [urlparse(target).path] of a target that starts with a slash: the fragment, the query
    and the parameters of the last segment are cut off. *)
Definition url_path (target : string) : string :=
  let p := before "?" (before "#" target) in
  match rsplit1 "/" p with
  | Some (h, t) => h +:+ "/" +:+ before ";" t
  | None => p
  end.

(** What [_respond] writes: the status and the body. *)
Record Response := mkResponse { status_code : Z; body : bytes }.
Definition respond (status : Z) (payload : json) : Response :=
  mkResponse status (utf8_encode (dumps default_style payload)).

(** [self.rfile.read(length) if length else b"{}"]; a negative length reads to the end. *)
Definition read_body (content_length : option string) (input : bytes) : result bytes :=
  n ← match content_length with
      | None => Ok 0%Z
      | Some s => if decide (s = "") then Ok 0%Z else of_option ValueError (py_int s)
      end;
  mret (if (n =? 0)%Z then "{}" else if (n <? 0)%Z then input else str_take (Z.to_nat n) input).

(** [json.loads(raw or b"{}")]: [None] is the decoding error the handler catches. *)
Definition parse_body (raw : bytes) : result (option json) :=
  text ← of_option UnicodeError (utf8_decode (if decide (raw = "") then "{}" else raw));
  mret (loads text).

(** Whether [send] sleeps between messages: [rate and rate > 0]. *)
Definition pacing (rate : json) : result bool :=
  if negb (truthy rate) then Ok false
  else match rate with
  | JInt z | JFloat z => Ok (0 <? z)%Z
  | JBool b => Ok b
  | _ => Raise TypeError
  end.

(** [_hello] and [_probe_peers]: the addresses of the peers that said [hello_ack]. *)
Definition _hello (hp : string * Z) (r : attempt_result) : option string :=
  match r with
  | Reply raw => match loads raw with
                 | Some (JObj d) => if has_type "hello_ack" d then Some (addr hp.1 hp.2) else None
                 | _ => None
                 end
  | _ => None
  end.
Definition _probe_peers (replies : string * Z → attempt_result) (peers : list (string * Z)) : list string :=
  omap (λ hp, _hello hp (replies hp)) peers.

(** [main]: what the environment configures; the pods of the Service, the peers that must
    answer, and the directory of the history, if any. *)
Definition main_args (hostname : string) (env : pydict string string) :
    result (PeerIdentity * Z * Z * option string) :=
  i ← identity_from_env hostname env;
  replicas ← env_int "PEERCHAT_REPLICAS" 3 env;
  min_peers ← env_int "PEERCHAT_MIN_PEERS" (Z.max 1 (replicas - 1)) env;
  mret (i, replicas, min_peers, match dget "PEERCHAT_HISTORY_DIR" env with Some "" => None | d => d end).

(** ** The pod *)

Section Pod.
Context `{Crypto} `{Dns} `{Archive}.
Context (history_uuid : nat → string) (exn_text : exn → string).
Context (identity : PeerIdentity) (replicas : nat) (refresh_interval : time) (min_peers : Z).
Context (security_available : bool).

#[local] Instance pod_registry : PeerRegistry := dns_registry identity replicas refresh_interval.

(** The node as [PeerRuntime.__init__] builds it; [_on_message] does not raise. *)
Definition pod_config : Config :=
  mkConfig (fqdn identity) (chat_port identity) false security_available (Some (λ _, Ok ())) None.

(** [outbox] is what was handed to [node.broadcast]. *)
Record Pod := mkPod {
  node : Node;
  runtime : PeerRuntime;
  history : option HistoryService;
  samples : HoldBackSamples;
  reachable : list string;
  restored_vc : pydict string Z;
  seen_seeded : nat;
  started_at : time;
  outbox : list Message;
}.

Definition set_node x (p : Pod) : Pod :=
  mkPod x (runtime p) (history p) (samples p) (reachable p) (restored_vc p) (seen_seeded p) (started_at p) (outbox p).
Definition set_runtime x (p : Pod) : Pod :=
  mkPod (node p) x (history p) (samples p) (reachable p) (restored_vc p) (seen_seeded p) (started_at p) (outbox p).
Definition set_history x (p : Pod) : Pod :=
  mkPod (node p) (runtime p) x (samples p) (reachable p) (restored_vc p) (seen_seeded p) (started_at p) (outbox p).
Definition set_samples x (p : Pod) : Pod :=
  mkPod (node p) (runtime p) (history p) x (reachable p) (restored_vc p) (seen_seeded p) (started_at p) (outbox p).
Definition set_reachable x (p : Pod) : Pod :=
  mkPod (node p) (runtime p) (history p) (samples p) x (restored_vc p) (seen_seeded p) (started_at p) (outbox p).
Definition add_seeded k (p : Pod) : Pod :=
  mkPod (node p) (runtime p) (history p) (samples p) (reachable p) (restored_vc p) (seen_seeded p + k) (started_at p)
    (outbox p).
Definition add_outbox ms (p : Pod) : Pod :=
  mkPod (node p) (runtime p) (history p) (samples p) (reachable p) (restored_vc p) (seen_seeded p) (started_at p)
    (outbox p ++ ms).

Definition joined (p : Pod) : bool := bool_decide (is_Some (joined_at (runtime p))).
Definition history_enabled (p : Pod) : bool := bool_decide (is_Some (history p)).
(** [len(self.node._hold_back._queue)] *)
Definition holdback_depth (p : Pod) : nat := length (queue (hold_back (node p))).

(** A call of the history service inside [try]: its result, if it gave one. *)
Definition ask_history {A} (m : M HistoryService A) (p : Pod) : option A * Pod :=
  match history p with
  | None => (None, p)
  | Some hs => match m hs with
               | (Ok a, hs) => (Some a, set_history (Some hs) p)
               | (Raise _, hs) => (None, set_history (Some hs) p)
               end
  end.

(** [_seed_seen_set] *)
Definition _seed_seen_set (p : Pod) : Pod :=
  match ask_history (get_recent_messages SEEN_SEED_LIMIT) p with
  | (None, p) => p
  | (Some stored, p) =>
    match seed_seen_set ((λ m, m.1.1.1) <$> stored) (node p) with
    | (Ok seeded, n) => add_seeded seeded (set_node n p)
    | (Raise _, n) => set_node n p
    end
  end.

(** [__init__] and [start]; [history] is the service built on the directory, if any. *)
Definition start_pod (now : time) (ks : KeyState) (service : option HistoryService) : result Pod :=
  let n := init_node ks new_dns_registry in
  match service with
  | None => Ok (mkPod n (start_runtime []) None no_samples [] [] 0 now [])
  | Some hs =>
    let '(started, hs) := Recovery.start hs in
    restored ← started;
    let n := set_causal (merge (vc n) restored) (hold_back n) n in
    let clock := map_to_list (snapshot (vc n)) in
    mret (_seed_seen_set
      (mkPod n (start_runtime clock) (Some hs) no_samples [] (short_vc clock) 0 now []))
  end.

(** The part of [_on_message] that concerns the history: what it makes of a message.  An
    exception counts as a chat message; the clock of the store is that after the call. *)
Definition absorb (now : time) (msg : Message) (p : Pod) : absorbed * Pod :=
  match ask_history (Recovery.handle_message history_uuid now msg) p with
  | (Some (Recovered (Ingested _ _ _ _)), p) =>
    match ask_history (started (λ _, on_store get_latest_vector_clock)) p with
    | (Some clock, p) => (chunk (map_to_list clock), p)
    | (None, p) => (chunk [], p)
    end
  | (Some (Recovered _), p) => (frame, p)
  | (_, p) => (chat, p)
  end.

(** [_on_message] *)
Definition _on_message (now : time) (p : Pod) (msg : Message) : Pod :=
  let '(h, p) := absorb now msg p in set_runtime (observe now h msg (runtime p)) p.

(** An event of the node's loop: what it shows goes through [_on_message]. *)
Definition node_event (now : time) (e : event) (p : Pod) : Pod :=
  let n := (handle pod_config now e (node p)).2 in
  foldl (_on_message now) (set_node n p) (drop (length (delivered (node p))) (delivered n)).

(** [self._history.request_missing_history()]: the peers are the registry's. *)
Definition request_history (now : time) (peers : list (string * Z)) (p : Pod) : Pod :=
  (ask_history (request_missing_history history_uuid now ((λ hp, JList [JStr hp.1; JInt hp.2]) <$> peers) JNull) p).2.

(** The [get_peers] of the registry the pod and its node share. *)
Definition list_peers (now : time) (p : Pod) : list (string * Z) * Pod :=
  match get_peers identity replicas refresh_interval now (peer_registry (node p)) with
  | (Ok peers, r) => (peers, set_node (set_registry r (node p)) p)
  | (Raise _, r) => ([], set_node (set_registry r (node p)) p)
  end.

(** One round of [_probe_loop]: [_recovery_settled] asks for the history the first time,
    and the log is opened after the stored messages are marked as seen. *)
Definition probe (now : time) (replies : string * Z → attempt_result) (p : Pod) : Pod :=
  let '(peers, p) := list_peers now p in
  let p := set_reachable (_probe_peers replies peers) p in
  let due := (min_peers <=? Z.of_nat (length (reachable p)))%Z && negb (joined p) in
  let p := if due && history_enabled p && bool_decide (recovery_requested_at (runtime p) = None)
           then let '(targets, p) := list_peers now p in request_history now targets p else p in
  let rt := probe_round now (history_enabled p) (Z.to_nat min_peers) (length (reachable p)) (holdback_depth p) (runtime p) in
  let p := if due && bool_decide (is_Some (joined_at rt)) then _seed_seen_set p else p in
  set_runtime rt p.

(** [send] *)
Definition send_messages (count : Z) (rate : json) (prefix : string) (draws : nat → string * time)
    (started finished : time) : M Pod json :=
  _ ← lift (pacing rate);
  p ← get;
  let '(ms, rt) := PeerRuntime.send (pod_name identity) prefix (address pod_config) (draws <$> seq 0 (Z.to_nat count)) (runtime p) in
  modify (λ p, add_outbox ms (set_runtime rt p));;
  mret (JObj [("sent", JInt count); ("started", JFloat started); ("finished", JFloat finished);
              ("peer", JStr (pod_name identity))]).

(** ** Introspection *)

(** [DnsPeerRegistry.stats] *)
Definition stats (now : time) (r : DnsPeerRegistry) : json :=
  JObj [("peers", JStrs ((λ hp, addr hp.1 hp.2) <$> cached r)); ("peer_count", JNat (length (cached r)));
        ("cached_age_s", if_time (Some (cached_at r)) (λ t, round2 (now - t)));
        ("last_error", opt_wire (λ e, JStr (exn_text e)) (last_error r));
        ("srv_available", JBool (bool_decide (is_Some resolve_srv)))].

Definition since_start (p : Pod) (t : time) : json := round3 (t - started_at p).
(** [_recovery_took_s] is kept in milliseconds. *)
Definition recovery_took_s (p : Pod) : json := opt_wire (λ ms, JFloat (ms * 1000)) (recovery_took (runtime p)).

Definition status (now : time) (p : Pod) : json :=
  let rt := runtime p in
  JObj [("pod", JStr (pod_name identity)); ("ordinal", JInt (ordinal identity));
        ("address", JStr (address pod_config)); ("vc_key", JStr (short_key (address pod_config)));
        ("joined", JBool (joined p)); ("joined_after_s", if_time (joined_at rt) (since_start p));
        ("uptime_s", since_start p now); ("reachable_peers", JStrs (reachable p)); ("min_peers", JInt min_peers);
        ("delivered", JNat (length (deliveries rt))); ("sent", JNat (length (sent rt)));
        ("holdback_depth", JNat (holdback_depth p));
        ("local_vc", to_wire (short_vc (map_to_list (snapshot (vc (node p))))));
        ("baseline_vc", to_wire (baseline_vc rt)); ("history_enabled", JBool (history_enabled p));
        ("restored_vc_entries", JNat (length (restored_vc p))); ("recovery_chunks", JNat (recovery_chunks rt));
        ("recovery_took_s", recovery_took_s p); ("deliveries_before_ready", JNat (deliveries_before_ready rt));
        ("seen_seeded", JNat (seen_seeded p)); ("discovery", stats now (peer_registry (node p)))].

Definition recovery_stats (now : time) (p : Pod) : json :=
  let rt := runtime p in
  let first := hb_first_nonzero (samples p) in
  let last := hb_last_nonzero (samples p) in
  JObj [("pod", JStr (pod_name identity)); ("uptime_s", since_start p now);
        ("rejoin_s", if_time (joined_at rt) (since_start p)); ("holdback_peak", JNat (hb_peak (samples p)));
        ("history_enabled", JBool (history_enabled p)); ("restored_vc_entries", JNat (length (restored_vc p)));
        ("recovery_chunks", JNat (recovery_chunks rt)); ("recovery_took_s", recovery_took_s p);
        ("deliveries_before_ready", JNat (deliveries_before_ready rt)); ("holdback_depth_now", JNat (holdback_depth p));
        ("holdback_first_nonzero_s", if_time first (since_start p));
        ("holdback_last_nonzero_s", if_time last (since_start p));
        ("holdback_drain_span_s", if_time first (λ f, if_time last (λ l, round3 (l - f))));
        ("delivered", JNat (length (deliveries rt))); ("seen_seeded", JNat (seen_seeded p))].

(** ** The handler *)

Definition deliveries_answer (p : Pod) : json :=
  JObj [("pod", JStr (pod_name identity)); ("baseline_vc", to_wire (baseline_vc (runtime p)));
        ("deliveries", to_wire (deliveries (runtime p)))].
Definition sent_answer (p : Pod) : json :=
  JObj [("pod", JStr (pod_name identity)); ("sent", to_wire (sent (runtime p)))].
Definition not_found : Z * json := (404%Z, JObj [("error", JStr "not found")]).

(** The status and the payload handed to [_respond]. *)
Definition get_answer (now : time) (target : string) (p : Pod) : Z * json :=
  let path := url_path target in
  if decide (path = "/healthz") then (200%Z, JObj [("ok", JBool true)])
  else if decide (path = "/readyz") then
    if joined p then (200%Z, JObj [("joined", JBool true)])
    else (503%Z, JObj [("joined", JBool false); ("reachable", JNat (length (reachable p)))])
  else if decide (path = "/status") then (200%Z, status now p)
  else if decide (path = "/clock") then (200%Z, JObj [("vc", json_of_vc (snapshot (vc (node p))))])
  else if decide (path = "/recovery") then (200%Z, recovery_stats now p)
  else if decide (path = "/deliveries") then (200%Z, deliveries_answer p)
  else if decide (path = "/sent") then (200%Z, sent_answer p)
  else not_found.

Definition do_GET (now : time) (target : string) (p : Pod) : Response :=
  let '(c, payload) := get_answer now target p in respond c payload.

Definition post_answer (draws : nat → string * time) (now finished : time) (target : string)
    (content_length : option string) (input : bytes) : M Pod (Z * json) :=
  let path := url_path target in
  raw ← lift (read_body content_length input);
  parsed ← lift (parse_body raw);
  match parsed with
  | None => mret (400%Z, JObj [("error", JStr "invalid json")])
  | Some j =>
    if decide (path = "/send") then
      match j with
      | JObj d =>
        count ← lift (int_of_json (default (JInt 1) (dget "count" d)));
        result ← send_messages count (default JNull (dget "rate" d)) (py_str (default (JStr "m") (dget "prefix" d)))
                   draws now finished;
        mret (200%Z, result)
      | _ => lift (Raise AttributeError)
      end
    else if decide (path = "/reset") then
      modify (λ p, set_runtime (reset (runtime p)) p);;
      p ← get;
      mret (200%Z, JObj [("reset", JBool true); ("baseline_vc", to_wire (baseline_vc (runtime p)))])
    else mret not_found
  end.

(** An exception ends the connection without an answer. *)
Definition do_POST (draws : nat → string * time) (now finished : time) (target : string)
    (content_length : option string) (input : bytes) : M Pod Response :=
  answer ← post_answer draws now finished target content_length input;
  mret (respond answer.1 answer.2).

(** ** The pod's threads, one step at a time *)

Inductive pod_event :=
  | PNode (e : event)
  | PProbe (replies : string * Z → attempt_result)
  | PSample
  | PPost (draws : nat → string * time) (finished : time) (target : string) (content_length : option string) (input : bytes).

Definition pod_step (now : time) (e : pod_event) (p : Pod) : Pod :=
  match e with
  | PNode e => node_event now e p
  | PProbe replies => probe now replies p
  | PSample => set_samples (holdback_sample now (holdback_depth p) (samples p)) p
  | PPost draws finished target len input => (do_POST draws now finished target len input p).2
  end.

Definition run_pod (es : list (time * pod_event)) (p : Pod) : Pod := foldl (λ p te, pod_step te.1 te.2 p) p es.
End Pod.

Arguments node {_ _ _ _ _} _.
Arguments runtime {_ _ _ _ _} _.
Arguments history {_ _ _ _ _} _.
Arguments samples {_ _ _ _ _} _.
Arguments reachable {_ _ _ _ _} _.
Arguments restored_vc {_ _ _ _ _} _.
Arguments seen_seeded {_ _ _ _ _} _.
Arguments started_at {_ _ _ _ _} _.
Arguments outbox {_ _ _ _ _} _.
Arguments joined {_ _ _ _ _} _.
Arguments history_enabled {_ _ _ _ _} _.
Arguments holdback_depth {_ _ _ _ _} _.
Arguments ask_history {_ _ _ _ _ _} _ _.
Arguments PNode {_ _ _ _} _.
Arguments PProbe {_ _ _ _} _.
Arguments PSample {_ _ _ _}.
Arguments PPost {_ _ _ _} _ _ _ _ _.
