(* ===== verification/ControlFacts.v ===== *)
(** * What the control server promises ([deploy/peer_node.py])

    The state of a pod stays well formed in every run, so every answer is a JSON document
    that reads back as what was answered; a pod is ready only after a handshake with enough
    peers and a recovery that has gone quiet or run out of time; the sampler reports the
    peak and the span of the hold-back queue. *)

From stdpp Require Import prelude gmap strings.
From Stdlib Require Import Ascii.
From S2P Require Import Prelude PyDict PyStr Json PyText Base64 Utf8 Message Security PeerRegistry VectorClock BroadcastNode.
From S2P Require Import StoredMessage MessageStore MessageHistory Recovery Deployment CausalCheck PeerRuntime LogWire ControlServer.

Local Open Scope string_scope.
Local Open Scope list_scope.

(** ** The sampler *)

Definition sample_all (l : list (time * nat)) : HoldBackSamples :=
  foldl (λ s td, holdback_sample td.1 td.2 s) no_samples l.

Definition occupied (l : list (time * nat)) : list (time * nat) := List.filter (λ td, negb (td.2 =? 0)%nat) l.

(** The sampler summarises what it saw: how often it looked, the greatest depth, and the
    first and the last time the queue was not empty. *)
Theorem samples_summarise l :
  sample_all l = mkSamples (foldr Nat.max 0 l.*2) (fst <$> head (occupied l)) (fst <$> last (occupied l)) (length l).
Proof.
  unfold sample_all. induction l as [|[t d] l IH] using rev_ind; [done|].
  rewrite foldl_app, IH. cbn [foldl]. unfold occupied. rewrite List.filter_app, fmap_app, length_app, head_app, last_app, foldr_app.
  assert (∀ a, foldr Nat.max a l.*2 = Nat.max (foldr Nat.max 0 l.*2) a) as Hmax.
  { intros a. clear. induction l as [|[t d] l IH]; cbn; [done|]. rewrite IH. lia. }
  destruct d as [|d]; cbn [holdback_sample List.filter negb Nat.eqb snd fst].
  - cbn [head last hb_peak hb_first_nonzero hb_last_nonzero hb_samples fmap list_fmap foldr]. rewrite Nat.add_1_r. f_equal.
    by destruct (head _).
  - cbn [head last hb_peak hb_first_nonzero hb_last_nonzero hb_samples fmap list_fmap foldr option_fmap option_map].
    rewrite (Hmax (Nat.max _ _)), Nat.add_1_r, Nat.max_0_r. f_equal. by destruct (head _).
Qed.

(** ** The state of a pod *)

Definition runtime_ok (rt : PeerRuntime) : Prop :=
  dwf (baseline_vc rt) ∧ dwf (delivered_vc rt) ∧ Forall (λ r, dwf (r_vc r)) (deliveries rt).

Lemma account_wf vc d : dwf d → dwf (account_all vc d).
Proof.
  intros Hd. unfold account_all. apply foldl_inv; [done|]. intros kc d' _ Hd'. unfold account. destruct (_ <? _)%Z; [|done].
  by apply dwf_dset.
Qed.

Lemma observe_ok now h m rt : runtime_ok rt → runtime_ok (observe now h m rt).
Proof.
  intros (Hb & Hd & Hl). destruct h; cbn; [|by split_and!|].
  - split_and!; [done|by apply account_wf|]. apply Forall_app. split; [done|]. apply Forall_singleton, short_vc_wf.
  - split_and!; [done|by apply account_wf|done].
Qed.

Lemma settled_ok now h d rt : runtime_ok rt → runtime_ok (_recovery_settled now h d rt).2.
Proof. intros Hrt. unfold _recovery_settled. by repeat case_match. Qed.

Lemma probe_round_ok now h k n d rt : runtime_ok rt → runtime_ok (probe_round now h k n d rt).
Proof.
  intros Hrt. unfold probe_round. destruct (_ && _); [|done].
  pose proof (settled_ok now h d rt Hrt) as Hs. destruct (_recovery_settled now h d rt) as [[] rt']; [|done].
  cbn in *. destruct Hs as (_ & Hd & _). split_and!; [done|done|constructor].
Qed.

Lemma start_runtime_ok l : runtime_ok (start_runtime l).
Proof. split_and!; [by apply dwf_nil|apply short_vc_wf|constructor]. Qed.

(** ** Well-formed answers *)

(** What [json.loads] makes of a body. *)
Definition read_bytes (b : bytes) : option json := utf8_decode b ≫= loads.

Lemma respond_reads c j : json_wf j → read_bytes (body (respond c j)) = Some j.
Proof.
  intros Hj. unfold read_bytes, respond. cbn [body]. rewrite utf8_decode_encode. by apply (loads_dumps_wf default_style).
Qed.

Lemma if_time_wf o f : (∀ t, json_wf (f t)) → json_wf (if_time o f).
Proof. intros Hf. destruct o as [t|]; cbn; [|done]. by destruct (t =? 0)%Z. Qed.
Lemma strs_wf l : json_wf (JStrs l).
Proof. apply json_wf_list, Forall_fmap, Forall_true. done. Qed.

Create HintDb answers discriminated.
#[export] Hint Resolve if_time_wf strs_wf counts_wf json_of_vc_wf short_vc_wf : answers.
#[export] Hint Extern 1 (json_wf _) => exact I : answers.

Section Facts.
Context `{Crypto} `{Dns} `{Archive}.
Context (history_uuid : nat → string) (exn_text : exn → string).
Context (identity : PeerIdentity) (replicas : nat) (refresh_interval : time) (min_peers : Z).
Context (security_available : bool).

#[local] Hint Extern 0 PeerRegistry => exact (pod_registry identity replicas refresh_interval) : typeclass_instances.
Abbreviation Pod := (Pod identity replicas refresh_interval).
Abbreviation pod_step := (pod_step history_uuid identity replicas refresh_interval min_peers security_available).
Abbreviation run_pod := (run_pod history_uuid identity replicas refresh_interval min_peers security_available).
Abbreviation probe := (probe history_uuid identity replicas refresh_interval min_peers).
Abbreviation get_answer := (get_answer exn_text identity replicas refresh_interval min_peers security_available).
Abbreviation do_GET := (do_GET exn_text identity replicas refresh_interval min_peers security_available).
Abbreviation post_answer := (post_answer identity replicas refresh_interval security_available).
Abbreviation do_POST := (do_POST identity replicas refresh_interval security_available).

(** What the asides of the probe and of [_on_message] leave alone. *)
Definition core (p : Pod) := (runtime p, reachable p, history_enabled p, holdback_depth p).
Definition aside (p p' : Pod) : Prop := core p' = core p.

#[local] Instance aside_preorder : PreOrder aside.
Proof. split; [done|]. unfold aside. intros p1 p2 p3 ? ?. congruence. Qed.

Lemma ask_history_aside {A} (m : M HistoryService A) (p : Pod) : aside p (ask_history m p).2.
Proof.
  unfold ask_history, aside, core, history_enabled, holdback_depth. destruct (ControlServer.history p) eqn:E; [|cbn; by rewrite E].
  by destruct (m _) as [[] ?]; cbn; rewrite ?E.
Qed.

#[local] Instance hold_back_preorder : PreOrder (λ n n' : Node, hold_back n' = hold_back n).
Proof. split; [done|]. intros n1 n2 n3 ? ?. congruence. Qed.

Lemma seed_keeps stored : keeps (λ n n', hold_back n' = hold_back n) (seed_seen_set stored).
Proof.
  induction stored as [|i stored IH]; cbn [seed_seen_set]; [keeps_tac|].
  apply keeps_bind; [typeclasses eauto| |intros fresh; apply keeps_bind; [typeclasses eauto|exact IH|keeps_tac]].
  unfold deduplicate. keeps_tac. done.
Qed.

Lemma seed_aside (p : Pod) : aside p (_seed_seen_set identity replicas refresh_interval p).
Proof.
  unfold _seed_seen_set. pose proof (ask_history_aside (get_recent_messages SEEN_SEED_LIMIT) p) as Hs.
  destruct (ask_history _ p) as [[l|] p1]; [|done]. etransitivity; [exact Hs|].
  pose proof (seed_keeps ((λ m : string * string * time * string, m.1.1.1) <$> l) (node p1)) as Hh.
  unfold aside, core, holdback_depth. by destruct (seed_seen_set _ _) as [[] n]; cbn in *; rewrite Hh.
Qed.

Lemma absorb_aside now msg (p : Pod) : aside p (absorb history_uuid identity replicas refresh_interval now msg p).2.
Proof.
  unfold absorb. pose proof (ask_history_aside (Recovery.handle_message history_uuid now msg) p) as Hs.
  destruct (ask_history (Recovery.handle_message _ _ _) p) as [[[[]|]|] p1]; try done.
  etransitivity; [exact Hs|].
  pose proof (ask_history_aside (started (λ _, on_store get_latest_vector_clock)) p1) as Hs'.
  by destruct (ask_history (started _) p1) as [[] p2].
Qed.

(** What the node shows is observed. *)
Lemma on_message_runtime now (p : Pod) msg : ∃ h,
  runtime (_on_message history_uuid identity replicas refresh_interval now p msg) = observe now h msg (runtime p).
Proof.
  unfold _on_message. pose proof (absorb_aside now msg p) as Hs. destruct (absorb _ _ _ _ _ _ p) as [h p1].
  exists h. injection Hs as Hs _ _ _. cbn in *. by rewrite Hs.
Qed.

Lemma list_peers_aside now (p : Pod) : aside p (list_peers identity replicas refresh_interval now p).2.
Proof. unfold list_peers. by destruct (get_peers _ _ _ _ _) as [[] ?]. Qed.

Lemma request_aside now peers (p : Pod) : aside p (request_history history_uuid identity replicas refresh_interval now peers p).
Proof. apply ask_history_aside. Qed.

(** A round of the probe finds some peers; the rest of it is [probe_round]. *)
Lemma probe_spec now replies (p : Pod) : ∃ peers,
  reachable (probe now replies p) = _probe_peers replies peers ∧
  runtime (probe now replies p) = probe_round now (history_enabled p) (Z.to_nat min_peers)
    (length (_probe_peers replies peers)) (holdback_depth p) (runtime p).
Proof.
  unfold ControlServer.probe. pose proof (list_peers_aside now p) as Hl.
  destruct (list_peers _ _ _ now p) as [peers p1]. exists peers. cbn [snd] in Hl. injection Hl as Hr _ Hh Hd.
  set (p2 := set_reachable _ _ _ _ p1). set (due := (min_peers <=? _)%Z && negb (joined p2)). set (p3 := if due && _ && _ then _ else p2).
  assert (aside p2 p3) as Ha.
  { unfold p3. case_match; [|done]. pose proof (list_peers_aside now p2) as Hm.
    destruct (list_peers _ _ _ now p2) as [targets p2']. etransitivity; [exact Hm|apply request_aside]. }
  injection Ha as Hr3 Hp3 Hh3 Hd3. set (rt := probe_round _ _ _ _ _ _). set (p4 := if due && _ then _ else p3).
  assert (aside p3 p4) as Hb by (unfold p4; case_match; [apply seed_aside|done]).
  injection Hb as _ Hp4 _ _. unfold set_runtime. cbn [reachable runtime].
  split; [by rewrite Hp4, Hp3|]. unfold rt. rewrite Hr3, Hp3, Hh3, Hd3.
  change (history_enabled p2) with (history_enabled p1). change (holdback_depth p2) with (holdback_depth p1).
  by rewrite Hr, Hh, Hd.
Qed.

(** *** The invariant *)

Definition pod_ok (p : Pod) : Prop := runtime_ok (runtime p).

Lemma node_event_runtime (P : PeerRuntime → Prop) now e (p : Pod) : (∀ h m rt, P rt → P (observe now h m rt)) →
  P (runtime p) → P (runtime (node_event history_uuid identity replicas refresh_interval security_available now e p)).
Proof.
  intros Ho Hp. unfold node_event. apply (foldl_inv (λ p, P (runtime p))); [done|].
  intros m p' _ Hp'. destruct (on_message_runtime now p' m) as [h ->]. by apply Ho.
Qed.

(** A request changes the pod through [send] or [reset] only, and not when it raises. *)
Lemma post_effect draws now finished target len input (p : Pod) :
  match do_POST draws now finished target len input p with
  | (Ok _, p') => p' = p ∨
      (∃ pn pre ad ds, runtime p' = (PeerRuntime.send pn pre ad ds (runtime p)).2) ∨ runtime p' = reset (runtime p)
  | (Raise _, p') => p' = p
  end.
Proof.
  unfold ControlServer.do_POST, ControlServer.post_answer, send_messages. rewrite !bind_run. cbn [lift].
  destruct (read_body len input) as [raw|]; [|done]. rewrite bind_run. cbn [lift]. destruct (parse_body raw) as [[j|]|]; [|by left|done].
  case_decide.
  - destruct j; try done. rewrite !bind_run. cbn [lift]. destruct (int_of_json _) as [count|]; [|done]. rewrite !bind_run. cbn [lift].
    destruct (pacing _); [|done]. rewrite bind_run. cbn. right. left. by eexists "", "", "", _.
  - case_decide; [|by left]. by right; right.
Qed.

Lemma pod_step_ok now e (p : Pod) : pod_ok p → pod_ok (pod_step now e p).
Proof.
  intros Hp. destruct e as [e|replies| |draws finished target len input]; cbn [ControlServer.pod_step].
  - apply (node_event_runtime runtime_ok); [intros; by apply observe_ok|done].
  - unfold pod_ok. destruct (probe_spec now replies p) as (peers & _ & ->). by apply probe_round_ok.
  - done.
  - pose proof (post_effect draws now finished target len input p) as Hpost.
    destruct (do_POST draws now finished target len input p) as [[r|e] p']; cbn [snd]; [|by rewrite Hpost].
    destruct Hp as (Hb & Hd & Hl). unfold pod_ok, runtime_ok.
    destruct Hpost as [->|[(pn & pre & ad & ds & ->)| ->]]; [done|by split_and!|]. split_and!; [done..|constructor].
Qed.

Lemma start_ok now ks service (p : Pod) : start_pod identity replicas refresh_interval now ks service = Ok p → pod_ok p.
Proof.
  unfold start_pod. destruct service as [hs|]; [|intros [= <-]; apply start_runtime_ok].
  destruct (Recovery.start hs) as [[restored|] hs']; [|done]. cbn. intros [= <-].
  unfold pod_ok. set (p0 := mkPod _ _ _ _ _ _ _ _ _ _ _ _). pose proof (seed_aside p0) as Hs. injection Hs as -> _ _ _.
  apply start_runtime_ok.
Qed.

Lemma run_pod_ok es (p : Pod) : pod_ok p → pod_ok (run_pod es p).
Proof.
  intros Hp. unfold ControlServer.run_pod. apply foldl_inv; [done|]. intros te p' _. apply pod_step_ok.
Qed.

(** *** Answers *)

Lemma get_answer_wf now target (p : Pod) : pod_ok p →
  json_wf (get_answer now target p).2 ∧ (get_answer now target p).1 ∈ [200; 404; 503]%Z.
Proof.
  intros (Hb & Hd & Hl). unfold ControlServer.get_answer.
  assert (∀ r, json_wf (stats exn_text now r)) as Hstats.
  { intros r. unfold stats. obj_wf; eauto with answers. by destruct (last_error r). }
  assert (json_wf (recovery_took_s identity replicas refresh_interval p)) as Htook.
  { unfold recovery_took_s. by destruct (recovery_took _). }
  assert (json_wf (to_wire (short_vc (map_to_list (snapshot (vc (node p))))))) as Hlocal.
  { apply (to_wire_wf (A:=pydict string Z)), short_vc_wf. }
  assert (json_wf (to_wire (baseline_vc (runtime p)))) as Hbase by by apply (to_wire_wf (A:=pydict string Z)).
  repeat case_decide; [|destruct (joined p)|..]; cbn [fst snd]; (split; [|set_solver]); try (by obj_wf).
  - unfold ControlServer.status. obj_wf; eauto with answers.
  - obj_wf. apply json_of_vc_wf.
  - unfold recovery_stats. obj_wf; eauto with answers.
  - unfold deliveries_answer. obj_wf; [done|done|]. by apply (to_wire_wf (A:=list Delivery)).
  - unfold sent_answer. obj_wf; [done|]. apply (to_wire_wf (A:=list SentRecord)), Forall_true. done.
Qed.

Lemma post_answer_wf draws now finished target len input (p p' : Pod) c j : pod_ok p →
  post_answer draws now finished target len input p = (Ok (c, j), p') → json_wf j ∧ c ∈ [200; 400; 404]%Z.
Proof.
  intros (Hb & Hd & Hl). unfold ControlServer.post_answer, send_messages. rewrite !bind_run. cbn [lift].
  destruct (read_body len input) as [raw|]; [|done]. rewrite bind_run. cbn [lift]. destruct (parse_body raw) as [[x|]|]; [| |done].
  2: { intros [= <- <- _]. split; [by obj_wf|set_solver]. }
  case_decide.
  - destruct x; try done. rewrite !bind_run. cbn [lift]. destruct (int_of_json _) as [count|]; [|done]. rewrite !bind_run. cbn [lift].
    destruct (pacing _); [|done]. rewrite bind_run. cbn. intros [= <- <- _]. split; [by obj_wf|set_solver].
  - case_decide; [|intros [= <- <- _]; split; [by obj_wf|set_solver]]. rewrite !bind_run. cbn. intros [= <- <- _].
    split; [obj_wf; [done|]|set_solver]. by apply counts_wf.
Qed.


(** *** Readiness *)

(** History recovery is not in use, or was asked for and has gone quiet with nothing held
    back, or has had its time. *)
Definition settled (now : time) (h : bool) (d : nat) (rt : PeerRuntime) : Prop :=
  h = false ∨ ∃ asked, recovery_requested_at rt = Some asked ∧
    ((RECOVERY_MAX ≤ now - asked)%Z ∨ ((RECOVERY_SETTLE ≤ now - default asked (recovery_last_chunk_at rt))%Z ∧ d = 0)).

Lemma settled_spec now h d rt : (_recovery_settled now h d rt).1 = true ↔ settled now h d rt.
Proof.
  unfold _recovery_settled, settled. destruct h; cbn [negb]; [|split; [by left|done]].
  destruct (recovery_requested_at rt) as [asked|]; [|split; [done|by intros [?|(? & ? & _)]]].
  transitivity ((RECOVERY_MAX ≤ now - asked)%Z ∨ ((RECOVERY_SETTLE ≤ now - default asked (recovery_last_chunk_at rt))%Z ∧ d = 0)).
  - destruct (Z.ltb_spec (now - default asked (recovery_last_chunk_at rt)) RECOVERY_SETTLE), (Z.ltb_spec (now - asked) RECOVERY_MAX),
      (Z.ltb_spec 0 (Z.of_nat d)); cbn; split; intros; try done; lia.
  - split; [by right; exists asked|]. intros [?|(a & [= ->] & ?)]; [done|done].
Qed.

Lemma settled_fields now h d rt : let rt' := (_recovery_settled now h d rt).2 in
  joined_at rt' = joined_at rt ∧
  (∀ a, recovery_requested_at rt = Some a → recovery_requested_at rt' = Some a) ∧
  (h = true → recovery_requested_at rt = None → recovery_requested_at rt' = Some now).
Proof. unfold _recovery_settled. destruct h; repeat case_match; cbn; split_and!; intros; simpl in *; congruence. Qed.

Lemma probe_round_joins now h k n d rt : joined_at rt = None → let rt' := probe_round now h k n d rt in
  (is_Some (joined_at rt') ↔ (k ≤ n)%nat ∧ settled now h d rt) ∧
  (is_Some (joined_at rt') → deliveries rt' = [] ∧ baseline_vc rt' = delivered_vc rt').
Proof.
  intros Hn rt'. rewrite <- settled_spec. unfold rt', probe_round. clear rt'. rewrite Hn, bool_decide_eq_false_2 by (by intros []).
  destruct (settled_fields now h d rt) as (Hj & _). destruct (_recovery_settled now h d rt) as [ok rt']. cbn in Hj |- *.
  destruct (Nat.leb_spec k n); cbn; [|split; [|intros [? ?]; congruence]; split; [intros [? ?]; congruence|lia]].
  destruct ok; cbn; rewrite ?Hj, ?Hn.
  - split; [|done]. by split; [|eexists].
  - split; [|by intros []]. split; [by intros []|by intros []].
Qed.

Lemma probe_round_keeps now h k n d rt : let rt' := probe_round now h k n d rt in
  (is_Some (joined_at rt) → joined_at rt' = joined_at rt) ∧
  (∀ a, recovery_requested_at rt = Some a → recovery_requested_at rt' = Some a).
Proof.
  unfold probe_round. destruct (_ && _) eqn:E; [|done]. zbool.
  destruct (settled_fields now h d rt) as (Hj & Ha & _). destruct (_recovery_settled now h d rt) as [[] rt']; cbn in *.
  - split; [done|]. intros a Hr. by apply Ha.
  - split; [by intros|done].
Qed.

(** What every step keeps: a joined pod stays joined, a request for history stays made. *)
Lemma step_keeps now e (p : Pod) : let p' := pod_step now e p in
  (joined p = true → joined p' = true) ∧
  (∀ a, recovery_requested_at (runtime p) = Some a → recovery_requested_at (runtime p') = Some a) ∧
  ((∀ replies, e ≠ PProbe replies) → joined p' = joined p).
Proof.
  assert (∀ p' : Pod, joined_at (runtime p') = joined_at (runtime p) ∧
    recovery_requested_at (runtime p') = recovery_requested_at (runtime p) →
    (joined p = true → joined p' = true) ∧
    (∀ a, recovery_requested_at (runtime p) = Some a → recovery_requested_at (runtime p') = Some a) ∧
    ((∀ replies, e ≠ PProbe replies) → joined p' = joined p)) as Hsame.
  { intros p' [Hj Hr]. unfold joined. by rewrite Hj, Hr. }
  destruct e as [e|replies| |draws finished target len input]; cbn [ControlServer.pod_step].
  - apply Hsame. apply (node_event_runtime (λ rt, joined_at rt = joined_at (runtime p) ∧
      recovery_requested_at rt = recovery_requested_at (runtime p))); [|done]. by intros [] m rt.
  - destruct (probe_spec now replies p) as (peers & _ & Hr). unfold joined. rewrite Hr.
    destruct (probe_round_keeps now (history_enabled p) (Z.to_nat min_peers) (length (_probe_peers replies peers))
      (holdback_depth p) (runtime p)) as [Hj Ha].
    split_and!; [|exact Ha|by intros Hn; destruct (Hn replies)]. rewrite !bool_decide_eq_true. intros Hs. by rewrite Hj.
  - by apply Hsame.
  - apply Hsame. pose proof (post_effect draws now finished target len input p) as He.
    destruct (do_POST draws now finished target len input p) as [[r|e] p']; cbn [snd]; [|by rewrite He].
    destruct He as [->|[(pn & pre & ad & ds & ->)| ->]]; done.
Qed.

(** An address that answered the hello of this round. *)
Definition said_hello (replies : string * Z → attempt_result) (a : string) : Prop :=
  ∃ hp raw d, a = addr hp.1 hp.2 ∧ replies hp = Reply raw ∧ loads raw = Some (JObj d) ∧ has_type "hello_ack" d = true.

Lemma probed_said_hello replies peers : Forall (said_hello replies) (_probe_peers replies peers).
Proof.
  apply Forall_forall. intros a (hp & _ & Ha)%list_elem_of_omap. unfold _hello in Ha.
  destruct (replies hp) as [| |raw] eqn:Er; [done|done|]. destruct (loads raw) as [[]|] eqn:El; try done.
  destruct (has_type _ _) eqn:Et; [|done]. injection Ha as <-. by exists hp, raw, d.
Qed.

Lemma readyz_status t (p : Pod) : (get_answer t "/readyz" p).1 = if joined p then 200%Z else 503%Z.
Proof.
  unfold ControlServer.get_answer. change (url_path "/readyz") with "/readyz".
  rewrite decide_False, decide_True by done. by destruct (joined p).
Qed.


Lemma probe_round_asks now h k n d rt : joined_at rt = None → (k ≤ n)%nat → let rt' := probe_round now h k n d rt in
  is_Some (joined_at rt') ∨
  ∃ a, recovery_requested_at rt' = Some a ∧ (a = now ∨ recovery_requested_at rt = Some a).
Proof.
  intros Hn Hk. unfold probe_round. rewrite Hn, bool_decide_eq_false_2 by (by intros []).
  rewrite (proj2 (Nat.leb_le k n) Hk). pose proof (settled_spec now h d rt) as Hs.
  destruct (settled_fields now h d rt) as (_ & Ha & Hask). destruct (_recovery_settled now h d rt) as [[] rt']; cbn in *.
  - left. by eexists.
  - right. destruct h; cycle 1. { assert (false = true); [|done]. apply Hs. by left. }
    destruct (recovery_requested_at rt) as [a|]; [exists a; auto|exists now; auto].
Qed.

Lemma run_keeps es (p : Pod) : let p' := run_pod es p in
  (joined p = true → joined p' = true) ∧
  (∀ a, recovery_requested_at (runtime p) = Some a → recovery_requested_at (runtime p') = Some a).
Proof.
  revert p. induction es as [|[t e] es IH]; intros p; [done|]. destruct (IH (pod_step t e p)) as [Hj Ha].
  destruct (step_keeps t e p) as (Hj1 & Ha1 & _). split; [intros; by apply Hj, Hj1|intros; by apply Ha, Ha1].
Qed.

(** C27: A pod joins in time.  Whatever the recovery does, whether its chunks never stop or
    never come, or messages stay held back: a pod that finds enough peers in one round of
    the probe has joined after any round, thirty seconds later, in which it finds them
    again. *)
Theorem joins_in_time t1 t2 r1 r2 es (p : Pod) : (t1 + RECOVERY_MAX ≤ t2)%Z →
  (∀ a, recovery_requested_at (runtime p) = Some a → (a ≤ t1)%Z) →
  let p1 := pod_step t1 (PProbe r1) p in
  let p3 := pod_step t2 (PProbe r2) (run_pod es p1) in
  (min_peers ≤ Z.of_nat (length (reachable p1)))%Z → (min_peers ≤ Z.of_nat (length (reachable p3)))%Z →
  joined p3 = true.
Proof.
  intros Ht Ha p1 p3 Hn1 Hn3. set (p2 := run_pod es p1) in *. destruct (run_keeps es p1) as [Hj Hr]. fold p2 in Hj, Hr.
  destruct (joined p2) eqn:E2. { by apply (step_keeps t2 (PProbe r2) p2). }
  destruct (joined p1) eqn:E1. { specialize (Hj eq_refl). congruence. }
  destruct (joined p) eqn:E0. { destruct (step_keeps t1 (PProbe r1) p) as [Hk _]. fold p1 in Hk. specialize (Hk E0). congruence. }
  assert (∀ q : Pod, joined q = false → joined_at (runtime q) = None) as Hnone.
  { intros q Hq. unfold joined in Hq. zbool. by apply eq_None_not_Some. }
  destruct (probe_spec t1 r1 p) as (peers & Hp1 & Hr1). change (probe t1 r1 p) with p1 in Hp1, Hr1. rewrite Hp1 in Hn1.
  destruct (probe_round_asks t1 (history_enabled p) (Z.to_nat min_peers) (length (_probe_peers r1 peers)) (holdback_depth p) (runtime p))
    as [Hs|(a & Hreq & Hle)]; [by apply Hnone|lia| |].
  { rewrite <- Hr1, Hnone in Hs by done. by destruct Hs. }
  rewrite <- Hr1 in Hreq. apply Hr in Hreq. assert (a ≤ t1)%Z as Hat by (destruct Hle as [->|?]; [lia|by apply Ha]).
  destruct (probe_spec t2 r2 p2) as (peers3 & Hp3 & Hr3). change (probe t2 r2 p2) with p3 in Hp3, Hr3. rewrite Hp3 in Hn3.
  destruct (probe_round_joins t2 (history_enabled p2) (Z.to_nat min_peers) (length (_probe_peers r2 peers3)) (holdback_depth p2) (runtime p2))
    as [[_ Hjoin] _]; [by apply Hnone|].
  unfold joined. rewrite Hr3. apply bool_decide_eq_true, Hjoin. split; [lia|]. right. exists a. split; [done|]. left. lia.
Qed.
End Facts.

(** ** A pod with a history *)
Module ControlDemo.
Import Toy.

(** Every name resolves. *)
#[local] Instance demo_dns : Dns := {| resolve_srv := None; lookup := λ _ _ _, Ok () |}.
Definition me : PeerIdentity := Deployment.pod "chat-1" 1.
Definition demo_uuid (n : nat) : string := string_of_Z (Z.of_nat n).
Definition demo_text (e : exn) : string := "error".
Definition demo_service : HistoryService := mkService (fqdn me) (chat_port me) false empty_disk None.
Definition demo_pod : result (Pod me 2 (seconds 5)) :=
  start_pod me 2 (seconds 5) (seconds 1) (mkKeys None ∅) (Some demo_service).
Definition hello_ack (hp : string * Z) : attempt_result :=
  Reply (dumps default_style (JObj [("type", JStr "hello_ack"); ("sender", JStr (addr hp.1 hp.2))])).
Definition other : string := "chat-0.peerchat-hl.chat.svc.cluster.local:5678".
Definition said (i : string) (tick : Z) : Message := mkMessage "hi" other i 1000000 "" 10 {[other := tick]}.
Definition two_draws (n : nat) : string * time := (demo_uuid n, seconds 3).

(** The pod asks for the history, hears a message, and joins once it is quiet. *)
Definition demo_events : list (time * pod_event me 2 (seconds 5)) :=
  [(seconds 2, PProbe hello_ack); (seconds 3, PNode (EFrame "x" (to_json (said "m1" 1)))); (seconds 3, PNode EReceive);
   (seconds 4, PSample); (seconds 6, PProbe hello_ack);
   (seconds 7, PPost two_draws (seconds 7) "/send" (Some "11") (dumps compact (JObj [("count", JInt 2)])))].
Definition demo_run (es : list (time * pod_event me 2 (seconds 5))) : Pod me 2 (seconds 5) → Pod me 2 (seconds 5) :=
  run_pod demo_uuid me 2 (seconds 5) 1 true es.
Definition demo_get (target : string) : Pod me 2 (seconds 5) → Response :=
  do_GET demo_text me 2 (seconds 5) 1 true (seconds 8) target.
(** The pod just started, and after the first four events. *)
Definition fresh_pod : Pod me 2 (seconds 5) :=
  match demo_pod with
  | Ok p => p
  | Raise _ => mkPod me 2 (seconds 5) (@init_node _ (pod_registry me 2 (seconds 5)) (mkKeys None ∅) new_dns_registry) (start_runtime []) None no_samples [] [] 0 0 []
  end.
Definition waiting_pod : Pod me 2 (seconds 5) := demo_run (take 4 demo_events) fresh_pod.



(** A chunk of history keeps the recovery from going quiet. *)
Definition empty_chunk : Message :=
  new_message (dumps compact (JObj [("type", JStr "history_chunk"); ("messages", JList [])])) other "c1" 0.
Lemma joins_in_time_witness :
  let p1 := pod_step demo_uuid me 2 (seconds 5) 1 true (seconds 2) (PProbe hello_ack) fresh_pod in
  let p2 := demo_run [(seconds 31, PNode (EFrame "x" (to_json empty_chunk))); (seconds 31, PNode EReceive)] p1 in
  joined p2 = false ∧ recovery_chunks (runtime p2) = 1 ∧
  joined (pod_step demo_uuid me 2 (seconds 5) 1 true (seconds 32) (PProbe hello_ack) p2) = true.
Proof.
  split; [by vm_compute|]. split; [by vm_compute|].
  apply (joins_in_time demo_uuid me 2 (seconds 5) 1 true (seconds 2) (seconds 32) hello_ack hello_ack _ fresh_pod);
    [by vm_compute|intros a Ha; by vm_compute in Ha|by vm_compute|by vm_compute].
Defined.
End ControlDemo.
