(* ===== verification/Driver.v ===== *)
(** * The harness's driver ([harness/driver.py])

    The driver waits until every pod is ready, resets their logs, has the senders originate
    the messages, waits until everything is delivered or nothing moves any more, collects
    the logs and lets the checker judge them.  The world it runs in, the clock and the
    network, is the class [Host].  The requests of a thread pool are made one after the
    other, in the order of their results; the report is printed as in
    [Report.v], and the progress lines and the dump of the raw logs are not modelled. *)

From stdpp Require Import prelude gmap strings.
From Stdlib Require Import Ascii.
From S2P Require Import Prelude PyDict PyStr Json Base64 Utf8 CausalCheck PeerRuntime LogWire.

Local Open Scope string_scope.
Local Open Scope list_scope.

(** [urlopen] gives the body of an answer with a status below 400, and raises otherwise. *)
Class Host := {
  world : Type;
  time_now : world → time;
  sleep : time → world → world;
  urlopen : string → option bytes → time → M world bytes;
}.

(** The clock does not go back, and sleeping takes at least its time. *)
Class HostLaws `{Host} : Prop := {
  sleep_passes d w : (time_now w + d ≤ time_now (sleep d w))%Z;
  urlopen_passes url data t w : (time_now w ≤ time_now (urlopen url data t w).2)%Z;
}.

(** ** Addresses *)

Definition peer_url (stem service namespace domain : string) (port : Z) (i : nat) : string :=
  "http://" +:+ stem +:+ "-" +:+ string_of_Z (Z.of_nat i) +:+ "." +:+ service +:+ "." +:+ namespace +:+ ".svc." +:+ domain +:+
  ":" +:+ string_of_Z port.

Definition peer_urls (service namespace domain : string) (replicas port : Z) (stem : string) : list string :=
  peer_url stem service namespace domain port <$> seq 0 (Z.to_nat replicas).

(** [s.split("//", 1)[1]] *)
Fixpoint after_slashes (s : string) : option string :=
  match s with
  | "" => None
  | String _ s' => if startswith "//" s then Some (str_drop 2 s) else after_slashes s'
  end.

(** [url.split("//", 1)[1].split(".", 1)[0]] *)
Definition pod_guess (url : string) : result string :=
  rest ← of_option IndexError (after_slashes url); mret (short_key rest).

(** ** The plan *)

(** [per_sender + (1 if i < remainder else 0)] for every sender. *)
Definition plan (messages : Z) (senders : nat) : result (list Z) :=
  if decide (senders = 0) then Raise ZeroDivisionError
  else
    let per_sender := (messages / Z.of_nat senders)%Z in
    let remainder := (messages - per_sender * Z.of_nat senders)%Z in
    mret ((λ i, if (Z.of_nat i <? remainder)%Z then per_sender + 1 else per_sender)%Z <$> seq 0 senders).

(** ** Loops *)

(** [while]: a turn goes on with a new state, or ends with a result; [None] is the end of
    the fuel. *)
Fixpoint repeat_until {S A B} (fuel : nat) (turn : A → M S (A + B)) (a : A) : M S (option B) :=
  match fuel with
  | 0 => mret None
  | S fuel => r ← turn a; match r with inl a => repeat_until fuel turn a | inr b => mret (Some b) end
  end.

(** [[f(x) for x in l]] *)
Fixpoint mapM {S A B} (f : A → M S B) (l : list A) : M S (list B) :=
  match l with [] => mret [] | x :: l => y ← f x; ys ← mapM f l; mret (y :: ys) end.

(** What [wait_convergence] returns; [reason] is there when nothing converged. *)
Record Convergence := mkConvergence {
  converged : bool;
  reason : option string;
  conv_seconds : json;
  counts : pydict string json;
}.

Record Args := mkArgs {
  messages : Z;
  peers : Z;
  senders : Z;
  rate : json;
  service : string;
  namespace : string;
  domain : string;
  stem : string;
  control_port : Z;
  prefix : string;
  ready_timeout : time;
  converge_timeout : time;
}.

Record Report := mkReport {
  ready_wait_s : json;
  messages_planned : Z;
  plan_by_pod : pydict string Z;
  send_wall_s : json;
  send_throughput_msg_s : json;
  convergence : Convergence;
  analysis : Analysis;
  send_results : list json;
  raw_deliveries : pydict string (list Delivery);
  raw_sent : pydict string (list SentRecord);
  raw_baselines : pydict string (pydict string Z);
}.

Section Driver.
Context `{Host}.
Context (exn_text : exn → string).

(** [time.time()] *)
Definition now : M world time := λ w, (Ok (time_now w), w).
Definition pause (d : time) : M world unit := modify (sleep d).

(** [_request] *)
Definition _request (url : string) (payload : option json) (timeout : time) : M world json :=
  raw ← urlopen url ((λ j, utf8_encode (dumps default_style j)) <$> payload) timeout;
  text ← lift (of_option UnicodeError (utf8_decode raw));
  lift (of_option JSONDecodeError (loads text)).

(** ** [wait_ready]; a set of addresses is visited in the order of the list. *)

(** One pass over the pending peers: those still pending. *)
Fixpoint ready_round (urls : list string) : M world (list string) :=
  match urls with
  | [] => mret []
  | url :: urls =>
    ok ← try_except (_request (url +:+ "/readyz") None (seconds 5);; mret true) (λ _, mret false);
    rest ← ready_round urls;
    mret (if (ok : bool) then rest else url :: rest)
  end.

Definition ready_turn (started timeout : time) (pending : list string) : M world (list string + list string) :=
  t ← now;
  if bool_decide (pending = []) || (timeout <=? t - started)%Z then mret (inr pending)
  else
    left ← ready_round pending;
    (if bool_decide (left = []) then mret tt else pause (seconds 1));;
    mret (inl left).

Definition wait_ready (fuel : nat) (urls : list string) (timeout : time) : M world (option time) :=
  started ← now;
  r ← repeat_until fuel (ready_turn started timeout) urls;
  match r with
  | None => mret None
  | Some [] => t ← now; mret (Some (t - started)%Z)
  | Some _ => lift (Raise TimeoutError)
  end.

(** ** [wait_convergence] *)

(** One poll of every peer's [/status]; a peer that does not answer counts as -1. *)
Fixpoint poll_round (urls : list string) (found : pydict string json) : M world (pydict string json) :=
  match urls with
  | [] => mret found
  | url :: urls =>
    n ← try_except (j ← _request (url +:+ "/status") None (seconds 10); lift (read "delivered" j)) (λ _, mret (JInt (-1)));
    poll_round urls (dset url n found)
  end.

(** The loop's variables: [last_total], [last_progress], and [counts] once it is bound. *)
Definition conv_state : Type := Z * time * option (pydict string json).

Definition conv_result (ok : bool) (why : option string) (started : time) (found : pydict string json) : M world Convergence :=
  t ← now; mret (mkConvergence ok why (round2 (t - started)) found).

Definition conv_turn (urls : list string) (expected : Z) (started timeout stall_after : time) (s : conv_state) :
    M world (conv_state + Convergence) :=
  let '(last_total, last_progress, found) := s in
  t ← now;
  if (timeout <=? t - started)%Z then
    found ← lift (of_option NameError found);
    c ← conv_result false (Some "timeout") started found; mret (inr c)
  else
    found ← poll_round urls [];
    ns ← lift (mapR as_int (dvalues found));
    let total := sum_Z (Z.max 0 <$> ns) in
    if forallb (λ n, (expected <=? n)%Z) ns then
      c ← conv_result true None started found; mret (inr c)
    else
      t ← now;
      if negb (total =? last_total)%Z then
        pause (seconds 2);; mret (inl (total, t, Some found))
      else if (stall_after <? t - last_progress)%Z then
        c ← conv_result false (Some ("no progress for " +:+ string_of_float stall_after +:+ "s")) started found; mret (inr c)
      else
        pause (seconds 2);; mret (inl (last_total, last_progress, Some found)).

Definition STALL_AFTER : time := seconds 30.

Definition wait_convergence (fuel : nat) (urls : list string) (expected : Z) (timeout : time) : M world (option Convergence) :=
  started ← now; last_progress ← now;
  repeat_until fuel (conv_turn urls expected started timeout STALL_AFTER) ((-1)%Z, last_progress, None).

(** ** [collect] *)

Definition Log : Type := string * list Delivery * list SentRecord * pydict string Z.

(** A peer that cannot be reached has empty logs. *)
Definition fetch (url : string) : M world Log :=
  guess ← lift (pod_guess url);
  r ← try_except (d ← _request (url +:+ "/deliveries") None (seconds 600); s ← _request (url +:+ "/sent") None (seconds 600);
                  mret (Some (d, s))) (λ _, mret None);
  match r with
  | None => mret (guess, [], [], [])
  | Some (d, s) =>
    pod ← lift (read "pod" d ≫= as_str);
    deliveries ← lift (read "deliveries" d ≫= of_wire);
    sent ← lift (read "sent" s ≫= of_wire);
    baseline ← lift (match jget "baseline_vc" d with None => Ok [] | Some j => of_wire j end);
    mret (pod, deliveries, sent, baseline)
  end.

(** The dictionaries of the logs, by pod. *)
Definition by_pod {A} (f : Log → A) (logs : list Log) : pydict string A :=
  foldl (λ d l, dset l.1.1.1 (f l) d) [] logs.
Definition log_deliveries (l : Log) : list Delivery := l.1.1.2.
Definition log_sent (l : Log) : list SentRecord := l.1.2.
Definition log_baseline (l : Log) : pydict string Z := l.2.

Definition collect (urls : list string) : M world (list Log) := mapM fetch urls.

(** ** [run] *)

Definition _drive (args : Args) (url : string) (count : Z) : M world json :=
  try_except
    (_request (url +:+ "/send") (Some (JObj [("count", JInt count); ("rate", rate args); ("prefix", JStr (prefix args))])) (seconds 600))
    (λ e, pod ← lift (pod_guess url);
          mret (JObj [("peer", JStr pod); ("requested", JInt count); ("error", JStr (exn_text e)); ("interrupted", JBool true)])).

(** [round(messages / send_wall, 1) if send_wall else None] *)
Definition throughput (messages : Z) (wall : time) : json :=
  if (wall =? 0)%Z then JNull else JFloat (round_div (messages * 10000000) wall * 100000).

Definition urls_of (args : Args) : list string :=
  peer_urls (service args) (namespace args) (domain args) (peers args) (control_port args) (stem args).

Definition reset_all (urls : list string) : M world unit :=
  forM urls (λ url, try_except (_request (url +:+ "/reset") (Some (JObj [])) (seconds 600);; mret tt) (λ _, mret tt)).

(** The origination: the results in the order of the senders, and the time it took. *)
Definition originate (args : Args) (jobs : list (string * Z)) : M world (list json * time) :=
  t0 ← now;
  results ← mapM (λ un, _drive args un.1 un.2) jobs;
  t1 ← now;
  mret (results, (t1 - t0)%Z).

(** [{url.split("//", 1)[1].split(".", 1)[0]: n for url, n in jobs}] *)
Definition plan_names (jobs : list (string * Z)) : result (pydict string Z) :=
  named ← mapR (λ un, pod ← pod_guess un.1; mret (pod, un.2)) jobs;
  mret (foldl (λ d kn, dset kn.1 kn.2 d) [] named).

(** [urls[: args.senders]] *)
Definition py_take {A} (k : Z) (l : list A) : list A :=
  if (k <? 0)%Z then take (length l - Z.to_nat (- k)) l else take (Z.to_nat k) l.

Definition run (fuel : nat) (args : Args) : M world (option Report) :=
  let urls := urls_of args in
  let sending := py_take (senders args) urls in
  ready ← wait_ready fuel urls (ready_timeout args);
  match ready with
  | None => mret None
  | Some ready_s =>
    reset_all urls;;
    planned ← lift (plan (messages args) (length sending));
    let jobs := zip sending planned in
    names ← lift (plan_names jobs);
    '(results, wall) ← originate args jobs;
    conv ← wait_convergence fuel urls (messages args) (converge_timeout args);
    match conv with
    | None => mret None
    | Some conv =>
      logs ← collect urls;
      let deliveries := by_pod log_deliveries logs in
      let sent := by_pod log_sent logs in
      let baselines := by_pod log_baseline logs in
      a ← lift (analyze deliveries sent baselines);
      mret (Some (mkReport (round2 ready_s) (messages args) names (round2 wall) (throughput (messages args) wall) conv a results
                    deliveries sent baselines))
    end
  end.

(** [main]: zero or fewer senders means every peer.  The exit status is 1 when an exception
    escapes. *)
Definition set_senders (args : Args) : Args :=
  mkArgs (messages args) (peers args) (if (senders args <=? 0)%Z then peers args else senders args) (rate args)
    (service args) (namespace args) (domain args) (stem args) (control_port args) (prefix args)
    (ready_timeout args) (converge_timeout args).

Definition exit_status (r : result (option Report)) : option Z :=
  match r with
  | Raise _ => Some 1%Z
  | Ok None => None
  | Ok (Some r) => Some (if (violations_total (analysis r) =? 0)%nat then 0%Z else 2%Z)
  end.

Definition main (fuel : nat) (args : Args) : world → option Z * world := λ w,
  let '(r, w) := run fuel (set_senders args) w in (exit_status r, w).
End Driver.
