(* ===== verification/DriverFacts.v ===== *)
(** * What the driver guarantees ([harness/driver.py])

    The driver always ends, because every turn of its loops that goes on has slept; the
    plan is fair; and its exit status is the verdict of the checker on the logs it could
    collect.  Composed with the control server of the pods, the logs it collects are the
    pods' own: a cluster whose pods keep causal logs is never reported. *)

From stdpp Require Import prelude gmap strings.
From Stdlib Require Import Ascii.
From S2P Require Import Prelude PyDict PyStr Json Base64 Utf8 Message Security PeerRegistry VectorClock BroadcastNode.
From S2P Require Import StoredMessage MessageStore MessageHistory Recovery Deployment CausalCheck PeerRuntime LogWire.
From S2P Require Import ControlServer ControlFacts Driver.

Local Open Scope string_scope.
Local Open Scope list_scope.

(** ** The plan *)

Lemma sum_Z_app l k : sum_Z (l ++ k) = (sum_Z l + sum_Z k)%Z.
Proof. unfold sum_Z. induction l as [|x l IH]; cbn; [done|]. rewrite IH. lia. Qed.

Lemma plan_sum q r n : sum_Z ((λ i, if (Z.of_nat i <? r)%Z then q + 1 else q)%Z <$> seq 0 n) =
  (q * Z.of_nat n + Z.max 0 (Z.min r (Z.of_nat n)))%Z.
Proof.
  induction n as [|n IH]; [cbn; lia|]. rewrite seq_S, fmap_app, sum_Z_app, IH. cbn.
  destruct (Z.ltb_spec (Z.of_nat n) r); lia.
Qed.

(** The plan is fair.  The messages are shared out among the senders without loss: the
    shares add up to the number asked for, there is one per sender, and no two differ by
    more than one.  Without senders the division raises. *)
Theorem plan_is_fair messages senders :
  match plan messages senders with
  | Raise e => senders = 0 ∧ e = ZeroDivisionError
  | Ok shares => length shares = senders ∧ sum_Z shares = messages ∧
      ∀ x y, x ∈ shares → y ∈ shares → (x ≤ y + 1)%Z
  end.
Proof.
  unfold plan. case_decide as Hs; [done|]. cbv zeta. cbn [mret result_ret].
  set (n := Z.of_nat senders). set (q := (messages / n)%Z).
  assert (0 ≤ messages - q * n < n)%Z as Hr.
  { unfold q. pose proof (Z.div_mod messages n ltac:(lia)). pose proof (Z.mod_pos_bound messages n ltac:(lia)). lia. }
  split_and!.
  - by rewrite length_fmap, length_seq.
  - rewrite plan_sum. fold n. lia.
  - intros x y (i & -> & _)%list_elem_of_fmap (j & -> & _)%list_elem_of_fmap. repeat case_match; lia.
Qed.

(** ** Loops end *)

Lemma repeat_until_ends {S A B} (μ : A → S → nat) (turn : A → M S (A + B)) :
  (∀ a s a' s', turn a s = (Ok (inl a'), s') → μ a' s' < μ a s) →
  ∀ fuel a s, μ a s < fuel → (repeat_until fuel turn a s).1 ≠ Ok None.
Proof.
  intros Ht fuel. induction fuel as [|fuel IH]; intros a s Hm; [lia|]. cbn [repeat_until]. rewrite bind_run.
  destruct (turn a s) as [[[a'|b]|e] s'] eqn:E; [|done|done]. apply IH. specialize (Ht _ _ _ _ E). lia.
Qed.

(** ** Logs by pod *)

Lemma by_pod_elem {A} (f : Log → A) logs pod x : (pod, x) ∈ by_pod f logs →
  ∃ l, l ∈ logs ∧ pod = l.1.1.1 ∧ x = f l ∧ ∀ B (g : Log → B), dget pod (by_pod g logs) = Some (g l).
Proof.
  assert (∀ B (g : Log → B) l logs, by_pod g (logs ++ [l]) = dset l.1.1.1 (g l) (by_pod g logs)) as Hsnoc.
  { intros B g l ls. unfold by_pod. by rewrite foldl_app. }
  assert (∀ B (g : Log → B), dwf (by_pod g logs)) as Hwf.
  { intros B g. induction logs as [|l ls IH] using rev_ind; [apply dwf_nil|]. rewrite Hsnoc. by apply dwf_dset. }
  intros Hin%elem_dget; [|apply Hwf]. clear Hwf. induction logs as [|l ls IH] using rev_ind; [done|].
  rewrite Hsnoc, dget_dset in Hin. case_decide as Hp.
  - injection Hin as <-. exists l. split_and!; [set_solver|done|done|]. intros B g. rewrite Hsnoc, dget_dset. by rewrite decide_True.
  - destruct (IH Hin) as (l' & Hl & Hn & Hx & Hg). exists l'. split_and!; [set_solver|done|done|].
    intros B g. rewrite Hsnoc, dget_dset. by rewrite decide_False.
Qed.

Lemma bind_ok {S A B} (m : M S A) (k : A → M S B) s b s' : (m ≫= k) s = (Ok b, s') →
  ∃ a s1, m s = (Ok a, s1) ∧ k a s1 = (Ok b, s').
Proof. rewrite bind_run. destruct (m s) as [[a|e] s1]; [|done]. by exists a, s1. Qed.

Lemma try_ok {S A} (m : M S A) h s a s' : try_except m h s = (Ok a, s') →
  m s = (Ok a, s') ∨ ∃ e s1, m s = (Raise e, s1) ∧ h e s1 = (Ok a, s').
Proof. unfold try_except. destruct (m s) as [[x|e] s1]; [by left|]. intros E. right. by exists e, s1. Qed.

Section Facts.
Context `{Host}.
Context (exn_text : exn → string).

(** What the world may become while the driver acts on it. *)
Inductive reaches : world → world → Prop :=
  | reaches_refl w : reaches w w
  | reaches_sleep w d w' : (0 ≤ d)%Z → reaches (sleep d w) w' → reaches w w'
  | reaches_url w url data t w' : reaches (urlopen url data t w).2 w' → reaches w w'.

#[local] Instance reaches_preorder : PreOrder reaches.
Proof.
  split; [exact reaches_refl|]. intros w1 w2 w3 H12. induction H12 as [|w d w' Hd _ IH|w url data t w' _ IH]; [done|..]; intros H23.
  - by eapply reaches_sleep; [|apply IH].
  - by eapply reaches_url, IH.
Qed.

Lemma reaches_now : keeps reaches now.
Proof. intros w. constructor. Qed.
Lemma reaches_pause d : (0 ≤ d)%Z → keeps reaches (pause d).
Proof. intros Hd w. eapply reaches_sleep; [exact Hd|constructor]. Qed.
Lemma reaches_open url data t : keeps reaches (urlopen url data t).
Proof. intros w. eapply reaches_url. constructor. Qed.
Lemma reaches_request url payload t : keeps reaches (_request url payload t).
Proof. unfold _request. apply keeps_bind; [typeclasses eauto|apply reaches_open|]. keeps_tac. Qed.
#[local] Hint Resolve reaches_now reaches_request : keeps.
#[local] Hint Extern 2 (keeps reaches (pause _)) => apply reaches_pause; done : keeps.

Lemma keeps_mapM {A B} (f : A → M world B) l : (∀ x, keeps reaches (f x)) → keeps reaches (mapM f l).
Proof.
  intros Hf. induction l as [|x l IH]; cbn; [keeps_tac|]. apply keeps_bind; [typeclasses eauto|apply Hf|]. intros y.
  apply keeps_bind; [typeclasses eauto|exact IH|]. keeps_tac.
Qed.

Lemma ready_round_reaches urls : keeps reaches (ready_round urls).
Proof. induction urls as [|url urls IH]; cbn [ready_round]; keeps_tac. Qed.
Lemma poll_round_reaches urls found : keeps reaches (poll_round urls found).
Proof. revert found. induction urls as [|url urls IH]; intros found; cbn [poll_round]; keeps_tac. Qed.
#[local] Hint Resolve ready_round_reaches poll_round_reaches : keeps.

Lemma reset_all_reaches urls : keeps reaches (reset_all urls).
Proof. unfold reset_all. keeps_tac. Qed.
Lemma drive_reaches args url count : keeps reaches (_drive exn_text args url count).
Proof. unfold _drive. keeps_tac. Qed.
Lemma originate_reaches args jobs : keeps reaches (originate exn_text args jobs).
Proof.
  unfold originate. apply keeps_bind; [typeclasses eauto|apply reaches_now|]. intros t0.
  apply keeps_bind; [typeclasses eauto|apply keeps_mapM; intros; apply drive_reaches|]. keeps_tac.
Qed.
Lemma fetch_reaches url : keeps reaches (fetch url).
Proof. unfold fetch. keeps_tac. Qed.

Lemma repeat_until_reaches {A B} fuel (turn : A → M world (A + B)) a :
  (∀ a, keeps reaches (turn a)) → keeps reaches (repeat_until fuel turn a).
Proof.
  intros Ht. revert a. induction fuel as [|fuel IH]; intros a; cbn [repeat_until]; [keeps_tac|].
  apply keeps_bind; [typeclasses eauto|apply Ht|]. intros [a'|b]; [apply IH|keeps_tac].
Qed.
Lemma wait_ready_reaches fuel urls timeout : keeps reaches (wait_ready fuel urls timeout).
Proof.
  unfold wait_ready. apply keeps_bind; [typeclasses eauto|apply reaches_now|]. intros t.
  apply keeps_bind; [typeclasses eauto|apply repeat_until_reaches; intros p; unfold ready_turn; keeps_tac|]. keeps_tac.
Qed.
Lemma wait_convergence_reaches fuel urls expected timeout : keeps reaches (wait_convergence fuel urls expected timeout).
Proof.
  unfold wait_convergence. do 2 (apply keeps_bind; [typeclasses eauto|apply reaches_now|]; intros ?).
  apply repeat_until_reaches. intros s. unfold conv_turn, conv_result. keeps_tac.
Qed.
#[local] Hint Resolve reset_all_reaches originate_reaches wait_ready_reaches wait_convergence_reaches : keeps.

(** Every result of a loop was computed in a world the loop had reached. *)
Lemma mapM_results {A B} (f : A → M world B) l w ys w' : (∀ x, keeps reaches (f x)) → mapM f l w = (Ok ys, w') →
  Forall (λ y, ∃ x w1 w2, x ∈ l ∧ reaches w w1 ∧ f x w1 = (Ok y, w2)) ys.
Proof.
  intros Hf. revert w ys. induction l as [|x l IH]; intros w ys; cbn [mapM]; [by intros [= <- _]|].
  intros E. apply bind_ok in E as (y & w1 & Ex & E). apply bind_ok in E as (ys' & w2 & Es & [= <- <-]).
  constructor; [exists x, w, w1; split_and!; [set_solver|constructor|done]|].
  eapply Forall_impl; [exact (IH w1 ys' Es)|]. intros z (x' & w3 & w4 & Hx & Hw & Hz). exists x', w3, w4.
  split_and!; [set_solver| |done]. etransitivity; [|exact Hw]. specialize (Hf x w). by rewrite Ex in Hf.
Qed.

(** What a run that returns did last: it collected the logs and analysed them. *)
Lemma run_collects fuel args w r w' : run exn_text fuel args w = (Ok (Some r), w') → ∃ logs,
  Forall (λ l, ∃ url w1 w2, url ∈ urls_of args ∧ reaches w w1 ∧ fetch url w1 = (Ok l, w2)) logs ∧
  raw_deliveries r = by_pod log_deliveries logs ∧ raw_baselines r = by_pod log_baseline logs ∧
  analyze (raw_deliveries r) (raw_sent r) (raw_baselines r) = Ok (analysis r).
Proof.
  intros E. unfold run in E. apply bind_ok in E as (ready & w1 & E1 & E). destruct ready as [ready_s|]; [|done].
  apply bind_ok in E as ([] & w2 & E2 & E). apply bind_ok in E as (planned & w3 & E3 & E).
  apply bind_ok in E as (names & w4 & E4 & E). apply bind_ok in E as ([results wall] & w5 & E5 & E).
  apply bind_ok in E as (conv & w6 & E6 & E). destruct conv as [conv|]; [|done].
  apply bind_ok in E as (logs & w7 & E7 & E). apply bind_ok in E as (a & w8 & E8 & E).
  injection E as <- _. injection E8 as E8 _. exists logs. split_and!; [|done|done|done].
  injection E3 as _ <-. injection E4 as _ <-.
  assert (reaches w w6) as Hw.
  { pose proof (wait_ready_reaches fuel (urls_of args) (ready_timeout args) w) as H1. rewrite E1 in H1.
    pose proof (reset_all_reaches (urls_of args) w1) as H2. rewrite E2 in H2.
    pose proof (originate_reaches args (zip (py_take (senders args) (urls_of args)) planned) w2) as H5. rewrite E5 in H5.
    pose proof (wait_convergence_reaches fuel (urls_of args) (messages args) (converge_timeout args) w5) as H6. rewrite E6 in H6.
    cbn in *. do 3 (etransitivity; [eassumption|]). done. }
  eapply Forall_impl; [by eapply mapM_results; [apply fetch_reaches|]|].
  intros l (url & v & v' & Hu & Hv & Hl). exists url, v, v'. split_and!; [done| |done]. by etransitivity.
Qed.

Lemma request_wf url payload t w j w' : _request url payload t w = (Ok j, w') → json_wf j.
Proof.
  unfold _request. intros E. apply bind_ok in E as (raw & w1 & _ & E). apply bind_ok in E as (text & w2 & _ & E).
  injection E as E _. unfold of_option in E. destruct (loads text) as [j'|] eqn:El; [|done]. injection E as <-. by eapply loads_wf.
Qed.

Lemma fetch_wf url w l w' : fetch url w = (Ok l, w') → Forall (λ r, dwf (r_vc r)) (log_deliveries l).
Proof.
  unfold fetch. intros E. apply bind_ok in E as (guess & w1 & _ & E). apply bind_ok in E as (r & w2 & Er & E).
  destruct r as [[d s]|]; [|injection E as <- _; constructor].
  apply bind_ok in E as (pod & w3 & _ & E). apply bind_ok in E as (ds & w4 & Ed & E).
  apply bind_ok in E as (ss & w5 & _ & E). apply bind_ok in E as (b & w6 & _ & E). injection E as <- _. cbn.
  assert (json_wf d) as Hd.
  { apply try_ok in Er as [Eq|(e & w7 & _ & Er)]; [|done].
    apply bind_ok in Eq as (d' & w8 & Eq & Er). apply bind_ok in Er as (s' & w9 & _ & Er). injection Er as <- _ _. by eapply request_wf. }
  injection Ed as Ed _. destruct (read "deliveries" d) as [j|] eqn:Ej; [|done]. cbn in Ed.
  eapply deliveries_of_json_wf; [|exact Ed]. by eapply read_wf.
Qed.

Lemma raw_wf fuel args w r w' : run exn_text fuel args w = (Ok (Some r), w') →
  Forall (λ kv, Forall (λ r, dwf (r_vc r)) kv.2) (raw_deliveries r).
Proof.
  intros (logs & Hl & -> & _ & _)%run_collects. apply Forall_forall. intros [pod ds] (l & Hin & _ & -> & _)%by_pod_elem.
  rewrite Forall_forall in Hl. destruct (Hl _ Hin) as (url & w1 & w2 & _ & _ & E). by eapply fetch_wf.
Qed.

(** C25: The exit status is the verdict.  Whatever the pods answer, a run that ends without an
    exception exits with 0 or 2, and with 0 exactly when every log it collected is causally
    ordered from the baseline collected with it.  Lost messages, peers that could not be
    reached and a run that did not converge do not count. *)
Theorem exit_is_causality fuel args w r w' : run exn_text fuel args w = (Ok (Some r), w') →
  (exit_status (Ok (Some r)) = Some 0%Z ∨ exit_status (Ok (Some r)) = Some 2%Z) ∧
  (exit_status (Ok (Some r)) = Some 0%Z ↔
     ∀ pod ds, (pod, ds) ∈ raw_deliveries r → causal_log (count_of (baseline_of (raw_baselines r) pod)) ds).
Proof.
  intros E. pose proof (raw_wf _ _ _ _ _ E) as Hwf. apply run_collects in E as (_ & _ & _ & _ & Ha).
  rewrite <- (analyze_total _ _ _ _ Hwf Ha). cbn. destruct (Nat.eqb_spec (violations_total (analysis r)) 0).
  - split; [by left|done].
  - split; [by right|]. split; [done|]. intros ?. done.
Qed.

Context `{!HostLaws}.

Lemma reaches_time w w' : reaches w w' → (time_now w ≤ time_now w')%Z.
Proof.
  induction 1 as [|w d w' Hd _ IH|w url data t w' _ IH]; [lia|..].
  - pose proof (sleep_passes d w). lia.
  - pose proof (urlopen_passes url data t w). lia.
Qed.

(** The turns left before the time-out when each sleeps for [d]. *)
Definition turns_left (started timeout d : time) (w : world) : nat :=
  Z.to_nat ((timeout - (time_now w - started) + d - 1) / d).

Lemma turns_left_slept started timeout d w w1 : (0 < d)%Z → (time_now w - started < timeout)%Z → reaches w w1 →
  turns_left started timeout d (sleep d w1) < turns_left started timeout d w.
Proof.
  intros Hd Hlt Hw%reaches_time. pose proof (sleep_passes d w1). unfold turns_left.
  set (a := (timeout - (time_now w - started) + d - 1)%Z).
  assert ((timeout - (time_now (sleep d w1) - started) + d - 1) / d ≤ a / d - 1)%Z as Hle.
  { replace (a / d - 1)%Z with ((a + -1 * d) / d)%Z by (rewrite Z.div_add; lia).
    apply Z.div_le_mono; lia. }
  assert (1 ≤ a / d)%Z by (apply Z.div_le_lower_bound; lia). lia.
Qed.

(** *** Waiting for readiness *)

Definition ready_measure (started timeout : time) (pending : list string) (w : world) : nat :=
  match pending with [] => 0 | _ => S (turns_left started timeout (seconds 1) w) end.

Lemma ready_turn_goes_on started timeout pending w left w' : ready_turn started timeout pending w = (Ok (inl left), w') →
  ready_measure started timeout left w' < ready_measure started timeout pending w.
Proof.
  unfold ready_turn. intros E. apply bind_ok in E as (t & w0 & [= <- <-] & E).
  destruct (_ || _) eqn:Ec; [done|]. zbool. apply bind_ok in E as (l & w1 & El & E).
  apply bind_ok in E as (u & w2 & Eu & [= -> ->]).
  pose proof (ready_round_reaches pending w) as Hw. rewrite El in Hw. cbn in Hw.
  destruct pending as [|p pending]; [done|]. destruct left as [|x left]; [cbn; lia|].
  rewrite bool_decide_eq_false_2 in Eu by done. injection Eu as _ <-. cbn [ready_measure].
  apply -> Nat.succ_lt_mono. by apply turns_left_slept.
Qed.

(** *** Waiting for convergence *)

Lemma conv_turn_goes_on urls expected started timeout stall s w s' w' :
  conv_turn urls expected started timeout stall s w = (Ok (inl s'), w') →
  turns_left started timeout (seconds 2) w' < turns_left started timeout (seconds 2) w.
Proof.
  destruct s as [[last_total last_progress] found]. unfold conv_turn. intros E.
  apply bind_ok in E as (t & w0 & [= <- <-] & E). destruct (_ <=? _)%Z eqn:Ec.
  { apply bind_ok in E as (f & w1 & _ & E). by apply bind_ok in E as (c & w2 & _ & E). }
  zbool. apply bind_ok in E as (counts & w1 & Ep & E). apply bind_ok in E as (ns & w2 & En & E).
  injection En as _ <-. pose proof (poll_round_reaches urls [] w) as Hw. rewrite Ep in Hw. cbn in Hw.
  destruct (forallb _ _). { by apply bind_ok in E as (c & w3 & _ & E). }
  apply bind_ok in E as (t' & w3 & [= <- <-] & E).
  destruct (negb _); [|destruct (_ <? _)%Z; [by apply bind_ok in E as (c & w3 & _ & E)|]];
    apply bind_ok in E as (u & w3 & Eu & [= _ <-]); injection Eu as _ <-; by apply turns_left_slept.
Qed.

Definition fuel_for (args : Args) : nat :=
  S (S (Nat.max (Z.to_nat ((ready_timeout args + seconds 1 - 1) / seconds 1))
                (Z.to_nat ((converge_timeout args + seconds 2 - 1) / seconds 2)))).

(** C35: The driver ends.  Whatever the pods answer, late, wrongly or not at all, waiting for
    readiness and for convergence stops at its time-out: with one turn of fuel per second
    of the first and per two seconds of the second, and two to spare, the run is never cut
    short. *)
Theorem driver_ends fuel args w : (fuel_for args ≤ fuel)%nat → (run exn_text fuel args w).1 ≠ Ok None.
Proof.
  unfold fuel_for. intros Hf E. destruct (run exn_text fuel args w) as [r w'] eqn:Er. cbn in E. subst r.
  unfold run in Er. apply bind_ok in Er as (ready & w1 & Ew & Er).
  assert (ready ≠ None) as Hready.
  { intros ->. unfold wait_ready in Ew. apply bind_ok in Ew as (t & w0 & [= <- <-] & Ew).
    apply bind_ok in Ew as (r & w2 & Eloop & Ew). destruct r as [[|? ?]|]; [|done|].
    { by apply bind_ok in Ew as (t & w3 & _ & Ew). }
    refine (repeat_until_ends _ _ (ready_turn_goes_on (time_now w) (ready_timeout args)) fuel (urls_of args) w _ _);
      [|by rewrite Eloop]. unfold ready_measure, turns_left. destruct (urls_of args); [lia|].
    replace (ready_timeout args - (time_now w - time_now w))%Z with (ready_timeout args) by lia. lia. }
  destruct ready as [ready_s|]; [|done]. clear Ew Hready.
  apply bind_ok in Er as (? & w2 & _ & Er). apply bind_ok in Er as (planned & w3 & _ & Er).
  apply bind_ok in Er as (names & w4 & _ & Er). apply bind_ok in Er as ([results wall] & w5 & _ & Er).
  apply bind_ok in Er as (conv & w6 & Ec & Er). destruct conv as [conv|].
  { apply bind_ok in Er as (logs & w7 & _ & Er). by apply bind_ok in Er as (a & w8 & _ & Er). }
  unfold wait_convergence in Ec. apply bind_ok in Ec as (t & w7 & [= <- <-] & Ec).
  apply bind_ok in Ec as (t & w8 & [= <- <-] & Ec).
  refine (repeat_until_ends (λ _, turns_left (time_now w5) (converge_timeout args) (seconds 2)) _
    (λ s w s' w', conv_turn_goes_on _ _ _ _ _ s w s' w') fuel _ w5 _ _); [|by rewrite Ec].
  unfold turns_left. replace (converge_timeout args - (time_now w5 - time_now w5))%Z with (converge_timeout args) by lia. lia.
Qed.
End Facts.

(** ** A cluster of pods *)

Section Cluster.
Context `{Host} `{Crypto} `{Dns} `{Archive}.
Context (history_uuid : nat → string) (exn_text : exn → string).
Context (ident : nat → PeerIdentity) (replicas : nat) (refresh_interval : time) (min_peers : Z) (security_available : bool).
(** The pod of every ordinal, in a state of the world. *)
Context (snap : world → ∀ i, Pod (ident i) replicas refresh_interval).

(** A GET that is answered at the address of a pod is answered by its control server. *)
Definition served (args : Args) : Prop := ∀ i target timeout w b w',
  urlopen (peer_url (stem args) (Driver.service args) (Driver.namespace args) (Driver.domain args) (Driver.control_port args) i +:+ target)
    None timeout w = (Ok b, w') →
  ∃ t, b = body (do_GET exn_text (ident i) replicas refresh_interval min_peers security_available t target (snap w i)).

Lemma served_request args i target timeout w j w' : served args → (∀ w i, pod_ok (ident i) replicas refresh_interval (snap w i)) →
  _request (peer_url (stem args) (Driver.service args) (Driver.namespace args) (Driver.domain args) (Driver.control_port args) i +:+ target)
    None timeout w = (Ok j, w') →
  ∃ t, j = (get_answer exn_text (ident i) replicas refresh_interval min_peers security_available t target (snap w i)).2.
Proof.
  intros Hs Hok E. unfold _request in E. apply bind_ok in E as (raw & w1 & Eo & E). apply Hs in Eo as [t ->]. exists t.
  unfold do_GET in E. destruct (get_answer_wf history_uuid exn_text (ident i) replicas refresh_interval min_peers security_available t target (snap w i))
    as [Hj _]; [apply Hok|]. destruct (get_answer _ _ _ _ _ _ t target _) as [c x]. cbn [snd] in *.
  pose proof (respond_reads c x Hj) as Hr. unfold read_bytes in Hr.
  apply bind_ok in E as (text & w2 & Et & E). injection Et as Et _. injection E as E _. unfold of_option in *.
  destruct (utf8_decode _) as [text'|]; [|done]. injection Et as ->. change (loads text = Some x) in Hr. rewrite Hr in E. by injection E.
Qed.

(** What is fetched is nothing, or what the pod held when it was asked. *)
Lemma fetch_served args i w l w' : served args → (∀ w i, pod_ok (ident i) replicas refresh_interval (snap w i)) →
  fetch (peer_url (stem args) (Driver.service args) (Driver.namespace args) (Driver.domain args) (Driver.control_port args) i) w = (Ok l, w') →
  (log_deliveries l = [] ∧ log_baseline l = []) ∨
  (l.1.1.1 = pod_name (ident i) ∧ log_deliveries l = deliveries (runtime (snap w i)) ∧
   log_baseline l = baseline_vc (runtime (snap w i)) ∧ ∃ w1, reaches w w1 ∧ log_sent l = sent (runtime (snap w1 i))).
Proof.
  intros Hs Hok E. unfold fetch in E. apply bind_ok in E as (guess & w0 & Eg & E). injection Eg as _ <-.
  apply bind_ok in E as (r & w2 & Er & E). destruct r as [[d s]|]; [|left; by injection E as <- _]. right.
  apply try_ok in Er as [Eq|(e & w7 & _ & Er)]; [|done]. apply bind_ok in Eq as (d' & w3 & Ed & Eq).
  apply bind_ok in Eq as (s' & w4 & Es & Eq). injection Eq as -> -> _.
  pose proof (reaches_request (peer_url (stem args) (Driver.service args) (Driver.namespace args) (Driver.domain args)
    (Driver.control_port args) i +:+ "/deliveries") None (seconds 600) w) as Hw. rewrite Ed in Hw. cbn in Hw.
  apply served_request in Ed as [t1 ->], Es as [t2 ->]; [|done..].
  destruct (Hok w i) as (Hb & _ & Hd).
  change (get_answer _ _ _ _ _ _ t1 "/deliveries" _).2 with (deliveries_answer (ident i) replicas refresh_interval (snap w i)) in E.
  change (get_answer _ _ _ _ _ _ t2 "/sent" _).2 with (sent_answer (ident i) replicas refresh_interval (snap w3 i)) in E.
  apply bind_ok in E as (pod & w5 & Ep & E). injection Ep as <- _.
  apply bind_ok in E as (ds & w6 & Eds & E). apply bind_ok in E as (ss & w7 & Ess & E). apply bind_ok in E as (b & w8 & Eb & E).
  injection E as <- _. injection Eds as Eds _. injection Ess as Ess _. injection Eb as Eb _.
  change (of_wire (to_wire (deliveries (runtime (snap w i)))) = Ok ds) in Eds.
  change (of_wire (to_wire (sent (runtime (snap w3 i)))) = Ok ss) in Ess.
  change (of_wire (to_wire (baseline_vc (runtime (snap w i)))) = Ok b) in Eb.
  rewrite of_to_wire in Eds by done. rewrite of_to_wire in Ess by (apply Forall_true; done). rewrite of_to_wire in Eb by done.
  injection Eds as <-. injection Ess as <-. injection Eb as <-. split_and!; [done..|]. by exists w3.
Qed.

End Cluster.

(** ** Two pods and a driver *)

Lemma short_key_dot s t : no_char "." s = true → short_key (s +:+ "." +:+ t) = s.
Proof.
  induction s as [|a s IH]; [done|]. cbn. intros [Ha Hs]%andb_true_iff. zbool.
  rewrite decide_False; [|intros ->; by vm_compute in Ha]. f_equal. by apply IH.
Qed.

Lemma string_app_cancel_l (s t t' : string) : s +:+ t = s +:+ t' → t = t'.
Proof. induction s as [|a s IH]; [done|]. cbn. intros [= ?]. by apply IH. Qed.

(** The name a pod gets when it cannot be reached is the name it has. *)
Lemma pod_guess_url stem service namespace domain port i target : no_char "." stem = true →
  pod_guess (peer_url stem service namespace domain port i +:+ target) = Ok (stem +:+ "-" +:+ string_of_Z (Z.of_nat i)).
Proof.
  intros Hs. unfold pod_guess.
  assert (∀ r, after_slashes ("http://" +:+ r) = Some r) as Hslash by (intros []; reflexivity).
  unfold peer_url. rewrite <- !string_app_assoc, Hslash. cbn [of_option mbind result_bind mret result_ret]. f_equal.
  rewrite (string_app_assoc stem), (string_app_assoc (stem +:+ "-")). rewrite short_key_dot; [by rewrite <- string_app_assoc|].
  unfold no_char in *. rewrite !sforall_app, Hs. cbn. eapply sforall_impl; [|apply ordinal_digits; lia].
  intros a Ha. apply negb_true_iff, bool_decide_eq_false. intros ->. by vm_compute in Ha.
Qed.

Module DriverDemo.
Import Toy.

#[local] Instance all_resolve : Dns := {| resolve_srv := None; lookup := λ _ _ _, Ok () |}.
Definition text (e : exn) : string := "error".
Definition name (i : nat) : string := "chat-" +:+ string_of_Z (Z.of_nat i).
Definition ident (i : nat) : PeerIdentity := Deployment.pod (name i) (Z.of_nat i).
Definition args : Args :=
  mkArgs 2 2 2 (JFloat (seconds 50)) "peerchat-hl" "chat" "cluster.local" "chat" 8080 "m" (seconds 10) (seconds 10).

(** Each of the two pods has joined, said something, and heard the other. *)
Definition said (i : nat) : Message :=
  mkMessage "hi" (identity_address (ident i)) ("m" +:+ string_of_Z (Z.of_nat i)) (seconds 2) "" 10 {[identity_address (ident i) := 1%Z]}.
Definition pod_events (i : nat) : list (time * pod_event (ident i) 2 (seconds 5)) :=
  [(seconds 2, PProbe ControlDemo.hello_ack);
   (seconds 3, PNode (EBroadcast "" (new_message "hi" (identity_address (ident i)) ("m" +:+ string_of_Z (Z.of_nat i)) (seconds 2))));
   (seconds 3, PNode (EFrame "x" (to_json (said (1 - i))))); (seconds 3, PNode EReceive)].
Definition pod_of (i : nat) : Pod (ident i) 2 (seconds 5) :=
  run_pod ControlDemo.demo_uuid (ident i) 2 (seconds 5) 1 true (pod_events i)
    (mkPod (ident i) 2 (seconds 5) (@init_node _ (pod_registry (ident i) 2 (seconds 5)) (mkKeys None ∅) new_dns_registry)
       (start_runtime []) None no_samples [] [] 0 (seconds 1) []).

(** The world is its clock; the pods do not change; a request takes a millisecond. *)
Definition answer (url : string) (data : option bytes) : result bytes :=
  host ← pod_guess url;
  i ← (if decide (host = name 0) then Ok 0 else if decide (host = name 1) then Ok 1 else Raise OSError);
  target ← of_option OSError (strip_prefix (peer_url "chat" "peerchat-hl" "chat" "cluster.local" 8080 i) url);
  match data with
  | None => let r := do_GET text (ident i) 2 (seconds 5) 1 true (seconds 4) target (pod_of i) in
            if (status_code r <? 400)%Z then Ok (body r) else Raise OSError
  | Some _ => Ok (body (respond 200 (JObj [])))
  end.
#[local] Instance two_pods : Host := {|
  world := Z; time_now := λ w, w; sleep := λ d w, (w + Z.max 0 d)%Z;
  urlopen := λ url data _ w, (answer url data, (w + 1000)%Z) |}.
#[local] Instance two_pods_laws : HostLaws.
Proof. split; intros; cbn; lia. Qed.

Lemma answer_get i target b : answer (peer_url "chat" "peerchat-hl" "chat" "cluster.local" 8080 i +:+ target) None = Ok b →
  b = body (do_GET text (ident i) 2 (seconds 5) 1 true (seconds 4) target (pod_of i)).
Proof.
  unfold answer. rewrite pod_guess_url by done. cbn [mbind result_bind].
  assert (∀ j, "chat" +:+ "-" +:+ string_of_Z (Z.of_nat i) = name j → i = j) as Hinj.
  { intros j Hj. unfold name in Hj. rewrite string_app_assoc in Hj. apply string_app_cancel_l in Hj. apply string_of_Z_inj in Hj. lia. }
  set (k := if decide (_ = name 0) then _ else _). destruct k as [j|] eqn:Ek; [|done]. cbn [mbind result_bind].
  assert (i = j) as <-. { subst k. repeat case_decide; try done; injection Ek as <-; by apply Hinj. }
  rewrite strip_prefix_app. cbn [mbind result_bind of_option]. cbv zeta. destruct (_ <? 400)%Z; [|done]. by intros [= <-].
Qed.

Lemma two_pods_served : served text ident 2 (seconds 5) 1 true (λ _ i, pod_of i) args.
Proof.
  intros i target timeout w b w' E. exists (seconds 4). apply answer_get. exact (f_equal fst E).
Qed.

Lemma pods_ok i : pod_ok (ident i) 2 (seconds 5) (pod_of i).
Proof. apply run_pod_ok. apply start_runtime_ok. Qed.

Definition start : @world two_pods := 0%Z.

Lemma driver_ends_witness : (run text 12 args start).1 ≠ Ok None.
Proof. apply (driver_ends text 12 args start). apply Nat.leb_le. vm_compute. reflexivity. Defined.

Lemma run_returns : ∃ r w', run text 12 args start = (Ok (Some r), w') ∧ length (raw_deliveries r) = 2.
Proof.
  destruct (run text 12 args start) as [[[r|]|] w'] eqn:E; [|by vm_compute in E..]. exists r, w'. split; [done|].
  vm_compute in E. injection E as <- _. reflexivity.
Qed.

Lemma exit_is_causality_witness : ∃ r w', run text 12 args start = (Ok (Some r), w') ∧
  (exit_status (Ok (Some r)) = Some 0%Z ∨ exit_status (Ok (Some r)) = Some 2%Z).
Proof.
  destruct run_returns as (r & w' & E & _). exists r, w'. split; [exact E|].
  exact (proj1 (exit_is_causality text 12 args start r w' E)).
Defined.


(** Pods that are ready and then answer nothing: the run exits with 0. *)
Definition gone : Host := {|
  world := Z; time_now := λ w, w; sleep := λ d w, (w + Z.max 0 d)%Z;
  urlopen := λ url _ _ w,
    (match strip_suffix "/readyz" url with Some _ => Ok (body (respond 200 (JObj []))) | None => Raise OSError end, (w + 1000)%Z) |}.

Example silent_cluster_passes :
  match (@run gone text 40 args 0%Z).1 with
  | Ok (Some r) => exit_status (Ok (Some r)) = Some 0%Z ∧ converged (convergence r) = false ∧ total_delivered (analysis r) = 0
  | _ => False
  end.
Proof. by vm_compute. Qed.
End DriverDemo.
