(* ===== verification/Report.v ===== *)
(** * The driver's report as JSON ([harness/driver.py], [harness/causal_check.py])

    The report of a run is a dictionary that the driver prints, indented, between two
    marks.  This file writes that dictionary out, shows that the report of any run can be
    written and read back, and what comes out of a standard output that has other lines
    around the marks. *)

From stdpp Require Import prelude gmap strings.
From Stdlib Require Import Ascii.
From S2P Require Import Prelude PyDict PyStr Json PyText Base64 Utf8 CausalCheck PeerRuntime LogWire Driver DriverFacts.

Local Open Scope string_scope.
Local Open Scope list_scope.

Definition nat_json (n : nat) : json := JInt (Z.of_nat n).

(** ** [causal_check.py] *)

(** Hundredths of a millisecond. *)
Definition ms_json (v : Z) : json := JFloat (v * 10000).

(** [mean_ms] is there only in the statistics of a pod that has samples. *)
Definition latency_to_json (l : LatencyStats) : json :=
  JObj ([("count", nat_json (l_count l)); ("p50_ms", opt_wire ms_json (p50 l)); ("p95_ms", opt_wire ms_json (p95 l));
         ("p99_ms", opt_wire ms_json (p99 l)); ("max_ms", opt_wire ms_json (l_max l))] ++
        match l_mean l with Some m => [("mean_ms", ms_json m)] | None => [] end).

Definition violation_to_json (v : Violation) : json :=
  JObj [("pod", JStr (v_pod v)); ("seq", JInt (v_seq v)); ("id", JStr (v_id v)); ("sender", JStr (v_sender v));
        ("kind", JStr (v_kind v)); ("detail", JStr (v_detail v)); ("held_ms", opt_wire ms_json (v_held_ms v))].

Definition row_to_json (r : PodRow) : json :=
  JObj [("pod", JStr (row_pod r)); ("sent", nat_json (row_sent r)); ("delivered", nat_json (row_delivered r));
        ("unique", nat_json (row_unique r)); ("duplicates", nat_json (row_duplicates r));
        ("missing", nat_json (row_missing r)); ("violations", nat_json (row_violations r));
        ("latency_remote", latency_to_json (row_latency r)); ("final_clock", to_wire (row_final_clock r))].

Definition kinds_to_json (d : pydict string nat) : json := to_wire ((λ kn, (kn.1, Z.of_nat kn.2)) <$> d).

Definition analysis_to_json (a : Analysis) : json :=
  JObj [("messages_sent", nat_json (messages_sent a)); ("unique_message_ids", nat_json (unique_message_ids a));
        ("peers", nat_json (a_peers a)); ("total_delivered", nat_json (total_delivered a));
        ("expected_deliveries", nat_json (expected_deliveries a)); ("violations_total", nat_json (violations_total a));
        ("violating_deliveries", nat_json (violating_deliveries a));
        ("violations_by_kind", kinds_to_json (violations_by_kind a));
        ("violations_past_holdback_timeout", nat_json (violations_past_holdback_timeout a));
        ("latency_remote_all_peers", latency_to_json (latency_remote_all_peers a));
        ("per_pod", JList (row_to_json <$> per_pod a));
        ("violation_samples", JList (violation_to_json <$> violation_samples a))].

(** ** [driver.py] *)

Definition convergence_to_json (c : Convergence) : json :=
  JObj ([("converged", JBool (converged c))] ++
        match reason c with Some s => [("reason", JStr s)] | None => [] end ++
        [("seconds", conv_seconds c); ("counts", JObj (counts c))]).

Definition config_to_json (args : Args) : json :=
  JObj [("peers", JInt (peers args)); ("senders", JInt (senders args)); ("messages_total", JInt (messages args));
        ("rate_per_sender", rate args)].

(** What [run] returns, with the path of [--dump] if there is one. *)
Definition report_to_json (args : Args) (dump : option string) (r : Report) : json :=
  JObj ([("config", config_to_json args); ("ready_wait_s", ready_wait_s r); ("messages_planned", JInt (messages_planned r));
         ("plan", to_wire (plan_by_pod r)); ("send_wall_s", send_wall_s r);
         ("send_throughput_msg_s", send_throughput_msg_s r); ("convergence", convergence_to_json (convergence r));
         ("analysis", analysis_to_json (analysis r)); ("send_results", JList (send_results r))] ++
        match dump with Some path => [("raw_dump", JStr path)] | None => [] end).

Definition BEGIN : string := "===REPORT-JSON-BEGIN===".
Definition END : string := "===REPORT-JSON-END===".
Definition line_end : ascii := chr 10.
Definition unlines (ls : list string) : string := foldr (λ l s, l +:+ String line_end s) "" ls.

(** The three lines that [main] prints last. *)
Definition report_lines (args : Args) (dump : option string) (r : Report) : list string :=
  [BEGIN; dumps (indented 2) (report_to_json args dump r); END].

(** ** Cutting the report out of a standard output *)

(** [s.split(sep, 1)] *)
Fixpoint cut (sep s : string) : option (string * string) :=
  if startswith sep s then Some ("", str_drop (String.length sep) s)
  else match s with
       | "" => None
       | String a s => '(h, t) ← cut sep s; Some (String a h, t)
       end.

(** [s.split(sep)[0]] *)
Definition split_head (sep s : string) : string :=
  match cut sep s with Some (h, _) => h | None => s end.

(** [s.split(BEGIN)[1].split(END)[0]]; [None] when there is no mark. *)
Definition report_body (stdout : string) : option string :=
  '(_, rest) ← cut BEGIN stdout; Some (split_head END (split_head BEGIN rest)).

(** *** Facts *)

Lemma startswith_head a b p s : a ≠ b → startswith (String a p) (String b s) = false.
Proof. intros H. unfold startswith. cbn. destruct (ascii_dec a b); [done|done]. Qed.

Lemma cut_here sep t : sep ≠ "" → cut sep (sep +:+ t) = Some ("", t).
Proof.
  intros Hs. destruct sep as [|a sep]; [done|]. pose proof (startswith_app (String a sep) t) as E.
  pose proof (str_drop_app (String a sep) t) as Hd.
  change (String a sep +:+ t) with (String a (sep +:+ t)) in *. cbn [cut]. by rewrite E, Hd.
Qed.

(** A separator does not reach over a character it does not contain. *)
Lemma startswith_stop c p s t : no_char c p = true → startswith p (s +:+ String c t) = startswith p s.
Proof.
  unfold startswith. revert s. induction p as [|a p IH]; intros s Hp; [by destruct s|].
  cbn in Hp. apply andb_true_iff in Hp as [Ha Hp]. zbool. destruct s as [|b s]; cbn.
  - by destruct (ascii_dec a c).
  - destruct (ascii_dec a b); [by apply IH|done].
Qed.

(** [sep in s] is whether [s] can be cut. *)
Lemma cut_None sep s : cut sep s = None ↔ contains sep s = false.
Proof.
  unfold startswith. induction s as [|a s IH]; cbn [cut contains]; unfold startswith; destruct (String.prefix sep _); try done.
  cbn [orb]. rewrite <- IH. by destruct (cut sep s) as [[]|].
Qed.

(** A line without the separator is passed over. *)
Lemma cut_line c sep s t : no_char c sep = true → sep ≠ "" → contains sep s = false →
  cut sep (s +:+ String c t) = '(h, r) ← cut sep t; Some (s +:+ String c h, r).
Proof.
  intros Hc Hne. rewrite <- cut_None. induction s as [|b s IH]; intros Hs.
  - change ("" +:+ String c t) with (String c t). cbn [cut].
    pose proof (startswith_stop c sep "" t Hc) as Hst. cbn [String.append] in Hst. rewrite Hst.
    destruct sep as [|a sep]; [done|]. by destruct (cut _ t) as [[]|].
  - change (String b s +:+ String c t) with (String b (s +:+ String c t)). cbn [cut] in *.
    rewrite <- (startswith_stop c sep (String b s) t Hc) in Hs. cbn [String.append] in Hs. destruct (startswith sep _); [done|].
    destruct (cut sep s) as [[]|]; [done|]. rewrite IH by done. by destruct (cut sep t) as [[]|].
Qed.

Lemma split_line c sep s t : no_char c sep = true → sep ≠ "" → contains sep s = false →
  split_head sep (s +:+ String c t) = s +:+ String c (split_head sep t).
Proof. intros. unfold split_head. rewrite cut_line by done. by destruct (cut sep t) as [[]|]. Qed.

Lemma unlines_app l k : unlines (l ++ k) = unlines l +:+ unlines k.
Proof.
  induction l as [|x l IH]; [done|]. cbn [unlines foldr app]. fold (unlines (l ++ k)) (unlines l). rewrite IH.
  by rewrite <- string_app_assoc.
Qed.

Lemma cut_lines sep ls t : no_char line_end sep = true → sep ≠ "" → Forall (λ l, contains sep l = false) ls →
  cut sep (unlines ls +:+ t) = '(h, r) ← cut sep t; Some (unlines ls +:+ h, r).
Proof.
  intros Hc Hne. induction 1 as [|l ls Hl Hls IH]; [cbn; by destruct (cut sep t) as [[]|]|]. cbn [unlines foldr]. fold (unlines ls).
  rewrite <- string_app_assoc. change (String line_end (unlines ls) +:+ t) with (String line_end (unlines ls +:+ t)).
  rewrite cut_line, IH by done. destruct (cut sep t) as [[]|]; [|done]. cbn. by rewrite <- string_app_assoc.
Qed.

(** What stands between the marks is the line printed there, between two line ends. *)
Lemma report_body_lines before text after :
  Forall (λ l, contains BEGIN l = false) before → contains BEGIN text = false → contains END text = false →
  report_body (unlines (before ++ [BEGIN; text; END]) +:+ after) = Some (String line_end (text +:+ String line_end "")).
Proof.
  intros Hb H1 H2. unfold report_body.
  assert (unlines (before ++ [BEGIN; text; END]) +:+ after =
    unlines before +:+ BEGIN +:+ String line_end (text +:+ String line_end (END +:+ String line_end after))) as ->.
  { rewrite unlines_app, <- string_app_assoc. f_equal. unfold unlines. generalize BEGIN END. intros b e. cbn [foldr].
    rewrite <- string_app_assoc. cbn. rewrite <- string_app_assoc. cbn. by rewrite <- string_app_assoc. }
  rewrite cut_lines, cut_here by done. cbn [mbind option_bind]. f_equal.
  change (String line_end ?s) with ("" +:+ String line_end s) at 1. rewrite !split_line by done.
  unfold split_head at 1. by rewrite cut_here.
Qed.

(** ** The report of any run is a value that JSON can hold *)

Definition members_ok (d : pydict string json) : Prop := dwf d ∧ Forall (λ kv, json_wf kv.2) d.

Record report_ok (r : Report) : Prop := mkReportOk {
  ok_ready : json_wf (ready_wait_s r);
  ok_wall : json_wf (send_wall_s r);
  ok_throughput : json_wf (send_throughput_msg_s r);
  ok_plan : dwf (plan_by_pod r);
  ok_seconds : json_wf (conv_seconds (convergence r));
  ok_counts : members_ok (counts (convergence r));
  ok_clocks : Forall (λ row, dwf (row_final_clock row)) (per_pod (analysis r));
  ok_kinds : dwf (violations_by_kind (analysis r));
  ok_sent : Forall json_wf (send_results r);
}.

Lemma ms_wf (o : option Z) : json_wf (opt_wire ms_json o).
Proof. by destruct o. Qed.
#[local] Hint Resolve ms_wf : answers.

Lemma latency_wf l : json_wf (latency_to_json l).
Proof. unfold latency_to_json. destruct (l_mean l); cbn [app]; obj_wf; try done; apply ms_wf. Qed.

Lemma list_json_wf {A} (f : A → json) l : (∀ x, x ∈ l → json_wf (f x)) → json_wf (JList (f <$> l)).
Proof. intros H. apply json_wf_list, Forall_fmap, Forall_forall. exact H. Qed.

Lemma row_wf r : dwf (row_final_clock r) → json_wf (row_to_json r).
Proof. intros Hr. unfold row_to_json. obj_wf; try done; [apply latency_wf|by apply counts_wf]. Qed.

Lemma analysis_wf a : Forall (λ row, dwf (row_final_clock row)) (per_pod a) → dwf (violations_by_kind a) →
  json_wf (analysis_to_json a).
Proof.
  intros Hr Hk. unfold analysis_to_json. obj_wf; try done.
  - unfold kinds_to_json. apply counts_wf. unfold dwf, dkeys in *. by rewrite <- list_fmap_compose.
  - apply latency_wf.
  - apply list_json_wf. intros row Hin. rewrite Forall_forall in Hr. by apply row_wf, Hr.
  - apply list_json_wf. intros v _. unfold violation_to_json. obj_wf; try done. apply ms_wf.
Qed.

Lemma convergence_wf c : json_wf (conv_seconds c) → members_ok (counts c) → json_wf (convergence_to_json c).
Proof.
  intros Hs [Hd Hc]. unfold convergence_to_json. assert (json_wf (JObj (counts c))) by by apply json_wf_obj.
  destruct (reason c); cbn [app]; obj_wf; done.
Qed.

(** Line ends around a document do not matter. *)
Lemma loads_framed sty `{!StyleOk sty} j : json_wf j →
  loads (String line_end (dumps sty j +:+ String line_end "")) = Some j.
Proof. intros Hj. exact (loads_dumps_between sty j (String line_end "") (String line_end "") Hj eq_refl eq_refl). Qed.

Lemma report_wf args dump r : json_wf (rate args) → report_ok r → json_wf (report_to_json args dump r).
Proof.
  intros Hrate [H1 H2 H3 H4 H5 H6 H7 H8 H9]. unfold report_to_json.
  assert (json_wf (config_to_json args)) by (unfold config_to_json; obj_wf; done).
  pose proof (convergence_wf _ H5 H6). pose proof (analysis_wf _ H7 H8). pose proof (counts_wf _ H4).
  assert (json_wf (JList (send_results r))) by by apply json_wf_list.
  destruct dump; cbn [app]; obj_wf; done.
Qed.

(** *** What the checker makes of logs *)

Lemma dread_dwf k (d : pydict string Z) : dwf d → dwf (dread k d).2.
Proof. unfold dread. intros Hd. destruct (dget k d); [done|]. by apply dwf_dset. Qed.

Lemma check_sender_dwf pod r d : dwf d → dwf (check_sender pod r d).2.
Proof.
  intros Hd%(dread_dwf (r_sender r)). unfold check_sender. destruct (dread (r_sender r) d) as [have d']. cbv zeta.
  by destruct (_ =? _)%Z.
Qed.

Lemma check_dependencies_dwf pod r vc d : dwf d → dwf (check_dependencies pod r vc d).2.
Proof.
  revert d. induction vc as [|[n c] vc IH]; intros d Hd; [done|]. cbn [check_dependencies]. case_decide; [by apply IH|].
  pose proof (dread_dwf n d Hd) as Hd'. destruct (dread n d) as [have d']. specialize (IH d' Hd').
  by destruct (check_dependencies pod r vc d').
Qed.

Lemma advance_dwf vc d : dwf d → dwf (advance vc d).
Proof.
  intros Hd. unfold advance. apply (foldl_inv dwf); [done|]. intros kc d' _ Hd'. unfold advance_entry.
  pose proof (dread_dwf kc.1 d' Hd') as H. destruct (dread kc.1 d') as [have d'']. destruct (_ <? _)%Z; [by apply dwf_dset|done].
Qed.

Lemma check_peer_log_dwf pod ds base : dwf base → dwf (p_final_clock (check_peer_log pod ds base)).
Proof.
  intros Hb. unfold check_peer_log. cbn [p_final_clock]. apply (foldl_inv (λ s, dwf (delivered_clock s))); [done|].
  intros r s _ Hs. unfold check_record. pose proof (check_sender_dwf pod r _ Hs) as H1.
  destruct (check_sender pod r (delivered_clock s)) as [v1 d1]. pose proof (check_dependencies_dwf pod r (r_vc r) d1 H1) as H2.
  destruct (check_dependencies pod r (r_vc r) d1) as [v2 d2]. by apply advance_dwf.
Qed.

Lemma analyze_ok deliveries sent baselines a : Forall (λ kv, dwf kv.2) baselines → analyze deliveries sent baselines = Ok a →
  Forall (λ row, dwf (row_final_clock row)) (per_pod a) ∧ dwf (violations_by_kind a).
Proof.
  intros Hb. unfold analyze. destruct (mapR _ _) as [ys|]; [|done]. cbn [mbind result_bind]. intros [= <-]. cbn. split.
  - rewrite !Forall_fmap. apply Forall_true. intros kv. apply check_peer_log_dwf. unfold baseline_of.
    destruct (dget kv.1 baselines) as [b|] eqn:E; [|apply dwf_nil]. apply dget_elem in E. rewrite Forall_forall in Hb. exact (Hb _ E).
  - apply (foldl_inv dwf); [apply dwf_nil|]. intros v d _ Hd. by apply dwf_dset.
Qed.

Section Run.
Context `{Host}.
Context (exn_text : exn → string).

(** *** What the driver makes of answers *)

Lemma fetch_baseline_wf url w l w' : fetch url w = (Ok l, w') → dwf (log_baseline l).
Proof.
  unfold fetch. intros E. apply bind_ok in E as (guess & w1 & _ & E). apply bind_ok in E as (r & w2 & Er & E).
  destruct r as [[d s]|]; [|injection E as <- _; apply dwf_nil].
  apply bind_ok in E as (pod & w3 & _ & E). apply bind_ok in E as (ds & w4 & _ & E).
  apply bind_ok in E as (ss & w5 & _ & E). apply bind_ok in E as (b & w6 & Eb & E). injection E as <- _.
  unfold log_baseline. cbn [snd].
  apply try_ok in Er as [Eq|(e & w7 & _ & Er)]; [|done].
  apply bind_ok in Eq as (d' & w8 & Eq & Er). apply bind_ok in Er as (s' & w9 & _ & Er). injection Er as -> _ _.
  apply request_wf in Eq. injection Eb as Eb _. unfold jget in Eb. destruct d as [| | | | | |o]; try (injection Eb as <-; apply dwf_nil).
  destruct (dget "baseline_vc" o) as [j|] eqn:Ej; [|injection Eb as <-; apply dwf_nil].
  eapply counts_of_json_wf; [|exact Eb]. eapply (read_wf "baseline_vc" (JObj o)); [done|by apply read_eq].
Qed.

Lemma drive_wf args url count w j w' : _drive exn_text args url count w = (Ok j, w') → json_wf j.
Proof.
  unfold _drive. intros E. apply try_ok in E as [E|(e & w1 & _ & E)]; [by eapply request_wf|].
  apply bind_ok in E as (pod & w2 & _ & E). injection E as <- _. by obj_wf.
Qed.

Lemma poll_round_ok urls found w d w' : members_ok found → poll_round urls found w = (Ok d, w') → members_ok d.
Proof.
  revert found w. induction urls as [|url urls IH]; intros found w Hf E; cbn [poll_round] in E; [by injection E as <- _|].
  apply bind_ok in E as (n & w1 & En & E). eapply IH, E. destruct Hf as [Hd Hf]. split; [by apply dwf_dset|].
  apply dset_forall; [|done]. cbn. apply try_ok in En as [En|(e & w2 & _ & En)]; [|by injection En as <- _].
  apply bind_ok in En as (j & w2 & Ej & En). injection En as En _. eapply read_wf; [by eapply request_wf|exact En].
Qed.

Lemma repeat_until_inv {A B} (P : A → Prop) (Q : B → Prop) (turn : A → M world (A + B)) :
  (∀ a w r w', P a → turn a w = (Ok r, w') → match r with inl a => P a | inr b => Q b end) →
  ∀ fuel a w b w', P a → repeat_until fuel turn a w = (Ok (Some b), w') → Q b.
Proof.
  intros Ht fuel. induction fuel as [|fuel IH]; intros a w b w' Ha E; cbn [repeat_until] in E; [done|].
  apply bind_ok in E as (r & w1 & Er & E). apply Ht in Er; [|done]. destruct r as [a'|b']; [by eapply IH|by injection E as <- _].
Qed.

Lemma conv_result_ok ok why started d w c w' : members_ok d → conv_result ok why started d w = (Ok c, w') →
  json_wf (conv_seconds c) ∧ members_ok (counts c).
Proof. intros Hd E. unfold conv_result in E. apply bind_ok in E as (t & w1 & _ & E). by injection E as <- _. Qed.

Lemma wait_convergence_ok fuel urls expected timeout w c w' :
  wait_convergence fuel urls expected timeout w = (Ok (Some c), w') → json_wf (conv_seconds c) ∧ members_ok (counts c).
Proof.
  unfold wait_convergence. intros E. apply bind_ok in E as (t & w0 & [= <- <-] & E). apply bind_ok in E as (t & w0 & [= <- <-] & E).
  revert E. apply (repeat_until_inv (λ s, match s.2 with Some d => members_ok d | None => True end)
    (λ c, json_wf (conv_seconds c) ∧ members_ok (counts c))); [|done].
  clear. intros [[total progress] found] v r v' Hf E. unfold conv_turn in E. apply bind_ok in E as (t & w0 & [= <- <-] & E).
  destruct (_ <=? _)%Z.
  { apply bind_ok in E as (d & w1 & Ed & E). injection Ed as Ed _. destruct found as [d'|]; [|done]. injection Ed as ->. cbn in Hf.
    apply bind_ok in E as (c & w2 & Ec & E). injection E as <- _. eapply conv_result_ok; [|exact Ec]. done. }
  apply bind_ok in E as (d & w1 & Ed & E). apply poll_round_ok in Ed; [|split; [apply dwf_nil|constructor]].
  apply bind_ok in E as (ns & w2 & _ & E). destruct (forallb _ _).
  { apply bind_ok in E as (c & w3 & Ec & E). injection E as <- _. eapply conv_result_ok; [|exact Ec]. done. }
  apply bind_ok in E as (t & w3 & _ & E). destruct (negb _).
  { apply bind_ok in E as (u & w4 & _ & E). by injection E as <- _. }
  destruct (_ <? _)%Z.
  { apply bind_ok in E as (c & w4 & Ec & E). injection E as <- _. eapply conv_result_ok; [|exact Ec]. done. }
  apply bind_ok in E as (u & w4 & _ & E). by injection E as <- _.
Qed.

(** The report of a run holds no key twice, and nothing that is not JSON. *)
Lemma run_report_ok fuel args w r w' : run exn_text fuel args w = (Ok (Some r), w') → report_ok r.
Proof.
  intros E. unfold run in E. apply bind_ok in E as (ready & w1 & _ & E). destruct ready as [ready_s|]; [|done].
  apply bind_ok in E as ([] & w2 & _ & E). apply bind_ok in E as (planned & w3 & _ & E).
  apply bind_ok in E as (names & w4 & En & E). apply bind_ok in E as ([results wall] & w5 & Es & E).
  apply bind_ok in E as (conv & w6 & Ec & E). destruct conv as [conv|]; [|done].
  apply bind_ok in E as (logs & w7 & El & E). apply bind_ok in E as (a & w8 & Ea & E). injection E as <- _.
  apply wait_convergence_ok in Ec as [Hs Hc]. injection Ea as Ea _. injection En as En _.
  apply analyze_ok in Ea as [Hrows Hkinds]; cycle 1.
  { apply Forall_forall. intros [pod b] (l & Hl & _ & -> & _)%by_pod_elem.
    apply mapM_results in El; [|apply fetch_reaches]. rewrite Forall_forall in El. destruct (El _ Hl) as (url & v & v' & _ & _ & Ef).
    by eapply fetch_baseline_wf. }
  constructor; try done.
  - cbn. unfold throughput. by destruct (_ =? _)%Z.
  - cbn. unfold plan_names in En. destruct (mapR _ _) as [named|]; [|done]. injection En as <-.
    apply (foldl_inv dwf); [apply dwf_nil|]. intros kn d _. apply dwf_dset.
  - cbn. unfold originate in Es. apply bind_ok in Es as (t & w9 & _ & Es). apply bind_ok in Es as (rs & w10 & Er & Es).
    apply bind_ok in Es as (t' & w11 & _ & Es). injection Es as -> _ _. apply mapM_results in Er; [|intros; apply drive_reaches].
    eapply Forall_impl; [exact Er|]. intros j (un & v & v' & _ & _ & Ed). by eapply drive_wf.
Qed.

(** The report of any run is read back: whatever the driver has printed before, and
    whatever follows, the text between the marks decodes to the report, unless a mark
    occurs in a line before or in the report itself. *)
Lemma report_survives_stdout args dump r before after :
  report_ok r → json_wf (rate args) →
  let text := dumps (indented 2) (report_to_json args dump r) in
  Forall (λ l, contains BEGIN l = false) before → contains BEGIN text = false → contains END text = false →
  ∃ body, report_body (unlines (before ++ report_lines args dump r) +:+ after) = Some body ∧
    loads body = Some (report_to_json args dump r).
Proof.
  intros Hok Hr text Hb H1 H2. unfold report_lines. rewrite report_body_lines by done. eexists. split; [reflexivity|].
  by apply (loads_framed (indented 2)), report_wf.
Qed.
End Run.

Module ReportDemo.
Import DriverDemo.

(** The run of two pods of [DriverFacts.v]; the report names no mark. *)
Lemma demo_unmarked r w' : run text 12 args start = (Ok (Some r), w') →
  let t := dumps (indented 2) (report_to_json args None r) in contains BEGIN t = false ∧ contains END t = false.
Proof. intros E. vm_compute in E. injection E as <- _. split; vm_compute; reflexivity. Qed.
End ReportDemo.
