(* ===== verification/ReportTable.v ===== *)
(** * The report as a table ([harness/summarize.py])

    [main] renders a report, given as text with or without the lines the driver prints
    around it.  It takes the fields of the decoded report one by one, so a report that lacks
    one ends it with an exception, after what was printed before. *)

From stdpp Require Import prelude gmap strings.
From Stdlib Require Import Ascii.
From S2P Require Import Prelude PyDict PyStr Json PyText Base64 Utf8 CausalCheck PeerRuntime LogWire Driver DriverFacts Report.

Local Open Scope string_scope.
Local Open Scope list_scope.

Definition rule74 : string := String.concat "" (repeat "=" 74).

(** [f"{d[k]}"] *)
Definition text_of (k : string) (d : json) : result string := v ← read k d; mret (py_str v).
(** [f"{d.get(k)}"] *)
Definition got (k : string) (d : json) : result string := v ← get_or JNull k d; mret (py_str v).
(** [f"{d[k]:>n}"] *)
Definition column (n : nat) (k : string) (d : json) : result string := read k d ≫= py_format AlignRight n.

Definition table_header : string :=
  pad AlignLeft 12 "pod" +:+ pad AlignRight 7 "sent" +:+ pad AlignRight 11 "delivered" +:+ pad AlignRight 7 "dupes" +:+
  pad AlignRight 9 "missing" +:+ pad AlignRight 6 "viol" +:+ pad AlignRight 9 "p50ms" +:+ pad AlignRight 9 "p95ms".

(** A line of the table. *)
Definition table_line (row : json) : result string :=
  rl ← read "latency_remote" row;
  pod ← (read "pod" row ≫= py_format AlignLeft 12);
  sent ← column 7 "sent" row; delivered ← column 11 "delivered" row; dupes ← column 7 "duplicates" row;
  missing ← column 9 "missing" row; viol ← column 6 "violations" row;
  p50 ← text_of "p50_ms" rl; p95 ← text_of "p95_ms" rl;
  mret (pod +:+ sent +:+ delivered +:+ dupes +:+ missing +:+ viol +:+ pad AlignRight 9 p50 +:+ pad AlignRight 9 p95).

(** A line about a violation. *)
Definition violation_line (v : json) : result string :=
  pod ← text_of "pod" v; seq ← text_of "seq" v; kind ← text_of "kind" v; detail ← text_of "detail" v; held ← text_of "held_ms" v;
  mret ("  " +:+ pod +:+ " seq=" +:+ seq +:+ " " +:+ kind +:+ ": " +:+ detail +:+ " (held " +:+ held +:+ " ms)").

(** [print(f"...")]: nothing is printed when the text cannot be made. *)
Definition print_text (r : result string) : M (list string) unit := l ← lift r; print l.

Definition config_line (cfg : json) : result string :=
  p ← text_of "peers" cfg; s ← text_of "senders" cfg; m ← text_of "messages_total" cfg; r ← text_of "rate_per_sender" cfg;
  mret ("peers=" +:+ p +:+ "  senders=" +:+ s +:+ "  messages=" +:+ m +:+ "  rate/sender=" +:+ r +:+ "/s").

Definition convergence_line (conv : json) : result string :=
  ok ← got "converged" conv; sec ← got "seconds" conv; why ← get_or JNull "reason" conv;
  mret ("convergence           : " +:+ ok +:+ " after " +:+ sec +:+ " s" +:+
        (if truthy why then "  [" +:+ py_str why +:+ "]" else "")).

(** [a.get('violating_deliveries', '?')] and the total. *)
Definition violations_line (a : json) : result string :=
  d ← get_or (JStr "?") "violating_deliveries" a; t ← text_of "violations_total" a;
  mret ("CAUSAL VIOLATIONS     : " +:+ py_str d +:+ " deliveries out of order (" +:+ t +:+ " entries)").

(** [a['violations_by_kind'] or '{}'] *)
Definition by_kind_line (a : json) : result string :=
  k ← read "violations_by_kind" a;
  mret ("  by kind             : " +:+ (if truthy k then py_str k else "{}")).

Definition latency_lines (lat : json) : list (result string) :=
  [(n ← text_of "count" lat; mret ("end-to-end latency (remote deliveries, n=" +:+ n +:+ ")"));
   (p50 ← text_of "p50_ms" lat; p95 ← text_of "p95_ms" lat; p99 ← text_of "p99_ms" lat; mx ← text_of "max_ms" lat;
    mret ("  p50 " +:+ p50 +:+ " ms   p95 " +:+ p95 +:+ " ms   p99 " +:+ p99 +:+ " ms   max " +:+ mx +:+ " ms"))].

(** [raw] is what stands between the marks, if there are any. *)
Definition strip_marks (raw : string) : string :=
  match report_body raw with Some body => body | None => raw end.

Definition first_violations (samples : json) : M (list string) unit :=
  if truthy samples then
    print (String line_end "first violations:");;
    vs ← lift (py_iter_first 8 samples);
    forM vs (λ v, print_text (violation_line v))
  else mret ().

Definition print_table (report a cfg : json) : M (list string) unit :=
  print rule74;;
  print_text (config_line cfg);;
  print rule74;;
  print_text (w ← got "ready_wait_s" report; mret ("ready wait            : " +:+ w +:+ " s"));;
  print_text (w ← got "send_wall_s" report; t ← got "send_throughput_msg_s" report;
              mret ("origination wall      : " +:+ w +:+ " s (" +:+ t +:+ " msg/s offered)"));;
  conv ← lift (get_or (JObj []) "convergence" report);
  print_text (convergence_line conv);;
  print "";;
  print_text (n ← text_of "messages_sent" a; mret ("messages sent         : " +:+ n));;
  print_text (e ← text_of "expected_deliveries" a; n ← text_of "messages_sent" a; p ← text_of "peers" a;
              mret ("expected deliveries   : " +:+ e +:+ "  (" +:+ n +:+ " x " +:+ p +:+ " peers)"));;
  print_text (d ← text_of "total_delivered" a; mret ("actual deliveries     : " +:+ d));;
  print_text (violations_line a);;
  print_text (by_kind_line a);;
  print_text (h ← text_of "violations_past_holdback_timeout" a;
              mret ("  of which held >5s   : " +:+ h +:+ " (hold-back timeout releases)"));;
  lat ← lift (read "latency_remote_all_peers" a);
  print "";;
  forM (latency_lines lat) print_text;;
  print "";;
  print table_header;;
  rows ← lift (read "per_pod" a ≫= py_iter);
  forM rows (λ row, print_text (table_line row));;
  samples ← lift (read "violation_samples" a);
  first_violations samples.

(** [main] on the text of the file or the standard input. *)
Definition main (raw : string) : M (list string) Z :=
  report ← lift (of_option JSONDecodeError (loads (strip_marks raw)));
  a ← lift (read "analysis" report);
  cfg ← lift (read "config" report);
  print_table report a cfg;;
  mret 0%Z.

(** ** The table of a driver's report *)

(** A value that may be missing, as it is printed. *)
Definition ms_text (o : option Z) : string := py_str (opt_wire ms_json o).
Definition nat_text (n : nat) : string := string_of_Z (Z.of_nat n).

(** The line of a pod, from the checker's row. *)
Definition row_text (r : PodRow) : string :=
  pad AlignLeft 12 (row_pod r) +:+ pad AlignRight 7 (nat_text (row_sent r)) +:+ pad AlignRight 11 (nat_text (row_delivered r)) +:+
  pad AlignRight 7 (nat_text (row_duplicates r)) +:+ pad AlignRight 9 (nat_text (row_missing r)) +:+
  pad AlignRight 6 (nat_text (row_violations r)) +:+ pad AlignRight 9 (ms_text (p50 (row_latency r))) +:+
  pad AlignRight 9 (ms_text (p95 (row_latency r))).

Definition violation_text (v : Violation) : string :=
  "  " +:+ v_pod v +:+ " seq=" +:+ string_of_Z (v_seq v) +:+ " " +:+ v_kind v +:+ ": " +:+ v_detail v +:+ " (held " +:+
  ms_text (v_held_ms v) +:+ " ms)".

Definition verdict_text (a : Analysis) : string :=
  "CAUSAL VIOLATIONS     : " +:+ nat_text (violating_deliveries a) +:+ " deliveries out of order (" +:+
  nat_text (violations_total a) +:+ " entries)".

Definition samples_text (vs : list Violation) : list string :=
  match vs with [] => [] | _ => String line_end "first violations:" :: (violation_text <$> take 8 vs) end.

(** The lines from the header of the table on. *)
Definition table_text (a : Analysis) : list string :=
  "" :: table_header :: (row_text <$> per_pod a) ++
  samples_text (violation_samples a).

Lemma table_line_row r : table_line (row_to_json r) = Ok (row_text r).
Proof. reflexivity. Qed.

Lemma violation_line_text v : violation_line (violation_to_json v) = Ok (violation_text v).
Proof. reflexivity. Qed.

Lemma violations_line_text a : violations_line (analysis_to_json a) = Ok (verdict_text a).
Proof. reflexivity. Qed.

(** *** Running a script that prints *)

Lemma print_run {B} l (k : unit → M (list string) B) out : (print l ≫= k) out = k () (out ++ [l]).
Proof. done. Qed.
Lemma print_text_run {B} r l (k : unit → M (list string) B) out : r = Ok l → (print_text r ≫= k) out = k () (out ++ [l]).
Proof. by intros ->. Qed.
Lemma lift_run {A B} r a (k : A → M (list string) B) out : r = Ok a → (lift r ≫= k) out = k a out.
Proof. by intros ->. Qed.
Lemma bind_assoc_run {S A B C} (m : M S A) (f : A → M S B) (g : B → M S C) s :
  ((m ≫= f) ≫= g) s = (m ≫= λ a, f a ≫= g) s.
Proof. rewrite !bind_run. by destruct (m s) as [[a|e] s']. Qed.

Lemma forM_print {A} (f : A → result string) (g : A → string) l out : (∀ x, x ∈ l → f x = Ok (g x)) →
  forM l (λ x, print_text (f x)) out = (Ok (), out ++ (g <$> l)).
Proof.
  revert out. induction l as [|x l IH]; intros out Hf; [cbn; by rewrite app_nil_r|].
  rewrite forM_cons. assert (print_text (f x) out = (Ok (), out ++ [g x])) as ->.
  { unfold print_text. by rewrite Hf by set_solver. }
  rewrite IH by set_solver. by rewrite <- app_assoc.
Qed.

Lemma print_violations vs out : forM (violation_to_json <$> vs) (λ v, print_text (violation_line v)) out =
  (Ok (), out ++ (violation_text <$> vs)).
Proof.
  rewrite (forM_print _ (λ j, match violation_line j with Ok l => l | Raise _ => "" end)).
  - rewrite <- list_fmap_compose. done.
  - by intros x (y & -> & _)%list_elem_of_fmap.
Qed.

Lemma first_violations_run vs out : first_violations (JList (violation_to_json <$> vs)) out =
  (Ok (), out ++ samples_text vs).
Proof.
  unfold first_violations. destruct vs as [|v vs]; [cbn; by rewrite app_nil_r|].
  assert (truthy (JList (violation_to_json <$> v :: vs)) = true) as -> by done. cbn [samples_text].
  generalize (v :: vs). clear v vs. intros vs.
  rewrite print_run. cbn [py_iter_first]. rewrite <- fmap_take.
  rewrite (lift_run _ _ _ _ (eq_refl (Ok (violation_to_json <$> take 8 vs)))), print_violations. by rewrite <- app_assoc.
Qed.

Lemma convergence_line_ok c : ∃ l, convergence_line (convergence_to_json c) = Ok l.
Proof. unfold convergence_line, convergence_to_json. destruct (reason c); by eexists. Qed.

Definition latency_text (l : LatencyStats) : list string :=
  ["end-to-end latency (remote deliveries, n=" +:+ nat_text (l_count l) +:+ ")";
   "  p50 " +:+ ms_text (p50 l) +:+ " ms   p95 " +:+ ms_text (p95 l) +:+ " ms   p99 " +:+ ms_text (p99 l) +:+ " ms   max " +:+
   ms_text (l_max l) +:+ " ms"].

Lemma print_latency l out : forM (latency_lines (latency_to_json l)) print_text out = (Ok (), out ++ latency_text l).
Proof.
  etransitivity; [apply (forM_print (λ r, r) (λ r, match r with Ok l => l | Raise _ => "" end))|done].
  intros x Hx. repeat (apply elem_of_cons in Hx as [->|Hx]; [done|]). by apply not_elem_of_nil in Hx.
Qed.

Lemma print_rows rows out : forM (row_to_json <$> rows) (λ row, print_text (table_line row)) out =
  (Ok (), out ++ (row_text <$> rows)).
Proof.
  rewrite (forM_print _ (λ j, match table_line j with Ok l => l | Raise _ => "" end)).
  - by rewrite <- list_fmap_compose.
  - by intros x (y & -> & _)%list_elem_of_fmap.
Qed.

Ltac print_step := first
  [rewrite print_run|erewrite print_text_run by reflexivity|erewrite lift_run by reflexivity].

Lemma print_table_run args dump r out : ∃ head,
  print_table (report_to_json args dump r) (analysis_to_json (analysis r)) (config_to_json args) out =
    (Ok (), out ++ head ++ table_text (analysis r)) ∧
  verdict_text (analysis r) ∈ head ∧ length head = 16.
Proof.
  unfold print_table. do 5 print_step. erewrite lift_run by reflexivity.
  destruct (convergence_line_ok (convergence r)) as [l Hl]. erewrite print_text_run by exact Hl.
  do 4 print_step. rewrite (print_text_run _ _ _ _ (violations_line_text (analysis r))).
  do 4 print_step. set (o := (out ++ _)) at 1.
  rewrite bind_run, print_latency. do 2 print_step. unfold o. clear o.
  erewrite lift_run by reflexivity. rewrite bind_run, print_rows. erewrite lift_run by reflexivity. rewrite first_violations_run.
  rewrite <- !app_assoc. eexists [_; _; _; _; _; _; _; _; _; _; _; _; _; _; _; _].
  unfold table_text, latency_text. cbn [app].
  split; [do 2 f_equal; repeat (apply f_equal2; [reflexivity|]); reflexivity|]. split; [|done]. do 10 apply list_elem_of_further. apply list_elem_of_here.
Qed.

Lemma summary_run raw args dump r : loads (strip_marks raw) = Some (report_to_json args dump r) → ∃ head,
  main raw [] = (Ok 0%Z, head ++ table_text (analysis r)) ∧ verdict_text (analysis r) ∈ head ∧ length head = 16.
Proof.
  intros E. unfold main. rewrite E. do 3 (erewrite lift_run by reflexivity).
  destruct (print_table_run args dump r []) as (head & Ep & Hv & Hl). exists head. split; [|done].
  rewrite bind_run, Ep. done.
Qed.


Module TableDemo.
Import DriverDemo ReportDemo.

End TableDemo.
