(* ===== verification/Chaos.v ===== *)
(** * The chaos run ([harness/chaos.py])

    A thread deletes random pods while the driver runs; the driver's report is cut out of
    its output, its violations are split between the pods that were deleted and the others,
    and the recovery counters of every pod are read.  The cluster and the machine are the
    class [Cluster]; the shuffle is the argument [shuffled] of [killer_run].  The pod of a
    row is text and its count of violations a number; anything else raises here, where
    Python fails at its first use. *)

From stdpp Require Import prelude gmap strings.
From Stdlib Require Import Ascii.
From S2P Require Import Prelude PyDict PyStr Json PyText Base64 Utf8 CausalCheck LogWire Driver Report.

Local Open Scope string_scope.
Local Open Scope list_scope.

(** What [main] runs in.  [subprocess_run] gives the standard output and the return code of
    a command, and raises when it takes too long; [killed_so_far] is the list the killer's
    thread appends to; [write_text] replaces a file. *)
Class Cluster := {
  env : Type;
  unix_time : env → time;
  subprocess_run : list string → M env (string * Z);
  killed_so_far : env → list (string * time);
  write_text : string → string → M env unit;
}.

(** ** [Killer] *)

Definition peer_name (i : nat) : string := "peerchat-" +:+ string_of_Z (Z.of_nat i).

(** [candidates] before the shuffle. *)
Definition candidates (peers : Z) : list string := peer_name <$> seq 0 (Z.to_nat peers).

(** The loop of [run]: for every pod, whether the thread was told to stop, the time, and
    what [kubectl delete] does. *)
Fixpoint kill_loop (stopped : nat → bool) (clock : nat → time) (delete : nat → string → result unit) (i : nat)
    (pods : list string) : list (string * time) :=
  match pods with
  | [] => []
  | pod :: pods =>
    if stopped i then []
    else match delete i pod with
         | Ok _ => (pod, clock i) :: kill_loop stopped clock delete (S i) pods
         | Raise _ => kill_loop stopped clock delete (S i) pods
         end
  end.

(** [Killer.run] on the shuffled candidates: [candidates[: self.kills]]. *)
Definition killer_run (kills : Z) (shuffled : list string) (stopped : nat → bool) (clock : nat → time)
    (delete : nat → string → result unit) : list (string * time) :=
  kill_loop stopped clock delete 0
    (if (kills <? 0)%Z then take (length shuffled - Z.to_nat (- kills)) shuffled else take (Z.to_nat kills) shuffled).

(** ** The report *)

(** [parse_report]; [JNull] when there is none. *)
Definition parse_report (stdout : string) : result json :=
  match report_body stdout with
  | None => Ok JNull
  | Some body => of_option JSONDecodeError (loads body)
  end.

(** [{row["pod"]: row for row in rows}] *)
Definition by_name (rows : list json) : result (pydict string json) :=
  named ← mapR (λ row, pod ← (read "pod" row ≫= as_str); mret (pod, row)) rows;
  mret (foldl (λ d kr, dset kr.1 kr.2 d) [] named).

(** The same of [report["analysis"]["per_pod"]]. *)
Definition rows_by_name (report : json) : result (pydict string json) :=
  a ← read "analysis" report; rows ← read "per_pod" a; items ← py_iter rows; by_name items.

(** [sum(row["violations"] for pod, row in per_pod.items() if keep(pod))] *)
Definition violations_of (keep : string → bool) (per_pod : pydict string json) : result Z :=
  ns ← mapR (λ kr, read "violations" kr.2 ≫= as_int) (List.filter (λ kr, keep kr.1) per_pod);
  mret (sum_Z ns).

Definition was_killed (killed : list (string * time)) (pod : string) : bool := bool_decide (pod ∈ killed.*1).

(** [sorted(killed_pods)] *)
Definition sorted_names (killed : list (string * time)) : list string :=
  dkeys (sort_keys (foldl (λ d k, dset k.1 tt d) [] killed)).

(** ** [main] *)

Record ChaosArgs := mkChaosArgs {
  ch_messages : Z;
  ch_peers : Z;
  ch_rate : time;
  ch_kills : Z;
  ch_kill_interval : time;
  ch_kill_delay : time;
  ch_seed : Z;
  ch_out : string;
}.

(** [vars(args)] *)
Definition args_to_json (a : ChaosArgs) : json :=
  JObj [("messages", JInt (ch_messages a)); ("peers", JInt (ch_peers a)); ("rate", JFloat (ch_rate a));
        ("kills", JInt (ch_kills a)); ("kill_interval", JFloat (ch_kill_interval a));
        ("kill_delay", JFloat (ch_kill_delay a)); ("seed", JInt (ch_seed a)); ("out", JStr (ch_out a))].

Definition killed_to_json (killed : list (string * time)) : json :=
  JList ((λ k, JObj [("pod", JStr k.1); ("at", JFloat k.2)]) <$> killed).

(** [x is None] *)
Definition is_none (j : json) : bool := match j with JNull => true | _ => false end.

Definition NS : string := "peerchat".

(** The command of [run_driver]. *)
Definition driver_command (now : time) (messages peers : Z) (rate : time) : list string :=
  ["kubectl"; "-n"; NS; "run"; "harness-chaos-" +:+ string_of_Z (now / 1000000); "--rm"; "-i"; "--restart=Never";
   "--image=peerchat:dev"; "--image-pull-policy=IfNotPresent"; "--command"; "--"; "python"; "-m"; "harness.driver";
   "--messages"; string_of_Z messages; "--peers"; string_of_Z peers; "--rate"; string_of_float rate].

Definition wait_command : list string :=
  ["kubectl"; "-n"; NS; "wait"; "--for=condition=Ready"; "pod"; "-l"; "app=peerchat"; "--timeout=300s"].

(** What [pod_control] runs in the pod. *)
Definition control_command (pod path : string) : list string :=
  ["exec"; pod; "--"; "python"; "-c";
   "import urllib.request;print(urllib.request.urlopen('http://localhost:8080" +:+ path +:+ "',timeout=10).read().decode())"].

(** *** The printed lines *)

Definition rule74 : string := String.concat "" (repeat "=" 74).
Definition survivors_line (n : Z) : string :=
  "VIOLATIONS, survivors : " +:+ string_of_Z n +:+ "   <- the invariant under test".
Definition restarted_line (n : Z) : string :=
  "VIOLATIONS, restarted : " +:+ string_of_Z n +:+ "   (empty clock after restart)".
Definition chaos_header : string :=
  pad AlignLeft 12 "pod" +:+ pad AlignRight 8 "killed" +:+ pad AlignRight 10 "rejoin_s" +:+ pad AlignRight 9 "hb_peak" +:+
  pad AlignRight 12 "hb_drain_s" +:+ pad AlignRight 11 "delivered" +:+ pad AlignRight 6 "viol".

Definition killed_mark (killed : list (string * time)) (pod : json) : string :=
  match pod with JStr s => if was_killed killed s then "yes" else "-" | _ => "-" end.
(** [per_pod.get(pod, {})] *)
Definition row_of (per_pod : pydict string json) (pod : json) : json :=
  match pod with JStr s => default (JObj []) (dget s per_pod) | _ => JObj [] end.

Definition recovery_line (killed : list (string * time)) (per_pod : pydict string json) (row : json) : result string :=
  pod ← read "pod" row;
  c1 ← py_format AlignLeft 12 pod;
  rejoin ← read "rejoin_s" row;
  peak ← (read "holdback_peak" row ≫= py_format AlignRight 9);
  drain ← read "holdback_drain_span_s" row;
  delivered ← (read "delivered" row ≫= py_format AlignRight 11);
  viol ← (get_or (JInt 0) "violations" (row_of per_pod pod) ≫= py_format AlignRight 6);
  mret (c1 +:+ pad AlignRight 8 (killed_mark killed pod) +:+ pad AlignRight 10 (py_str rejoin) +:+ peak +:+
        pad AlignRight 12 (py_str drain) +:+ delivered +:+ viol).

Section Main.
Context `{Cluster}.
Context (exn_text : exn → string).

(** The environment and the lines printed so far. *)
Definition session : Type := env * list string.
Definition on_env {A} (m : M env A) : M session A := λ s, let '(r, e) := m s.1 in (r, (e, s.2)).
Definition say (l : string) : M session unit := λ s, (Ok tt, (s.1, s.2 ++ [l])).

Definition killed_now : M session (list (string * time)) := λ s, (Ok (killed_so_far s.1), s).

(** [kubectl(...)] with [check=True]. *)
Definition kubectl (args : list string) : M env string :=
  '(out, rc) ← subprocess_run (["kubectl"; "-n"; NS] ++ args);
  if (rc =? 0)%Z then mret out else lift (Raise RuntimeError).

Definition pod_control (pod path : string) : M env json :=
  out ← kubectl (control_command pod path);
  lift (of_option JSONDecodeError (loads out)).

Definition run_driver (messages peers : Z) (rate : time) : M env (string * Z) :=
  e ← get; subprocess_run (driver_command (unix_time e) messages peers rate).

(** The loop over the pods: a pod that does not answer is left out. *)
Fixpoint read_recovery (pods : list string) : M session (list json) :=
  match pods with
  | [] => mret []
  | pod :: pods =>
    found ← try_except (j ← on_env (pod_control pod "/recovery"); mret [j])
              (λ e, say ("[chaos] recovery read failed for " +:+ pod +:+ ": " +:+ exn_text e);; mret []);
    rest ← read_recovery pods;
    mret (found ++ rest)
  end.

(** The table: from [a = report["analysis"]] on.  The killer's list is the one of the
    moment at which it is read. *)
Definition print_result (args : ChaosArgs) (killed : list (string * time)) (report : json) (recovery : list json)
    (per_pod : pydict string json) (survivors restarted : Z) : M session unit :=
  a ← lift (read "analysis" report);
  say "";; say rule74;;
  deleted ← killed_now;
  say ("CHAOS: " +:+ string_of_Z (ch_messages args) +:+ " messages, " +:+ string_of_Z (ch_peers args) +:+ " peers, " +:+
       string_of_Z (Z.of_nat (length deleted)) +:+ " pods deleted mid-run");;
  say rule74;;
  say ("pods deleted          : " +:+ py_repr (JList (JStr <$> sorted_names killed)));;
  ms ← lift (read "messages_sent" a);
  say ("messages sent         : " +:+ py_str ms);;
  td ← lift (read "total_delivered" a); ed ← lift (read "expected_deliveries" a);
  say ("total deliveries      : " +:+ py_str td +:+ " / " +:+ py_str ed);;
  say "";;
  say (survivors_line survivors);;
  say (restarted_line restarted);;
  past ← lift (read "violations_past_holdback_timeout" a);
  say ("  held past 5s timeout: " +:+ py_str past);;
  say "";; say chaos_header;;
  forM recovery (λ row, l ← lift (recovery_line killed per_pod row); say l);;
  say "";; say ("[chaos] full result written to " +:+ ch_out args).

Definition make_accounts (args : ChaosArgs) (report : json) : M session unit :=
  say "[chaos] waiting for the StatefulSet to recover";;
  on_env (subprocess_run wait_command);;
  recovery ← read_recovery (candidates (ch_peers args));
  killed ← killed_now;
  per_pod ← lift (rows_by_name report);
  survivors ← lift (violations_of (λ pod, negb (was_killed killed pod)) per_pod);
  restarted ← lift (violations_of (was_killed killed) per_pod);
  later ← killed_now;
  on_env (write_text (ch_out args) (dumps (indented 2)
    (JObj [("config", args_to_json args); ("killed", killed_to_json later); ("driver_report", report);
           ("recovery", JList recovery); ("violations_survivors", JInt survivors);
           ("violations_restarted", JInt restarted)])));;
  print_result args killed report recovery per_pod survivors restarted.

Definition main (args : ChaosArgs) : M session Z :=
  say ("[chaos] driving " +:+ string_of_Z (ch_messages args) +:+ " messages, killing " +:+ string_of_Z (ch_kills args) +:+
       " pods every " +:+ string_of_float (ch_kill_interval args) +:+ "s");;
  '(stdout, _) ← on_env (run_driver (ch_messages args) (ch_peers args) (ch_rate args));
  report ← lift (parse_report stdout);
  if is_none report then mret 1%Z else make_accounts args report;; mret 0%Z.
End Main.
