(* ===== verification/ChaosFacts.v ===== *)
(** * What the chaos run guarantees ([harness/chaos.py])

    No pod is deleted twice, and no more than asked for.  Composed with the driver, the
    checker and the control servers of the pods: the run accounts for every violation the
    checker found, once, to the pods that were deleted or to the others, and its table
    never fails on what the pods answer. *)

From stdpp Require Import prelude gmap strings.
From Stdlib Require Import Ascii.
From S2P Require Import Prelude PyDict PyStr Json PyText Base64 Utf8 Message Security PeerRegistry VectorClock BroadcastNode.
From S2P Require Import StoredMessage MessageStore MessageHistory Recovery Deployment CausalCheck PeerRuntime LogWire.
From S2P Require Import ControlServer ControlFacts Driver DriverFacts Report Chaos.

Local Open Scope string_scope.
Local Open Scope list_scope.

(** ** The killer *)

Lemma kill_loop_sub stopped clock delete i pods : (kill_loop stopped clock delete i pods).*1 `sublist_of` pods.
Proof.
  revert i. induction pods as [|p pods IH]; intros i; cbn; [done|]. destruct (stopped i); [apply sublist_nil_l|].
  destruct (delete i p); cbn; [by apply sublist_skip|by apply sublist_cons].
Qed.

(** No pod is deleted twice, no pod that is not a candidate, and no more than asked for. *)
Theorem killer_is_bounded kills shuffled stopped clock delete : NoDup shuffled → (0 ≤ kills)%Z →
  let killed := killer_run kills shuffled stopped clock delete in
  NoDup killed.*1 ∧ killed.*1 ⊆ shuffled ∧ (Z.of_nat (length killed) ≤ kills)%Z.
Proof.
  intros Hn Hk killed. unfold killed, killer_run. rewrite (proj2 (Z.ltb_ge kills 0) Hk).
  pose proof (kill_loop_sub stopped clock delete 0 (take (Z.to_nat kills) shuffled)) as Hsub.
  set (ks := kill_loop _ _ _ _ _) in *. assert (ks.*1 `sublist_of` shuffled) as Hs by (etransitivity; [exact Hsub|apply sublist_take]).
  split_and!.
  - eapply submseteq_NoDup; [by apply sublist_submseteq|done].
  - intros x Hx. by eapply elem_of_submseteq; [|apply sublist_submseteq].
  - apply sublist_length in Hsub. rewrite length_fmap, length_take in Hsub. lia.
Qed.

(** ** The accounts *)

Lemma filter_split_sum (keep : string → bool) (rows : list PodRow) :
  sum_list (row_violations <$> List.filter (λ r, negb (keep (row_pod r))) rows) +
  sum_list (row_violations <$> List.filter (λ r, keep (row_pod r)) rows) = sum_list (row_violations <$> rows).
Proof. induction rows as [|r rows IH]; [done|]. cbn. destruct (keep (row_pod r)); cbn; lia. Qed.

Lemma dict_of_rows {A} (rows : list (string * A)) : NoDup rows.*1 → foldl (λ d kr, dset kr.1 kr.2 d) [] rows = rows.
Proof.
  induction rows as [|r rows IH] using rev_ind; [done|]. rewrite fmap_app, foldl_app. intros (Hn & Hd & _)%NoDup_app.
  rewrite IH by done. cbn. destruct r as [k v]. cbn. assert (k ∉ dkeys rows) as Hk.
  { intros Hin. apply (Hd _ Hin). cbn. set_solver. }
  clear -Hk. induction rows as [|[k' v'] rows IH]; [done|]. cbn in *. rewrite decide_False by set_solver. f_equal.
  apply IH. set_solver.
Qed.

Lemma analyze_rows deliveries sent baselines a : dwf deliveries → analyze deliveries sent baselines = Ok a →
  NoDup (row_pod <$> per_pod a) ∧ sum_list (row_violations <$> per_pod a) = violations_total a.
Proof.
  intros Hd. unfold analyze. destruct (mapR _ _) as [ys|]; [|done]. cbn [mbind result_bind]. intros [= <-]. cbn [per_pod violations_total].
  rewrite <- !list_fmap_compose. split.
  - change (NoDup ((λ kv : string * list Delivery, kv.1) <$> sort_keys deliveries)). by rewrite sort_keys_perm.
  - generalize (sort_keys deliveries). clear. intros l. induction l as [|kv l IH]; [done|]. cbn in *.
    by rewrite length_app, IH.
Qed.

Definition named_row (r : PodRow) : string * json := (row_pod r, row_to_json r).

Lemma by_name_rows rows : NoDup (row_pod <$> rows) → by_name (row_to_json <$> rows) = Ok (named_row <$> rows).
Proof.
  intros Hn. unfold by_name.
  assert (mapR (λ row, pod ← (read "pod" row ≫= as_str); mret (pod, row)) (row_to_json <$> rows) = Ok (named_row <$> rows)) as ->.
  { clear. induction rows as [|r rows IH]; [done|]. rewrite fmap_cons. cbn [mapR]. rewrite IH. reflexivity. }
  cbn [mbind result_bind mret result_ret]. f_equal. apply dict_of_rows. by rewrite <- list_fmap_compose.
Qed.

Lemma sum_Z_nat {A} (f : A → nat) l : sum_Z ((λ x, Z.of_nat (f x)) <$> l) = Z.of_nat (sum_list (f <$> l)).
Proof.
  induction l as [|x l IH]; [done|]. rewrite !fmap_cons. change (sum_list (f x :: (f <$> l))) with (f x + sum_list (f <$> l)).
  unfold sum_Z in *. cbn [foldr]. rewrite IH. lia.
Qed.

Lemma violations_of_rows keep rows : violations_of keep (named_row <$> rows) =
  Ok (Z.of_nat (sum_list (row_violations <$> List.filter (λ r, keep (row_pod r)) rows))).
Proof.
  unfold violations_of.
  assert (mapR (λ kr, read "violations" kr.2 ≫= as_int) (List.filter (λ kr, keep kr.1) (named_row <$> rows)) =
    Ok ((λ r, Z.of_nat (row_violations r)) <$> List.filter (λ r, keep (row_pod r)) rows)) as ->.
  { induction rows as [|r rows IH]; [done|]. rewrite fmap_cons. cbn. destruct (keep (row_pod r)); [|done].
    cbn [mapR]. rewrite IH. reflexivity. }
  cbn [mbind result_bind mret result_ret]. f_equal. apply sum_Z_nat.
Qed.

Section Account.
Context `{Cluster}.
Context (exn_text : exn → string).

Lemma say_run {B} l (k : unit → M session B) e out : (say l ≫= k) (e, out) = k () (e, out ++ [l]).
Proof. done. Qed.
Lemma now_run {B} (k : _ → M session B) e out : (killed_now ≫= k) (e, out) = k (killed_so_far e) (e, out).
Proof. done. Qed.
Lemma lifted {A B} r a (k : A → M session B) s : r = Ok a → (lift r ≫= k) s = k a s.
Proof. by intros ->. Qed.
Lemma on_env_run {A B} (m : M env A) (k : A → M session B) a e e' out : m e = (Ok a, e') →
  (on_env m ≫= k) (e, out) = k a (e', out).
Proof. intros E. rewrite bind_run. unfold on_env. cbn [fst snd]. by rewrite E. Qed.

(** Rows of which the table can be made. *)
Definition printable_row (killed : list (string * time)) (per_pod : pydict string json) (j : json) : Prop :=
  ∃ l, recovery_line killed per_pod j = Ok l.

Lemma print_rows_run killed per_pod rows e out : Forall (printable_row killed per_pod) rows → ∃ ls, length ls = length rows ∧
  forM rows (λ row, l ← lift (recovery_line killed per_pod row); say l) (e, out) = (Ok (), (e, out ++ ls)).
Proof.
  intros Hr. revert out. induction Hr as [|j rows [l Hl] Hr IH]; intros out; [exists []; by rewrite app_nil_r|].
  destruct (IH (out ++ [l])) as (ls & Hn & E). exists (l :: ls). split; [cbn; by rewrite Hn|].
  rewrite forM_cons. rewrite (lifted _ _ _ _ Hl). unfold say at 1. cbn [fst snd]. by rewrite E, <- app_assoc.
Qed.

Lemma print_result_run args killed dargs dump r recovery per_pod survivors restarted e out :
  Forall (printable_row killed per_pod) recovery → ∃ ls,
  print_result args killed (report_to_json dargs dump r) recovery per_pod survivors restarted (e, out) = (Ok (), (e, out ++ ls)) ∧
  survivors_line survivors ∈ ls ∧ restarted_line restarted ∈ ls ∧ length ls = 15 + length recovery.
Proof.
  intros Hr. unfold print_result. erewrite lifted by reflexivity. do 2 rewrite say_run. rewrite now_run.
  repeat first [rewrite say_run|erewrite lifted by reflexivity]. rewrite bind_run.
  edestruct (print_rows_run killed per_pod recovery e) as (ls & Hl & ->); [exact Hr|]. rewrite say_run.
  unfold say. cbn [fst snd]. rewrite <- !app_assoc. cbn [app]. eexists. split; [reflexivity|].
  split; [|split]; [do 8 apply list_elem_of_further; apply list_elem_of_here|
    do 9 apply list_elem_of_further; apply list_elem_of_here|].
  cbn [length]. rewrite length_app, Hl. cbn. lia.
Qed.
(** Every pod has a row or a warning. *)
Lemma read_recovery_run (P : json → Prop) pods e out :
  (∀ pod e j e', pod_control pod "/recovery" e = (Ok j, e') → P j) →
  ∃ rows e' ls, read_recovery exn_text pods (e, out) = (Ok rows, (e', out ++ ls)) ∧ Forall P rows ∧
    length rows + length ls = length pods.
Proof.
  intros HP. revert e out. induction pods as [|pod pods IH]; intros e out.
  { exists [], e, []. split_and!; [by rewrite app_nil_r|constructor|done]. }
  cbn [read_recovery]. rewrite bind_run. unfold try_except. rewrite bind_run. unfold on_env at 1. cbn [fst snd].
  destruct (pod_control pod "/recovery" e) as [[j|x] e1] eqn:Ec.
  - destruct (IH e1 out) as (rows & e' & ls & E & HPs & Hn).
    exists (j :: rows), e', ls. cbn. rewrite bind_run, E. split_and!; [done|constructor; [|done]|lia].
    by eapply HP.
  - destruct (IH e1 (out ++ ["[chaos] recovery read failed for " +:+ pod +:+ ": " +:+ exn_text x])) as (rows & e' & ls & E & HPs & Hn).
    exists rows, e', (("[chaos] recovery read failed for " +:+ pod +:+ ": " +:+ exn_text x) :: ls).
    rewrite bind_run. unfold say at 1. cbn [fst snd mret M_ret]. rewrite bind_run, E. split_and!; [|done|cbn; lia].
    cbn. by rewrite <- app_assoc.
Qed.
Definition violations_where (keep : string → bool) (rows : list PodRow) : nat :=
  sum_list (row_violations <$> List.filter (λ r, keep (row_pod r)) rows).

Lemma is_Ok_run {A} (m : M env A) e : is_Ok (m e).1 = true → ∃ a e', m e = (Ok a, e').
Proof. destruct (m e) as [[a|x] e']; [|done]. by exists a, e'. Qed.

Lemma accounts_run cargs dargs dump r e out :
  NoDup (row_pod <$> per_pod (analysis r)) →
  (∀ pod e j e' killed, pod_control pod "/recovery" e = (Ok j, e') → printable_row killed (named_row <$> per_pod (analysis r)) j) →
  (∀ e, is_Ok (subprocess_run wait_command e).1 = true) → (∀ path t e, is_Ok (write_text path t e).1 = true) →
  ∃ rows warnings ew e2 e3 ls,
    read_recovery exn_text (candidates (ch_peers cargs)) ew = (Ok rows, (e2, ew.2 ++ warnings)) ∧
    length rows + length warnings = Z.to_nat (ch_peers cargs) ∧
    make_accounts exn_text cargs (report_to_json dargs dump r) (e, out) = (Ok (), (e3, out ++ ls)) ∧
    survivors_line (Z.of_nat (violations_where (λ pod, negb (was_killed (killed_so_far e2) pod)) (per_pod (analysis r)))) ∈ ls ∧
    restarted_line (Z.of_nat (violations_where (was_killed (killed_so_far e2)) (per_pod (analysis r)))) ∈ ls ∧
    length ls = 16 + length rows + length warnings.
Proof.
  intros Hnd Hctl Hwait Hwrite. unfold make_accounts. rewrite say_run.
  destruct (is_Ok_run _ _ (Hwait e)) as (x & e1 & Ew). rewrite (on_env_run _ _ _ _ _ _ Ew).
  edestruct (read_recovery_run (λ j, ∀ killed, printable_row killed (named_row <$> per_pod (analysis r)) j)
    (candidates (ch_peers cargs)) e1) as (rows & e2 & warnings & Er & HP & Hn); [intros; by eapply Hctl|].
  rewrite bind_run, Er, now_run.
  assert (rows_by_name (report_to_json dargs dump r) = Ok (named_row <$> per_pod (analysis r))) as Hrows
    by exact (by_name_rows _ Hnd).
  rewrite (lifted _ _ _ _ Hrows), (lifted _ _ _ _ (violations_of_rows _ _)), (lifted _ _ _ _ (violations_of_rows _ _)), now_run.
  set (t := dumps _ _). destruct (is_Ok_run _ _ (Hwrite (ch_out cargs) t e2)) as ([] & e3 & Et). rewrite (on_env_run _ _ _ _ _ _ Et).
  edestruct (print_result_run cargs (killed_so_far e2) dargs dump r rows) as (ls & -> & Hs & Hr & Hl);
    [eapply Forall_impl; [exact HP|]; intros j Hj; apply Hj|].
  eexists rows, warnings, _, e2, e3, _. split; [exact Er|].
  split; [rewrite Hn; unfold candidates; by rewrite length_fmap, length_seq|]. rewrite <- !app_assoc. split; [reflexivity|].
  split_and!; [apply elem_of_app; right; apply elem_of_app; by right|apply elem_of_app; right; apply elem_of_app; by right|].
  rewrite !length_app, Hl. cbn. lia.
Qed.
End Account.

Lemma by_pod_dwf {A} (f : Log → A) logs : dwf (by_pod f logs).
Proof. unfold by_pod. apply (foldl_inv dwf); [apply dwf_nil|]. intros l d _. apply dwf_dset. Qed.

Section Cluster.
Context `{Cluster} `{Host} `{Crypto} `{Dns} `{Archive}.
Context (history_uuid : nat → string) (exn_text : exn → string).
Context (ident : nat → PeerIdentity) (replicas : nat) (refresh_interval : time) (min_peers : Z) (security_available : bool).

(** A command that reads [/recovery] in a pod, when it succeeds, prints what the control
    server of some pod answers. *)
Definition recovery_served : Prop := ∀ pod e out e',
  subprocess_run (["kubectl"; "-n"; NS] ++ control_command pod "/recovery") e = (Ok (out, 0%Z), e') →
  ∃ i t (p : Pod (ident i) replicas refresh_interval) answer, pod_ok (ident i) replicas refresh_interval p ∧
    utf8_decode (body (do_GET exn_text (ident i) replicas refresh_interval min_peers security_available t "/recovery" p)) = Some answer ∧
    out = answer +:+ String line_end "".

Lemma recovery_read pod e j e' : recovery_served → pod_control pod "/recovery" e = (Ok j, e') →
  ∃ i t (p : Pod (ident i) replicas refresh_interval), j = recovery_stats (ident i) replicas refresh_interval t p.
Proof.
  intros Hs E. unfold pod_control, kubectl in E. apply bind_ok in E as (out & e1 & E & Ej).
  apply bind_ok in E as ([o rc] & e2 & E & Er). destruct (Z.eqb_spec rc 0) as [->|]; [|done]. injection Er as <- _.
  apply Hs in E as (i & t & p & answer & Hp & Ea & ->). exists i, t, p.
  assert (json_wf (recovery_stats (ident i) replicas refresh_interval t p)) as Hj.
  { pose proof (get_answer_wf history_uuid exn_text (ident i) replicas refresh_interval min_peers security_available t "/recovery" p Hp) as [Hw _].
    exact Hw. }
  change (do_GET exn_text (ident i) replicas refresh_interval min_peers security_available t "/recovery" p) with
    (respond 200 (recovery_stats (ident i) replicas refresh_interval t p)) in Ea.
  unfold respond in Ea. cbn [body] in Ea. rewrite utf8_decode_encode in Ea. injection Ea as <-.
  pose proof (loads_dumps_between default_style _ "" (String line_end "") Hj eq_refl eq_refl) as Hl.
  set (text := dumps _ _) in *. change (loads (text +:+ String line_end "") = Some
    (recovery_stats (ident i) replicas refresh_interval t p)) in Hl. rewrite Hl in Ej. by injection Ej.
Qed.

Lemma row_of_rows rows pod : ∃ v, get_or (JInt 0) "violations" (row_of (named_row <$> rows) pod) = Ok v ∧
  ∃ n, v = JInt n.
Proof.
  unfold row_of. destruct pod; try by (eexists; split; [reflexivity|eexists]).
  destruct (dget s (named_row <$> rows)) as [j|] eqn:E; [|by (eexists; split; [reflexivity|eexists])].
  apply dget_elem, list_elem_of_fmap in E as (row & [= _ ->] & _). cbn [default]. eexists. split; [reflexivity|]. by eexists.
Qed.

Lemma recovery_printable killed rows i t (p : Pod (ident i) replicas refresh_interval) :
  printable_row killed (named_row <$> rows) (recovery_stats (ident i) replicas refresh_interval t p).
Proof.
  unfold printable_row, recovery_line, recovery_stats. erewrite read_eq by reflexivity. cbn [mbind result_bind py_format].
  do 4 (erewrite read_eq by reflexivity; cbn [mbind result_bind py_format]).
  destruct (row_of_rows rows (JStr (pod_name (ident i)))) as (v & -> & n & ->). cbn. by eexists.
Qed.

End Cluster.

(** ** Two pods, one of them deleted *)

Module ChaosDemo.
Import Toy DriverDemo ReportDemo.
#[local] Existing Instance all_resolve.
#[local] Existing Instance two_pods.

Definition driver_stdout : string :=
  match run text 12 args start with
  | (Ok (Some r), _) => unlines (["[driver] logs reset"] ++ report_lines args None r) +:+ "pod deleted"
  | _ => ""
  end.

(** What the control server of the first pod answers; the second cannot be reached. *)
Definition pod_answer (pod : string) : option string :=
  if decide (pod = "peerchat-0") then
    utf8_decode (body (do_GET text (ident 0) 2 (seconds 5) 1 true (seconds 4) "/recovery" (pod_of 0)))
  else None.

#[local] Instance small_cluster : Cluster := {|
  env := unit;
  unix_time := λ _, seconds 100;
  subprocess_run := λ cmd e,
    match cmd with
    | _ :: _ :: _ :: "run" :: _ => (Ok (driver_stdout, 0%Z), e)
    | _ :: _ :: _ :: "exec" :: pod :: _ =>
      match pod_answer pod with Some s => (Ok (s +:+ String line_end "", 0%Z), e) | None => (Raise OSError, e) end
    | _ => (Ok ("", 0%Z), e)
    end;
  killed_so_far := λ _, [("chat-1", seconds 3)];
  write_text := λ _ _ e, (Ok (), e);
|}.

Definition tt_env : env := tt.
Definition cargs : ChaosArgs := mkChaosArgs 2 2 (seconds 20) 1 (seconds 12) (seconds 8) 275 "results/chaos.json".

Lemma small_served : recovery_served text ident 2 (seconds 5) 1 true.
Proof.
  intros pod e out e' E. change (match pod_answer pod with Some s => (Ok (s +:+ String line_end "", 0%Z), e) | None => (Raise OSError, e) end
    = (Ok (out, 0%Z), e')) in E. unfold pod_answer in E. case_decide; [|done].
  destruct (utf8_decode _) as [answer|] eqn:Ea; [|done]. injection E as <- _.
  exists 0, (seconds 4), (pod_of 0), answer. split; [apply pods_ok|]. split; [exact Ea|reflexivity].
Qed.

Lemma driver_stdout_eq r w' : run text 12 args start = (Ok (Some r), w') →
  driver_stdout = unlines (["[driver] logs reset"] ++ report_lines args None r) +:+ "pod deleted".
Proof. intros E. unfold driver_stdout. by rewrite E. Qed.

Lemma small_driver : run_driver (ch_messages cargs) (ch_peers cargs) (ch_rate cargs) tt_env = (Ok (driver_stdout, 0%Z), tt_env).
Proof. lazy -[driver_stdout]. reflexivity. Qed.

End ChaosDemo.
