(* ===== verification/DiscoveryProtocol.v ===== *)
(** * The discovery wire formats ([peer_discovery/network/protocol.py])

    The envelope every discovery message travels in, inside the [content] of a chat
    message, and the older [NetworkMessage] codec the tests keep.  [dict.get] with a
    default, truth values and the order of the checks are as in the source; a failed
    check is [ProtocolError]. *)

From stdpp Require Import prelude gmap strings.
From Stdlib Require Import Ascii.
From S2P Require Import Prelude PyDict PyStr Json Base64 Utf8.

Local Open Scope string_scope.
Local Open Scope list_scope.

(** ** The envelope *)

Definition DISCOVERY_TYPE_PREFIX : string := "discovery_".
Definition SUBTYPE_JOIN_REQUEST : string := "discovery_join_request".
Definition SUBTYPE_JOIN_RESPONSE : string := "discovery_join_response".
Definition SUBTYPE_GOSSIP : string := "discovery_gossip".
Definition SUBTYPE_HEARTBEAT : string := "discovery_heartbeat".

(** The literals ["type": "discovery_] and ["type":"discovery_]. *)
Definition sniff_spaced : string :=
  dquote +:+ "type" +:+ dquote +:+ ": " +:+ dquote +:+ DISCOVERY_TYPE_PREFIX.
Definition sniff_compact : string :=
  dquote +:+ "type" +:+ dquote +:+ ":" +:+ dquote +:+ DISCOVERY_TYPE_PREFIX.

Definition is_discovery_message (content : string) : bool :=
  contains sniff_spaced content || contains sniff_compact content.

Definition envelope (subtype : string) (pem : bytes) (payload : pydict string json) : json :=
  JObj [("type", JStr subtype); ("sender_public_key_pem_b64", JStr (b64encode pem));
        ("payload", JObj payload)].

Definition encode_discovery_envelope (subtype : string) (sender_pub_pem : bytes)
    (payload : pydict string json) : result string :=
  if negb (startswith DISCOVERY_TYPE_PREFIX subtype) then Raise ProtocolError
  else Ok (dumps default_style (envelope subtype sender_pub_pem payload)).

(** [base64.b64decode(pub_b64) if pub_b64 else b""], any exception turned into
    [ProtocolError]. *)
Definition decode_pem (pub_b64 : json) : result bytes :=
  if negb (truthy pub_b64) then Ok ""
  else match pub_b64 with
       | JStr s => of_option ProtocolError (b64decode s)
       | _ => Raise ProtocolError
       end.

Definition decode_discovery_envelope (content : string) :
    result (string * bytes * pydict string json) :=
  raw ← of_option ProtocolError (loads content);
  match raw with
  | JObj d =>
    match dget "type" d with
    | Some (JStr subtype) =>
      if negb (startswith DISCOVERY_TYPE_PREFIX subtype) then Raise ProtocolError
      else
        match default (JObj []) (dget "payload" d) with
        | JObj payload =>
          pem ← decode_pem (default (JStr "") (dget "sender_public_key_pem_b64" d));
          mret (subtype, pem, payload)
        | _ => Raise ProtocolError
        end
    | _ => Raise ProtocolError
    end
  | _ => Raise ProtocolError
  end.

(** ** The older codec *)

Inductive MessageType := M_JOIN_REQUEST | M_JOIN_RESPONSE | M_EVENT_BROADCAST | M_SNAPSHOT_SYNC | M_HEARTBEAT.

Definition message_type_value (t : MessageType) : string :=
  match t with
  | M_JOIN_REQUEST => "JOIN_REQUEST" | M_JOIN_RESPONSE => "JOIN_RESPONSE"
  | M_EVENT_BROADCAST => "EVENT_BROADCAST" | M_SNAPSHOT_SYNC => "SNAPSHOT_SYNC"
  | M_HEARTBEAT => "HEARTBEAT"
  end.

(** [MessageType(v)]: only the five values are found. *)
Definition message_type_of (v : json) : option MessageType :=
  match v with
  | JStr s => find (λ t, bool_decide (message_type_value t = s))
      [M_JOIN_REQUEST; M_JOIN_RESPONSE; M_EVENT_BROADCAST; M_SNAPSHOT_SYNC; M_HEARTBEAT]
  | _ => None
  end.

(** The decoder checks only that the sender is not falsy: it may be any value. *)
Record NetworkMessage := mkNetworkMessage {
  message_type : MessageType;
  sender_id : json;
  nm_payload : pydict string json;
}.

Definition encode_message (m : NetworkMessage) : string :=
  dumps default_style (JObj [("type", JStr (message_type_value (message_type m)));
    ("sender_id", sender_id m); ("payload", JObj (nm_payload m))]).

(** The argument is text, or bytes to be decoded first. *)
Definition decode_message (data : string + bytes) : result NetworkMessage :=
  text ← match data with inl s => Ok s | inr b => of_option ProtocolError (utf8_decode b) end;
  raw ← of_option ProtocolError (loads text);
  match raw with
  | JObj d =>
    match dget "type" d, dget "sender_id" d, dget "payload" d with
    | Some ty, Some who, Some p =>
      if negb (truthy ty) || negb (truthy who) then Raise ProtocolError
      else match p with
           | JObj payload =>
             t ← of_option ProtocolError (message_type_of ty);
             mret (mkNetworkMessage t who payload)
           | _ => Raise ProtocolError
           end
    | _, _, _ => Raise ProtocolError
    end
  | _ => Raise ProtocolError
  end.

(** ** Round trips *)

Lemma startswith_inv p s : startswith p s = true → ∃ t, s = p +:+ t.
Proof.
  unfold startswith. revert s. induction p as [|a p IH]; intros s H; [by exists s|].
  destruct s as [|b s]; [done|]. cbn in H. destruct (Ascii.ascii_dec a b) as [->|]; [|done].
  destruct (IH _ H) as [t ->]. by exists t.
Qed.

Lemma startswith_contains p s : startswith p s = true → contains p s = true.
Proof. unfold startswith. destruct s as [|a s]; cbn [contains]; intros ->; done. Qed.

Lemma contains_tail p a s : contains p s = true → contains p (String a s) = true.
Proof. cbn [contains]. intros ->. apply orb_true_r. Qed.

Lemma escape_app s t : escape (s +:+ t) = escape s +:+ escape t.
Proof. induction s as [|a s IH]; [done|]. cbn. by rewrite IH, string_app_assoc. Qed.

(** An envelope is recognised by the substring test. *)
Lemma envelope_sniffed t pem payload :
  is_discovery_message (dumps default_style (envelope (DISCOVERY_TYPE_PREFIX +:+ t) pem payload)) = true.
Proof.
  unfold is_discovery_message, envelope. apply orb_true_iff. left. rewrite dumps_obj. cbn [inside indent default_style].
  rewrite dumps_members_more. cbn [dump]. unfold quote at 2. rewrite escape_app.
  change (escape DISCOVERY_TYPE_PREFIX) with DISCOVERY_TYPE_PREFIX.
  change ("{" +:+ ?x) with (String "{" x). apply contains_tail, startswith_contains.
  change (quote "type" +:+ key_sep default_style +:+ ?x +:+ ?y) with
    (dquote +:+ "type" +:+ dquote +:+ ": " +:+ x +:+ y).
  apply (startswith_app sniff_spaced).
Qed.

Lemma encode_envelope subtype pem payload : startswith DISCOVERY_TYPE_PREFIX subtype = true →
  encode_discovery_envelope subtype pem payload = Ok (dumps default_style (envelope subtype pem payload)).
Proof. unfold encode_discovery_envelope. by intros ->. Qed.

Lemma decode_pem_encoded pem : decode_pem (JStr (b64encode pem)) = Ok pem.
Proof.
  unfold decode_pem, truthy. destruct (bool_decide_reflect (b64encode pem = "")) as [E|E]; cbn [negb].
  - apply (proj1 (b64encode_empty _)) in E. by subst.
  - by rewrite b64decode_encode.
Qed.

Lemma envelope_wf subtype pem payload : json_wf (JObj payload) → json_wf (envelope subtype pem payload).
Proof.
  intros Hp. apply json_wf_obj. split; [apply (bool_decide_unpack _); by vm_compute|].
  apply Forall_cons. split; [done|]. apply Forall_cons. split; [done|]. by apply Forall_singleton.
Qed.

Lemma decode_envelope subtype pem payload : startswith DISCOVERY_TYPE_PREFIX subtype = true →
  json_wf (JObj payload) →
  decode_discovery_envelope (dumps default_style (envelope subtype pem payload)) = Ok (subtype, pem, payload).
Proof.
  intros Hs Hp. unfold decode_discovery_envelope.
  rewrite (loads_dumps_wf default_style) by by apply envelope_wf.
  cbn [of_option mbind result_bind envelope].
  change (dget "type" _) with (Some (JStr subtype)). cbv beta iota. rewrite Hs. cbn [negb].
  change (dget "payload" _) with (Some (JObj payload)). cbv beta iota. cbn [default].
  change (dget "sender_public_key_pem_b64" _) with (Some (JStr (b64encode pem))). cbn [default].
  unfold id. by rewrite decode_pem_encoded.
Qed.

(** A discovery message survives its envelope: whatever the payload, what the sender
    encodes is recognised by the receiver's substring test and decodes to the same
    subtype, key and payload; a subtype outside the discovery name space cannot be
    encoded. *)
Theorem envelope_roundtrip subtype pem payload : json_wf (JObj payload) →
  if startswith DISCOVERY_TYPE_PREFIX subtype then
    ∃ c, encode_discovery_envelope subtype pem payload = Ok c ∧ is_discovery_message c = true ∧
      decode_discovery_envelope c = Ok (subtype, pem, payload)
  else encode_discovery_envelope subtype pem payload = Raise ProtocolError.
Proof.
  intros Hp. unfold encode_discovery_envelope.
  destruct (startswith DISCOVERY_TYPE_PREFIX subtype) eqn:Hs; cbn [negb]; [|done].
  eexists. split; [done|]. split; [|by apply decode_envelope].
  destruct (startswith_inv _ _ Hs) as [t ->]. apply envelope_sniffed.
Qed.

Lemma envelope_roundtrip_witness :
  ∃ c, encode_discovery_envelope SUBTYPE_HEARTBEAT "pem" [("n", JInt 1)] = Ok c ∧
    is_discovery_message c = true ∧ decode_discovery_envelope c = Ok (SUBTYPE_HEARTBEAT, "pem", [("n", JInt 1)]).
Proof.
  apply (envelope_roundtrip SUBTYPE_HEARTBEAT "pem" [("n", JInt 1)]).
  apply json_wf_obj. split; [apply (bool_decide_unpack _); by vm_compute|by repeat constructor].
Defined.
