(* ===== verification/Discovery.v ===== *)
(** * The discovery node ([peer_discovery/network/])

    [DiscoveryNode] with its gossip dispatcher, bootstrap and heartbeat manager.  The
    membership service is the coordinator of [Coordinator.v]; what is handed to the
    broadcast node is recorded in [outbox].  The gossip dispatcher is a subscriber of the
    coordinator: it runs, after each service call, on the notifications the call recorded
    for its handle, which is the order of the code since it does not touch the
    coordinator.  Identifiers from [uuid4] are the values of a function of the number
    drawn so far. *)

From stdpp Require Import prelude gmap strings.
From Stdlib Require Import Ascii.
From S2P Require Import Prelude PyDict PyStr Json Base64 Message Membership EventLog Snapshot Presence Durability Coordinator DiscoveryProtocol.

Local Open Scope string_scope.
Local Open Scope list_scope.

(** ** State *)

Record DiscoveryConfig := mkDiscoveryConfig {
  advertise_address : string;
  bootstrap_peers : list string;
  public_key_override : option bytes;
  auto_complete_backfill : bool;
}.

(** A call of [broadcast_node.broadcast] or [broadcast_node.send_to_peer]. *)
Inductive outgoing :=
  | Broadcast (m : Message)
  | SendTo (host : string) (port : Z) (m : Message).

Record Discovery := mkDiscovery {
  membership : Coordinator;
  seen_event_ids : pydict string bool;
  pending_joins : pydict string bool;
  outbox : list outgoing;
  auto_handler : bool;
  gossip_handle : option string;
  heartbeat_running : bool;
  last_target_count : Z;
  drawn : nat;
}.

Definition set_membership x (d : Discovery) : Discovery :=
  mkDiscovery x (seen_event_ids d) (pending_joins d) (outbox d) (auto_handler d) (gossip_handle d)
    (heartbeat_running d) (last_target_count d) (drawn d).
Definition set_seen_events x (d : Discovery) : Discovery :=
  mkDiscovery (membership d) x (pending_joins d) (outbox d) (auto_handler d) (gossip_handle d)
    (heartbeat_running d) (last_target_count d) (drawn d).
Definition set_pending x (d : Discovery) : Discovery :=
  mkDiscovery (membership d) (seen_event_ids d) x (outbox d) (auto_handler d) (gossip_handle d)
    (heartbeat_running d) (last_target_count d) (drawn d).
Definition put_out o (d : Discovery) : Discovery :=
  mkDiscovery (membership d) (seen_event_ids d) (pending_joins d) (outbox d ++ [o]) (auto_handler d)
    (gossip_handle d) (heartbeat_running d) (last_target_count d) (drawn d).
Definition set_auto x (d : Discovery) : Discovery :=
  mkDiscovery (membership d) (seen_event_ids d) (pending_joins d) (outbox d) x (gossip_handle d)
    (heartbeat_running d) (last_target_count d) (drawn d).
Definition set_gossip x (d : Discovery) : Discovery :=
  mkDiscovery (membership d) (seen_event_ids d) (pending_joins d) (outbox d) (auto_handler d) x
    (heartbeat_running d) (last_target_count d) (drawn d).
Definition set_running x (d : Discovery) : Discovery :=
  mkDiscovery (membership d) (seen_event_ids d) (pending_joins d) (outbox d) (auto_handler d)
    (gossip_handle d) x (last_target_count d) (drawn d).
Definition set_targets x (d : Discovery) : Discovery :=
  mkDiscovery (membership d) (seen_event_ids d) (pending_joins d) (outbox d) (auto_handler d)
    (gossip_handle d) (heartbeat_running d) x (drawn d).
Definition set_drawn x (d : Discovery) : Discovery :=
  mkDiscovery (membership d) (seen_event_ids d) (pending_joins d) (outbox d) (auto_handler d)
    (gossip_handle d) (heartbeat_running d) (last_target_count d) x.

(** [event.wait]: the send raised, or the messages the transport handed in while the
    bootstrap thread waited, the time-out or the wake-up ending the wait. *)
Inductive wait_outcome :=
  | SendFailed
  | Waited (arrivals : list (time * Message)).

(** ** [GossipDispatcher] *)

Definition MAX_SEEN_EVENTS : nat := Z.to_nat 10000.

(** [_mark_seen]: was the event seen already? *)
Definition _mark_seen (event_id : string) : M Discovery bool :=
  d ← get;
  if dmem event_id (seen_event_ids d) then
    modify (set_seen_events (dmove_to_end event_id (seen_event_ids d)));; mret true
  else
    let seen := dset event_id true (seen_event_ids d) in
    modify (set_seen_events (if (MAX_SEEN_EVENTS <? length seen)%nat then dpop_first seen else seen));;
    mret false.

(** [event.originator or event.user_id], and the key built from it. *)
Definition event_origin (e : MembershipEvent) : string :=
  match originator e with
  | Some o => if decide (o = "") then user_id e else o
  | None => user_id e
  end.
Definition gossip_id (e : MembershipEvent) : string :=
  event_origin e +:+ ":" +:+ string_of_Z (seq_no e) +:+ ":" +:+ event_value (event_type e) +:+ ":" +:+ user_id e.

Section Node.
Variable cfg : DiscoveryConfig.
Variable has_broadcast_node : bool.
(** The room, the join validator and the history handler other components registered. *)
Variable hooks : Hooks.
Variable uuid : nat → string.

Definition fresh_uuid : M Discovery string :=
  d ← get; modify (set_drawn (S (drawn d)));; mret (uuid (drawn d)).

(** [self._public_key_pem] *)
Definition public_key_pem : bytes := default "" (public_key_override cfg).

(** [Message(content=..., sender=self.advertise_address)] *)
Definition make_message (now : time) (content : string) : M Discovery Message :=
  i ← fresh_uuid; mret (new_message content (advertise_address cfg) i now).

Definition _gossip (now : time) (e : MembershipEvent) : M Discovery unit :=
  if negb has_broadcast_node then mret ()
  else
    _mark_seen (gossip_id e);;
    content ← lift (encode_discovery_envelope SUBTYPE_GOSSIP public_key_pem [("event", event_to_dict e)]);
    m ← make_message now content;
    modify (put_out (Broadcast m)).

(** [GossipDispatcher.dispatch]: remote events are not gossiped again. *)
Definition gossip_dispatch (now : time) (e : MembershipEvent) : M Discovery unit :=
  if decide (source e = "remote") then mret () else _gossip now e.

(** The callbacks recorded for the dispatcher; what one raises is caught. *)
Definition run_dispatcher (now : time) (ns : list (string * MembershipEvent * MembershipDelta)) :
    M Discovery unit :=
  d ← get;
  forM ns (λ n, if bool_decide (gossip_handle d = Some n.1.1)
                then try_except (gossip_dispatch now n.1.2) (λ _, mret ()) else mret ()).

(** The handlers the service runs with at a time: the default history handler when
    [start] installed it. *)
Definition hooks_at (now : time) (d : Discovery) : Hooks :=
  mkHooks (room hooks) (Some (advertise_address cfg)) (join_validator hooks)
    (match history_handler hooks with
     | Some h => Some h
     | None => if auto_handler d then Some (_auto_complete_backfill_handler now) else None
     end).

(** A call of the membership service and the gossip it causes. *)
Definition on_service {A} (now : time) (m : Hooks → M Coordinator A) : M Discovery A := λ d,
  let '(r, c) := m (hooks_at now d) (membership d) in
  let news := drop (length (notified (membership d))) (notified c) in
  (r, (run_dispatcher now news (set_membership c d)).2).

Definition view (d : Discovery) : MembershipSnapshotData := get_snapshot (snapshot (membership d)).

(** ** Inbound messages *)

(** [host, port_str = target.rsplit(":", 1); port = int(port_str)], a [ValueError] ending
    the call, and the response sent with [send_to_peer]. *)
Definition _send_join_response (now : time) (target : string) (ok : bool) (why : option string)
    (events : list json) : M Discovery unit :=
  if negb has_broadcast_node then mret ()
  else
    match parse_host_port target with
    | Raise _ => mret ()
    | Ok (host, port) =>
      let payload := [("accepted", JBool ok); ("events", JList events)] ++
                     match why with Some r => [("reason", JStr r)] | None => [] end in
      content ← lift (encode_discovery_envelope SUBTYPE_JOIN_RESPONSE public_key_pem payload);
      m ← make_message now content;
      modify (put_out (SendTo host port m))
    end.

(** What [handle_message] returns: ["handled"] and ["reason"]. *)
Definition handled : bool * option string := (true, None).

(** The service's [join_member] draws an identifier when tracing is on; the node's
    service has tracing off. *)
Definition service_join (now : time) (uid dn : string) (pk : option bytes) (ctx : option JoinContext) :
    M Discovery JoinResult :=
  on_service now (λ h, handle_join h now "" uid dn pk ctx).

Definition _handle_join_request (now : time) (sender_id : string) (pem : bytes)
    (payload : pydict string json) : M Discovery (bool * option string) :=
  dn ← lift (str_or "display_name" "Unknown" (JObj payload));
  res ← service_join now sender_id dn (Some pem) (Some (mkContext None (Some sender_id) (Some pem) None));
  if negb (accepted res) then
    _send_join_response now sender_id false (reason res) [];;
    mret handled
  else
    d ← get;
    _send_join_response now sender_id true None
      (event_to_dict <$> get_events_since 0 (log (membership d)));;
    mret handled.

(** [for d in events_data]: the elements of a list, the keys of a dictionary, the
    characters of a text. *)
Definition json_iter (j : json) : result (list json) :=
  match j with
  | JList l => Ok l
  | JObj d => Ok (JStr <$> dkeys d)
  | JStr s => Ok ((λ a, JStr (String a "")) <$> String.list_ascii_of_string s)
  | _ => Raise TypeError
  end.

(** The bootstrap thread waiting for this sender is woken, if there is one. *)
Definition wake (sender_id : string) : M Discovery unit :=
  modify (λ d, if dmem sender_id (pending_joins d)
               then set_pending (dset sender_id true (pending_joins d)) d else d).

Definition _handle_join_response (now : time) (sender_id : string) (payload : pydict string json) :
    M Discovery (bool * option string) :=
  (if negb (truthy (default (JBool false) (dget "accepted" payload))) then mret ()
   else
     items ← lift (json_iter (default (JList []) (dget "events" payload)));
     events ← lift (mapR event_from_dict items);
     try_except (on_service now (λ _, _apply_remote_snapshot now events)) (λ _, mret ()));;
  wake sender_id;;
  mret handled.

Definition _handle_gossip (now : time) (payload : pydict string json) :
    M Discovery (bool * option string) :=
  let event_data := default JNull (dget "event" payload) in
  if negb (truthy event_data) then mret handled
  else
    match event_from_dict event_data with
    | Raise _ => mret handled
    | Ok event =>
      was_seen ← _mark_seen (gossip_id event);
      if was_seen : bool then mret handled
      else
        on_service now (λ _, _apply_remote_event now event);;
        mret handled
    end.

Definition _handle_heartbeat (now : time) (sender_id : string) : M Discovery (bool * option string) :=
  d ← get;
  if negb (dmem sender_id (s_members (view d))) then mret handled
  else
    on_service now (λ _, handle_heartbeat now sender_id);;
    mret handled.

Definition handle_message (now : time) (msg : Message) : M Discovery (bool * option string) :=
  if negb (is_discovery_message (content msg)) then mret (false, None)
  else
    match decode_discovery_envelope (content msg) with
    | Raise _ => mret (false, Some "malformed_discovery_envelope")
    | Ok (subtype, pem, payload) =>
      if decide (subtype = SUBTYPE_JOIN_REQUEST) then _handle_join_request now (sender msg) pem payload
      else if decide (subtype = SUBTYPE_JOIN_RESPONSE) then _handle_join_response now (sender msg) payload
      else if decide (subtype = SUBTYPE_GOSSIP) then _handle_gossip now payload
      else if decide (subtype = SUBTYPE_HEARTBEAT) then _handle_heartbeat now (sender msg)
      else mret (false, Some ("unknown_subtype:" +:+ subtype))
    end.

(** ** Bootstrap *)

(** [host, port_str = peer.split(":"); port = int(port_str)] *)
Definition split_peer (peer : string) : result (string * Z) :=
  match str_split ":"%char peer with
  | [h; p] => n ← of_option ValueError (py_int p); Ok (h, n)
  | _ => Raise ValueError
  end.

(** A message another thread hands in; what it raises stays in that thread. *)
Definition arrival (tm : time * Message) : M Discovery unit :=
  try_except (handle_message tm.1 tm.2;; mret ()) (λ _, mret ()).

(** One turn of the loop over the configured peers: did the join succeed?  [finally]
    withdraws the event in every case. *)
Definition attempt_peer (now : time) (dn peer : string) (w : wait_outcome) : M Discovery bool :=
  match split_peer peer with
  | Raise _ => mret false
  | Ok (host, port) =>
    modify (λ d, set_pending (dset peer false (pending_joins d)) d);;
    content ← lift (encode_discovery_envelope SUBTYPE_JOIN_REQUEST public_key_pem [("display_name", JStr dn)]);
    req ← make_message now content;
    joined ← (match w with
              | SendFailed => mret false
              | Waited arrivals =>
                modify (put_out (SendTo host port req));;
                forM arrivals arrival;;
                d ← get;
                mret (default false (dget peer (pending_joins d)) &&
                      (0 <? active_count (view d))%nat)
              end);
    modify (λ d, set_pending (ddel peer (pending_joins d)) d);;
    mret joined
  end.

Fixpoint attempt_peers (now : time) (dn : string) (peers : list string) (waits : list wait_outcome) :
    M Discovery bool :=
  match peers with
  | [] => mret false
  | peer :: peers =>
    joined ← attempt_peer now dn peer (default SendFailed (head waits));
    if joined : bool then mret true else attempt_peers now dn peers (tail waits)
  end.

(** [attempt_bootstrap]; the i-th element of [waits] is what happens while the response
    of the i-th peer is awaited. *)
Definition attempt_bootstrap (now : time) (dn : string) (waits : list wait_outcome) : M Discovery bool :=
  match bootstrap_peers cfg with
  | [] =>
    res ← service_join now (advertise_address cfg) dn (Some public_key_pem) None;
    mret (accepted res)
  | peers =>
    if negb has_broadcast_node then mret false else attempt_peers now dn peers waits
  end.

(** ** [HeartbeatManager] *)

Definition trackable (st : MemberState) : bool :=
  bool_decide (st ∈ [ACTIVE; JOINING; BACKFILLING; SUSPECTED]).

Definition heartbeat_targets (s : MembershipSnapshotData) : list string :=
  dkeys (List.filter (λ kv, trackable (state kv.2) && negb (bool_decide (kv.1 = advertise_address cfg)))
    (s_members s)).

Definition _broadcast_heartbeat (now : time) : M Discovery unit :=
  if negb has_broadcast_node then mret ()
  else
    d ← get;
    let targets := heartbeat_targets (view d) in
    modify (set_targets (Z.of_nat (length targets)));;
    match targets with
    | [] => mret ()
    | _ =>
      content ← lift (encode_discovery_envelope SUBTYPE_HEARTBEAT public_key_pem []);
      m ← make_message now content;
      modify (put_out (Broadcast m))
    end.

(** ** Start and stop *)

Definition subscribe_gossip (now : time) : M Discovery unit :=
  h ← fresh_uuid;
  modify (set_gossip (Some h));;
  on_service now (λ _, subscribe h 0);;
  mret ().

Definition start (now : time) (dn : string) (waits : list wait_outcome) : M Discovery unit :=
  modify (λ d, if auto_complete_backfill cfg && match history_handler hooks with
                                                | Some _ => false | None => true end
               then set_auto true d else d);;
  attempt_bootstrap now dn waits;;
  subscribe_gossip now;;
  modify (set_running true).

Definition stop : M Discovery unit := modify (set_running false).

(** [__init__] *)
Definition new_discovery (now : time) (dir : directory) : Discovery :=
  mkDiscovery (service_init (mkHooks (room hooks) (Some (advertise_address cfg)) None None) now dir false)
    [] [] [] false None false (-1) 0.

(** ** The node's threads *)

Inductive activity :=
  | Receive (m : Message)
  | HeartbeatTurn
  | TickTurn
  | Service (x : call)
  | Start (dn : string) (waits : list wait_outcome)
  | Stop.

Definition act (now : time) (a : activity) : M Discovery unit :=
  match a with
  | Receive m => handle_message now m;; mret ()
  | HeartbeatTurn => d ← get; if heartbeat_running d then _broadcast_heartbeat now else mret ()
  | TickTurn => d ← get; if heartbeat_running d then on_service now (λ _, tick now) else mret ()
  | Service x => on_service now (λ h, serve h now x)
  | Start dn waits => start now dn waits
  | Stop => stop
  end.

(** An exception ends the activity; the node goes on with what it left. *)
Definition run (acts : list (time * activity)) (d : Discovery) : Discovery :=
  foldl (λ d ta, (act ta.1 ta.2 d).2) d acts.

End Node.
