(* ===== verification/Schedulers.v ===== *)
(** * Background threads of the membership plane

    [membership_integration/service.py]: the tick scheduler, a chain of timers in which the
    tick of one arms the next.  [network/heartbeat.py]: the two threads of the heartbeat
    manager.  A thread that sleeps notices a stop when it wakes. *)

From stdpp Require Import prelude gmap strings.
From S2P Require Import Prelude PyDict Membership EventLog Snapshot Presence Durability Coordinator Message DiscoveryProtocol Discovery.

Local Open Scope list_scope.

(** ** The tick scheduler *)

(** [_tick_timer] is the last timer made; [armed] are those that will fire, [ticking] counts
    the threads inside [_run_tick] that found the scheduler running. *)
Record Scheduler := mkScheduler {
  coordinator : Coordinator;
  tick_running : bool;
  tick_interval : time;
  tick_timer : option nat;
  armed : gset nat;
  ticking : nat;
  made : nat;
}.

Definition new_scheduler (c : Coordinator) : Scheduler := mkScheduler c false (seconds 1) None ∅ 0 0.

Definition _schedule_next_tick (s : Scheduler) : Scheduler :=
  if tick_running s then
    mkScheduler (coordinator s) true (tick_interval s) (Some (made s)) ({[made s]} ∪ armed s) (ticking s) (S (made s))
  else s.

Definition start_tick_scheduler (interval : time) (s : Scheduler) : Scheduler :=
  if tick_running s then s
  else _schedule_next_tick (mkScheduler (coordinator s) true interval (tick_timer s) (armed s) (ticking s) (made s)).

Definition stop_tick_scheduler (s : Scheduler) : Scheduler :=
  mkScheduler (coordinator s) false (tick_interval s) None
    (match tick_timer s with Some t => armed s ∖ {[t]} | None => armed s end) (ticking s) (made s).

(** [_run_tick] up to the tick, on the timer's thread; then the tick, whose exceptions are
    logged, and the next timer. *)
Definition timer_fires (t : nat) (s : Scheduler) : Scheduler :=
  if bool_decide (t ∈ armed s) then
    mkScheduler (coordinator s) (tick_running s) (tick_interval s) (tick_timer s)
      (armed s ∖ {[t]})
      (if tick_running s then S (ticking s) else ticking s) (made s)
  else s.

Definition _run_tick (now : time) (s : Scheduler) : Scheduler :=
  match ticking s with
  | O => s
  | S k => _schedule_next_tick (mkScheduler (tick now (coordinator s)).2 (tick_running s) (tick_interval s) (tick_timer s)
                                  (armed s) k (made s))
  end.

Inductive timing := StartTicks (interval : time) | StopTicks | Fires (t : nat) | Ticks (now : time).

Definition time_step (e : timing) (s : Scheduler) : Scheduler :=
  match e with
  | StartTicks i => start_tick_scheduler i s
  | StopTicks => stop_tick_scheduler s
  | Fires t => timer_fires t s
  | Ticks now => _run_tick now s
  end.
Definition run_timing (es : list timing) (s : Scheduler) : Scheduler := foldl (λ s e, time_step e s) s es.

(** Timers waiting and ticks under way. *)
Definition chains (s : Scheduler) : nat := size (armed s) + ticking s.

(** A running scheduler has a tick to come, and new timers are new. *)
Definition going (s : Scheduler) : Prop :=
  (tick_running s = true → 0 < chains s) ∧ ∀ t, t ∈ armed s → t < made s.

Lemma new_timer s : (∀ t, t ∈ armed s → t < made s) → size ({[made s]} ∪ armed s) = S (size (armed s)).
Proof. intros Ha. rewrite size_union, size_singleton; [done|]. intros t Ht%elem_of_singleton Hin%Ha. lia. Qed.

Lemma timer_gone (x : nat) (X : gset nat) : x ∈ X → S (size (X ∖ {[x]})) = size X.
Proof.
  intros Hx. rewrite size_difference by set_solver. rewrite size_singleton.
  assert (size X ≠ 0); [|lia]. apply size_non_empty_iff. set_solver.
Qed.

Lemma schedule_going s : (∀ t, t ∈ armed s → t < made s) → going (_schedule_next_tick s).
Proof.
  intros Ha. unfold going, _schedule_next_tick. destruct (tick_running s) eqn:E; [|split; [congruence|done]].
  split; [|intros t; cbn; set_unfold; intros [->|Ht%Ha]; lia].
  intros _. unfold chains. cbn [armed ticking]. rewrite new_timer by done. lia.
Qed.

Lemma time_step_going e s : going s → going (time_step e s).
Proof.
  intros Hs. pose proof Hs as [Hg Ha]. destruct e as [i| |t|now]; cbn [time_step].
  - unfold start_tick_scheduler. destruct (tick_running s) eqn:E; [done|]. by apply schedule_going.
  - split; [done|]. intros t. cbn. destruct (tick_timer s); set_unfold; naive_solver.
  - unfold timer_fires. case_bool_decide as Ht; [|by split]. split; [|intros u; cbn; set_solver].
    unfold chains in *. cbn [armed ticking tick_running]. intros Hr. rewrite Hr. lia.
  - unfold _run_tick. destruct (ticking s); [done|]. by apply schedule_going.
Qed.

(** A running scheduler never runs dry, whatever was started and stopped, whichever timers
    fired and however their ticks ended. *)
Theorem scheduler_goes_on c es : let s := run_timing es (new_scheduler c) in tick_running s = true → 0 < chains s.
Proof.
  intros s. apply (foldl_inv going); [|intros; by apply time_step_going].
  split; [done|]. intros t Ht. by apply not_elem_of_empty in Ht.
Qed.

(** [start_tick_scheduler] is not called while a tick is under way after a stop. *)
Definition quiet (e : timing) (s : Scheduler) : bool :=
  match e with StartTicks _ => tick_running s || (ticking s =? 0)%nat | _ => true end.
Fixpoint all_quiet (es : list timing) (s : Scheduler) : bool :=
  match es with [] => true | e :: es => quiet e s && all_quiet es (time_step e s) end.

Definition one_chain (s : Scheduler) : Prop :=
  (∀ t, t ∈ armed s → tick_running s = true ∧ tick_timer s = Some t ∧ ticking s = 0) ∧ ticking s ≤ 1 ∧
  (tick_running s = false → armed s = ∅).

Lemma one_chain_count s : one_chain s → chains s ≤ 1.
Proof.
  intros (Ha & Ht & _). unfold chains. destruct (decide (armed s = ∅)) as [->|Hne]; [rewrite size_empty; lia|].
  apply set_choose_L in Hne as [t Hin]. destruct (Ha t Hin) as (_ & E & ->).
  assert (armed s ⊆ {[t]}) as Hsub.
  { intros u Hu. destruct (Ha u Hu) as (_ & E' & _). set_solver. }
  apply subseteq_size in Hsub. rewrite size_singleton in Hsub. lia.
Qed.

Lemma schedule_one s : ticking s = 0 → armed s = ∅ → one_chain (_schedule_next_tick s).
Proof.
  intros Ht Ha. unfold _schedule_next_tick. destruct (tick_running s) eqn:E.
  - split_and!; cbn; [|lia|done]. rewrite Ha. intros t Hin. set_unfold. naive_solver.
  - split_and!; [rewrite Ha; set_solver|lia|done].
Qed.

Lemma time_step_one e s : quiet e s = true → one_chain s → one_chain (time_step e s).
Proof.
  intros Hq H1. pose proof H1 as (Ha & Ht & Hs). destruct e as [i| |t|now]; cbn [time_step quiet] in *.
  - unfold start_tick_scheduler. destruct (tick_running s) eqn:E; [done|]. cbn in Hq. apply Nat.eqb_eq in Hq.
    apply schedule_one; cbn; [done|by apply Hs].
  - split_and!; cbn; [|done|]; intros; destruct (tick_timer s) eqn:E; set_solver.
  - unfold timer_fires. case_bool_decide as Hin; [|by split_and!]. destruct (Ha t Hin) as (Hr & E & Hz).
    assert (armed s ∖ {[t]} = ∅) as Hempty.
    { apply set_eq. intros u. split; [|set_solver]. intros Hu. destruct (Ha u) as (_ & E' & _); set_solver. }
    split_and!; cbn; rewrite ?Hempty; [set_solver|rewrite Hr; lia|done].
  - unfold _run_tick. destruct (ticking s) as [|k] eqn:E; [done|]. apply schedule_one; cbn; [lia|].
    apply set_eq. intros u. split; [|set_solver]. intros Hu. by destruct (Ha u Hu) as (_ & _ & ?).
Qed.

(** When the scheduler is not started anew while a tick is under way, there is never more
    than one timer or tick; *)
Theorem one_tick_at_a_time c es : all_quiet es (new_scheduler c) = true → chains (run_timing es (new_scheduler c)) ≤ 1.
Proof.
  intros Hq. apply one_chain_count.
  assert (∀ s, all_quiet es s = true → one_chain s → one_chain (run_timing es s)) as Hall.
  { clear. induction es as [|e es IH]; intros s; [done|]. cbn [all_quiet]. intros Hq Hs. zbool. apply IH; [done|]. by apply time_step_one. }
  apply Hall; [done|]. split_and!; cbn; [set_solver|lia|done].
Qed.

(** and when it is, there are two from then on. *)
Example two_chains c : chains (run_timing [StartTicks 1; Fires 0; StopTicks; StartTicks 1; Ticks 0] (new_scheduler c)) = 2.
Proof. reflexivity. Qed.

(** ** The heartbeat manager *)

(** The threads that have not ended; [heartbeat_running] of the node is [_running]. *)
Record HeartbeatManager := mkManager {
  discovery : Discovery;
  out_threads : nat;
  tick_threads : nat;
}.

Definition start_heartbeat (m : HeartbeatManager) : HeartbeatManager :=
  mkManager (set_running true (discovery m)) (S (out_threads m)) (S (tick_threads m)).
(** [join] waits a second at most, less than a thread sleeps. *)
Definition stop_heartbeat (m : HeartbeatManager) : HeartbeatManager :=
  mkManager (set_running false (discovery m)) (out_threads m) (tick_threads m).

Section Heartbeat.
Variable cfg : DiscoveryConfig.
Variable has_broadcast_node : bool.
Variable hooks : Hooks.
Variable uuid : nat → string.

(** A thread of [_heartbeat_loop], or of [_tick_loop], wakes. *)
Definition out_wakes (now : time) (m : HeartbeatManager) : HeartbeatManager :=
  match out_threads m with
  | O => m
  | S k => if heartbeat_running (discovery m)
           then mkManager (act cfg has_broadcast_node hooks uuid now HeartbeatTurn (discovery m)).2 (S k) (tick_threads m)
           else mkManager (discovery m) k (tick_threads m)
  end.
Definition tick_wakes (now : time) (m : HeartbeatManager) : HeartbeatManager :=
  match tick_threads m with
  | O => m
  | S k => if heartbeat_running (discovery m)
           then mkManager (act cfg has_broadcast_node hooks uuid now TickTurn (discovery m)).2 (out_threads m) (S k)
           else mkManager (discovery m) (out_threads m) k
  end.

(** Which thread wakes, and when. *)
Definition wakes (w : bool * time) (m : HeartbeatManager) : HeartbeatManager :=
  if w.1 then out_wakes w.2 m else tick_wakes w.2 m.

Lemma wake_stopped w m : heartbeat_running (discovery m) = false →
  wakes w m = if w.1 then mkManager (discovery m) (pred (out_threads m)) (tick_threads m)
             else mkManager (discovery m) (out_threads m) (pred (tick_threads m)).
Proof.
  intros Hr. unfold wakes, out_wakes, tick_wakes. rewrite Hr. destruct m as [d o t]. cbn.
  by destruct w.1; [destruct o|destruct t].
Qed.

(** After a stop every thread ends the next time it wakes, without touching the node. *)
Theorem stopped_threads_end ws m : heartbeat_running (discovery m) = false →
  foldl (λ m w, wakes w m) m ws =
    mkManager (discovery m) (out_threads m - length (List.filter fst ws)) (tick_threads m - length (List.filter (λ w, negb w.1) ws)).
Proof.
  revert m. induction ws as [|w ws IH]; intros [d o t] Hr; cbn [foldl].
  { cbn. by rewrite !Nat.sub_0_r. }
  rewrite wake_stopped by done. destruct w as [[] now]; cbn [fst discovery out_threads tick_threads];
    rewrite IH by done; cbn; f_equal; lia.
Qed.

(** A start before the threads of the last one woke keeps them: there are two of each. *)
Lemma restart_doubles m : out_threads (start_heartbeat (stop_heartbeat m)) = S (out_threads m) ∧
  heartbeat_running (discovery (start_heartbeat (stop_heartbeat m))) = true.
Proof. done. Qed.
End Heartbeat.
