(* ===== verification/DiscoveryFacts.v ===== *)
(** * Properties of the discovery node *)

From stdpp Require Import prelude gmap strings.
From S2P Require Import Prelude PyDict PyStr Json Base64 Message Membership EventLog Snapshot Presence Durability Coordinator CoordinatorKeeps CoordinatorFacts DiscoveryProtocol Discovery.

Local Open Scope string_scope.
Local Open Scope list_scope.

(** ** The cache of seen events *)

(** The distinct events marked, the one marked last at the end. *)
Definition touch (l : list string) (i : string) : list string := filter (.≠ i) l ++ [i].
Definition recency (ids : list string) : list string := foldl touch [] ids.

Section Window.
Context {A : Type} `{EqDecision A}.
Implicit Types l k : list A.

Lemma last_n_short n l : (length l ≤ n)%nat → last_n n l = l.
Proof. unfold last_n. intros. by replace (length l - n)%nat with 0%nat by lia. Qed.
Lemma last_n_app n k l : length l = n → last_n n (k ++ l) = l.
Proof.
  unfold last_n. intros. rewrite length_app. replace (length k + length l - n)%nat with (length k) by lia.
  apply drop_app_length.
Qed.
Lemma filter_all l (x : A) : x ∉ l → filter (.≠ x) l = l.
Proof.
  induction l as [|y l IH]; [done|]. intros Hx. rewrite filter_cons_True by set_solver.
  rewrite IH; [done|set_solver].
Qed.
Lemma length_filter_ne l (x : A) : NoDup l → x ∈ l → S (length (filter (.≠ x) l)) = length l.
Proof.
  induction 1 as [|y l Hy Hn IH]; [by intros ?%not_elem_of_nil|]. intros [->|Hx]%elem_of_cons.
  - rewrite filter_cons_False by tauto. by rewrite filter_all.
  - rewrite filter_cons_True by set_solver. cbn [length]. by rewrite IH.
Qed.

(** The window after [x] is moved to the end, or enters there. *)
Lemma last_n_touch n l (x : A) : (0 < n)%nat → NoDup l →
  last_n n (filter (.≠ x) l ++ [x]) =
    if decide (x ∈ last_n n l) then filter (.≠ x) (last_n n l) ++ [x] else last_n n (last_n n l ++ [x]).
Proof.
  intros Hn Hl. assert (∃ old, l = old ++ last_n n l ∧ (old = [] ∨ length (last_n n l) = n)) as (old & El & Hold).
  { exists (take (length l - n) l). split; [symmetry; apply take_drop|]. unfold last_n. rewrite length_drop.
    destruct (decide (length l ≤ n)%nat); [left; by replace (length l - n)%nat with 0%nat by lia|right; lia]. }
  remember (last_n n l) as w eqn:Ew. rewrite El in Hl. apply NoDup_app in Hl as (_ & Hd & Hw).
  rewrite El, filter_app. case_decide as Hx.
  - rewrite (filter_all old) by (intros Ho; by apply (Hd x)). rewrite <- app_assoc.
    pose proof (length_filter_ne w x Hw Hx) as Hlen. destruct Hold as [->|Hfull].
    + cbn [app]. apply last_n_short. rewrite length_app. cbn [length]. rewrite Ew in *. unfold last_n in *.
      rewrite length_drop in *. lia.
    + apply last_n_app. rewrite length_app. cbn [length]. lia.
  - rewrite (filter_all w) by done. destruct Hold as [->|Hfull]; [done|].
    rewrite !last_n_snoc by done. by rewrite last_n_app, (last_n_short n w) by lia.
Qed.

Lemma last_n_window n l (x : A) : (0 < n)%nat → (length l ≤ n)%nat →
  last_n n (l ++ [x]) = if (n <? length (l ++ [x]))%nat then tail (l ++ [x]) else l ++ [x].
Proof. intros. rewrite last_n_snoc by done. by rewrite last_n_short. Qed.
End Window.

Lemma recency_snoc ids i : recency (ids ++ [i]) = touch (recency ids) i.
Proof. unfold recency. by rewrite foldl_app. Qed.
Lemma recency_nodup ids : NoDup (recency ids).
Proof.
  induction ids as [|i ids IH] using rev_ind; [constructor|]. rewrite recency_snoc. unfold touch.
  apply NoDup_snoc; [by apply NoDup_filter|]. rewrite list_elem_of_filter. tauto.
Qed.

(** The cache after the identifiers [ids] were marked. *)
Definition cache_shows (ids : list string) (seen : pydict string bool) : Prop :=
  dkeys seen = last_n MAX_SEEN_EVENTS (recency ids).

Lemma max_seen_pos : (0 < MAX_SEEN_EVENTS)%nat.
Proof. unfold MAX_SEEN_EVENTS. lia. Qed.

Lemma mark_seen_shows ids i d : cache_shows ids (seen_event_ids d) →
  ∃ seen, _mark_seen i d = (Ok (bool_decide (i ∈ last_n MAX_SEEN_EVENTS (recency ids))), set_seen_events seen d) ∧
    cache_shows (ids ++ [i]) seen.
Proof.
  unfold cache_shows. intros Hs. pose proof max_seen_pos as Hn. pose proof (recency_nodup ids) as Hnd.
  rewrite recency_snoc. unfold touch. rewrite last_n_touch by done.
  unfold _mark_seen. rewrite bind_run. cbn [get]. destruct (dmem i (seen_event_ids d)) eqn:Em.
  - apply dmem_true in Em. rewrite Hs in Em. rewrite bind_run. cbn [modify].
    eexists. split; [by rewrite bool_decide_eq_true_2|]. rewrite decide_True by done.
    unfold dmove_to_end. rewrite <- Hs in Em |- *. apply dget_is_Some in Em as [v ->].
    unfold dkeys at 1. rewrite fmap_app. cbn [fmap list_fmap fst]. f_equal. apply dkeys_ddel.
  - apply dmem_false in Em. rewrite Hs in Em. cbv zeta. rewrite bind_run. cbn [modify].
    eexists. split; [by rewrite bool_decide_eq_false_2|]. rewrite decide_False by done.
    rewrite last_n_window; [|done|unfold last_n; rewrite length_drop; lia].
    rewrite <- Hs in Em |- *. apply dget_None in Em. rewrite dset_new by done.
    unfold dkeys. rewrite !length_app, length_fmap. cbn [length].
    destruct (_ <? _)%nat; [|by rewrite fmap_app].
    unfold dpop_first. by destruct (seen_event_ids d) as [|[k0 v0] r]; cbn; rewrite ?fmap_app.
Qed.

(** The cache of seen events is a least-recently-used window: after any sequence of
    events it holds exactly the last ten thousand distinct ones, in the order in which they
    were last marked, and an event is called seen exactly when it is one of them. *)
Theorem seen_cache_is_lru ids i d : seen_event_ids d = [] →
  let d' := (forM ids (λ i, _mark_seen i;; mret ()) d).2 in
  dkeys (seen_event_ids d') = last_n MAX_SEEN_EVENTS (recency ids) ∧
  (_mark_seen i d').1 = Ok (bool_decide (i ∈ last_n MAX_SEEN_EVENTS (recency ids))).
Proof.
  intros Hd d'. assert (cache_shows ids (seen_event_ids d')) as Hs.
  { subst d'. revert i. induction ids as [|j ids IH] using rev_ind; intros i; [cbn; by rewrite Hd|].
    rewrite forM_app, bind_run. specialize (IH i). destruct (forM ids _ d) as [r d1] eqn:E. cbn [snd] in IH.
    assert (r = Ok ()) as ->; [|].
    { revert E. clear. intros E. assert (∀ l d, (forM l (λ i, _mark_seen i;; mret ()) d).1 = Ok ()) as H.
      { induction l as [|x l IH]; intros d0; [done|]. rewrite forM_cons. unfold _mark_seen.
        rewrite bind_run, bind_run. cbn [get]. by destruct (dmem _ _); apply IH. }
      specialize (H ids d). by rewrite E in H. }
    rewrite forM_cons, bind_run. destruct (mark_seen_shows ids j d1 IH) as (seen & -> & Hc). exact Hc. }
  split; [exact Hs|]. by destruct (mark_seen_shows ids i d' Hs) as (seen & -> & _).
Qed.

(** ** Gossiped events *)

(** The local copy the log makes of a remote event. *)
Definition copied (e : MembershipEvent) (c : Coordinator) : MembershipEvent :=
  mkEvent (next_seq_no (log c)) (log_room (log c)) (user_id e) (event_type e) (timestamp e)
    (next_seq_no (log c)) "remote" (Z.max (current_term (log c)) (term e)) (trace_id e) (display_name e)
    (originator e) (public_key e).

(** The state after it is applied, apart from presence and checkpoints. *)
Definition absorbed (e : MembershipEvent) (c : Coordinator) : Coordinator :=
  let e' := copied e c in
  let c' := set_snapshot (apply_event e' (snapshot c)).2 (set_log (push e' (term e') (log c)) c) in
  match (apply_event e' (snapshot c)).1 with
  | None => c'
  | Some x => deliver_to (dkeys (subscribers c)) e' x c'
  end.

Lemma commit_remote_copied e c : commit_remote e c =
  (Ok (copied e c, (apply_event (copied e c) (snapshot c)).1),
   set_snapshot (apply_event (copied e c) (snapshot c)).2
     (set_log (push (copied e c) (term (copied e c)) (log c)) c)).
Proof.
  unfold commit_remote, on_log, append_remote, apply_snapshot. rewrite bind_run. cbv beta iota zeta.
  assert ((if (current_term (log c) <? term e)%Z then term e else current_term (log c)) =
    Z.max (current_term (log c)) (term e)) as ->.
  { destruct (Z.ltb_spec (current_term (log c)) (term e)); lia. }
  rewrite bind_run. fold (copied e c). cbn [snapshot set_log].
  by destruct (apply_event (copied e c) (snapshot c)).
Qed.

Lemma remote_event_run now e c : ∃ p k, _apply_remote_event now e c =
  (Ok (), set_disk k (set_presence p (absorbed e c))).
Proof.
  unfold _apply_remote_event. rewrite bind_run, commit_remote_copied. cbn [fst snd].
  assert (∀ c0, ∃ p k, ((match event_type (copied e c) with
    | JOIN_ACCEPTED => track now (user_id (copied e c))
    | HEARTBEAT => track now (user_id (copied e c));; presence_heartbeat now (user_id (copied e c))
    | _ => mret () end);; checkpoint) c0 = (Ok (), set_disk k (set_presence p c0))) as Hrest.
  { intros c0. assert (∃ p, (match event_type (copied e c) with
      | JOIN_ACCEPTED => track now (user_id (copied e c))
      | HEARTBEAT => track now (user_id (copied e c));; presence_heartbeat now (user_id (copied e c))
      | _ => mret () end) c0 = (Ok (), set_presence p c0)) as [p Hp].
    { assert (∃ p, (mret () : M Coordinator unit) c0 = (Ok (), set_presence p c0)) as Hret by by exists (presence c0); destruct c0.
      destruct (event_type (copied e c)); try exact Hret; [by eexists|].
      unfold presence_heartbeat, record_heartbeat, track. rewrite bind_run. cbn [modify]. rewrite bind_run.
      cbn [get presence set_presence register_member with_tracked tracked]. rewrite dget_dset_eq.
      cbn. by eexists. }
    exists p. rewrite bind_run, Hp. destruct (checkpoint_run (set_presence p c0)) as [k ->]. by exists k. }
  rewrite bind_run. unfold dispatch, absorbed. cbv zeta.
  destruct (apply_event (copied e c) (snapshot c)).1 as [x|]; cbn [modify mret M_ret]; apply Hrest.
Qed.

Lemma absorbed_notified e c : ∃ ns, notified (absorbed e c) = notified c ++ ns ∧
  Forall (λ n, n.1.2 = copied e c) ns.
Proof.
  unfold absorbed. cbv zeta. destruct (apply_event (copied e c) (snapshot c)).1 as [x|].
  - eexists. split; [done|]. apply Forall_fmap, Forall_forall. done.
  - exists []. by rewrite app_nil_r.
Qed.
Lemma absorbed_log e c : log (absorbed e c) = push (copied e c) (term (copied e c)) (log c).
Proof. unfold absorbed. cbv zeta. by destruct (apply_event (copied e c) (snapshot c)).1. Qed.
Lemma absorbed_snapshot e c : snapshot (absorbed e c) = (apply_event (copied e c) (snapshot c)).2.
Proof. unfold absorbed. cbv zeta. by destruct (apply_event (copied e c) (snapshot c)).1. Qed.

(** The gossip message a node broadcasts for an event. *)
Definition carries (m : Message) (pem : bytes) (e : MembershipEvent) : Prop :=
  content m = dumps default_style (envelope SUBTYPE_GOSSIP pem [("event", event_to_dict e)]).

Lemma gossip_id_norm e : gossip_id (norm_event e) = gossip_id e.
Proof. done. Qed.

Lemma marked_seen i d : i ∈ dkeys (seen_event_ids (_mark_seen i d).2).
Proof.
  unfold _mark_seen. rewrite bind_run. cbn [get]. destruct (dmem i (seen_event_ids d)) eqn:Em.
  - rewrite bind_run. cbn [modify mret M_ret snd seen_event_ids set_seen_events].
    apply dmem_true, dget_is_Some in Em as [v Ev]. unfold dmove_to_end. rewrite Ev.
    unfold dkeys. rewrite fmap_app. set_solver.
  - cbv zeta. rewrite bind_run. cbn [modify mret M_ret snd seen_event_ids set_seen_events].
    apply dmem_false, dget_None in Em. rewrite dset_new by done. unfold dkeys.
    destruct (Nat.ltb_spec MAX_SEEN_EVENTS (length (seen_event_ids d ++ [(i, true)]))) as [Hlt|_].
    + pose proof max_seen_pos. rewrite length_app in Hlt. cbn [length] in Hlt. unfold dpop_first.
      destruct (seen_event_ids d) as [|kv l]; cbn [length] in Hlt; [lia|]. cbn [app tail].
      rewrite fmap_app. set_solver.
    + rewrite fmap_app. set_solver.
Qed.

Lemma mark_seen_run i d : ∃ seen,
  _mark_seen i d = (Ok (dmem i (seen_event_ids d)), set_seen_events seen d).
Proof. unfold _mark_seen. rewrite bind_run. cbn [get]. destruct (dmem _ _); by eexists. Qed.

Section Node.
Context (cfg : DiscoveryConfig) (linked : bool) (hooks : Hooks) (uuid : nat → string).

Lemma dispatch_remote now ns d : Forall (λ n, source n.1.2 = "remote") ns →
  run_dispatcher cfg linked uuid now ns d = (Ok (), d).
Proof.
  intros Hns. unfold run_dispatcher. rewrite bind_run. cbn [get].
  generalize (gossip_handle d) as g. intros g. revert d. induction Hns as [|n ns Hn _ IH]; intros d; [done|].
  rewrite forM_cons. destruct (bool_decide _); [|apply IH].
  unfold try_except, gossip_dispatch. rewrite decide_True by done. apply IH.
Qed.

(** A service call that only says remote things sends nothing. *)
Lemma on_service_remote {A} now (m : Hooks → M Coordinator A) d r c' ns :
  m (hooks_at cfg hooks now d) (membership d) = (r, c') → notified c' = notified (membership d) ++ ns →
  Forall (λ n, source n.1.2 = "remote") ns →
  on_service cfg linked hooks uuid now m d = (r, set_membership c' d).
Proof.
  intros E Hn Hall. unfold on_service. rewrite E. cbv zeta. rewrite Hn, drop_app_length.
  by rewrite dispatch_remote.
Qed.

Lemma serve_remote_event now e d : ∃ p k,
  on_service cfg linked hooks uuid now (λ _, _apply_remote_event now e) d =
    (Ok (), set_membership (set_disk k (set_presence p (absorbed e (membership d)))) d).
Proof.
  destruct (remote_event_run now e (membership d)) as (p & k & E). exists p, k.
  destruct (absorbed_notified e (membership d)) as (ns & Hns & Hall).
  eapply on_service_remote; [exact E|exact Hns|]. eapply Forall_impl; [exact Hall|]. by intros n ->.
Qed.

Lemma handle_gossip_envelope now msg pem e d : carries msg pem e →
  handle_message cfg linked hooks uuid now msg d =
    _handle_gossip cfg linked hooks uuid now [("event", event_to_dict e)] d.
Proof.
  unfold carries. intros Hc. unfold handle_message. rewrite Hc.
  change SUBTYPE_GOSSIP with (DISCOVERY_TYPE_PREFIX +:+ "gossip") at 1. rewrite envelope_sniffed. cbn [negb].
  rewrite decode_envelope; [done|done|]. apply json_wf_obj.
  split; [apply (bool_decide_unpack _); by vm_compute|]. apply Forall_singleton, event_to_dict_wf.
Qed.

End Node.

(** ** A log that holds the whole history *)

(** The log starts at one, has no gap, and the snapshot is its projection. *)
Record complete (rm : string) (c : Coordinator) : Prop := {
  whole : snapshot c = replay (events (log c)) (new_snapshot rm);
  numbers : ∀ i e, events (log c) !! i = Some e →
    seq_no e = (Z.of_nat i + 1)%Z ∧ membership_version e = (Z.of_nat i + 1)%Z;
  next_number : next_seq_no (log c) = (Z.of_nat (length (events (log c))) + 1)%Z;
}.

Definition completes (c c' : Coordinator) : Prop := ∀ rm, complete rm c → complete rm c'.

#[local] Instance completes_preorder : PreOrder completes.
Proof. unfold completes. split; [by intros c rm Hc|]. intros a b c H1 H2 rm H. auto. Qed.

Lemma same_completes c c' : log c' = log c → snapshot c' = snapshot c → completes c c'.
Proof. intros H1 H2 rm [? ? ?]. split; by rewrite ?H1, ?H2. Qed.

Lemma push_completes e ct c : seq_no e = next_seq_no (log c) → membership_version e = next_seq_no (log c) →
  completes c (set_snapshot (apply_event e (snapshot c)).2 (set_log (push e ct (log c)) c)).
Proof.
  intros Hs Hv rm [Hw Hn Hx]. split; cbn [snapshot log set_snapshot set_log push events next_seq_no].
  - by rewrite replay_app, <- Hw.
  - intros i x [Hi|[Hi Hx']]%lookup_app_Some; [by apply Hn|].
    apply list_lookup_singleton_Some in Hx' as [Hi' <-]. rewrite Hs, Hv, Hx.
    assert (i = length (events (log c))) as -> by lia. done.
  - rewrite length_app, Hx. cbn [length]. lia.
Qed.

Lemma commit_completes now et uid src dn tr pk : keeps completes (commit now et uid src dn tr pk).
Proof.
  intros c. rewrite commit_run. unfold append. destruct (_ <? _)%Z; cbn [snd]; [by apply same_completes|].
  by apply push_completes.
Qed.
Lemma dispatch_completes e d : keeps completes (dispatch e d).
Proof. unfold dispatch. keeps_tac. by apply same_completes. Qed.

#[export] Instance completes_respected : Respected (λ _, True) (λ _, True) completes.
Proof.
  split; try typeclasses eauto.
  - done.
  - intros. by apply same_completes.
  - intros. unfold commit_and_dispatch. keeps_tac; [apply commit_completes|apply dispatch_completes].
  - intros. apply commit_completes.
  - intros B now uid src dn tr d k Hk. keeps_tac; [apply commit_completes|apply dispatch_completes].
  - intros B e k _ Hk. keeps_tac; [|apply dispatch_completes].
    intros c. rewrite commit_remote_copied. by apply push_completes.
  - unfold checkpoint. keeps_tac. by apply same_completes.
  - intros h v _. unfold subscribe. keeps_tac; by apply same_completes.
  - intros h _. unfold unsubscribe. keeps_tac. by apply same_completes.
Qed.

Lemma new_complete rm tracing dir : complete rm (new_coordinator rm dir tracing).
Proof. split; [done| |done]. intros i e [=]%lookup_nil_Some || by intros i e. Qed.

(** ** The joiner's copy of the room *)

Definition norm_entry (kv : string * MemberInfo) : string * MemberInfo := (kv.1, norm_member kv.2).

(** The same members, names, states and keys, an empty key read back as none. *)
Definition mirrors (s s' : Snapshot) : Prop :=
  members s' = norm_entry <$> members s ∧ version s' = version s ∧ as_of_seq_no s' = as_of_seq_no s.

Lemma dget_norm u (d : pydict string MemberInfo) : dget u (norm_entry <$> d) = norm_member <$> dget u d.
Proof. induction d as [|[k m] d IH]; [done|]. cbn. by destruct (decide (u = k)). Qed.
Lemma dset_norm u m (d : pydict string MemberInfo) :
  dset u (norm_member m) (norm_entry <$> d) = norm_entry <$> dset u m d.
Proof. induction d as [|[k x] d IH]; [done|]. cbn. destruct (decide (u = k)); cbn; by rewrite ?IH. Qed.

(** The event as it is read back from the response and copied. *)
Definition same_event (e e' : MembershipEvent) : Prop :=
  seq_no e' = seq_no e ∧ membership_version e' = membership_version e ∧ user_id e' = user_id e ∧
  event_type e' = event_type e ∧ timestamp e' = timestamp e ∧ display_name e' = display_name e ∧
  public_key e' = norm_key (public_key e).

Lemma dispatch_norm e e' m : same_event e e' →
  (_dispatch e' (norm_member <$> m)).1 = norm_member <$> (_dispatch e m).1.
Proof.
  intros (_ & Hv & Hu & Ht & Hts & Hdn & Hpk). unfold _dispatch. rewrite Ht.
  destruct (event_type e); try done; destruct m as [m|]; cbn;
    unfold joined, move, beat, norm_member; cbn; by rewrite ?Hv, ?Hu, ?Hts, ?Hdn, ?Hpk.
Qed.

Lemma mirror_step e e' s s' : same_event e e' → mirrors s s' →
  mirrors (apply_event e s).2 (apply_event e' s').2.
Proof.
  intros He (Hm & Hv & Ha). pose proof He as (Es & Ev & Eu & Et & _). unfold apply_event. rewrite Es, Ha, Et, Eu.
  destruct (seq_no e <=? as_of_seq_no s)%Z; [done|].
  assert (state_of s' (user_id e) = state_of s (user_id e)) as ->.
  { unfold state_of, member. rewrite Hm, dget_norm. by destruct (dget _ _). }
  destruct (negb _); [done|]. unfold member. rewrite Hm, dget_norm.
  pose proof (dispatch_norm e e' (dget (user_id e) (members s)) He) as Hd.
  destruct (_dispatch e' _) as [m' x'], (_dispatch e _) as [m x]. cbn [fst] in Hd. subst m'.
  split; [|done]. cbn [snd members]. destruct m as [m|]; cbn; [apply dset_norm|done].
Qed.

Lemma replayed now es c s :
  (∀ i e, es !! i = Some e → seq_no e = (next_seq_no (log c) + Z.of_nat i)%Z ∧ membership_version e = seq_no e) →
  mirrors s (snapshot c) →
  ∃ c' ns, _apply_remote_snapshot now (norm_event <$> es) c = (Ok (), c') ∧ mirrors (replay es s) (snapshot c') ∧
    notified c' = notified c ++ ns ∧ Forall (λ n, source n.1.2 = "remote") ns.
Proof.
  unfold _apply_remote_snapshot. revert c s. induction es as [|e es IH]; intros c s Hn Hm.
  { exists c, []. by rewrite app_nil_r. }
  cbn [fmap list_fmap]. rewrite forM_cons. destruct (remote_event_run now (norm_event e) c) as (p & k & ->).
  set (c1 := set_disk _ _).
  assert (snapshot c1 = (apply_event (copied (norm_event e) c) (snapshot c)).2) as Hs
    by apply absorbed_snapshot.
  assert (next_seq_no (log c1) = next_seq_no (log c) + 1)%Z as Hl.
  { unfold c1. cbn [log set_disk set_presence]. by rewrite absorbed_log. }
  destruct (absorbed_notified (norm_event e) c) as (ns1 & Hn1 & Hr1).
  destruct (IH c1 (apply_event e s).2) as (c' & ns & E & Hmir & Hns & Hr).
  - intros i x Hi. rewrite Hl. destruct (Hn (S i) x Hi) as [-> ?]. split; [lia|done].
  - rewrite Hs. apply mirror_step; [|done]. destruct (Hn 0%nat e eq_refl) as [Hq Hv].
    unfold same_event. cbn. split_and!; try done; lia.
  - exists c', (ns1 ++ ns). split_and!; [done|done| |].
    + rewrite Hns. unfold c1. cbn [notified set_disk set_presence]. by rewrite Hn1, app_assoc.
    + apply Forall_app. split; [|done]. eapply Forall_impl; [exact Hr1|]. by intros n ->.
Qed.

Lemma events_read_back es : mapR event_from_dict (event_to_dict <$> es) = Ok (norm_event <$> es).
Proof.
  induction es as [|e es IH]; [done|]. cbn [fmap list_fmap mapR].
  rewrite event_from_to_dict. cbn [mbind result_bind]. by rewrite IH.
Qed.

Section Seed.
Context (cfg : DiscoveryConfig) (linked : bool) (hooks : Hooks) (uuid : nat → string).

Lemma make_message_run now c d : make_message cfg uuid now c d =
  (Ok (new_message c (advertise_address cfg) (uuid (drawn d)) now), set_drawn (S (drawn d)) d).
Proof. done. Qed.

(** A gossip broadcast of the node for a local event that satisfies [Q]. *)
Definition gossips (Q : MembershipEvent → Prop) (o : outgoing) : Prop :=
  ∃ m e, o = Broadcast m ∧ carries m (public_key_pem cfg) e ∧ sender m = advertise_address cfg ∧
    source e ≠ "remote" ∧ Q e.

(** Only the seen events, the identifiers drawn and the outbox moved, the latter by gossip. *)
Definition chatter (Q : MembershipEvent → Prop) (d d' : Discovery) : Prop :=
  membership d' = membership d ∧ pending_joins d' = pending_joins d ∧ auto_handler d' = auto_handler d ∧
  gossip_handle d' = gossip_handle d ∧ heartbeat_running d' = heartbeat_running d ∧
  ∃ os, outbox d' = outbox d ++ os ∧ Forall (gossips Q) os.

#[local] Instance chatter_preorder Q : PreOrder (chatter Q).
Proof.
  split.
  - intros d. split_and!; try done. exists []. by rewrite app_nil_r.
  - intros a b c (? & ? & ? & ? & ? & os & Ho & Hf) (? & ? & ? & ? & ? & os' & Ho' & Hf').
    split_and!; try congruence. exists (os ++ os'). rewrite Ho', Ho, app_assoc. split; [done|].
    by apply Forall_app.
Qed.

Lemma quiet_chatter Q d d' : membership d' = membership d → pending_joins d' = pending_joins d →
  auto_handler d' = auto_handler d → gossip_handle d' = gossip_handle d →
  heartbeat_running d' = heartbeat_running d → outbox d' = outbox d → chatter Q d d'.
Proof. intros. split_and!; try done. exists []. by rewrite app_nil_r. Qed.

Lemma gossip_chatter (Q : MembershipEvent → Prop) now e : Q e → keeps (chatter Q) (gossip_dispatch cfg linked uuid now e).
Proof.
  intros HQ. unfold gossip_dispatch. destruct (decide (source e = "remote")) as [|Hs]; [apply keeps_ret; typeclasses eauto|].
  unfold _gossip. destruct linked; cbn [negb]; [|apply keeps_ret; typeclasses eauto].
  intros d. rewrite bind_run. destruct (mark_seen_run (gossip_id e) d) as [seen ->].
  rewrite bind_run, encode_envelope by done. cbn [lift]. rewrite bind_run, make_message_run. cbn [modify snd].
  split_and!; try done. eexists. split; [done|]. apply Forall_singleton.
  eexists _, e. by split_and!.
Qed.

Lemma dispatcher_chatter (Q : MembershipEvent → Prop) now ns d : Forall (λ n, Q n.1.2) ns →
  chatter Q d (run_dispatcher cfg linked uuid now ns d).2.
Proof.
  intros Hns. unfold run_dispatcher. rewrite bind_run. cbn [get].
  generalize (gossip_handle d) as g. intros g. revert d. induction Hns as [|n ns Hn _ IH]; intros d; [reflexivity|].
  rewrite forM_cons.
  match goal with |- context [(if ?b then ?m else ?k) d] => assert (keeps (chatter Q) (if b then m else k)) as Hk end.
  { destruct (bool_decide _); [|apply keeps_ret; typeclasses eauto].
    apply keeps_try; [typeclasses eauto|by apply gossip_chatter|]. intros _. apply keeps_ret. typeclasses eauto. }
  specialize (Hk d). match goal with |- context [match ?t with _ => _ end] =>
destruct t as [[[]|x] d1] end; [|exact Hk].
  etransitivity; [exact Hk|apply IH].
Qed.

(** A service call moves the coordinator as the call does, and sends nothing but gossip about
    what the call notified. *)
Lemma on_service_run {A} (Q : MembershipEvent → Prop) now (m : Hooks → M Coordinator A) d r c' ns :
  m (hooks_at cfg hooks now d) (membership d) = (r, c') → notified c' = notified (membership d) ++ ns →
  Forall (λ n, Q n.1.2) ns →
  ∃ d', on_service cfg linked hooks uuid now m d = (r, d') ∧ chatter Q (set_membership c' d) d'.
Proof.
  intros E Hn Hall. unfold on_service. rewrite E. cbv zeta. rewrite Hn, drop_app_length.
  eexists. split; [done|]. by apply dispatcher_chatter.
Qed.
End Seed.

(** ** What reaches the other nodes *)

(** The events a subscriber can be told of. *)
Definition told_type (et : EventType) : bool :=
  match et with
  | JOIN_REQUESTED | LEAVE_REQUESTED | HISTORY_BACKFILL_STARTED | HEARTBEAT => false
  | _ => true
  end.

Definition told_event (e : MembershipEvent) : Prop := told_type (event_type e) = true.

Definition tells (c c' : Coordinator) : Prop :=
  ∃ ns, notified c' = notified c ++ ns ∧ Forall (λ n, told_event n.1.2) ns.

#[local] Instance tells_preorder : PreOrder tells.
Proof.
  split.
  - intros c. exists []. by rewrite app_nil_r.
  - intros a b c (ns & Hn & Hf) (ns' & Hn' & Hf'). exists (ns ++ ns'). rewrite Hn', Hn, app_assoc.
    split; [done|]. by apply Forall_app.
Qed.

Lemma same_tells c c' : notified c' = notified c → tells c c'.
Proof. intros H. exists []. by rewrite app_nil_r. Qed.

Lemma deliver_tells ids e d c : told_event e → tells c (deliver_to ids e d c).
Proof. intros He. eexists. split; [done|]. by apply Forall_fmap, Forall_forall. Qed.

Lemma delta_told e s d : (apply_event e s).1 = Some d → told_event e.
Proof.
  intros Hd. destruct (apply_event e s) as [x s'] eqn:E. cbn in Hd. subst.
  destruct (apply_event_cases _ _ _ _ E) as [(? & _)|(_ & _ & _ & _ & _ & _ & _ & Hx)]; [done|].
  rewrite dispatch_delta in Hx. unfold delta_of in Hx. unfold told_event.
  by destruct (event_type e).
Qed.

Lemma commit_tells now et uid src dn tr pk : keeps tells (commit now et uid src dn tr pk).
Proof. intros c. rewrite commit_run. destruct (append _ _ _ _ _ _ _ _ _) as [[e|x] l]; by apply same_tells. Qed.

Lemma announce_tells e l c : tells c (dispatch e (apply_event e (snapshot c)).1
  (set_snapshot (apply_event e (snapshot c)).2 (set_log l c))).2.
Proof.
  destruct (apply_event e (snapshot c)).1 as [d|] eqn:Ed; cbn [dispatch modify mret M_ret snd].
  - etransitivity; [|apply deliver_tells; by eapply delta_told]. by apply same_tells.
  - by apply same_tells.
Qed.

#[export] Instance tells_respected : Respected (λ _, True) (λ _, True) tells.
Proof.
  split; try typeclasses eauto.
  - done.
  - intros. by apply same_tells.
  - intros now et uid src dn tr pk _ c. unfold commit_and_dispatch. rewrite bind_run, commit_run.
    destruct (append _ _ _ _ _ _ _ _ _) as [[e|x] l]; [|by apply same_tells].
    cbn [fst snd]. pose proof (announce_tells e l c) as H. rewrite bind_run.
    by destruct (dispatch _ _ _) as [[[]|] ?].
  - intros. apply commit_tells.
  - intros B now uid src dn tr d k Hk c. rewrite bind_run, commit_run.
    destruct (append _ _ _ _ _ _ _ _ _) as [[e|x] l] eqn:E; [|by apply same_tells].
    apply append_push in E as (_ & _ & He). rewrite bind_run. cbn [dispatch modify fst].
    etransitivity; [|apply Hk]. etransitivity; [|apply deliver_tells].
    + by apply same_tells.
    + unfold told_event. by rewrite He.
  - intros B e k _ Hk c. rewrite bind_run, commit_remote_copied. cbn [fst snd].
    pose proof (announce_tells (copied e c) (push (copied e c) (term (copied e c)) (log c)) c) as H.
    rewrite bind_run. destruct (dispatch _ _ _) as [[[]|] c1]; [|exact H]. etransitivity; [exact H|apply Hk].
  - unfold checkpoint. keeps_tac. by apply same_tells.
  - intros h v _. unfold subscribe. keeps_tac; [by apply same_tells|]. apply deliver_tells.
    unfold delta_of, told_event in *. by destruct (event_type _).
  - intros h _. unfold unsubscribe. keeps_tac. by apply same_tells.
Qed.

(** ** The join handshake *)

(** The request of a bootstrapping node. *)
Definition asks (m : Message) (pem : bytes) (dn : string) : Prop :=
  content m = dumps default_style (envelope SUBTYPE_JOIN_REQUEST pem [("display_name", JStr dn)]).

(** A coordinator that has seen nothing yet. *)
Definition blank (c : Coordinator) : Prop := ∃ rm, log c = new_log rm ∧ snapshot c = new_snapshot rm.

Section Handshake.
Context (cfg : DiscoveryConfig) (hooks : Hooks) (uuid : nat → string).
Hypothesis no_history : history_handler hooks = None.

Lemma handlers_kept K H (R : relation Coordinator) `{!Respected K H R} now d :
  handler_kept R (hooks_at cfg hooks now d).
Proof using no_history.
  intros h uid e. cbn [hooks_at history_handler]. rewrite no_history. destruct (auto_handler d); [|done].
  intros [= <-]. by apply (auto_handler_kept K H).
Qed.

Lemma handle_envelope linked now m subtype pem payload d :
  content m = dumps default_style (envelope (DISCOVERY_TYPE_PREFIX +:+ subtype) pem payload) →
  json_wf (JObj payload) →
  handle_message cfg linked hooks uuid now m d =
    (let subtype := DISCOVERY_TYPE_PREFIX +:+ subtype in
     if decide (subtype = SUBTYPE_JOIN_REQUEST) then _handle_join_request cfg linked hooks uuid now (sender m) pem payload
     else if decide (subtype = SUBTYPE_JOIN_RESPONSE) then _handle_join_response cfg linked hooks uuid now (sender m) payload
     else if decide (subtype = SUBTYPE_GOSSIP) then _handle_gossip cfg linked hooks uuid now payload
     else if decide (subtype = SUBTYPE_HEARTBEAT) then _handle_heartbeat cfg linked hooks uuid now (sender m)
     else mret (false, Some ("unknown_subtype:" +:+ subtype))) d.
Proof.
  intros Hc Hp. unfold handle_message. rewrite Hc, envelope_sniffed. cbn [negb].
  rewrite decode_envelope; [done| |done]. apply (startswith_app DISCOVERY_TYPE_PREFIX).
Qed.

(** The response to an accepted request carries the seed's whole log. *)
Definition response_payload (c : Coordinator) : pydict string json :=
  [("accepted", JBool true); ("events", JList (event_to_dict <$> events (log c)))].

Lemma response_payload_wf c : json_wf (JObj (response_payload c)).
Proof.
  apply json_wf_obj. split; [apply (bool_decide_unpack _); by vm_compute|].
  apply Forall_cons. split; [done|]. apply Forall_singleton. cbn [snd]. apply json_wf_list, Forall_fmap, Forall_forall.
  intros e _. apply event_to_dict_wf.
Qed.

Lemma whole_log rm c : complete rm c → get_events_since 0 (log c) = events (log c).
Proof.
  intros [_ Hn _]. unfold get_events_since. assert (Forall (λ e, (0 <? seq_no e)%Z = true) (events (log c))) as Hf.
  { apply Forall_forall. intros e [i Hi]%list_elem_of_lookup. apply Z.ltb_lt. destruct (Hn i e Hi). lia. }
  clear Hn. induction Hf as [|e es He _ IH]; [done|]. cbn. by rewrite He, IH.
Qed.

Lemma answer_join rm now req pem dn h p res c' d :
  asks req pem dn → parse_host_port (sender req) = Ok (h, p) → complete rm (membership d) →
  handle_join (hooks_at cfg hooks now d) now "" (sender req) dn (Some pem)
    (Some (mkContext None (Some (sender req)) (Some pem) None)) (membership d) = (Ok res, c') →
  accepted res = true →
  ∃ d' resp gs, handle_message cfg true hooks uuid now req d = (Ok handled, d') ∧ membership d' = c' ∧
    outbox d' = outbox d ++ gs ++ [SendTo h p resp] ∧ Forall (gossips cfg told_event) gs ∧
    sender resp = advertise_address cfg ∧
    content resp = dumps default_style (envelope SUBTYPE_JOIN_RESPONSE (public_key_pem cfg) (response_payload c')).
Proof using no_history.
  intros Hreq Hp Hcom Ej Hacc.
  rewrite (handle_envelope true now req "join_request" pem [("display_name", JStr dn)]); [|exact Hreq|].
  2: { apply json_wf_obj. split; [apply (bool_decide_unpack _); by vm_compute|by repeat constructor]. }
  cbv zeta. rewrite decide_True by done. unfold _handle_join_request. rewrite bind_run.
  change (lift (str_or _ _ _) d) with (Ok dn : result string, d). cbv beta iota. rewrite bind_run.
  assert (tells (membership d) c') as (ns & Hns & Hall).
  { pose proof (join_kept _ _ tells (hooks_at cfg hooks now d) now "" (sender req) dn (Some pem)
      (Some (mkContext None (Some (sender req)) (Some pem) None)) (handlers_kept _ _ tells now d) I (membership d)) as H.
    by rewrite Ej in H. }
  assert (complete rm c') as Hcom'.
  { pose proof (join_kept _ _ completes (hooks_at cfg hooks now d) now "" (sender req) dn (Some pem)
      (Some (mkContext None (Some (sender req)) (Some pem) None)) (handlers_kept _ _ completes now d) I (membership d)) as H.
    rewrite Ej in H. by apply H. }
  unfold service_join.
  destruct (on_service_run cfg true hooks uuid told_event now (λ h, handle_join h now "" (sender req) dn (Some pem)
      (Some (mkContext None (Some (sender req)) (Some pem) None))) d (Ok res) c' ns Ej Hns Hall)
    as (d1 & -> & Hmem & _ & _ & _ & _ & os & Ho & Hgs).
  rewrite Hacc. cbn [negb]. rewrite bind_run. cbn [get]. rewrite bind_run.
  cbn [membership set_membership outbox] in Hmem, Ho. rewrite Hmem, (whole_log rm) by done.
  unfold _send_join_response. cbn [negb]. rewrite Hp. cbv zeta. rewrite bind_run, encode_envelope by done.
  cbn [lift]. rewrite bind_run, make_message_run. cbn [modify mret M_ret].
  eexists _, _, os. split; [done|]. cbn [membership put_out set_drawn outbox]. split; [done|].
  split; [by rewrite Ho, <- app_assoc|]. split; [done|]. by split.
Qed.

(** The joiner takes the response in. *)
Lemma take_response linked rm now resp pem who c d :
  content resp = dumps default_style (envelope SUBTYPE_JOIN_RESPONSE pem (response_payload c)) →
  sender resp = who → complete rm c → blank (membership d) →
  ∃ d', handle_message cfg linked hooks uuid now resp d = (Ok handled, d') ∧ outbox d' = outbox d ∧
    s_members (view d') = norm_entry <$> members (snapshot c) ∧
    dget who (pending_joins d') = (λ _, true) <$> dget who (pending_joins d).
Proof.
  intros Hc Hs [Hw Hn _] (rm' & Hlog & Hsnap).
  rewrite (handle_envelope linked now resp "join_response" pem (response_payload c)); [|exact Hc|apply response_payload_wf].
  cbv zeta. rewrite decide_False, decide_True by done. unfold _handle_join_response. rewrite Hs. rewrite bind_run.
  change (default (JBool false) _) with (JBool true). cbn [truthy negb].
  change (default (JList []) _) with (JList (event_to_dict <$> events (log c))). cbn [json_iter].
  rewrite bind_run. cbn [lift]. rewrite bind_run, events_read_back. cbn [lift]. unfold try_except.
  destruct (replayed now (events (log c)) (membership d) (new_snapshot rm)) as (c' & ns & E & (Hm & _) & Hns & Hr).
  - intros i e Hi. rewrite Hlog. destruct (Hn i e Hi) as [-> ->]. cbn. split; lia.
  - rewrite Hsnap. done.
  - rewrite (on_service_remote cfg linked hooks uuid now _ d (Ok ()) c' ns E Hns Hr).
    rewrite bind_run. unfold wake. cbn [modify mret M_ret]. eexists. split; [done|].
    cbn [pending_joins set_membership]. unfold dmem. rewrite <- Hw in Hm.
    destruct (dget who (pending_joins d)) as [b|] eqn:Eb; cbn; [rewrite dget_dset_eq|rewrite Eb]; done.
Qed.
End Handshake.

(** ** What gossip cannot do *)

(** A joining member stays joining, and nobody enters a state that only the silent events of
    another node's log lead to. *)
Definition unsettled_at (st st' : option MemberState) : Prop :=
  (st = Some JOINING → st' = Some JOINING) ∧
  (∀ x, x ∈ [BACKFILLING; LEAVING] → st' = Some x → st = Some x) ∧
  (st' = Some LEFT → st ∈ [Some LEFT; Some LEAVING]).
Definition unsettled (s s' : Snapshot) : Prop := ∀ u, unsettled_at (state_of s u) (state_of s' u).

#[local] Instance unsettled_at_preorder : PreOrder unsettled_at.
Proof.
  split; [intros st; split_and!; [done|done|intros ->; left]|].
  intros a b c (A1 & B1 & C1) (A2 & B2 & C2). split_and!; [by auto|intros x Hx Hs; by apply B1, B2|].
  intros Hc. specialize (C2 Hc). rewrite !elem_of_cons, elem_of_nil in C2.
  destruct C2 as [Hb|[Hb|[]]]; [by apply C1|]. rewrite (B1 LEAVING); [right; left|right; left|done].
Qed.
#[local] Instance unsettled_preorder : PreOrder unsettled.
Proof. split; [intros s u; reflexivity|]. intros a b c H1 H2 u. by transitivity (state_of b u). Qed.

(** The events a node can learn of from another: those that are told, and heartbeats. *)
Definition audible (et : EventType) : bool := told_type et || bool_decide (et = HEARTBEAT).

Lemma transition_unsettled et st0 st' : transition et st0 st' → audible et = true → unsettled_at st0 (Some st').
Proof.
  intros Htr Ht. split_and!.
  - by destruct Htr.
  - intros st Hst [= <-]. rewrite !elem_of_cons, elem_of_nil in Hst. destruct Htr; naive_solver.
  - intros [= ->]. inversion Htr; subst; rewrite !elem_of_cons; auto.
Qed.

Lemma event_unsettled e s : audible (event_type e) = true → unsettled s (apply_event e s).2.
Proof.
  intros Ht u. destruct (apply_event e s) as [d s'] eqn:E. cbn [snd].
  destruct (apply_event_cases _ _ _ _ E) as [(_ & -> & _)|(_ & Hv & _ & _ & _ & Ho & Hm & _)]; [reflexivity|].
  destruct (decide (u = user_id e)) as [->|Hne]; [|unfold state_of; by rewrite Ho].
  apply valid_transition in Hv as [Hn|[st' Htr]].
  - unfold state_of. rewrite Hm. unfold _dispatch. by destruct (event_type e).
  - destruct (dispatch_state e (member s (user_id e)) st' Htr) as (m' & Ed & <- & _).
    assert (state_of s' (user_id e) = Some (state m')) as -> by (unfold state_of; by rewrite Hm, Ed).
    by apply (transition_unsettled (event_type e)).
Qed.

Definition slow (c c' : Coordinator) : Prop := unsettled (snapshot c) (snapshot c').
#[local] Instance slow_preorder : PreOrder slow.
Proof. unfold slow. split; [intros c; reflexivity|]. intros a b c. apply transitivity. Qed.
Lemma same_slow c c' : snapshot c' = snapshot c → slow c c'.
Proof. unfold slow. by intros ->. Qed.

Lemma commit_slow now et uid src dn tr pk : audible et = true → keeps slow (commit now et uid src dn tr pk).
Proof.
  intros Ht c. rewrite commit_run. destruct (append _ _ _ _ _ _ _ _ _) as [[e|x] l] eqn:E; [|by apply same_slow].
  apply append_push in E as (_ & _ & He). apply event_unsettled. by rewrite He.
Qed.

Lemma dispatch_slow e d : keeps slow (dispatch e d).
Proof. unfold dispatch. keeps_tac. by apply same_slow. Qed.
Lemma announce_slow now et uid src dn tr pk : audible et = true → keeps slow (commit_and_dispatch now et uid src dn tr pk).
Proof. intros. unfold commit_and_dispatch. keeps_tac; [by apply commit_slow|apply dispatch_slow]. Qed.

#[local] Hint Extern 1 (slow _ _) => by apply same_slow : keeps.
#[local] Hint Extern 1 (audible _ = true) => reflexivity : keeps.
#[local] Hint Resolve commit_slow announce_slow dispatch_slow : keeps.
Ltac slows := keeps_tac; try (by apply same_slow).

Lemma checkpoint_slow : keeps slow checkpoint.
Proof. unfold checkpoint. slows. Qed.
#[local] Hint Resolve checkpoint_slow : keeps.
Lemma presence_change_slow now uid ch : keeps slow (_handle_presence_change now uid ch).
Proof.
  unfold _handle_presence_change, untrack. slows. apply announce_slow. by destruct ch.
Qed.
#[local] Hint Resolve presence_change_slow : keeps.
Lemma presence_heartbeat_slow now uid : keeps slow (presence_heartbeat now uid).
Proof. unfold presence_heartbeat. slows. Qed.
#[local] Hint Resolve presence_heartbeat_slow : keeps.
Lemma heartbeat_slow now uid : keeps slow (handle_heartbeat now uid).
Proof. unfold handle_heartbeat. slows. Qed.
Lemma sweep_slow now : keeps slow (_sweep_backfill_timeouts now).
Proof. unfold _sweep_backfill_timeouts, untrack. slows. Qed.
Lemma tick_slow now : keeps slow (tick now).
Proof. unfold tick, check_liveness, check_entry. pose proof sweep_slow. slows. Qed.
Lemma remote_event_slow now e : audible (event_type e) = true → keeps slow (_apply_remote_event now e).
Proof.
  intros He. unfold _apply_remote_event, track. apply keeps_bind; [typeclasses eauto| |intros ed; slows].
  intros c. rewrite commit_remote_copied. by apply event_unsettled.
Qed.

(** *** What a node says *)

Definition heartbeat_text (pem : bytes) : string := dumps default_style (envelope SUBTYPE_HEARTBEAT pem []).

(** A broadcast of a node: gossip about a local event its subscribers are told of, or a
    heartbeat. *)
Definition utterance (pem : bytes) (m : Message) : Prop :=
  (∃ e, carries m pem e ∧ told_event e ∧ source e ≠ "remote") ∨ content m = heartbeat_text pem.

Section Talking.
Context (cfg : DiscoveryConfig) (linked : bool) (hooks : Hooks) (uuid : nat → string).
Hypothesis no_history : history_handler hooks = None.

(** Across a step the node adds its utterances to the outbox, and a log that held the whole
    history still does. *)
Definition talks (d d' : Discovery) : Prop :=
  (∃ os, outbox d' = outbox d ++ os ∧ ∀ m, Broadcast m ∈ os → utterance (public_key_pem cfg) m) ∧
  completes (membership d) (membership d').

#[local] Instance talks_preorder : PreOrder talks.
Proof.
  split.
  - intros d. split; [|reflexivity]. exists []. rewrite app_nil_r. split; [done|]. by intros m ?%not_elem_of_nil.
  - intros a b c ((os & Ho & Hf) & H1) ((os' & Ho' & Hf') & H2). split; [|by transitivity (membership b)].
    exists (os ++ os'). rewrite Ho', Ho, app_assoc.
    split; [done|]. intros m [?|?]%elem_of_app; auto.
Qed.

Lemma same_talks d d' : outbox d' = outbox d → membership d' = membership d → talks d d'.
Proof.
  intros H Hm. split; [|by rewrite Hm]. exists []. rewrite app_nil_r. split; [done|]. by intros m ?%not_elem_of_nil.
Qed.

Lemma chatter_talks d d' : chatter cfg told_event d d' → talks d d'.
Proof.
  intros (Hsame & _ & _ & _ & _ & os & Ho & Hf). split; [|by rewrite Hsame]. exists os. split; [done|]. intros m Hm.
  rewrite Forall_forall in Hf. destruct (Hf _ Hm) as (m' & e & [= <-] & Hc & _ & Hs & Ht). left. by exists e.
Qed.

(** What the service's calls keep. *)
Abbreviation proper := (both tells completes).

Lemma service_talks {A} now (m : Hooks → M Coordinator A) : (∀ d, keeps proper (m (hooks_at cfg hooks now d))) →
  keeps talks (on_service cfg linked hooks uuid now m).
Proof.
  intros Hm d. specialize (Hm d (membership d)).
  destruct (m (hooks_at cfg hooks now d) (membership d)) as [r c'] eqn:E. destruct Hm as [(ns & Hns & Hf) Hc]. cbn [snd] in Hns, Hc.
  destruct (on_service_run cfg linked hooks uuid told_event now m d r c' ns E Hns Hf) as (d' & -> & Hch).
  etransitivity; [|by apply chatter_talks]. split; [|done]. exists []. rewrite app_nil_r.
  split; [done|]. by intros m' ?%not_elem_of_nil.
Qed.

Lemma sends_talks now subtype payload (o : Message → outgoing) :
  (∀ m, content m = dumps default_style (envelope subtype (public_key_pem cfg) payload) →
     ∀ m', o m = Broadcast m' → utterance (public_key_pem cfg) m') →
  keeps talks (c ← lift (encode_discovery_envelope subtype (public_key_pem cfg) payload);
               m ← make_message cfg uuid now c; modify (put_out (o m))).
Proof.
  intros Ho d. rewrite bind_run. unfold encode_discovery_envelope.
  destruct (negb _); cbn [lift]; [reflexivity|]. rewrite bind_run, make_message_run. cbn [modify snd].
  split; [|reflexivity]. eexists. split; [done|]. intros m' E%list_elem_of_singleton. eapply Ho; [|symmetry; exact E]. done.
Qed.

Lemma all_calls_ok x : call_ok (λ _, True) (λ _, True) x.
Proof. destruct x; cbn; try done. by apply Forall_forall. Qed.

Lemma calls_proper now d x : keeps proper (serve (hooks_at cfg hooks now d) now x).
Proof using no_history.
  exact (serve_kept _ _ proper _ now x (handlers_kept cfg hooks no_history _ _ proper now d) (all_calls_ok x)).
Qed.
Lemma joins_proper now d uid dn pk ctx : keeps proper (handle_join (hooks_at cfg hooks now d) now "" uid dn pk ctx).
Proof using no_history.
  exact (join_kept _ _ proper _ now "" uid dn pk ctx (handlers_kept cfg hooks no_history _ _ proper now d) I).
Qed.

#[local] Hint Extern 1 (talks _ _) => by apply same_talks : keeps.
#[local] Hint Resolve service_talks : keeps.
Ltac talking := keeps_tac; try (by apply same_talks).

(** What is sent to one peer is no broadcast. *)
Lemma send_to_talks h p m d : talks d (put_out (SendTo h p m) d).
Proof. split; [|reflexivity]. eexists. split; [done|]. by intros m' [=]%list_elem_of_singleton. Qed.
Lemma make_message_talks now c : keeps talks (make_message cfg uuid now c).
Proof. intros d. by apply same_talks. Qed.
#[local] Hint Resolve send_to_talks make_message_talks : keeps.

Lemma mark_talks i : keeps talks (_mark_seen i).
Proof. intros d. destruct (mark_seen_run i d) as [seen ->]. by apply same_talks. Qed.
#[local] Hint Resolve mark_talks : keeps.

Lemma response_talks now target ok why events :
  keeps talks (_send_join_response cfg linked uuid now target ok why events).
Proof. unfold _send_join_response. talking. apply send_to_talks. Qed.
#[local] Hint Resolve response_talks : keeps.

Lemma message_talks now m : keeps talks (handle_message cfg linked hooks uuid now m).
Proof using no_history.
  unfold handle_message. talking.
  - unfold _handle_join_request, service_join. talking. apply service_talks. intros d0. apply joins_proper.
  - unfold _handle_join_response, wake. talking; [|destruct (dmem _ _); by apply same_talks].
    apply service_talks. intros d0. apply (calls_proper now d0 (apply_remote_snapshot _)).
  - unfold _handle_gossip. talking. apply service_talks. intros d0. apply (calls_proper now d0 (apply_remote_event _)).
  - unfold _handle_heartbeat. talking. apply service_talks. intros d0. apply (calls_proper now d0 (heartbeat_member _)).
Qed.
#[local] Hint Resolve message_talks : keeps.

Lemma arrival_talks tm : keeps talks (arrival cfg linked hooks uuid tm).
Proof using no_history. unfold arrival. talking. Qed.
#[local] Hint Resolve arrival_talks : keeps.
Lemma attempt_peer_talks now dn peer w : keeps talks (attempt_peer cfg linked hooks uuid now dn peer w).
Proof using no_history. unfold attempt_peer. talking. apply send_to_talks. Qed.
Lemma attempt_peers_talks now dn peers waits : keeps talks (attempt_peers cfg linked hooks uuid now dn peers waits).
Proof using no_history.
  revert waits. induction peers as [|peer peers IH]; intros waits; cbn [attempt_peers]; [talking|].
  apply keeps_bind; [typeclasses eauto|apply attempt_peer_talks|]. intros []; [talking|apply IH].
Qed.
Lemma bootstrap_talks now dn waits : keeps talks (attempt_bootstrap cfg linked hooks uuid now dn waits).
Proof using no_history.
  unfold attempt_bootstrap, service_join. destruct (bootstrap_peers cfg) as [|peer peers].
  - talking. apply service_talks. intros d0. apply joins_proper.
  - destruct (negb linked); [talking|apply attempt_peers_talks].
Qed.
Lemma heartbeat_talks now : keeps talks (_broadcast_heartbeat cfg linked uuid now).
Proof.
  unfold _broadcast_heartbeat. destruct (negb linked); [talking|].
  apply keeps_bind; [typeclasses eauto|talking|]. intros d. cbv zeta.
  apply keeps_bind; [typeclasses eauto|talking|]. intros []. destruct (heartbeat_targets _ _); [talking|].
  apply (sends_talks now SUBTYPE_HEARTBEAT [] Broadcast). intros m Hm m' [= <-]. by right.
Qed.
#[local] Hint Resolve bootstrap_talks heartbeat_talks : keeps.

Lemma act_talks now a : keeps talks (act cfg linked hooks uuid now a).
Proof using no_history.
  destruct a; unfold act, start, stop, subscribe_gossip, fresh_uuid; talking.
  - apply service_talks. intros d0. apply (calls_proper now d0 service_tick).
  - apply service_talks. intros d0. apply calls_proper.
  - destruct (_ && _); by apply same_talks.
  - apply service_talks. intros d0. by apply (respect_subscribe (K := λ _, True) (H := λ _, True)).
Qed.

Lemma run_talks acts d : talks d (run cfg linked hooks uuid acts d).
Proof using no_history.
  unfold run. apply (foldl_inv (talks d)); [reflexivity|]. intros [now a] d' _ Hd'. etransitivity; [exact Hd'|apply act_talks].
Qed.
End Talking.

(** *** What a node hears *)

Section Hearing.
Context (cfg : DiscoveryConfig) (linked : bool) (hooks : Hooks) (uuid : nat → string).

Definition slow_node (d d' : Discovery) : Prop := slow (membership d) (membership d').
#[export] Instance slow_node_preorder : PreOrder slow_node.
Proof. unfold slow_node. split; [intros d; reflexivity|]. intros a b c. apply transitivity. Qed.
Lemma same_slow_node d d' : membership d' = membership d → slow_node d d'.
Proof. unfold slow_node. intros ->. reflexivity. Qed.

Lemma service_slow {A} now (m : Hooks → M Coordinator A) : (∀ h, keeps slow (m h)) →
  keeps slow_node (on_service cfg linked hooks uuid now m).
Proof.
  intros Hm d. unfold on_service. specialize (Hm (hooks_at cfg hooks now d) (membership d)).
  destruct (m _ _) as [r c']. cbv zeta. cbn [snd] in *.
  destruct (dispatcher_chatter cfg linked uuid (λ _, True) now (drop (length (notified (membership d))) (notified c'))
    (set_membership c' d)) as [Heq _]; [by apply Forall_forall|].
  unfold slow_node. by rewrite Heq.
Qed.

Lemma after_service now (m : Hooks → M Coordinator unit) d : (∀ h, keeps slow (m h)) →
  slow_node d ((on_service cfg linked hooks uuid now m;; mret handled) d).2.
Proof.
  intros Hm. revert d. change (keeps slow_node (on_service cfg linked hooks uuid now m;; mret handled)).
  apply keeps_bind; [typeclasses eauto|by apply service_slow|]. intros []. apply keeps_ret. typeclasses eauto.
Qed.

Lemma heard_slow now m pem : utterance pem m → keeps slow_node (handle_message cfg linked hooks uuid now m).
Proof.
  intros [(e & Hc & Ht & _)|Hc] d.
  - rewrite (handle_gossip_envelope cfg linked hooks uuid now m pem e d Hc). unfold _handle_gossip.
    change (default JNull _) with (event_to_dict e). change (truthy (event_to_dict e)) with true. cbn [negb].
    rewrite event_from_to_dict, bind_run. destruct (mark_seen_run (gossip_id (norm_event e)) d) as [seen ->].
    destruct (dmem _ _); [by apply same_slow_node|].
    apply (after_service now _ (set_seen_events seen d)). intros _. apply remote_event_slow. unfold audible, told_event in *. cbn.
    by rewrite Ht.
  - rewrite (handle_envelope cfg hooks uuid linked now m "heartbeat" pem []); [|exact Hc|].
    2: { apply json_wf_obj. split; [constructor|constructor]. }
    cbv zeta. rewrite !decide_False, decide_True by done. unfold _handle_heartbeat. rewrite bind_run. cbn [get].
    destruct (negb _); [reflexivity|].
    apply after_service. intros _. apply heartbeat_slow.
Qed.

(** The turns of a node that only listens: broadcasts of others, its own heartbeats and
    ticks. *)
Definition overhears (said : Message → Prop) (a : activity) : Prop :=
  match a with Receive m => said m | HeartbeatTurn | TickTurn => True | _ => False end.

Lemma listening_slow now said pem a : (∀ m, said m → utterance pem m) → overhears said a →
  keeps slow_node (act cfg linked hooks uuid now a).
Proof.
  intros Hs Ha. destruct a; cbn [overhears] in Ha; try done; unfold act.
  - apply keeps_bind; [typeclasses eauto|by eapply heard_slow, Hs|]. intros _. apply keeps_ret. typeclasses eauto.
  - apply keeps_bind; [typeclasses eauto|apply keeps_get; typeclasses eauto|]. intros d0.
    destruct (heartbeat_running d0); [|apply keeps_ret; typeclasses eauto].
    unfold _broadcast_heartbeat, make_message, fresh_uuid. keeps_tac; by apply same_slow_node.
  - apply keeps_bind; [typeclasses eauto|apply keeps_get; typeclasses eauto|]. intros d0.
    destruct (heartbeat_running d0); [|apply keeps_ret; typeclasses eauto]. apply service_slow. intros _. apply tick_slow.
Qed.
End Hearing.


(** ** The join, end to end *)

Lemma norm_active ms : length (List.filter is_active (norm_entry <$> ms)) = length (List.filter is_active ms).
Proof.
  induction ms as [|kv ms IH]; [done|]. cbn.
  change (is_active (norm_entry kv)) with (is_active kv). destruct (is_active kv); cbn; by rewrite IH.
Qed.

(** A node started on an empty directory keeps its whole history in its log. *)
Lemma run_complete cfg linked hooks uuid : history_handler hooks = None → ∀ acts t0,
  complete (room hooks) (membership (run cfg linked hooks uuid acts (new_discovery cfg hooks t0 []))).
Proof. intros Hh acts t0. apply run_talks; [done|]. apply new_complete. Qed.


(** ** A seed, a joiner and a third node *)

Module DiscoveryDemo.

Definition hooks : Hooks := mkHooks "default" None None None.
Definition uuid (n : nat) : string := "u" +:+ string_of_Z (Z.of_nat n).
Definition seed_cfg : DiscoveryConfig := mkDiscoveryConfig "10.0.0.1:5678" [] (Some "seed key") true.
Definition joiner_cfg : DiscoveryConfig :=
  mkDiscoveryConfig "10.0.0.2:5678" ["10.0.0.1:5678"] (Some "joiner key") true.
Definition third_cfg : DiscoveryConfig :=
  mkDiscoveryConfig "10.0.0.3:5678" ["10.0.0.1:5678"] (Some "third key") true.

Definition started : list (time * activity) := [(0%Z, Start "Alice" [])].
#[local] Abbreviation seed := (run seed_cfg true hooks uuid started (new_discovery seed_cfg hooks 0 [])).
Definition joiner : Discovery := new_discovery joiner_cfg hooks 0 [].

Lemma joiner_blank : blank (membership joiner).
Proof. exists "default". split; vm_compute; reflexivity. Qed.

(** The seed admits the joiner and tells the third node. *)
Definition request : Message :=
  new_message (dumps default_style (envelope SUBTYPE_JOIN_REQUEST "joiner key" [("display_name", JStr "Bob")]))
    "10.0.0.2:5678" "u0" (seconds 1).
Definition joining : list (time * activity) := started ++ [(seconds 2, Receive request)].
Definition broadcasts (d : Discovery) : list Message :=
  omap (λ o, match o with Broadcast m => Some m | _ => None end) (outbox d).

Definition third : Discovery := new_discovery third_cfg hooks 0 [].
Definition overheard : list (time * activity) :=
  (λ m, (seconds 3, Receive m)) <$>
    broadcasts (run seed_cfg true hooks uuid joining (new_discovery seed_cfg hooks 0 [])).
Definition listening : Discovery := run third_cfg true hooks uuid overheard third.

(** The seed's service, asked by the joiner. *)
#[local] Abbreviation admission :=
  (handle_join (hooks_at seed_cfg hooks (seconds 2) seed) (seconds 2) "" (advertise_address joiner_cfg) "Bob"
    (Some (public_key_pem joiner_cfg))
    (Some (mkContext None (Some (advertise_address joiner_cfg)) (Some (public_key_pem joiner_cfg)) None)) (membership seed)).

Lemma admitted : ∃ res c', admission = (Ok res, c') ∧ accepted res = true ∧
  state <$> dget "10.0.0.2:5678" (norm_entry <$> members (snapshot c')) = Some ACTIVE.
Proof.
  assert (match admission.1 with Ok r => accepted r | Raise _ => false end = true) as H by (vm_compute; reflexivity).
  assert (state <$> dget "10.0.0.2:5678" (norm_entry <$> members (snapshot admission.2)) = Some ACTIVE) as Hs
    by (vm_compute; reflexivity).
  destruct admission as [[res|x] c']; [|done]. by exists res, c'.
Qed.


(** The third node hears it all again, and ticks for a minute. *)
#[local] Abbreviation later := (overheard ++ [(seconds 60, TickTurn)]).

Lemma broadcasts_said d m : m ∈ broadcasts d → Broadcast m ∈ outbox d.
Proof. unfold broadcasts. intros (o & Ho & E)%list_elem_of_omap. destruct o; by simplify_eq. Qed.

Lemma later_overhears : Forall (λ ta, overhears (λ m, Broadcast m ∈ outbox
  (run seed_cfg true hooks uuid joining (new_discovery seed_cfg hooks 0 []))) ta.2) later.
Proof.
  apply Forall_app. split; [|by apply Forall_singleton]. unfold overheard. apply Forall_fmap, Forall_forall.
  intros m Hm. by apply broadcasts_said.
Qed.

Lemma listening_state : state_of (snapshot (membership listening)) "10.0.0.2:5678" = Some JOINING.
Proof. vm_compute. reflexivity. Qed.


Lemma seen_cache_is_lru_witness :
  (_mark_seen "a" (forM ["a"; "b"] (λ i, _mark_seen i;; mret ()) joiner).2).1 = Ok true.
Proof.
  destruct (seen_cache_is_lru ["a"; "b"] "a" joiner) as [_ H]; [vm_compute; reflexivity|].
  rewrite H. vm_compute. reflexivity.
Defined.

Definition news : MembershipEvent :=
  mkEvent 7 "default" "10.0.0.9:5678" JOIN_ACCEPTED (seconds 1) 7 "coordinator" 1 None "Zed" None None.
Definition gossip_message : Message :=
  new_message (dumps default_style (envelope SUBTYPE_GOSSIP "pem" [("event", event_to_dict news)])) "10.0.0.1:5678" "g" 0.


End DiscoveryDemo.
