(* ===== verification/FirstContact.v ===== *)
(** * Trust on first use ([DiscoveryNode.lazy_register_pubkey])

    The hook the discovery node sets on the broadcast node: before a signature is checked,
    the key a discovery envelope carries is registered for its sender, if the registry has
    none.  The file joins the hook to the broadcast node's verification. *)

From stdpp Require Import prelude gmap strings.
From Stdlib Require Import Ascii.
From S2P Require Import Prelude PyDict PyStr Json Base64 Message Security PeerRegistry BroadcastNode BroadcastFacts DiscoveryProtocol.

Local Open Scope string_scope.
Local Open Scope list_scope.

Section Hook.
Context `{Crypto}.

(** The content to read: a decrypted copy's, when the message is encrypted for this node
    and its private key is known.  [security] tells whether the package could be
    imported. *)
Definition readable_content (security : bool) (own_pem : option bytes) (own_address : string)
    (msg : Message) : string :=
  if security && is_encrypted_content (content msg) then
    match own_pem with
    | Some pem =>
      if decide (pem = "") then content msg
      else match decrypt_payload msg own_address pem with
           | Ok m => content m
           | Raise _ => content msg
           end
    | None => content msg
    end
  else content msg.

Definition lazy_register_pubkey (security : bool) (own_pem : option bytes) (own_address : string)
    (msg : Message) : M InMemoryRegistry.t unit :=
  let text := readable_content security own_pem own_address msg in
  if negb (is_discovery_message text) then mret ()
  else
    match decode_discovery_envelope text with
    | Raise _ => mret ()
    | Ok (_, sender_pub_pem, _) =>
      if decide (sender_pub_pem = "") then mret ()
      else
        match parse_host_port (sender msg) with
        | Raise _ => mret ()
        | Ok (host, port) =>
          r ← get;
          if decide (InMemoryRegistry.get_pub_key r host port = "")
          then modify (InMemoryRegistry.add_peer host port sender_pub_pem)
          else mret ()
        end
    end.

Variable security : bool.
Variable own_pem : option bytes.
Variable own_address : string.
Abbreviation hook := (lazy_register_pubkey security own_pem own_address).

(** ** The first key stays *)

Lemma hook_run msg r : ∃ r', hook msg r = (Ok (), r') ∧
  (r' = r ∨ ∃ h p pem, pem ≠ "" ∧ parse_host_port (sender msg) = Ok (h, p) ∧
     InMemoryRegistry.get_pub_key r h p = "" ∧ r' = InMemoryRegistry.add_peer h p pem r).
Proof.
  unfold lazy_register_pubkey. destruct (negb _); [by exists r; auto|].
  destruct (decode_discovery_envelope _) as [[[subtype pem] payload]|]; [|by exists r; auto].
  case_decide; [by exists r; auto|]. destruct (parse_host_port (sender msg)) as [[h p]|]; [|by exists r; auto].
  rewrite bind_run. cbn [get]. case_decide; [|by exists r; auto].
  eexists. split; [done|]. right. by exists h, p, pem.
Qed.

Lemma pub_key_app h p (r1 r2 : InMemoryRegistry.t) : (h, p) ∈ InMemoryRegistry.get_peers r1 →
  InMemoryRegistry.get_pub_key (r1 ++ r2) h p = InMemoryRegistry.get_pub_key r1 h p.
Proof.
  unfold InMemoryRegistry.get_peers. induction r1 as [|e r1 IH]; [by intros ?%not_elem_of_nil|]. cbn.
  unfold InMemoryRegistry.same_peer. intros [Heq|Hin]%elem_of_cons.
  - by rewrite bool_decide_eq_true_2.
  - case_bool_decide; [done|by apply IH].
Qed.

Lemma hook_keeps msg r h p : (h, p) ∈ InMemoryRegistry.get_peers r →
  (h, p) ∈ InMemoryRegistry.get_peers (hook msg r).2 ∧
  InMemoryRegistry.get_pub_key (hook msg r).2 h p = InMemoryRegistry.get_pub_key r h p.
Proof.
  intros Hin. destruct (hook_run msg r) as (r' & -> & [->|(h' & p' & pem & _ & _ & _ & ->)]); [done|]. cbn [snd].
  unfold InMemoryRegistry.add_peer. destruct (existsb _ r); [done|].
  split; [|by apply pub_key_app]. unfold InMemoryRegistry.get_peers in *. rewrite fmap_app. set_solver.
Qed.

(** C20: The first registration of an address is final for the hook: whatever messages arrive,
    forged or not, the key on record for a registered peer is never replaced. *)
Theorem first_key_stays msgs r h p : (h, p) ∈ InMemoryRegistry.get_peers r →
  let r' := (forM msgs hook r).2 in
  (h, p) ∈ InMemoryRegistry.get_peers r' ∧
  InMemoryRegistry.get_pub_key r' h p = InMemoryRegistry.get_pub_key r h p.
Proof.
  intros Hin. cbv zeta. revert r Hin. induction msgs as [|m msgs IH]; intros r Hin; [done|].
  rewrite forM_cons. destruct (hook_keeps m r h p Hin) as [Hin' Hk].
  destruct (hook_run m r) as (r1 & E & _). rewrite E in *. cbn [snd] in *.
  destruct (IH r1 Hin') as [? ->]. by split.
Qed.

End Hook.

(** ** A newcomer's first message *)

(** An envelope is not an encrypted payload. *)
Lemma envelope_plain subtype pem payload : json_wf (JObj payload) →
  is_encrypted_content (dumps default_style (envelope subtype pem payload)) = false.
Proof.
  intros Hp. unfold is_encrypted_content. by rewrite (loads_dumps_wf default_style) by by apply envelope_wf.
Qed.

Section Newcomer.
Context `{CryptoLaws}.
Context (cfg : @Config InMemoryRegistry.in_memory_registry) (own_pem : option bytes).

Lemma hook_registers m subtype pem payload h p r :
  content m = dumps default_style (envelope (DISCOVERY_TYPE_PREFIX +:+ subtype) pem payload) →
  json_wf (JObj payload) → pem ≠ "" → sender m = addr h p →
  (h, p) ∉ InMemoryRegistry.get_peers r →
  lazy_register_pubkey (security cfg) own_pem (address cfg) m r = (Ok (), InMemoryRegistry.add_peer h p pem r) ∧
  InMemoryRegistry.get_pub_key (InMemoryRegistry.add_peer h p pem r) h p = pem.
Proof.
  intros Hc Hp Hpem Hs Hnew. split; [|by apply InMemoryRegistry.get_pub_key_added].
  unfold lazy_register_pubkey, readable_content. rewrite Hc, envelope_plain, andb_false_r by done.
  rewrite envelope_sniffed. cbn [negb]. rewrite decode_envelope; [|apply startswith_app|done].
  rewrite decide_False by done. rewrite Hs, parse_addr. rewrite bind_run. cbn [get].
  assert (InMemoryRegistry.get_pub_key r h p = "") as ->; [|by rewrite decide_True].
  unfold InMemoryRegistry.get_peers in Hnew. induction r as [|e r IH]; [done|]. cbn in *.
  unfold InMemoryRegistry.same_peer. rewrite bool_decide_eq_false_2 by set_solver. apply IH. set_solver.
Qed.

(** C19: A newcomer is let in on its first word: a node that insists on signatures, with the
    hook installed, accepts the signed discovery message of a sender it has never heard
    of, checking the signature with the very key the message brings, and keeps that key. *)
Theorem newcomer_is_verified now sk salt m0 ks m subtype payload h p (n : @Node _ InMemoryRegistry.in_memory_registry) :
  security cfg = true → enforce_signatures cfg = true →
  pre_verify_hook cfg = Some (lazy_register_pubkey (security cfg) own_pem (address cfg)) →
  own_key ks = Some sk → sign salt m0 ks = Ok m →
  content m0 = dumps default_style (envelope (DISCOVERY_TYPE_PREFIX +:+ subtype) (public_bytes (public_of sk)) payload) →
  json_wf (JObj payload) → sender m0 = addr h p →
  (h, p) ∉ InMemoryRegistry.get_peers (peer_registry n) →
  ∃ n', _verify_incoming cfg now m n = (Ok true, n') ∧
    InMemoryRegistry.get_pub_key (peer_registry n') h p = public_bytes (public_of sk).
Proof.
  intros Hsec Henf Hhook Hown Hsign Hc Hp Hs Hnew.
  assert (content m = content m0 ∧ sender m = sender m0 ∧ signature m ≠ "") as (Hcm & Hsm & Hsig).
  { unfold sign in Hsign. rewrite Hown in Hsign. injection Hsign as <-. cbn. split_and!; [done|done|].
    apply b64encode_nonempty, pss_sign_nonempty. }
  unfold _verify_incoming. rewrite Hsec, Henf. cbn [negb]. rewrite bind_run. cbn [mret M_ret negb].
  rewrite decide_False by done. rewrite Hsm, Hs, parse_addr.
  change (@PeerRegistry.get_pub_key InMemoryRegistry.in_memory_registry) with (Some InMemoryRegistry.get_pub_key).
  cbv beta iota. rewrite bind_run. unfold run_pre_verify_hook. rewrite Hhook. unfold try_except, on_registry.
  destruct (hook_registers m subtype (public_bytes (public_of sk)) payload h p (peer_registry n))
    as [-> Hkey]; [by rewrite Hcm|done|apply public_bytes_nonempty|by rewrite Hsm|done|].
  set (n1 := set_registry _ n).
  rewrite bind_run. cbn [get].
  assert (InMemoryRegistry.get_pub_key (peer_registry n1) h p = public_bytes (public_of sk)) as Hkey1 by exact Hkey.
  rewrite Hkey1, decide_False by apply public_bytes_nonempty. rewrite bind_run.
  destruct (register_peer_key_run cfg h p n1 _ Hsec eq_refl) as (ks' & -> & Hreg).
  { rewrite Hkey1. apply public_bytes_nonempty. }
  rewrite bind_run. cbn [get lift keys set_keys]. exists (set_keys ks' n1). split; [|exact Hkey1].
  f_equal. rewrite Hkey1 in Hreg. specialize (Hreg _ (load_public_bytes _)).
  eapply verify_sign; [done|done|]. by rewrite Hs.
Qed.
End Newcomer.

(** ** Alice introduces herself to Bob *)

Module FirstContactDemo.
Import Toy InMemoryRegistry.

Definition cautious_bob : Config :=
  mkConfig "10.0.0.2" 8000 true true (Some (λ _, Ok ()))
    (Some (lazy_register_pubkey true None "10.0.0.2:8000")).
Definition alice_key : private_key := "a"%char.
Definition alice_pem : string := String "p"%char (String "a"%char "").
Definition hello : Message :=
  mkMessage (dumps default_style (envelope SUBTYPE_JOIN_REQUEST alice_pem [("display_name", JStr "Alice")]))
    "10.0.0.1:8000" "m1" 1000000 "" 10 ∅.
Definition alice : KeyState := mkKeys (Some alice_key) ∅.
Definition bob_now : Node := init_node (mkKeys (Some "b"%char) ∅) [].

Lemma newcomer_is_verified_witness : ∃ m n', sign "" hello alice = Ok m ∧
  _verify_incoming cautious_bob 0 m bob_now = (Ok true, n') ∧
  InMemoryRegistry.get_pub_key (peer_registry n') "10.0.0.1" 8000 = alice_pem.
Proof.
  eexists. destruct (newcomer_is_verified cautious_bob None 0 alice_key "" hello alice
    (match sign "" hello alice with Ok m => m | Raise _ => hello end) "join_request"
    [("display_name", JStr "Alice")] "10.0.0.1" 8000 bob_now) as (n' & E & Hk);
    [done|done|reflexivity|done|vm_compute; reflexivity|vm_compute; reflexivity| |vm_compute; reflexivity|set_solver|].
  - apply json_wf_obj. split; [apply (bool_decide_unpack _); by vm_compute|by repeat constructor].
  - exists n'. split; [|split; [exact E|exact Hk]]. vm_compute. reflexivity.
Defined.

Lemma first_key_stays_witness :
  get_pub_key (forM [hello] (lazy_register_pubkey true None "10.0.0.2:8000") [("10.0.0.1", 8000%Z, "old key")]).2
    "10.0.0.1" 8000 = "old key".
Proof.
  destruct (first_key_stays true None "10.0.0.2:8000" [hello] [("10.0.0.1", 8000%Z, "old key")] "10.0.0.1" 8000)
    as [_ ->]; [set_solver|]. vm_compute. reflexivity.
Defined.

End FirstContactDemo.
