(* ===== verification/ChatService.v ===== *)
(** * The chat service behind the web interface ([ui/services/service.py])

    The service hands what the broadcast node shows to the discovery node, then to the
    history, and keeps the rest for the chat window; the membership events of its discovery
    node drive the peer registry and the list of users.  The refresh callbacks render
    templates: all the service depends on is whether one raises, which may depend on the
    Flask application context of the running thread ([ctx]).  As with the gossip
    dispatcher, the service's own membership subscriber runs, after each operation of the
    discovery node, on what the coordinator recorded for it: it never touches that node. *)

From stdpp Require Import prelude gmap strings.
From Stdlib Require Import Ascii.
From S2P Require Import Prelude PyDict PyStr Json Base64 Membership EventLog Snapshot Coordinator PeerRegistry Message StoredMessage MessageStore Recovery DiscoveryProtocol Discovery.

Local Open Scope string_scope.
Local Open Scope list_scope.

(** ** State *)

(** The dictionaries shown in the chat window and in the list of users; messages replayed
    from the history have a role. *)
Record MessageRecord := mkShown {
  shown_role : option string;
  shown_sender : string;
  shown_timestamp : time;
  shown_content : string;
}.
Record UserRecord := mkUser { name : string; status : string; ip : string }.

(** A discovery node with its configuration, its source of identifiers, and the handle of
    the service's subscription. *)
Record NodeInUse := mkInUse {
  config : DiscoveryConfig;
  uuids : nat → string;
  discovery : Discovery;
  handle : string;
}.

Record ChatService := mkChat {
  messages : list MessageRecord;
  users : list UserRecord;
  discover_node : option NodeInUse;
  peer_registry : InMemoryRegistry.t;
  history_service : option HistoryService;
  flask_app : bool;
  posted : list string;
}.

Definition set_messages x (s : ChatService) : ChatService :=
  mkChat x (users s) (discover_node s) (peer_registry s) (history_service s) (flask_app s) (posted s).
Definition set_users x (s : ChatService) : ChatService :=
  mkChat (messages s) x (discover_node s) (peer_registry s) (history_service s) (flask_app s) (posted s).
Definition set_node x (s : ChatService) : ChatService :=
  mkChat (messages s) (users s) x (peer_registry s) (history_service s) (flask_app s) (posted s).
Definition set_registry x (s : ChatService) : ChatService :=
  mkChat (messages s) (users s) (discover_node s) x (history_service s) (flask_app s) (posted s).
Definition set_history x (s : ChatService) : ChatService :=
  mkChat (messages s) (users s) (discover_node s) (peer_registry s) x (flask_app s) (posted s).
Definition set_flask x (s : ChatService) : ChatService :=
  mkChat (messages s) (users s) (discover_node s) (peer_registry s) (history_service s) x (posted s).
Definition set_posted x (s : ChatService) : ChatService :=
  mkChat (messages s) (users s) (discover_node s) (peer_registry s) (history_service s) (flask_app s) x.

(** [Service.__init__] *)
Definition new_chat : ChatService := mkChat [] [] None [] None false [].

Section Service.
Context `{Archive}.
(** What a refresh callback does with or without an application context. *)
Variable refreshes : string → option (bool → result unit).
(** Set by [main.py]: the broadcast node's [decrypt_for_display]. *)
Variable prepare_message : Message → result Message.
(** The address of the broadcast node, if there is one; the local address otherwise. *)
Variable broadcast_address : option string.
Variable lan_ip : string.
Variable chat_port : Z.
Variable public_key_pem : option bytes.
Variable history_uuid : nat → string.

Definition linked : bool := match broadcast_address with Some _ => true | None => false end.
Definition chat_hooks : Hooks := mkHooks "default" None None None.

(** ** Refreshing *)

Definition _refresh (ctx : bool) (key : string) : M ChatService unit :=
  s ← get;
  match refreshes key with
  | None => mret ()
  | Some cb => try_except (lift (cb (ctx || flask_app s))) (λ _, mret ())
  end.

(** [self._refreshes.get(key, lambda _: None)(payload)] *)
Definition call_refresh (ctx : bool) (key : string) : M ChatService unit :=
  match refreshes key with None => mret () | Some cb => lift (cb ctx) end.

Definition get_users (s : ChatService) : list UserRecord := users s.
Definition get_messages (s : ChatService) : list MessageRecord := messages s.

Definition post_message (text : string) : M ChatService unit :=
  modify (λ s, set_posted (posted s ++ [text]) s).

Definition use_history (h : HistoryService) : M ChatService unit := modify (set_history (Some h)).

(** ** Users *)

Definition named (username : string) (u : UserRecord) : bool := bool_decide (name u = username).

Definition add_user (username address : string) (s : ChatService) : ChatService :=
  if existsb (named username) (users s) then s
  else set_users (users s ++ [mkUser username "Online" address]) s.

Definition user_connected (ctx : bool) (username address : string) : M ChatService unit :=
  modify (add_user username address);;
  _refresh ctx "users";;
  call_refresh ctx "users".

Definition user_disconnected (ctx : bool) (username : string) : M ChatService unit :=
  modify (λ s, set_users (List.filter (λ u, negb (named username u)) (users s)) s);;
  _refresh ctx "users";;
  call_refresh ctx "users".

(** ** History *)

Definition on_history {A} (m : M HistoryService A) : M ChatService A := λ s,
  match history_service s with
  | None => (Raise AttributeError, s)
  | Some h => let '(r, h) := m h in (r, set_history (Some h) s)
  end.

(** The broadcast node's registry is the service's own. *)
Definition registry_peers (s : ChatService) : list json :=
  (λ hp, JList [JStr hp.1; JInt hp.2]) <$> InMemoryRegistry.get_peers (peer_registry s).

Definition has_history (s : ChatService) : bool :=
  match history_service s with Some _ => true | None => false end.

Definition request_history (now : time) : M ChatService unit :=
  s ← get;
  on_history (request_missing_history history_uuid now (registry_peers s) JNull);;
  mret ().

(** ** Membership events *)

(** [event.user_id.rsplit(":", 1)[0]] *)
Definition host_of (uid : string) : result string :=
  hp ← of_option ValueError (rsplit1 ":"%char uid); mret hp.1.

Definition handle_membership_event (ctx : bool) (now : time) (e : MembershipEvent) : M ChatService unit :=
  try_except
    (match event_type e with
     | JOIN_ACCEPTED =>
       host ← lift (host_of (user_id e));
       modify (λ s, set_registry (InMemoryRegistry.add_peer host chat_port (default "" (public_key e)) (peer_registry s)) s);;
       s ← get;
       (if has_history s then request_history now else mret ());;
       user_connected ctx (display_name e) host
     | LEAVE_CONFIRMED =>
       host ← lift (host_of (user_id e));
       modify (λ s, set_registry (InMemoryRegistry.remove_peer host chat_port (peer_registry s)) s);;
       user_disconnected ctx (display_name e)
     | _ => mret ()
     end)
    (λ _, mret ()).

(** The subscriber runs on what was notified to it. *)
Definition run_subscriber (ctx : bool) (now : time) (h : string)
    (ns : list (string * MembershipEvent * MembershipDelta)) : M ChatService unit :=
  forM ns (λ n, if bool_decide (n.1.1 = h) then handle_membership_event ctx now n.1.2 else mret ()).

(** An operation of the discovery node, then the subscriber. *)
Definition on_node {A} (ctx : bool) (now : time) (m : DiscoveryConfig → (nat → string) → M Discovery A) :
    M ChatService A := λ s,
  match discover_node s with
  | None => (Raise AttributeError, s)
  | Some u =>
    let '(r, d) := m (config u) (uuids u) (discovery u) in
    let news := drop (length (notified (membership (discovery u)))) (notified (membership d)) in
    (r, (run_subscriber ctx now (handle u) news
           (set_node (Some (mkInUse (config u) (uuids u) d (handle u))) s)).2)
  end.

(** ** Incoming messages *)

Definition has_node (s : ChatService) : bool :=
  match discover_node s with Some _ => true | None => false end.

(** What of a message the discovery node and the history take for themselves. *)
Definition taken_by_discovery (ctx : bool) (now : time) (msg : Message) : M ChatService bool :=
  s ← get;
  if has_node s then
    r ← on_node ctx now (λ cfg uuid, Discovery.handle_message cfg linked chat_hooks uuid now msg); mret r.1
  else mret false.

Definition taken_by_history (now : time) (msg : Message) : M ChatService bool :=
  s ← get;
  if has_history s then
    r ← on_history (Recovery.handle_message history_uuid now msg);
    mret (match r with Recovered _ => true | Chat _ => false end)
  else mret false.

Definition message_received (ctx : bool) (now : time) (msg : Message) : M ChatService unit :=
  taken ← taken_by_discovery ctx now msg;
  if taken : bool then mret ()
  else
    taken ← taken_by_history now msg;
    if taken : bool then mret ()
    else
      modify (λ s, set_messages (messages s ++ [mkShown None (sender msg) (timestamp msg) (content msg)]) s);;
      _refresh ctx "messages";;
      call_refresh ctx "messages".

(** ** Connecting *)

(** The seed: a bare host listens on the chat port. *)
Definition seed_of (address : string) : string :=
  if contains ":" address then address else addr address chat_port.

Definition connect_config (address : string) : DiscoveryConfig :=
  mkDiscoveryConfig (default (addr lan_ip chat_port) broadcast_address)
    (if decide (address = "") then [] else [seed_of address]) public_key_pem true.

(** One message of the history, as it is shown; [prepare_message] decrypts the content.
    The identifier drawn for the copy is not used. *)
Definition replay_message (now : time) (m : string * string * time * string) : M ChatService unit :=
  let '(_, who, at_time, text) := m in
  wire ← lift (prepare_message (new_message text who "" now));
  modify (λ s, set_messages (messages s ++ [mkShown (Some "assistant") who at_time (content wire)]) s).

Definition replay_history (now : time) : M ChatService unit :=
  recent ← on_history (get_recent_messages 100);
  forM recent (replay_message now).

(** A new discovery node, on a new directory.  In the code the threads of a node it replaces
    go on sending heartbeats; they reach the service no more and are not followed. *)
Definition new_node (now : time) (cfg : DiscoveryConfig) (uuid : nat → string) : M ChatService unit :=
  modify (set_node (Some (mkInUse cfg uuid (new_discovery cfg chat_hooks now []) ""))).

(** [subscribe_membership_events(handle_membership_event)]: the handle is drawn. *)
Definition subscribe_service (ctx : bool) (now : time) : M ChatService unit :=
  modify (λ s, match discover_node s with
               | Some u => set_node (Some (mkInUse (config u) (uuids u)
                   (set_drawn (S (drawn (discovery u))) (discovery u)) (uuids u (drawn (discovery u))))) s
               | None => s
               end);;
  s ← get;
  on_node ctx now (λ cfg uuid, on_service cfg linked chat_hooks uuid now
    (λ _, subscribe (from_option handle "" (discover_node s)) 0));;
  mret ().

(** [connect]; [waits] is what arrives while the seed's answer is awaited, [later] the time
    after the pause before the history is asked for. *)
Definition connect (ctx : bool) (now later : time) (username address : string) (uuid : nat → string)
    (waits : list wait_outcome) : M ChatService unit :=
  modify (λ s, if decide (username = "") then s
               else add_user username (if decide (address = "") then "0.0.0.0" else address) s);;
  new_node now (connect_config address) uuid;;
  modify (λ s, if ctx then set_flask true s else s);;
  subscribe_service ctx now;;
  try_except (on_node ctx now (λ cfg uuid, Discovery.start cfg linked chat_hooks uuid now username waits))
    (λ _, mret ());;
  s ← get;
  (if has_history s && negb (bool_decide (address = "")) then request_history later else mret ());;
  (if has_history s then replay_history later else mret ());;
  _refresh ctx "users";;
  _refresh ctx "messages";;
  call_refresh ctx "users";;
  call_refresh ctx "messages".

Definition disconnect (ctx : bool) (now : time) (username : string) : M ChatService unit :=
  s ← get;
  (if has_node s then on_node ctx now (λ _ _, Discovery.stop) else mret ());;
  user_disconnected ctx username;;
  modify (set_node None).

(** ** The node's own threads *)

Definition heartbeat_turn (now : time) : M ChatService unit :=
  on_node false now (λ cfg uuid, act cfg linked chat_hooks uuid now HeartbeatTurn).
Definition tick_turn (now : time) : M ChatService unit :=
  on_node false now (λ cfg uuid, act cfg linked chat_hooks uuid now TickTurn).

End Service.

(** ** The web application ([ui/app.py]) *)

(** A template rendered outside an application context raises. *)
Definition app_refreshes (key : string) : option (bool → result unit) :=
  if bool_decide (key ∈ ["users"; "messages"])
  then Some (λ ctx, if ctx : bool then Ok () else Raise RuntimeError) else None.

(** The [if] of [create_app]: is the mock service used? *)
Definition mock_data_enabled (env : pydict string string) : bool :=
  bool_decide (lower (strip (default (default "true" (dget "MOCK_RESPONSES_ENABLED" env))
    (dget "MOCK_DATA_ENABLED" env))) = "false").

(** ** The mock service ([ui/services/mock_service.py]) *)

Module Mock.
Record MockMessage := mkMock { role : string; text : string }.
Record MockService := mkMockService { mock_messages : list MockMessage; mock_users : list (string * string) }.

Definition new_mock : MockService :=
  mkMockService [mkMock "assistant" "Welcome. This scaffold is ready for a real chat backend."]
    [("Ava Patel", "Online"); ("Noah Kim", "In chat"); ("Mia Chen", "Away"); ("Liam Garcia", "Offline")].

Definition post_message (content : string) (s : MockService) : MockService :=
  mkMockService (mock_messages s ++ [mkMock "user" content;
    mkMock "assistant" "Hook this route to your model, queue, or websocket bridge."]) (mock_users s).
End Mock.
