(* ===== verification/ChatFacts.v ===== *)
(** * Properties of the chat service

    What reaches the chat window, what the history adds on connecting, what moves the list
    of users, and how the service's callback bears on the broadcast node that calls it. *)

From stdpp Require Import prelude gmap strings.
From Stdlib Require Import Ascii.
From S2P Require Import Prelude PyDict PyStr Json Base64 Security Membership EventLog Snapshot Presence Coordinator CoordinatorFacts PeerRegistry VectorClock BroadcastNode BroadcastFacts Message StoredMessage MessageStore MessageStoreFacts MessageHistory Recovery RecoveryFacts DiscoveryProtocol Discovery DiscoveryFacts ChatService.

Local Open Scope string_scope.
Local Open Scope list_scope.

Section Facts.
Context `{!Archive} `{!ArchiveLaws}.
Context (refreshes : string → option (bool → result unit)).
Context (broadcast_address : option string) (chat_port : Z).
Context (history_uuid : nat → string).

Abbreviation received := (message_received refreshes broadcast_address chat_port history_uuid).
Abbreviation subscriber := (handle_membership_event refreshes chat_port history_uuid).
Abbreviation asks_history := (request_history history_uuid).

(** ** What the window and the stored history do not feel *)

(** The history service is running on a store that holds [h]. *)
Definition working (s : ChatService) (h : list StoredMessage) : Prop :=
  ∃ hs w, history_service s = Some hs ∧ wiring hs = Some w ∧ store_ok (store w) h.

(** The window is as it was, and so is the history kept. *)
Definition steady (s s' : ChatService) : Prop :=
  messages s' = messages s ∧ ∀ h, working s h → working s' h.

#[local] Instance steady_preorder : PreOrder steady.
Proof. split; [done|]. intros a b c [E1 W1] [E2 W2]. split; [congruence|auto]. Qed.

Lemma same_steady s s' : messages s' = messages s → history_service s' = history_service s → steady s s'.
Proof. intros Em Eh. split; [done|]. unfold working. by rewrite Eh. Qed.

Lemma refresh_steady ctx key : keeps steady (_refresh refreshes ctx key).
Proof. unfold _refresh. keeps_tac. Qed.
Lemma call_refresh_steady ctx key : keeps steady (call_refresh refreshes ctx key).
Proof. unfold call_refresh. keeps_tac. Qed.
#[local] Hint Resolve refresh_steady call_refresh_steady : keeps.

Lemma user_connected_steady ctx u a : keeps steady (user_connected refreshes ctx u a).
Proof. unfold user_connected, add_user. keeps_tac. by apply same_steady; destruct (existsb _ _). Qed.
Lemma user_disconnected_steady ctx u : keeps steady (user_disconnected refreshes ctx u).
Proof. unfold user_disconnected. keeps_tac. by apply same_steady. Qed.
#[local] Hint Resolve user_connected_steady user_disconnected_steady : keeps.

(** [m] succeeds on a wiring whose store holds [h], and leaves [h] there. *)
Definition harmless {A} (h : list StoredMessage) (m : M History A) : Prop :=
  ∀ w, store_ok (store w) h → ∃ a w', m w = (Ok a, w') ∧ store_ok (store w') h.

Lemma harmless_bind {A B} h (m : M History A) (k : A → M History B) :
  harmless h m → (∀ a, harmless h (k a)) → harmless h (m ≫= k).
Proof. intros Hm Hk w Hw. rewrite bind_run. destruct (Hm w Hw) as (a & w' & -> & Hw'). by apply Hk. Qed.
Lemma harmless_ret {A} h (a : A) : harmless h (mret a).
Proof. intros w Hw. by exists a, w. Qed.
Lemma harmless_get h : harmless h get.
Proof. intros w Hw. by exists w, w. Qed.
Lemma harmless_cursor h : harmless h (on_store get_latest_vector_clock).
Proof.
  intros w Hw. destruct (latest_clock_ok _ _ Hw) as (vc & st & E & Hst & _). unfold on_store. rewrite E.
  by exists vc, (set_store st w).
Qed.
Lemma harmless_uuid h : harmless h (uuid4 history_uuid).
Proof. intros w Hw. by eexists _, _. Qed.
Lemma harmless_post h now host port payload : harmless h (post history_uuid now host port payload).
Proof. intros w Hw. by eexists _, _. Qed.
Lemma harmless_forM {X} h (l : list X) f : (∀ x, harmless h (f x)) → harmless h (forM l f).
Proof. intros Hf. induction l as [|x l IH]; [by apply harmless_ret|]. by apply harmless_bind. Qed.

Lemma harmless_transfer h tid : harmless h (transfer_or_uuid history_uuid tid).
Proof.
  unfold transfer_or_uuid. destruct (truthy tid); [apply harmless_ret|].
  apply harmless_bind; [apply harmless_uuid|]. intros i. apply harmless_ret.
Qed.

Lemma harmless_ask h now ph pp rh rp tid : harmless h (send_recover_request history_uuid now ph pp rh rp tid).
Proof.
  apply harmless_bind; [apply harmless_transfer|]. intros t. apply harmless_bind; [apply harmless_cursor|]. intros vc.
  apply harmless_bind; [apply harmless_get|]. intros w. apply harmless_bind; [apply harmless_post|]. intros _. apply harmless_ret.
Qed.

Lemma resolve_registry self host port (peers : list (string * Z)) : ∃ targets,
  _resolve_recovery_targets self host port ((λ hp, JList [JStr hp.1; JInt hp.2]) <$> peers) = Ok targets.
Proof.
  unfold _resolve_recovery_targets. generalize (∅ : gset string). induction peers as [|[h p] peers IH]; intros seen.
  - by exists [].
  - rewrite fmap_cons. cbn [resolve_loop]. change (target_of _) with (@Ok (string * Z) (h, p)). cbv iota beta.
    case_decide; [apply IH|]. destruct (IH ({[addr h p]} ∪ seen)) as [ts ->]. by eexists.
Qed.

Lemma harmless_fanout h now rh rp (peers : list (string * Z)) :
  harmless h (request_missing_history_from_all_peers history_uuid now rh rp
    ((λ hp, JList [JStr hp.1; JInt hp.2]) <$> peers) JNull).
Proof.
  apply harmless_bind; [apply harmless_transfer|]. intros t. apply harmless_bind; [apply harmless_cursor|]. intros vc.
  apply harmless_bind; [apply harmless_get|]. intros w. apply harmless_bind.
  - destruct (resolve_registry (self_user_id w) rh rp peers) as [ts ->]. intros w' Hw'. by eexists _, _.
  - intros ts. apply harmless_bind; [|intros _; apply harmless_ret]. apply harmless_forM. intros x.
    apply harmless_bind; [apply harmless_ask|]. intros _. apply harmless_ret.
Qed.

(** A call of the running history service. *)
Lemma history_call {A} s h (m : HistoryService → M History A) : working s h → (∀ hs, harmless h (m hs)) →
  ∃ a hs', on_history (started m) s = (Ok a, set_history (Some hs') s) ∧ working (set_history (Some hs') s) h.
Proof.
  intros (hs & w & Hh & Hw & Hok) Hm. destruct (Hm hs w Hok) as (a & w' & E & Hok').
  unfold on_history, started. rewrite Hh, Hw, E. eexists _, _. split; [done|]. eexists _, w'. done.
Qed.

Lemma asked_history now s h : working s h →
  ∃ hs', asks_history now s = (Ok (), set_history (Some hs') s) ∧ working (set_history (Some hs') s) h.
Proof.
  intros Hs. unfold request_history. rewrite bind_run. cbn [get]. rewrite bind_run.
  destruct (history_call s h (λ hs, request_missing_history_from_all_peers history_uuid now (Recovery.host hs) (Recovery.port hs)
    (registry_peers s) JNull) Hs) as (a & hs' & E & Hw).
  { intros hs. apply harmless_fanout. }
  exists hs'. unfold request_missing_history. by rewrite E.
Qed.

Lemma on_history_messages {A} (m : M HistoryService A) s : messages (on_history m s).2 = messages s.
Proof. unfold on_history. destruct (history_service s); [|done]. by destruct (m _). Qed.

Lemma asks_steady now : keeps steady (asks_history now).
Proof.
  intros s. split.
  - unfold request_history. rewrite bind_run. cbn [get]. rewrite bind_run.
    pose proof (on_history_messages (request_missing_history history_uuid now (registry_peers s) JNull) s) as Hm.
    by destruct (on_history _ s) as [[a|e] s'].
  - intros h Hs. by destruct (asked_history now s h Hs) as (hs' & -> & Hw).
Qed.
#[local] Hint Resolve asks_steady : keeps.

Lemma subscriber_steady ctx now e : keeps steady (subscriber ctx now e).
Proof. unfold handle_membership_event. keeps_tac; by apply same_steady. Qed.
#[local] Hint Resolve subscriber_steady : keeps.

Lemma on_node_steady {A} ctx now (m : DiscoveryConfig → (nat → string) → M Discovery A) :
  keeps steady (on_node refreshes chat_port history_uuid ctx now m).
Proof.
  intros s. unfold on_node. destruct (discover_node s) as [u|]; [|reflexivity].
  destruct (m _ _ _) as [r d]. cbn [snd].
  etransitivity; [by apply (same_steady s (set_node (Some (mkInUse (config u) (uuids u) d (handle u))) s))|].
  assert (keeps steady (run_subscriber refreshes chat_port history_uuid ctx now (handle u)
    (drop (length (notified (membership (discovery u)))) (notified (membership d))))) as Hk; [|apply Hk].
  unfold run_subscriber. keeps_tac.
Qed.
#[local] Hint Resolve on_node_steady : keeps.

(** ** The chat window *)

(** A text that is neither a discovery envelope nor a recovery message, nor a JSON value
    other than an object, on which the history service fails. *)
Definition chat_text (c : string) : bool :=
  match loads c with
  | None => true
  | Some (JObj d) =>
    match dget "type" d with
    | Some (JStr t) => negb (startswith DISCOVERY_TYPE_PREFIX t || bool_decide (t ∈ ["recover_request"; "history_chunk"]))
    | _ => true
    end
  | Some _ => false
  end.

(** An object whose type is in the discovery name space. *)
Definition discovery_typed (c : string) : bool :=
  match loads c with
  | Some (JObj d) => match dget "type" d with Some (JStr t) => startswith DISCOVERY_TYPE_PREFIX t | _ => false end
  | _ => false
  end.

Lemma chat_not_typed c : chat_text c = true → discovery_typed c = false.
Proof.
  unfold chat_text, discovery_typed. destruct (loads c) as [[]|]; try done. destruct (dget _ _) as [[]|]; try done.
  by intros [? _]%negb_true_iff%orb_false_iff.
Qed.

Lemma not_for_discovery cfg l hooks uuid now msg d : discovery_typed (content msg) = false →
  ∃ why, Discovery.handle_message cfg l hooks uuid now msg d = (Ok (false, why), d).
Proof.
  intros Hc. unfold Discovery.handle_message. destruct (is_discovery_message _); cbn [negb]; [|by eexists].
  assert (decode_discovery_envelope (content msg) = Raise ProtocolError) as ->; [|by eexists].
  unfold decode_discovery_envelope. unfold discovery_typed in Hc. destruct (loads _) as [j|]; [|done]. cbn.
  destruct j as [| | | | | |dd]; try done. destruct (dget "type" dd) as [[]|]; try done. by rewrite Hc.
Qed.

Lemma chat_not_recovery now msg w : chat_text (content msg) = true →
  ∃ r, handle_transport_message history_uuid now (content msg) w = (Ok r, w) ∧ is_handled r = false.
Proof.
  intros Hc. unfold handle_transport_message. unfold chat_text in Hc. destruct (loads _) as [j|]; [|by eexists].
  destruct j as [| | | | | |dd]; try done. destruct (dget "type" dd) as [[]|]; try by eexists.
  apply negb_true_iff, orb_false_iff in Hc as [_ Hc]. apply bool_decide_eq_false in Hc.
  rewrite !bool_decide_eq_false_2 by set_solver. by eexists.
Qed.

(** The discovery node lets other messages pass, and the history keeps them. *)
Lemma passes_discovery ctx now msg s : discovery_typed (content msg) = false →
  taken_by_discovery refreshes broadcast_address chat_port history_uuid ctx now msg s = (Ok false, s).
Proof.
  intros Hc. unfold taken_by_discovery. rewrite bind_run. cbn [get]. unfold has_node.
  destruct (discover_node s) as [u|] eqn:Eu; [|done]. rewrite bind_run. unfold on_node. rewrite Eu.
  destruct (not_for_discovery (config u) (linked broadcast_address) chat_hooks (uuids u) now msg (discovery u) Hc)
    as [why ->]. rewrite drop_all. cbn. by destruct s, u; cbn in *; subst.
Qed.

Lemma chat_kept now msg s h : chat_text (content msg) = true → working s h →
  ∃ hs', taken_by_history history_uuid now msg s = (Ok false, set_history (Some hs') s) ∧
    working (set_history (Some hs') s) (remember (_to_storage_message msg) h).
Proof.
  intros Hc (hs & w & Hh & Hw & Hok). unfold taken_by_history. rewrite bind_run. cbn [get].
  unfold has_history. rewrite Hh, bind_run. unfold on_history, Recovery.handle_message, started. rewrite Hh, Hw.
  unfold handle_storage_message. rewrite bind_run.
  destruct (chat_not_recovery now msg w Hc) as (r & -> & ->). unfold try_except, on_store. rewrite bind_run.
  destruct (save_ok now (store w) h (_to_storage_message msg) Hok) as (st & -> & Hst & _).
  eexists. split; [reflexivity|]. eexists _, _. done.
Qed.
(** What the callback of a refresh does. *)
Definition refreshed (ctx : bool) (key : string) : result unit :=
  match refreshes key with None => Ok () | Some cb => cb ctx end.

Lemma refresh_run ctx key s : _refresh refreshes ctx key s = (Ok (), s).
Proof.
  unfold _refresh. rewrite bind_run. cbn [get]. destruct (refreshes key) as [cb|]; [|done].
  unfold try_except, lift. by destruct (cb _) as [[]|].
Qed.
Lemma call_refresh_run ctx key s : call_refresh refreshes ctx key s = (refreshed ctx key, s).
Proof. unfold call_refresh, refreshed. by destruct (refreshes key). Qed.

Definition shown (m : Message) : MessageRecord := mkShown None (sender m) (timestamp m) (content m).

Lemma received_chat ctx now msg s h : chat_text (content msg) = true → working s h →
  ∃ hs', let s' := set_messages (messages s ++ [shown msg]) (set_history (Some hs') s) in
    received ctx now msg s = (refreshed ctx "messages", s') ∧ working s' (remember (_to_storage_message msg) h).
Proof.
  intros Hc Hs. unfold message_received. rewrite bind_run, passes_discovery by by apply chat_not_typed.
  destruct (chat_kept now msg s h Hc Hs) as (hs' & E & Hw). rewrite bind_run, E. rewrite bind_run. cbn [modify].
  rewrite bind_run, refresh_run, call_refresh_run. by exists hs'.
Qed.

(** ** Messages for other ears *)

(** Whatever [m] does, an answer satisfies [P]. *)
Definition answers {S A} (P : A → Prop) (m : M S A) : Prop := ∀ s a s', m s = (Ok a, s') → P a.
Lemma answers_bind {S A B} (P : B → Prop) (m : M S A) (k : A → M S B) :
  (∀ a, answers P (k a)) → answers P (m ≫= k).
Proof. intros Hk s b s'. rewrite bind_run. destruct (m s) as [[a|e] s1]; [apply Hk|done]. Qed.
Lemma answers_ret {S A} (P : A → Prop) a : P a → answers P (mret a : M S A).
Proof. by intros Ha s b s' [= <- _]. Qed.
Lemma answers_lift {S A} (P : A → Prop) e : answers P (lift (Raise e) : M S A).
Proof. by intros s a s' [=]. Qed.
Ltac answer :=
  repeat match goal with
  | |- answers _ (_ ≫= _) => apply answers_bind; intros ?
  | |- answers _ (mret _) => by apply answers_ret
  | |- answers _ (lift (Raise _)) => apply answers_lift
  | |- answers _ (let _ := _ in _) => cbv zeta
  | |- answers _ (match ?x with _ => _ end) => destruct x
  end.

(** An envelope with one of the four subtypes. *)
Definition for_discovery (c : string) : bool :=
  is_discovery_message c &&
  match decode_discovery_envelope c with
  | Ok (subtype, _, _) => bool_decide (subtype ∈ [SUBTYPE_JOIN_REQUEST; SUBTYPE_JOIN_RESPONSE; SUBTYPE_GOSSIP; SUBTYPE_HEARTBEAT])
  | Raise _ => false
  end.

Lemma discovery_takes cfg l hooks uuid now msg : for_discovery (content msg) = true →
  answers (λ r : bool * option string, r.1 = true) (Discovery.handle_message cfg l hooks uuid now msg).
Proof.
  unfold for_discovery, Discovery.handle_message. intros [-> Hd]%andb_true_iff. cbn [negb].
  destruct (decode_discovery_envelope _) as [[[st pem] payload]|]; [|done]. apply bool_decide_eq_true in Hd.
  unfold _handle_join_request, _handle_join_response, _handle_gossip, _handle_heartbeat, _send_join_response.
  repeat case_decide; try answer. set_solver.
Qed.

(** A chunk of history. *)
Definition chunk_text (c : string) : bool :=
  match loads c with
  | Some (JObj d) => match dget "type" d with Some (JStr t) => bool_decide (t = "history_chunk") | _ => false end
  | _ => false
  end.

Lemma chunk_not_typed c : chunk_text c = true → discovery_typed c = false.
Proof.
  unfold chunk_text, discovery_typed. destruct (loads c) as [[]|]; try done.
  destruct (dget _ _) as [[]|]; try done. by intros ->%bool_decide_eq_true.
Qed.

Lemma history_takes now msg : chunk_text (content msg) = true →
  answers (λ r, match r with Recovered _ => True | Chat _ => False end) (handle_storage_message history_uuid now msg).
Proof.
  intros Hc w r w'. unfold handle_storage_message, handle_transport_message. unfold chunk_text in Hc.
  destruct (loads _) as [[| | | | | |payload]|]; try done. destruct (dget _ _) as [[]|]; try done.
  apply bool_decide_eq_true in Hc as ->.
  rewrite bool_decide_eq_false_2, bool_decide_eq_true_2 by done. rewrite bind_run.
  assert (answers (λ r, is_handled r = true) (_handle_history_chunk now payload)) as Ha.
  { unfold _handle_history_chunk. answer. }
  specialize (Ha w). destruct (_handle_history_chunk _ _ _) as [[a|e] w1]; [|done]. rewrite (Ha a w1 eq_refl).
  apply (answers_bind (λ r, match r with Recovered _ => True | Chat _ => False end) _ (λ _, mret (Recovered a))).
  intros _. by apply answers_ret.
Qed.

Lemma discovery_keeps ctx now msg s : has_node s = true → for_discovery (content msg) = true →
  steady s (received ctx now msg s).2.
Proof.
  intros Hn Hd. unfold message_received. rewrite bind_run. unfold taken_by_discovery. rewrite bind_run. cbn [get].
  rewrite Hn, bind_run. set (m := λ cfg uuid, Discovery.handle_message cfg _ _ uuid now msg).
  pose proof (on_node_steady ctx now m s) as Hs. unfold on_node in *. unfold has_node in Hn.
  destruct (discover_node s) as [u|]; [|done]. destruct (m _ _ _) as [[r|e] d] eqn:E; [|exact Hs].
  by rewrite (discovery_takes _ _ _ _ _ _ Hd _ _ _ E).
Qed.

Lemma chunk_hidden ctx now msg s : has_history s = true → chunk_text (content msg) = true →
  messages (received ctx now msg s).2 = messages s.
Proof.
  intros Hh Hc. unfold message_received. rewrite bind_run, passes_discovery by by apply chunk_not_typed.
  unfold taken_by_history. rewrite bind_run, bind_run. cbn [get]. rewrite Hh, bind_run.
  pose proof (on_history_messages (Recovery.handle_message history_uuid now msg) s) as Hm. unfold on_history in *.
  unfold has_history in Hh. destruct (history_service s) as [hs|]; [|done].
  unfold Recovery.handle_message, started in *. destruct (wiring hs) as [w|]; [|done].
  pose proof (history_takes now msg Hc w) as Ha. destruct (handle_storage_message _ _ _ _) as [[r|e] w']; [|done].
  specialize (Ha r w' eq_refl). by destruct r.
Qed.


(** ** Connecting *)

Section Connecting.
Context (prepare_message : Message → result Message) (lan_ip : string) (public_key_pem : option bytes).
Abbreviation connects := (connect refreshes prepare_message broadcast_address lan_ip chat_port public_key_pem history_uuid).

Lemma subscribe_ok h v c : ∃ c', subscribe h v c = (Ok h, c').
Proof.
  unfold subscribe. rewrite bind_run. cbn [modify]. rewrite bind_run. cbn [get]. rewrite bind_run.
  assert (∀ (l : list MembershipEvent) c, ∃ c', forM l (λ e, match delta_of e with
    | None => mret () | Some d => modify (deliver_to [h] e d) end) c = (Ok (), c')) as Hf.
  { intros l. induction l as [|e l IH]; intros c'; [by eexists|]. rewrite forM_cons. destruct (delta_of e); apply IH. }
  match goal with |- context [forM ?l _ ?c] => destruct (Hf l c) as [c' ->] end. by eexists.
Qed.

Lemma subscribed ctx now s : has_node s = true →
  ∃ s', subscribe_service refreshes broadcast_address chat_port history_uuid ctx now s = (Ok (), s') ∧ steady s s'.
Proof.
  intros Hn. unfold has_node in Hn. destruct (discover_node s) as [u|] eqn:Eu; [|done].
  unfold subscribe_service. rewrite bind_run. cbn [modify]. rewrite Eu, bind_run. cbn [get]. rewrite bind_run.
  set (s1 := set_node _ s). match goal with |- context [on_node _ _ _ ctx now ?m s1] =>
    pose proof (on_node_steady ctx now m s1) as Hs; assert (∃ h, (on_node refreshes chat_port history_uuid ctx now m s1).1 = Ok h) as [h Hh] end.
  { unfold on_node. cbn [discover_node set_node s1]. unfold on_service.
    match goal with |- context [subscribe ?h ?v ?c] => destruct (subscribe_ok h v c) as [c' ->] end. by eexists. }
  destruct (on_node _ _ _ _ _ _ s1) as [r s2]. cbn in Hh, Hs. subst. exists s2. split; [done|].
  etransitivity; [|exact Hs]. by apply same_steady.
Qed.

Definition replayed (now : time) (m : StoredMessage) : MessageRecord :=
  mkShown (Some "assistant") (st_sender m) (st_timestamp m)
    (match prepare_message (new_message (st_content m) (st_sender m) "" now) with
     | Ok w => content w | Raise _ => "" end).

Lemma replay_run now s h : (∀ m, ∃ m', prepare_message m = Ok m') → working s h → ∃ older recent s',
  replay_history prepare_message now s = (Ok (), s') ∧ older ++ recent ≡ₚ h ∧
  sorted_on st_timestamp (older ++ recent) ∧ length recent = min 100 (length h) ∧
  messages s' = messages s ++ (replayed now <$> recent) ∧ working s' h.
Proof.
  intros Hp Hs. pose proof Hs as (hs & w & Hh & Hw & Hok).
  destruct (get_recent_ok 100 (store w) h Hok eq_refl) as (older & recent & E & Hperm & Hsort & Hlen).
  exists older, recent. unfold replay_history. rewrite bind_run. unfold on_history, get_recent_messages, started.
  rewrite Hh, Hw. rewrite bind_run. cbn [get]. rewrite bind_run. cbn [lift]. rewrite E. cbn [mret M_ret].
  assert (∀ l s0, working s0 h → ∃ s', forM ((λ m, (st_id m, st_sender m, st_timestamp m, st_content m)) <$> l)
    (replay_message prepare_message now) s0 = (Ok (), s') ∧ messages s' = messages s0 ++ (replayed now <$> l) ∧ working s' h) as Hf.
  { induction l as [|m l IH]; intros s0 Hs0; [exists s0; by rewrite app_nil_r|].
    rewrite fmap_cons, forM_cons. unfold replay_message at 1. rewrite bind_run.
    destruct (Hp (new_message (st_content m) (st_sender m) "" now)) as [m' Em]. cbn [lift]. rewrite Em. cbn [modify].
    destruct (IH (set_messages (messages s0 ++ [mkShown (Some "assistant") (st_sender m) (st_timestamp m) (content m')]) s0) Hs0)
      as (s' & -> & Hm & Hw'). exists s'. split; [done|]. split; [|done]. rewrite Hm. cbn [messages set_messages].
    rewrite <- app_assoc. unfold replayed at 2. cbn. by rewrite Em. }
  destruct (Hf recent (set_history (Some (mkService (Recovery.host hs) (Recovery.port hs) (clean_storage hs) (root hs) (Some w))) s))
    as (s' & E' & Hm & Hw'); [by eexists _, w|].
  exists s'. by split_and!.
Qed.

Lemma working_history s h : working s h → has_history s = true.
Proof. intros (hs & w & Hh & _). unfold has_history. by rewrite Hh. Qed.

(** The part of [connect] before the history is read: it ends, and leaves window and history. *)
Lemma connected_node ctx now username address uuid waits s k :
  ∃ s', steady s s' ∧ (modify (λ s, if decide (username = "") then s
               else add_user username (if decide (address = "") then "0.0.0.0" else address) s);;
    new_node now (connect_config broadcast_address lan_ip chat_port public_key_pem address) uuid;;
    modify (λ s, if ctx then set_flask true s else s);;
    subscribe_service refreshes broadcast_address chat_port history_uuid ctx now;;
    try_except (on_node refreshes chat_port history_uuid ctx now (λ cfg uuid,
      Discovery.start cfg (linked broadcast_address) chat_hooks uuid now username waits)) (λ _, mret ());;
    k) s = (k : M ChatService unit) s'.
Proof.
  rewrite bind_run. cbn [modify]. rewrite bind_run. unfold new_node. cbn [modify]. rewrite bind_run. cbn [modify].
  set (s1 := if ctx then _ else _).
  assert (steady s s1 ∧ has_node s1 = true) as [H1 Hn].
  { unfold s1, add_user. split; [apply same_steady|]; by repeat case_match. }
  rewrite bind_run. destruct (subscribed ctx now s1 Hn) as (s2 & -> & H2). rewrite bind_run. unfold try_except.
  set (m := λ cfg uuid, Discovery.start cfg _ _ uuid now username waits).
  pose proof (on_node_steady ctx now m s2) as H3.
  destruct (on_node _ _ _ _ _ m s2) as [[[]|e] s3]; exists s3; (split; [|done]); by do 2 (etransitivity; [eassumption|]).
Qed.

(** C24: Connecting shows the history.  However the discovery node fares (the seed may be
    unreachable, refuse, or answer with events that touch the history service), and
    whatever the refresh callbacks do, [connect] appends to the window the newest hundred
    messages stored, in the order of their time stamps and as the broadcast node decrypts
    them, and nothing else; the history is not changed. *)
Theorem connect_shows_history ctx now later username address uuid waits s h :
  (∀ m, ∃ m', prepare_message m = Ok m') → working s h →
  let s' := (connects ctx now later username address uuid waits s).2 in
  ∃ older recent, older ++ recent ≡ₚ h ∧ sorted_on st_timestamp (older ++ recent) ∧
    length recent = min 100 (length h) ∧ messages s' = messages s ++ (replayed later <$> recent) ∧ working s' h.
Proof.
  intros Hp Hs. cbv zeta. unfold connect.
  match goal with |- context [try_except _ _ ;; ?k] =>
    destruct (connected_node ctx now username address uuid waits s k) as (s1 & [Hm1 Hw1] & ->) end.
  specialize (Hw1 h Hs). rewrite bind_run. cbn [get]. rewrite (working_history s1 h Hw1). cbn [andb].
  assert (∃ s2, (if negb (bool_decide (address = "")) then asks_history later else mret ()) s1 = (Ok (), s2) ∧
    messages s2 = messages s1 ∧ working s2 h) as (s2 & E2 & Hm2 & Hw2).
  { destruct (negb _); [|by exists s1]. destruct (asked_history later s1 h Hw1) as (hs' & -> & Hw). by eexists. }
  rewrite bind_run, E2, bind_run.
  destruct (replay_run later s2 h Hp Hw2) as (older & recent & s3 & -> & Hperm & Hsort & Hlen & Hm3 & Hw3).
  exists older, recent. split; [done|]. split; [done|]. split; [done|].
  match goal with |- context [(?m s3).2] => assert (keeps steady m) as Hk by keeps_tac; destruct (Hk s3) as [-> Hw] end.
  split; [by rewrite Hm3, Hm2, Hm1|by apply Hw].
Qed.

End Connecting.
End Facts.

(** ** Silence *)

Section Silence.
Context `{!Archive} (refreshes : string → option (bool → result unit)).
Context (broadcast_address : option string) (chat_port : Z) (history_uuid : nat → string).

(** What a tick tells the subscribers: suspicions, time-outs, returns. *)
Definition presence_event (e : MembershipEvent) : Prop :=
  event_type e ∈ [DISCONNECT_SUSPECTED; DISCONNECT_TIMEOUT; RECONNECTED].

Definition hushed (c c' : Coordinator) : Prop :=
  ∃ ns, notified c' = notified c ++ ns ∧ Forall (λ n, presence_event n.1.2) ns.

#[local] Instance hushed_preorder : PreOrder hushed.
Proof.
  split; [intros c; exists []; by rewrite app_nil_r|]. intros a b c (ns & Hn & Hf) (ns' & Hn' & Hf').
  exists (ns ++ ns'). rewrite Hn', Hn, app_assoc. split; [done|]. by apply Forall_app.
Qed.

Lemma same_hushed c c' : notified c' = notified c → hushed c c'.
Proof. intros E. exists []. by rewrite app_nil_r. Qed.

Lemma announce_hushed now et uid src dn tr pk :
  et ∈ [DISCONNECT_SUSPECTED; DISCONNECT_TIMEOUT; RECONNECTED] → keeps hushed (commit_and_dispatch now et uid src dn tr pk).
Proof.
  intros Het c. unfold commit_and_dispatch. rewrite bind_run, commit_run.
  destruct (append _ _ _ _ _ _ _ _ _) as [[e|x] l] eqn:E; [|by apply same_hushed].
  apply append_push in E as (_ & _ & He). rewrite bind_run. unfold dispatch. cbn [fst snd].
  destruct (apply_event e _).1 as [d|]; [|by apply same_hushed].
  eexists. split; [done|]. apply Forall_fmap, Forall_forall. intros i _. unfold presence_event. cbn. by rewrite He.
Qed.

Lemma change_hushed now uid ch : keeps hushed (_handle_presence_change now uid ch).
Proof.
  unfold _handle_presence_change, untrack, checkpoint. destruct ch; keeps_tac;
    first [apply announce_hushed; set_solver|by apply same_hushed].
Qed.
#[local] Hint Resolve change_hushed : keeps.

Lemma tick_hushed now : keeps hushed (tick now).
Proof.
  unfold tick, check_liveness, check_entry, _sweep_backfill_timeouts, untrack, checkpoint. keeps_tac;
    first [apply announce_hushed; set_solver|by apply same_hushed].
Qed.

Definition same_membership (d d' : Discovery) : Prop := membership d' = membership d.
#[local] Instance same_membership_preorder : PreOrder same_membership.
Proof. unfold same_membership. split; [done|]. intros a b c; congruence. Qed.

Lemma heartbeat_same cfg l uuid now : keeps same_membership (_broadcast_heartbeat cfg l uuid now).
Proof. unfold _broadcast_heartbeat, make_message, fresh_uuid. keeps_tac; by unfold same_membership. Qed.

Lemma turn_hushed cfg l hooks uuid now a d : a ∈ [HeartbeatTurn; TickTurn] →
  hushed (membership d) (membership (act cfg l hooks uuid now a d).2).
Proof.
  intros Ha. assert (a = HeartbeatTurn ∨ a = TickTurn) as [->| ->] by set_solver; cbn [act]; rewrite bind_run; cbn [get].
  - destruct (heartbeat_running d); [|reflexivity]. pose proof (heartbeat_same cfg l uuid now d) as E.
    apply same_hushed. by rewrite E.
  - destruct (heartbeat_running d); [|reflexivity].
    destruct (tick now (membership d)) as [r c] eqn:E. pose proof (tick_hushed now (membership d)) as Hc. rewrite E in Hc.
    destruct Hc as (ns & Hn & Hf).
    destruct (on_service_run cfg l hooks uuid presence_event now (λ _, tick now) d r c ns E Hn Hf) as (d' & -> & Hd & _).
    cbn [snd]. rewrite Hd. by exists ns.
Qed.

(** A turn of one of the two threads of the service's node. *)
Definition turn (ta : time * bool) : M ChatService unit :=
  if ta.2 then tick_turn refreshes broadcast_address chat_port history_uuid ta.1
  else heartbeat_turn refreshes broadcast_address chat_port history_uuid ta.1.

Lemma presence_ignored ctx now h ns s : Forall (λ n, presence_event n.1.2) ns →
  run_subscriber refreshes chat_port history_uuid ctx now h ns s = (Ok (), s).
Proof.
  unfold run_subscriber. induction 1 as [|n ns Hn _ IH]; [done|]. rewrite forM_cons.
  assert ((if bool_decide (n.1.1 = h) then handle_membership_event refreshes chat_port history_uuid ctx now n.1.2 else mret ()) s = (Ok (), s)) as ->; [|done].
  destruct (bool_decide _); [|done]. unfold handle_membership_event, try_except. unfold presence_event in Hn.
  by assert (event_type n.1.2 = DISCONNECT_SUSPECTED ∨ event_type n.1.2 = DISCONNECT_TIMEOUT ∨
    event_type n.1.2 = RECONNECTED) as [->|[->| ->]] by set_solver.
Qed.

Lemma turn_run ta s : ∃ u, (turn ta s).2 = set_node u s.
Proof.
  assert (∀ now a, a ∈ [HeartbeatTurn; TickTurn] → ∃ u, (on_node refreshes chat_port history_uuid false now
    (λ cfg uuid, act cfg (linked broadcast_address) chat_hooks uuid now a) s).2 = set_node u s) as Ha.
  { intros now a Ha. unfold on_node. destruct (discover_node s) as [u|] eqn:Eu; [|exists None; by destruct s; cbn in *; subst].
    pose proof (turn_hushed (config u) (linked broadcast_address) chat_hooks (uuids u) now a (discovery u) Ha) as (ns & Hn & Hf).
    destruct (act _ _ _ _ _ _ _) as [r d]. cbn [snd] in *. rewrite Hn, drop_app_length, presence_ignored by done. by eexists. }
  unfold turn, tick_turn, heartbeat_turn. destruct ta.2; apply Ha; set_solver.
Qed.

(** Silence unroutes nobody.  However long the members keep silent, whatever the
    failure detector of the service's discovery node makes of it, the turns of its threads
    leave the registry the broadcast node sends to, the list of users, the window and the
    history exactly as they were: a member that timed out goes on being sent to and shown
    as online. *)
Theorem silence_never_unroutes turns s :
  let s' := foldl (λ s ta, (turn ta s).2) s turns in
  peer_registry s' = peer_registry s ∧ users s' = users s ∧ messages s' = messages s ∧
  history_service s' = history_service s.
Proof.
  cbv zeta. apply (foldl_inv (λ s', peer_registry s' = peer_registry s ∧ users s' = users s ∧
    messages s' = messages s ∧ history_service s' = history_service s)); [done|].
  intros ta s' _ Hs. by destruct (turn_run ta s') as [u ->].
Qed.

End Silence.

(** ** The callback and the node that calls it *)

Section Shown.
Context `{!Archive} `{!ArchiveLaws} `{!Crypto} `{!PeerRegistry.PeerRegistry}.
Context (broadcast_address : option string) (chat_port : Z) (history_uuid : nat → string).

(** C28: What the window shows is not passed on.  On the node of the web interface, whose
    callbacks render templates, a chat message that arrives from a peer, so that no request
    is being served, is shown and stored, but then the callback raises, and the broadcast
    node's [_receive] ends there: the message is marked as seen and shown, the messages it
    released are not shown, and nothing is relayed to the other peers. *)
Theorem shown_but_not_relayed (cfg : Config) now m n (s : ChatService) h :
  on_message cfg = Some (λ x, (message_received app_refreshes broadcast_address chat_port history_uuid false now x s).1) →
  working s h → id m ∉ seen n → is_ready (vc n) m = true →
  let ui := _message_for_ui cfg (keys n) m in
  chat_text (content ui) = true →
  messages (message_received app_refreshes broadcast_address chat_port history_uuid false now ui s).2 =
    messages s ++ [shown ui] ∧
  ∃ n', _receive cfg now m n = (Raise RuntimeError, n') ∧ delivered n' = delivered n ++ [ui] ∧
    tasks n' = tasks n ∧ id m ∈ seen n'.
Proof.
  intros Hcb Hs Hnew Hready ui Hc.
  destruct (received_chat app_refreshes broadcast_address chat_port history_uuid false now ui s h Hc Hs) as (hs' & E & _).
  split; [by rewrite E|]. unfold _receive. rewrite bind_run, deduplicate_run, decide_False by done. cbn [negb].
  set (n1 := set_seen _ n). destruct (hold_or_release_run now m n1) as (ds & q & c & Hrun & _).
  rewrite bind_run, Hrun. unfold receive_first. change (vc n1) with (vc n). rewrite Hready. cbn [app].
  unfold deliver_for_ui. rewrite bind_run, forM_cons, bind_run. cbn [get].
  change (keys _) with (keys n) at 1. fold ui. rewrite call_one, Hcb, E. eexists. split; [reflexivity|].
  split; [done|]. split; [done|]. cbn. set_solver.
Qed.
End Shown.

(** ** Bob's window *)

Module ChatDemo.
Import Toy InMemoryRegistry.

Definition home : option string := Some "10.0.0.2:8000".
Definition bob_chat : ChatService :=
  set_history (Some (mkService "10.0.0.2" 8000 false empty_disk (Some (demo_peer "10.0.0.2:8000" demo_b)))) new_chat.
Definition hello : Message := mkMessage "hello" "10.0.0.1:8000" "m1" 1000000 "" 10 {["10.0.0.1:8000" := 1%Z]}.
Definition bob_node : Config := mkConfig "10.0.0.2" 8000 false true
  (Some (λ x, (message_received app_refreshes home 8000 string_of_Z_nat false 20 x bob_chat).1)) None.
Definition carol_known : Node := init_node (mkKeys (Some "b"%char) ∅) [("10.0.0.3", 8000%Z, "")].

Lemma bob_works : working bob_chat (remember_all demo_b []).
Proof. eexists _, _. split; [reflexivity|]. split; [reflexivity|]. apply saved_store_ok. Qed.


Lemma connect_shows_history_witness :
  let s' := (connect app_refreshes Ok home "10.0.0.2" 8000 None string_of_Z_nat true 0 1 "bob" "" string_of_Z_nat [] bob_chat).2 in
  length (messages s') = 3%nat.
Proof.
  destruct (connect_shows_history app_refreshes home 8000 string_of_Z_nat Ok "10.0.0.2" None true 0 1 "bob" "" string_of_Z_nat
    [] bob_chat (remember_all demo_b [])) as (older & recent & _ & _ & Hl & Hm & _);
    [intros m; by exists m|apply bob_works|].
  cbv zeta. rewrite Hm, length_app, length_fmap, Hl. vm_compute. reflexivity.
Defined.

Lemma shown_but_not_relayed_witness : ∃ n',
  _receive bob_node 20 hello carol_known = (Raise RuntimeError, n') ∧ tasks n' = [] ∧ id <$> delivered n' = ["m1"].
Proof.
  destruct (shown_but_not_relayed home 8000 string_of_Z_nat bob_node 20 hello carol_known bob_chat _ eq_refl bob_works)
    as (_ & n' & E & Hd & Ht & _); [set_solver|vm_compute; reflexivity|vm_compute; reflexivity|].
  exists n'. split; [exact E|]. split; [by rewrite Ht|]. rewrite Hd. vm_compute. reflexivity.
Defined.
End ChatDemo.
