(* ===== verification/WebApp.v ===== *)
(** * The web application ([ui/app.py])

    The routes of [create_app], as operations on the chat service and the connection state
    the page shows.  The templates and Flask are the class [Templates]: a template is a
    function of what it is given.  A request runs inside the application context, so the
    refresh callbacks do not raise there; an exception that leaves a route is answered by
    Flask and keeps the state reached. *)

From stdpp Require Import prelude gmap strings.
From S2P Require Import Prelude PyDict PyStr Base64 Message StoredMessage MessageStore Recovery Discovery PeerRegistry ChatService.

Local Open Scope string_scope.
Local Open Scope list_scope.

Class Templates := {
  chat_html : list UserRecord → list MessageRecord → bool → string → string → string;
  users_html : list UserRecord → string;
  users_list : list UserRecord → string;
  message_list : list MessageRecord → list UserRecord → pydict string string → string;
  connect_state : bool → string → string → string;
}.

Record AppState := mkApp {
  chat_service : ChatService;
  connected : bool;
  username : string;
  ip : string;
}.

(** [create_app] with the real service. *)
Definition new_app : AppState := mkApp new_chat false "" "".

(** [app.connected_state[...] = ...] *)
Definition show_state (c : bool) (u a : string) (s : AppState) : AppState := mkApp (chat_service s) c u a.

(** A call of the service. *)
Definition on_chat {A} (m : M ChatService A) : M AppState A := λ s,
  let '(r, c) := m (chat_service s) in (r, mkApp c (connected s) (username s) (ip s)).

(** [request.form.get(k, "").strip()] *)
Definition form (k : string) (f : pydict string string) : string := strip (default "" (dget k f)).

(** [{u.get("ip", ""): u.get("name", "") for u in users}] *)
Definition users_map (us : list UserRecord) : pydict string string :=
  foldl (λ d u, dset (ChatService.ip u) (name u) d) [] us.

Section Routes.
Context `{Templates} `{Archive}.
Variable prepare_message : Message → result Message.
Variable broadcast_address : option string.
Variable lan_ip : string.
Variable chat_port : Z.
Variable public_key_pem : option bytes.
Variable history_uuid : nat → string.

Definition messages_partial (s : ChatService) : string :=
  message_list (get_messages s) (get_users s) (users_map (get_users s)).
Definition users_and_state (s : ChatService) (c : bool) (u a : string) : string :=
  users_list (get_users s) +:+ connect_state c u a.

(** GET [/], [/users] and [/users/partial] *)
Definition index : M AppState string :=
  s ← get; mret (chat_html (get_users (chat_service s)) (get_messages (chat_service s)) (connected s) (username s) (ip s)).
Definition user_list : M AppState string := s ← get; mret (users_html (get_users (chat_service s))).
Definition users_partial : M AppState string := s ← get; mret (users_list (get_users (chat_service s))).

(** POST [/connect] *)
Definition post_connect (now later : time) (uuid : nat → string) (waits : list wait_outcome) (f : pydict string string) :
    M AppState string :=
  let user := form "username" f in
  let address := form "ip" f in
  on_chat (connect app_refreshes prepare_message broadcast_address lan_ip chat_port public_key_pem history_uuid
             true now later user address uuid waits);;
  modify (show_state true user address);;
  s ← get; mret (users_and_state (chat_service s) true user address).

(** POST [/disconnect] *)
Definition post_disconnect (now : time) (f : pydict string string) : M AppState string :=
  let user := form "username" f in
  modify (show_state false "" "");;
  on_chat (disconnect app_refreshes chat_port history_uuid true now user);;
  s ← get; mret (users_and_state (chat_service s) false "" "").

(** POST [/messages]; [arrives] is what reaches the service during the pause. *)
Definition post_messages (arrives : M ChatService unit) (f : pydict string string) : M AppState string :=
  let content := form "message" f in
  if decide (content = "") then s ← get; mret (messages_partial (chat_service s))
  else
    on_chat (post_message content);;
    on_chat arrives;;
    s ← get; mret (messages_partial (chat_service s)).

(** Everything that changes the state of the application: its routes, and what the other
    threads hand to the service. *)
Inductive app_event :=
  | Connect (now later : time) (uuid : nat → string) (waits : list wait_outcome) (f : pydict string string)
  | Disconnect (now : time) (f : pydict string string)
  | Post (f : pydict string string)
  | Received (now : time) (msg : Message)
  | Heartbeat (now : time)
  | Tick (now : time).

Definition received (now : time) (msg : Message) : M ChatService unit :=
  message_received app_refreshes broadcast_address chat_port history_uuid false now msg.

Definition app_step (e : app_event) (s : AppState) : AppState :=
  match e with
  | Connect now later uuid waits f => (post_connect now later uuid waits f s).2
  | Disconnect now f => (post_disconnect now f s).2
  | Post f => (post_messages (mret ()) f s).2
  | Received now msg => (on_chat (received now msg) s).2
  | Heartbeat now => (on_chat (heartbeat_turn app_refreshes broadcast_address chat_port history_uuid now) s).2
  | Tick now => (on_chat (tick_turn app_refreshes broadcast_address chat_port history_uuid now) s).2
  end.

Definition run_app (es : list app_event) (s : AppState) : AppState := foldl (λ s e, app_step e s) s es.

(** ** What the page shows *)

(** The service's operations keep its discovery node; only [disconnect] drops it. *)
Definition keeps_node (s s' : ChatService) : Prop := has_node s = true → has_node s' = true.

#[local] Instance keeps_node_preorder : PreOrder keeps_node.
Proof. split; [intros s Hs; exact Hs|]. intros a b c Hab Hbc Ha. by apply Hbc, Hab. Qed.

Lemma keeps_on_history {A} (m : M HistoryService A) : keeps keeps_node (on_history m).
Proof. intros s. unfold on_history. destruct (history_service s); [|reflexivity]. destruct (m _). by intros Hs. Qed.
#[local] Hint Resolve keeps_on_history : keeps.
Lemma keeps_on_node {A} ctx now (m : DiscoveryConfig → (nat → string) → M Discovery A) :
  keeps keeps_node (on_node app_refreshes chat_port history_uuid ctx now m).
Proof.
  intros s. unfold on_node. destruct (discover_node s) as [u|] eqn:E; [|reflexivity].
  destruct (m (config u) (uuids u) (discovery u)) as [r d]. intros _.
  assert (keeps keeps_node (run_subscriber app_refreshes chat_port history_uuid ctx now (handle u)
    (drop (length (Coordinator.notified (membership (discovery u)))) (Coordinator.notified (membership d))))) as Hk.
  { unfold run_subscriber, handle_membership_event, request_history, user_connected, user_disconnected, _refresh, call_refresh.
    keeps_tac; intros Hs; try exact Hs. all: unfold add_user; by case_match. }
  by apply Hk.
Qed.
#[local] Hint Resolve keeps_on_node : keeps.
#[local] Hint Extern 3 (keeps_node _ _) => intros Hs; exact Hs : keeps.

Lemma received_keeps now msg : keeps keeps_node (received now msg).
Proof.
  unfold received, message_received, taken_by_discovery, taken_by_history, _refresh, call_refresh.
  keeps_tac; try (intros Hs; exact Hs).
Qed.

(** A connection that is made has a node, and one that fails keeps the node there was. *)
Lemma connect_node now later user address uuid waits (s : ChatService) :
  let r := connect app_refreshes prepare_message broadcast_address lan_ip chat_port public_key_pem history_uuid
             true now later user address uuid waits s in
  has_node r.2 = true.
Proof.
  unfold connect. rewrite bind_run. cbn [modify]. rewrite bind_run. unfold new_node. cbn [modify].
  set (s1 := set_node _ _). assert (has_node s1 = true) as Hs1 by done. revert Hs1.
  match goal with |- _ → has_node (?m s1).2 = true => assert (keeps keeps_node m) as Hk; [|exact (Hk s1)] end.
  unfold subscribe_service, request_history, replay_history, replay_message, _refresh, call_refresh.
  keeps_tac; try (intros Hs; exact Hs); try (unfold keeps_node, has_node; cbn; by repeat case_match).
Qed.

(** *** The claim of the page *)

Definition page_ok (s : AppState) : Prop := connected s = true → has_node (chat_service s) = true.

Lemma on_chat_ok {A} (m : M ChatService A) s : keeps keeps_node m → page_ok s → page_ok (on_chat m s).2.
Proof.
  intros Hm Hs. unfold on_chat. specialize (Hm (chat_service s)). destruct (m (chat_service s)) as [r c].
  intros Hc. by apply Hm, Hs.
Qed.

Lemma app_step_ok e s : page_ok s → page_ok (app_step e s).
Proof.
  intros Hs. destruct e as [now later uuid waits f|now f|f|now msg|now|now]; cbn [app_step].
  - unfold post_connect. cbv zeta. rewrite bind_run. unfold on_chat.
    pose proof (connect_node now later (form "username" f) (form "ip" f) uuid waits (chat_service s)) as Hn. cbv zeta in Hn.
    destruct (connect _ _ _ _ _ _ _ _ _ _ _ _ _ _ (chat_service s)) as [[[]|e] c]; by intros _.
  - unfold post_disconnect. cbv zeta. rewrite bind_run. cbn [modify]. rewrite bind_run. unfold on_chat.
    destruct (disconnect _ _ _ _ _ _ _) as [[[]|e] c]; by intros Hc.
  - unfold post_messages. cbv zeta. case_decide; [exact Hs|]. exact Hs.
  - by apply on_chat_ok; [apply received_keeps|].
  - apply on_chat_ok; [|done]. apply keeps_on_node.
  - apply on_chat_ok; [|done]. apply keeps_on_node.
Qed.

(** The page does not claim too much.  Whatever requests, messages and turns of the node's
    threads there were, and whichever of them raised, a page that says it is connected has
    a discovery node in use. *)
Theorem connected_has_node es : page_ok (run_app es new_app).
Proof. unfold run_app. apply foldl_inv; [done|]. intros e s _. apply app_step_ok. Qed.

(** Sending from the page: a blank message changes nothing; any other is handed over once,
    without the blanks around it, and the answer lists every message the service holds
    after the pause. *)
Theorem post_from_page arrives f s : let content := form "message" f in
  (content = "" → post_messages arrives f s = (Ok (messages_partial (chat_service s)), s)) ∧
  (content ≠ "" → ∀ c', arrives (set_posted (posted (chat_service s) ++ [content]) (chat_service s)) = (Ok (), c') →
     post_messages arrives f s = (Ok (messages_partial c'), mkApp c' (connected s) (username s) (ip s))).
Proof.
  intros content. unfold post_messages. fold content. cbv zeta. split; intros Hc.
  - by rewrite decide_True.
  - intros c' Ha. rewrite decide_False by done. rewrite bind_run. unfold on_chat at 1. cbn [post_message modify chat_service].
    rewrite bind_run. unfold on_chat. cbn [chat_service]. by rewrite Ha.
Qed.
End Routes.
