(* ===== verification/Logging.v ===== *)
(** * Logging of the discovery package ([peer_discovery/network/logging_setup.py])

    What [configure_discovery_logging] does to two loggers of Python's [logging] module, and
    how often a line is then written.  A handler has a level and writes to a stream; the
    other loggers below [peer_discovery] have no level of their own. *)

From stdpp Require Import prelude gmap strings.
From S2P Require Import Prelude.

Local Open Scope string_scope.
Local Open Scope list_scope.

Record Handler := mkHandler { handler_stream : string; handler_level : Z }.

(** A logger; [level] 0 is "not set". *)
Record Logger := mkLogger { logger_level : Z; propagate : bool; handlers : list Handler }.

Record LogState := mkLogState { pd_logger : Logger; root : Logger; _CONFIGURED : bool }.

Definition DEBUG : Z := 10.
Definition INFO : Z := 20.
Definition WARNING : Z := 30.

(** How Python starts out. *)
Definition fresh_logging : LogState := mkLogState (mkLogger 0 true []) (mkLogger WARNING true []) false.

(** [configure_discovery_logging] *)
Definition configure_discovery_logging (level : Z) (stream : option string) (add_handler_if_root_empty : bool) (s : LogState) :
    LogState :=
  let pd := mkLogger level true (handlers (pd_logger s)) in
  match stream with
  | Some st => mkLogState (mkLogger level true (handlers (pd_logger s) ++ [mkHandler st level])) (root s) true
  | None =>
    if add_handler_if_root_empty && bool_decide (handlers (root s) = [])
    then mkLogState pd (mkLogger level (propagate (root s)) [mkHandler "stderr" level]) true
    else mkLogState pd (root s) true
  end.

(** The streams a line of a discovery logger is written to: the level of the logger, or of
    the root when it has none, lets it pass; then every handler on the way up decides.  With
    no handler at all, warnings go to the handler of last resort. *)
Definition effective_level (s : LogState) : Z :=
  if (logger_level (pd_logger s) =? 0)%Z then logger_level (root s) else logger_level (pd_logger s).
Definition on_the_way (s : LogState) : list Handler :=
  handlers (pd_logger s) ++ (if propagate (pd_logger s) then handlers (root s) else []).
Definition written (level : Z) (s : LogState) : list string :=
  if (level <? effective_level s)%Z then []
  else match on_the_way s with
       | [] => if (WARNING <=? level)%Z then ["stderr"] else []
       | hs => handler_stream <$> List.filter (λ h, (handler_level h <=? level)%Z) hs
       end.

(** Configuring again, without a stream, changes nothing. *)
Lemma configure_idempotent level b s :
  configure_discovery_logging level None b (configure_discovery_logging level None b s) = configure_discovery_logging level None b s.
Proof.
  unfold configure_discovery_logging. destruct b; cbn; [|done]. by destruct (bool_decide_reflect (handlers (root s) = [])); cbn;
    rewrite ?bool_decide_eq_false_2 by done.
Qed.

(** The first call makes the lines of its level visible, exactly once, and those below it
    stay hidden. *)
Theorem logged_once level l : (0 < level)%Z →
  written l (configure_discovery_logging level None true fresh_logging) = if (l <? level)%Z then [] else ["stderr"].
Proof.
  intros Hl. unfold written, effective_level. cbn. destruct (Z.eqb_spec level 0); [lia|].
  destruct (Z.ltb_spec l level); [done|]. unfold on_the_way. cbn. by destruct (Z.leb_spec level l); [|lia].
Qed.

(** With a stream the call is not idempotent: [n] calls write every line [n] times. *)
Theorem stream_logs_again level st n l : (0 < level)%Z → (level ≤ l)%Z → n ≠ 0 →
  written l (Nat.iter n (configure_discovery_logging level (Some st) true) fresh_logging) = replicate n st.
Proof.
  intros Hl Hle Hn.
  assert (Nat.iter n (configure_discovery_logging level (Some st) true) fresh_logging =
    mkLogState (mkLogger level true (replicate n (mkHandler st level))) (mkLogger WARNING true []) true) as ->.
  { destruct n as [|n]; [done|]. clear Hn. induction n as [|n IH]; [done|]. rewrite Nat.iter_succ, IH.
    unfold configure_discovery_logging. cbn [handlers pd_logger root].
    by rewrite <- (replicate_cons_app (S n)). }
  unfold written, effective_level, on_the_way. cbn [pd_logger root logger_level propagate handlers].
  destruct (Z.eqb_spec level 0); [lia|]. rewrite (proj2 (Z.ltb_ge l level)) by done. rewrite app_nil_r.
  assert (∀ k, handler_stream <$> List.filter (λ h, (handler_level h <=? l)%Z) (replicate k (mkHandler st level)) = replicate k st) as Hf.
  { intros k. induction k as [|k IH]; [done|]. cbn [replicate List.filter handler_level]. rewrite (proj2 (Z.leb_le level l)) by done.
    rewrite fmap_cons. by f_equal. }
  destruct n as [|n]; [done|]. exact (Hf (S n)).
Qed.
