(* ===== verification/Program.v ===== *)
(** * The program ([main.py], [peer_discovery/network/net_utils.py], [security/persistent_key_storage.py])

    [main] builds the page, the key store, the broadcast node and the history service, and
    ties them together; [send_from_page] follows one message from the form through the
    service, the node and back into the window.  The operating system is the class
    [Platform].  The page and the node share one registry: the node works on the
    service's. *)

From stdpp Require Import prelude gmap strings.
From S2P Require Import Prelude PyDict PyStr Json Base64 Message Security PeerRegistry VectorClock BroadcastNode BroadcastFacts.
From S2P Require Import StoredMessage MessageStore MessageStoreFacts MessageHistory Recovery ChatService ChatFacts WebApp.
Import InMemoryRegistry.

Local Open Scope string_scope.
Local Open Scope list_scope.

Definition NODE_PORT : Z := 5678.

(** What the code asks the system: can a port be bound, the local end of a route to a public
    address, the addresses of the host's own name, and what importing [keyring] does. *)
Class Platform := {
  bind : Z → result unit;
  route_source : result string;
  own_addresses : result (list string);
  import_keyring : result unit;
}.

(** ** [net_utils.py] *)

Section Network.
Context `{Platform}.

Fixpoint first_free (ports : list Z) : result Z :=
  match ports with
  | [] => Raise OSError
  | p :: ports => match bind p with
                  | Ok _ => Ok p
                  | Raise OSError => first_free ports
                  | Raise e => Raise e
                  end
  end.

(** [range(start, end + 1)] *)
Definition port_range (start end_ : Z) : list Z := (λ i, start + Z.of_nat i)%Z <$> seq 0 (Z.to_nat (end_ + 1 - start)).
Definition pick_free_port (start end_ : Z) : result Z := first_free (port_range start end_).

(** The first address of the host's name that is no loopback address. *)
Definition host_address : string :=
  match own_addresses with
  | Ok ips => default "127.0.0.1" (List.find (λ ip, negb (startswith "127." ip)) ips)
  | Raise _ => "127.0.0.1"
  end.

Definition get_lan_ip (env : pydict string string) : result string :=
  let override := default "" (dget "PEERCHAT_LAN_IP" env) in
  if decide (override = "") then
    match route_source with
    | Ok ip => Ok ip
    | Raise OSError => Ok host_address
    | Raise e => Raise e
    end
  else Ok (strip override).

(** [get_platform_key_storage]: is there a keyring? *)
Definition get_platform_key_storage : result bool :=
  match import_keyring with
  | Ok _ => Ok true
  | Raise ImportError => Ok false
  | Raise e => Raise e
  end.
End Network.

(** ** [main.py] *)

(** [own_public_key_pem] is also the service's [public_key_pem]. *)
Section Data.
Context `{Crypto}.
Record Program := mkProgram {
  app : AppState;
  node : Node;
  node_host : string;
  key_store : KeyStore;
  own_public_key_pem : bytes;
}.
End Data.

Section Program.
Context `{Crypto} `{Keyring} `{Archive} `{Templates} `{Platform}.
Context (security_available : bool) (history_uuid : nat → string).

(** The runtime key store, filled, and the public key. *)
Definition load_keys (fresh : private_key) (persistent : bool) : M keyring_state (bytes * KeyStore) := λ kr,
  let '(r, (ks, kr)) := initialize_private_key_store fresh persistent (None, kr) in
  (pem ← r; mret (pem, ks), kr).

(** The keys of [message_integrity], which start out empty. *)
Definition configured (private_pem : bytes) : result KeyState :=
  let '(r, ks) := configure_private_key private_pem (mkKeys None ∅) in
  _ ← r; mret ks.

(** The node with the history service started on the directory [d]. *)
Definition start_history (host : string) (d : Disk) (n : Node) : result (Node * HistoryService) :=
  let '(r, hs) := Recovery.start (mkService host NODE_PORT false d None) in
  restored ← r;
  mret (set_causal (merge (vc n) restored) (hold_back n) n, hs).

(** Up to [app.run]; [fresh] is the key that would be generated, [d] the directory of the
    history.  The mock service has no [use_history]. *)
Definition main (env : pydict string string) (fresh : private_key) (d : Disk) : M keyring_state Program :=
  persistent ← lift get_platform_key_storage;
  keys ← load_keys fresh persistent;
  private_pem ← lift (get_private_key keys.2);
  ks ← lift (configured private_pem);
  lan_ip ← lift (get_lan_ip env);
  started ← lift (start_history lan_ip d (init_node ks []));
  if mock_data_enabled env then lift (Raise AttributeError)
  else mret (mkProgram (mkApp (set_history (Some started.2) new_chat) false "" "") started.1 lan_ip keys.2 keys.1).

(** *** The node and the service *)

Definition own_address (p : Program) : string := addr (node_host p) NODE_PORT.

(** [node.on_message] in a task that was asked for by a request: a task runs in a copy of
    the context of its creator, so the application context is there. *)
Definition show_own (now : time) (host : string) (msg : Message) : M ChatService unit :=
  message_received app_refreshes (Some (addr host NODE_PORT)) NODE_PORT history_uuid true now msg.

(** The node as [main] sets it up; the hook set by [connect] plays no part in sending. *)
Definition node_config (now : time) (host : string) (c : ChatService) : Config :=
  mkConfig host NODE_PORT false security_available (Some (λ m, (show_own now host m c).1)) None.

(** [message_out]: [node.broadcast] of a new message, as a task of the node's loop. *)
Definition message_out (salt uid : string) (now : time) (host text : string) (n : Node) (c : ChatService) :
    Node * ChatService :=
  let cfg := node_config now host c in
  let n0 := BroadcastNode.set_registry (ChatService.peer_registry c) n in
  let n' := (_do_broadcast cfg salt now (new_message text (address cfg) uid now) n0).2 in
  (n', foldl (λ c m, (show_own now host m c).2) c (drop (length (delivered n)) (delivered n'))).

(** POST [/messages] while nothing else reaches the service. *)
Definition send_from_page (salt uid : string) (now : time) (f : pydict string string) (p : Program) : result string * Program :=
  let text := form "message" f in
  let out := message_out salt uid now (node_host p) text (node p) in
  let '(r, a) := post_messages (λ c, (Ok (), (out c).2)) f (app p) in
  let n := if decide (text = "") then node p
           else (out (ChatService.post_message text (chat_service (app p))).2).1 in
  (r, mkProgram a n (node_host p) (key_store p) (own_public_key_pem p)).
End Program.
