(* ===== verification/ProgramFacts.v ===== *)
(** * What the program promises

    The start of the program, and one message from the form of the page to the wire. *)

From stdpp Require Import prelude gmap strings.
From Stdlib Require Import Ascii.
From S2P Require Import Prelude PyDict PyStr Json Base64 Message Security PeerRegistry VectorClock BroadcastNode BroadcastFacts.
From S2P Require Import StoredMessage MessageStore MessageStoreFacts MessageHistory Recovery RecoveryFacts DiscoveryFacts ChatService ChatFacts WebApp Program.
Import InMemoryRegistry.

Local Open Scope string_scope.
Local Open Scope list_scope.

(** ** Ports and addresses *)

Section NetworkFacts.
Context `{Platform}.

Lemma elem_port_range p a b : p ∈ port_range a b ↔ (a ≤ p ≤ b)%Z.
Proof.
  unfold port_range. rewrite list_elem_of_fmap. setoid_rewrite elem_of_seq. split.
  - intros (i & -> & Hi). lia.
  - intros Hp. exists (Z.to_nat (p - a)). lia.
Qed.

Lemma first_free_spec ports : match first_free ports with
  | Ok p => ∃ taken rest, ports = taken ++ p :: rest ∧ Forall (λ q, bind q = Raise OSError) taken ∧ bind p = Ok ()
  | Raise e => (e = OSError ∧ Forall (λ q, bind q = Raise OSError) ports) ∨
               (e ≠ OSError ∧ ∃ q, q ∈ ports ∧ bind q = Raise e)
  end.
Proof.
  induction ports as [|p ports IH]; [by left|]. cbn [first_free].
  destruct (bind p) as [[]|e] eqn:Ep; [by exists [], ports|].
  destruct (decide (e = OSError)) as [->|He].
  - destruct (first_free ports) as [q|e].
    + destruct IH as (taken & rest & -> & Ht & Hq). exists (p :: taken), rest. by split_and!; [|constructor|].
    + destruct IH as [[-> Ht]|(He & q & Hq & Hb)]; [left; by split; [|constructor]|].
      right. split; [done|]. exists q. split; [by right|done].
  - assert (∀ A (x y : A), match e with OSError => x | _ => y end = y) as Hm by by destruct e.
    rewrite Hm. right. split; [done|]. exists p. split; [left|done].
Qed.

(** When a port of the range can be bound and the others are at worst taken, the answer is
    the lowest that can. *)
Lemma pick_free_port_lowest a b p : (a ≤ p ≤ b)%Z → bind p = Ok () →
  (∀ q, (a ≤ q < p)%Z → bind q = Raise OSError) → pick_free_port a b = Ok p.
Proof.
  intros Hp Hb Ht. unfold pick_free_port, port_range.
  replace (Z.to_nat (b + 1 - a)) with (Z.to_nat (p - a) + S (Z.to_nat (b - p))) by lia.
  rewrite seq_app, fmap_app. cbn [seq fmap list_fmap]. rewrite Nat.add_0_l, Z2Nat.id by lia.
  replace (a + (p - a))%Z with p by lia.
  assert (∀ l rest, Forall (λ q, bind q = Raise OSError) l → first_free (l ++ p :: rest) = Ok p) as Hf.
  { intros l rest. induction 1 as [|q l Hq _ IH]; cbn; [by rewrite Hb|by rewrite Hq]. }
  apply Hf, Forall_fmap, Forall_seq. intros i Hi. cbn. apply Ht. lia.
Qed.

(** The route to a public address may be missing: there is an answer all the same. *)
Definition route_known : Prop := match route_source with Ok _ => True | Raise e => e = OSError end.

Lemma get_lan_ip_total env : route_known → ∃ ip, get_lan_ip env = Ok ip.
Proof.
  unfold route_known, get_lan_ip. intros Hr. cbv zeta. case_decide; [|by eexists].
  destruct route_source as [ip|e]; [by eexists|]. rewrite Hr. by eexists.
Qed.

(** Without the environment's word, a loopback address is the answer only when the route or
    the host's name gives nothing better. *)
Lemma host_address_not_loopback ips : own_addresses = Ok ips →
  existsb (λ ip, negb (startswith "127." ip)) ips = true → startswith "127." host_address = false.
Proof.
  intros Ho Hex. unfold host_address. rewrite Ho.
  destruct (List.find _ ips) as [ip|] eqn:E.
  - apply List.find_some in E as [_ Hn]. by apply negb_true_iff in Hn.
  - apply existsb_exists in Hex as (ip & Hin & Hn). by rewrite (List.find_none _ _ E ip Hin) in Hn.
Qed.
End NetworkFacts.

(** ** Starting *)

Section Starting.
Context `{!Crypto} `{!CryptoLaws} `{!Keyring} `{!Archive} `{!ArchiveLaws} `{!Templates} `{!Platform}.
Context (security_available : bool) (history_uuid : nat → string).

(** The keyring holds the key [sk], or holds none and takes the new one. *)
Definition keyring_gives (fresh : private_key) (kr : keyring_state) (sk : private_key) : Prop :=
  match load_private_key kr with
  | Ok pem => load_pem_private_key pem = Ok sk
  | Raise PersistentKeyStorageError => sk = fresh ∧ ∃ kr', set_password (b64encode (private_bytes fresh)) kr = Ok kr'
  | Raise _ => False
  end.

(** The key this start of the program signs with. *)
Definition identity (fresh : private_key) (kr : keyring_state) (sk : private_key) : Prop :=
  match import_keyring with
  | Ok _ => keyring_gives fresh kr sk
  | Raise e => e = ImportError ∧ sk = fresh
  end.

Lemma loaded_nonempty kr pem : load_private_key kr = Ok pem → pem ≠ "".
Proof.
  unfold load_private_key. destruct (get_password kr) as [[s|]|e]; cbn; try done.
  destruct (b64decode s); [|done]. case_decide; [done|]. by intros [= <-].
Qed.

Lemma load_keys_pem fresh kr sk : identity fresh kr sk → ∃ persistent pem kr',
  get_platform_key_storage = Ok persistent ∧ load_pem_private_key pem = Ok sk ∧
  load_keys fresh persistent kr = (Ok (public_bytes (public_of sk), Some pem), kr').
Proof.
  assert (∀ pem (rt : KeyStore), pem ≠ "" → load_pem_private_key pem = Ok sk →
    (set_private_key pem rt).1 = Ok tt ∧ (set_private_key pem rt).2 = Some pem ∧
    get_public_key_pem (Some pem) = Ok (public_bytes (public_of sk))) as Hset.
  { intros pem rt Hne Hl. unfold set_private_key, get_public_key_pem, get_private_key. rewrite decide_False by done.
    cbn [of_option]. by rewrite Hl. }
  unfold identity, keyring_gives, get_platform_key_storage, load_keys, initialize_private_key_store.
  pose proof (Hset _ None (private_bytes_nonempty fresh)) as Hfresh.
  destruct import_keyring as [u|e]; cbn [negb].
  - destruct (load_private_key kr) as [pem|e] eqn:El.
    + intros Hl. exists true, pem, kr. split; [done|]. split; [done|]. destruct u.
      destruct (Hset pem None (loaded_nonempty _ _ El) Hl) as (E1 & E2 & E3).
      destruct (set_private_key pem None) as [r rt]. cbn in E1, E2. subst. by rewrite E3.
    + destruct e; try done. intros [-> [kr' Hs]]. exists true, (private_bytes fresh), kr'.
      split; [done|]. split; [apply load_private_bytes|]. destruct u.
      unfold save_private_key. rewrite decide_False by apply private_bytes_nonempty. rewrite Hs.
      by rewrite set_private_key_loaded, get_public_key_loaded.
  - intros [-> ->]. exists false, (private_bytes fresh), kr. split; [done|]. split; [apply load_private_bytes|].
    cbn [negb]. by rewrite set_private_key_loaded, get_public_key_loaded.
Qed.

(** The node signs with [sk], the public key that is advertised is that of [sk], and the
    history service works on a store that holds [h]. *)
Definition running (p : Program) (sk : private_key) (h : list StoredMessage) : Prop :=
  own_key (keys (node p)) = Some sk ∧ own_public_key_pem p = public_bytes (public_of sk) ∧
  working (chat_service (app p)) h.

Lemma start_history_ok host st h n : store_ok st h → ∃ n' hs,
  start_history host (disk st) n = Ok (n', hs) ∧ keys n' = keys n ∧ seen n' = seen n ∧ BroadcastNode.peer_registry n' = BroadcastNode.peer_registry n ∧
  ∃ w, wiring hs = Some w ∧ store_ok (store w) h.
Proof.
  intros Hok. destruct (reopen_ok DEFAULT_SNAPSHOT_THRESHOLD st h Hok) as (st' & Ho & Hok').
  destruct (latest_clock_ok st' h Hok') as (c & st2 & Hc & Hok2 & _).
  unfold start_history, Recovery.start, wire_node. cbn [wiring Recovery.root clean_storage configure_storage_root Recovery.host Recovery.port].
  rewrite Ho. cbn [mbind result_bind]. rewrite Hc. eexists _, _. split; [reflexivity|]. split_and!; try done. by eexists.
Qed.

Lemma main_run env fresh st h kr sk : route_known → identity fresh kr sk → store_ok st h →
  ∃ p kr', main env fresh (disk st) kr = (if mock_data_enabled env then Raise AttributeError else Ok p, kr') ∧
    running p sk h ∧ get_lan_ip env = Ok (node_host p) ∧ seen (node p) = ∅ ∧
    ∃ hs, app p = mkApp (set_history (Some hs) new_chat) false "" "".
Proof.
  intros Hr Hi Hst. destruct (load_keys_pem fresh kr sk Hi) as (ps & pem & kr' & E1 & Hl & E2).
  destruct (get_lan_ip_total env Hr) as [ip E3].
  assert (configured pem = Ok (mkKeys (Some sk) ∅)) as E4.
  { unfold configured, configure_private_key. rewrite bind_run. unfold lift. by rewrite Hl. }
  destruct (start_history_ok ip st h (@init_node _ in_memory_registry (mkKeys (Some sk) ∅) []) Hst) as (n & hs & E5 & Hk & Hseen & Hreg & w & Hw & Hok).
  unfold main. rewrite E1, bind_run. cbn [lift]. rewrite bind_run, E2, bind_run. cbn [snd get_private_key of_option lift].
  rewrite bind_run, E4. cbn [lift]. rewrite bind_run, E3. cbn [lift]. rewrite bind_run, E5. cbn [lift].
  eexists (mkProgram (mkApp (set_history (Some hs) new_chat) false "" "") n ip (Some pem) _), kr'.
  split; [by destruct (mock_data_enabled env)|]. split_and!; [|done|done|by exists hs].
  split_and!; [cbn; by rewrite Hk|done|]. by exists hs, w.
Qed.

(** C29: The program starts.  With a keyring that holds a key or takes one, or with none to
    import, an answer or an [OSError] about the route, and a store in the directory of the
    history, [main] gets to [app.run] with an empty page: the node signs
    with the key the keyring held, or a new one, the public key that is advertised is that
    of the same key, and the stored history is at hand.  With the mock service it always
    ends in [AttributeError]. *)
Theorem main_starts env fresh st h kr sk :
  route_known → identity fresh kr sk → store_ok st h →
  if mock_data_enabled env then (main env fresh (disk st) kr).1 = Raise AttributeError
  else ∃ p kr', main env fresh (disk st) kr = (Ok p, kr') ∧ running p sk h ∧ get_lan_ip env = Ok (node_host p) ∧
    connected (app p) = false ∧ messages (chat_service (app p)) = [] ∧ seen (node p) = ∅.
Proof.
  intros Hr Hi Hst. destruct (main_run env fresh st h kr sk Hr Hi Hst) as (p & kr' & -> & Hp & Hip & Hs & hs & Ha).
  destruct (mock_data_enabled env); [done|]. exists p, kr'. split_and!; try done; by rewrite Ha.
Qed.
End Starting.

(** ** From the page to the wire *)

Section Sending.
Context `{!Crypto} `{!CryptoLaws} `{!Keyring} `{!Archive} `{!ArchiveLaws} `{!Templates} `{!Platform}.
Context (history_uuid : nat → string).

Abbreviation show := (show_own history_uuid).
Abbreviation config_of := (node_config true history_uuid).

(** A node with a key signs; the signature is the only change. *)
Lemma signs cfg salt m ks sk : security cfg = true → own_key ks = Some sk →
  ∃ sg, _sign_outgoing cfg salt m ks = Some (with_signature sg m) ∧ sign salt m ks = Ok (with_signature sg m).
Proof. intros Hsec Hk. unfold _sign_outgoing. rewrite Hsec. unfold sign. rewrite Hk. by eexists. Qed.

Lemma encrypt_for_peer_sender cfg coins m h p (r : t) : sender (_encrypt_for_peer cfg coins m h p r) = sender m.
Proof.
  unfold _encrypt_for_peer. repeat case_match; try done. simplify_eq. revert select (encrypt_payload _ _ _ = _).
  unfold encrypt_payload. case_match; [by intros [= <-]|]. destruct (seal_boxes _ _ _); [|done]. by intros [= <-].
Qed.

(** A peer that learnt the public key of [sk] under the sender's address accepts what is
    prepared for it. *)
Lemma prepared_verifies cfg coins salt m h p (n : Node) sk ks :
  security cfg = true → own_key (keys n) = Some sk → public_keys ks !! sender m = Some (public_of sk) →
  ∃ w, _prepare_outgoing_for_peer cfg coins salt m h p n = Some w ∧ verify w ks = Ok true.
Proof.
  intros Hsec Hk Hp. unfold _prepare_outgoing_for_peer.
  destruct (signs cfg salt (_encrypt_for_peer cfg coins m h p (BroadcastNode.peer_registry n)) (keys n) sk Hsec Hk) as (sg & -> & Hs).
  eexists. split; [done|]. eapply verify_sign; [done|done|]. by rewrite encrypt_for_peer_sender.
Qed.

(** A broadcast whose message the callback takes. *)
Lemma broadcast_taken cfg salt now m (n : Node) sk f :
  security cfg = true → own_key (keys n) = Some sk → id m ∉ seen n → (0 < ttl m)%Z → on_message cfg = Some f →
  (∀ sg, f (stamped cfg (with_signature sg m) n) = Ok ()) →
  ∃ sg n', let m' := stamped cfg (with_signature sg m) n in
    _do_broadcast cfg salt now m n = (Ok true, n') ∧ delivered n' = delivered n ++ [m'] ∧ keys n' = keys n ∧
    seen n' = {[id m]} ∪ seen n ∧ BroadcastNode.peer_registry n' = BroadcastNode.peer_registry n ∧
    tasks n' = tasks n ++ ((λ hp, mkTask hp.1 hp.2 m') <$>
      List.filter (relay_target cfg (sender m)) (get_peers (BroadcastNode.peer_registry n))).
Proof.
  intros Hsec Hk Hnew Httl Hf Hcb. destruct (signs cfg salt m (keys n) sk Hsec Hk) as (sg & Hs & _).
  exists sg. eexists. cbv zeta. unfold _do_broadcast. rewrite bind_run, deduplicate_run, decide_False by done.
  cbn [negb]. rewrite bind_run. cbn [get]. change (keys (BroadcastNode.set_seen _ n)) with (keys n). rewrite Hs, bind_run. cbn [modify].
  set (n1 := set_causal _ _ _). change (with_clock _ _) with (stamped cfg (with_signature sg m) n).
  rewrite bind_run, call_one, Hf, Hcb, bind_run.
  change (ttl (stamped cfg (with_signature sg m) n)) with (ttl m). rewrite (proj2 (Z.ltb_lt _ _) Httl).
  destruct (forward_run cfg (stamped cfg (with_signature sg m) n) now (set_delivered (delivered n1 ++ [stamped cfg (with_signature sg m) n]) n1))
    as (peers & reg & Hg & ->). cbn in Hg. injection Hg as <- <-. split; [reflexivity|]. done.
Qed.

(** What the service makes of the node's own message. *)
Lemma shows_own now host m c h : chat_text (content m) = true → working c h →
  ∃ hs', show now host m c = (Ok (), set_messages (messages c ++ [shown m]) (set_history (Some hs') c)) ∧
    working (set_messages (messages c ++ [shown m]) (set_history (Some hs') c)) (remember (_to_storage_message m) h).
Proof. intros Hc Hw. by destruct (received_chat app_refreshes (Some (addr host NODE_PORT)) NODE_PORT history_uuid true now m c h Hc Hw) as (hs' & E & Hw'); exists hs'. Qed.

Definition others (own : string) (peers : list (string * Z)) : list (string * Z) :=
  List.filter (λ hp, negb (bool_decide (addr hp.1 hp.2 = own))) peers.

Lemma relay_target_others cfg peers : List.filter (relay_target cfg (address cfg)) peers = others (address cfg) peers.
Proof.
  apply List.filter_ext. intros hp. unfold relay_target. f_equal. apply bool_decide_ext. naive_solver.
Qed.

(** [message_out] of a chat text with a new identifier. *)
Lemma message_out_run salt uid now host text (n : Node) c sk h :
  own_key (keys n) = Some sk → uid ∉ seen n → chat_text text = true → working c h →
  let own := addr host NODE_PORT in
  ∃ sg n' hs', let m := with_clock (increment own (vc n)) (with_signature sg (new_message text own uid now)) in
    let c' := set_messages (messages c ++ [shown m]) (set_history (Some hs') c) in
    message_out true history_uuid salt uid now host text n c = (n', c') ∧
    keys n' = keys n ∧ seen n' = {[uid]} ∪ seen n ∧ working c' (remember (_to_storage_message m) h) ∧
    tasks n' = tasks n ++ ((λ hp, mkTask hp.1 hp.2 m) <$> others own (get_peers (ChatService.peer_registry c))).
Proof.
  intros Hk Hnew Hc Hw own.
  destruct (broadcast_taken (config_of now host c) salt now (new_message text own uid now)
    (@BroadcastNode.set_registry _ in_memory_registry (ChatService.peer_registry c) n) sk _ eq_refl Hk Hnew eq_refl eq_refl) as (sg & n' & E & Hd & Hk' & Hs & _ & Ht).
  { intros sg. cbv beta. edestruct (shows_own now host) as (hs' & E & _); [|exact Hw|by rewrite E]. exact Hc. }
  set (m := with_clock (increment own (vc n)) (with_signature sg (new_message text own uid now))).
  change (delivered n' = delivered n ++ [m]) in Hd. destruct (shows_own now host m c h Hc Hw) as (hs' & Es & Hw').
  exists sg, n', hs'. cbv zeta. fold m. unfold message_out. change (address _) with own.
  rewrite E. cbn [snd]. rewrite Hd, drop_app_length. cbn [foldl]. rewrite Es. split_and!; try done.
  rewrite Ht. f_equal. f_equal. apply (relay_target_others (config_of now host c)).
Qed.

(** C21: From the form to the wire.  In a running program, sending a chat text from the page
    answers with a list that ends in the new message, with this node as its sender and the
    next tick of its clock; it is stored in the history, a copy is on its way to every
    registered peer but this node, and whoever learnt the public key that the program
    advertises accepts what is prepared for it, encrypted or not. *)
Theorem post_reaches_everyone salt uid now f p sk h :
  running p sk h → uid ∉ seen (node p) →
  let text := form "message" f in text ≠ "" → chat_text text = true →
  let own := own_address p in
  ∃ m p', send_from_page true history_uuid salt uid now f p = (Ok (messages_partial (chat_service (app p'))), p') ∧
    content m = text ∧ sender m = own ∧ timestamp m = now ∧ vector_clock m = increment own (vc (node p)) ∧
    messages (chat_service (app p')) = messages (chat_service (app p)) ++ [shown m] ∧
    running p' sk (remember (_to_storage_message m) h) ∧ seen (node p') = {[uid]} ∪ seen (node p) ∧
    tasks (node p') = tasks (node p) ++
      ((λ hp, mkTask hp.1 hp.2 m) <$> others own (get_peers (ChatService.peer_registry (chat_service (app p))))) ∧
    ∀ coins salt' host port ks, ∃ w,
      _prepare_outgoing_for_peer (config_of now (node_host p) (chat_service (app p'))) coins salt' m host port (node p') = Some w ∧
      verify w (register_public_key own (own_public_key_pem p) ks).2 = Ok true.
Proof.
  intros (Hk & Hpem & Hw) Hnew text Hne Hc own. unfold send_from_page. fold text. rewrite decide_False by done.
  set (c1 := (ChatService.post_message text (chat_service (app p))).2).
  destruct (message_out_run salt uid now (node_host p) text (node p) c1 sk h Hk Hnew Hc Hw) as (sg & n' & hs' & E & Hk' & Hs & Hw' & Ht).
  set (m := with_clock _ _) in *. unfold post_messages. fold text. cbv zeta.
  rewrite (decide_False (P := text = "")) by done. rewrite bind_run. unfold on_chat at 1. change (ChatService.post_message text (chat_service (app p))) with (Ok (A := unit) (), c1).
  cbv iota beta. rewrite bind_run. unfold on_chat. cbn [chat_service]. rewrite E. cbn [snd fst]. rewrite bind_run. cbn [get]. unfold mret, M_ret. eexists m, (mkProgram _ _ _ _ _). split; [reflexivity|].
  split_and!; try done. { split_and!; [cbn; by rewrite Hk'|done|exact Hw']. }
  intros coins salt' host port ks. apply prepared_verifies with sk; [done|cbn; by rewrite Hk'|].
  rewrite Hpem. unfold register_public_key. rewrite bind_run. unfold lift. rewrite load_public_bytes.
  cbn [modify snd public_keys]. apply lookup_insert_eq.
Qed.
End Sending.

(** ** A laptop without a route *)

Module ProgramDemo.
Import Toy.

#[local] Instance laptop : Platform := {|
  bind := λ p, if (p <? 8003)%Z then Raise OSError else Ok ();
  route_source := Raise OSError;
  own_addresses := Ok ["127.0.1.1"; "10.0.0.2"];
  import_keyring := Ok ();
|}.
#[local] Instance plain_pages : Templates := {|
  chat_html := λ _ _ _ _ _, "";
  users_html := λ _, "";
  users_list := λ us, String.concat "," (name <$> us);
  message_list := λ ms _ _, String.concat "," (shown_content <$> ms);
  connect_state := λ _ _ _, "";
|}.

Definition start (env : pydict string string) :=
  main (H := toy_crypto) (H0 := toy_keyring) (H1 := plain_archive) env "a"%char (disk (saved_store demo_a)) None.

Example free_port : pick_free_port 8001 8020 = Ok 8003%Z ∧ pick_free_port 8001 8002 = Raise OSError.
Proof. split; reflexivity. Qed.

Lemma no_route : route_known.
Proof. reflexivity. Qed.
Lemma laptop_ip : get_lan_ip [] = Ok "10.0.0.2".
Proof. reflexivity. Qed.
Lemma starts_fresh : identity (H := toy_crypto) (H1 := toy_keyring) "a"%char None "a"%char.
Proof. split; [done|]. by eexists. Qed.

Lemma main_starts_witness :
  (start [("MOCK_DATA_ENABLED", "false")]).1 = Raise AttributeError ∧
  ∃ p kr, start [] = (Ok p, kr) ∧ node_host p = "10.0.0.2" ∧ own_key (keys (node p)) = Some "a"%char.
Proof.
  split.
  - exact (main_starts (H := toy_crypto) (H0 := toy_laws) (H1 := toy_keyring) [("MOCK_DATA_ENABLED", "false")] "a"%char _ _ None "a"%char
      no_route starts_fresh (saved_store_ok demo_a)).
  - destruct (main_starts (H := toy_crypto) (H0 := toy_laws) (H1 := toy_keyring) [] "a"%char _ _ None "a"%char
      no_route starts_fresh (saved_store_ok demo_a)) as (p & kr & E & (Hk & _) & Hip & _).
    exists p, kr. split; [exact E|]. split; [|exact Hk]. rewrite laptop_ip in Hip. by injection Hip as <-.
Defined.

(** Carol's address is registered, and the page posts to her. *)
Definition with_carol (p : Program (H := toy_crypto)) : Program :=
  mkProgram (H := toy_crypto) (mkApp (ChatService.set_registry [("10.0.0.3", 5678%Z, "")] (chat_service (app p))) false "" "")
    (node p) (node_host p) (key_store p) (own_public_key_pem p).

Lemma carol_running : ∃ p, with_carol <$> (start []).1 = Ok p ∧ running (H := toy_crypto) p "a"%char (remember_all demo_a []) ∧
  own_address p = "10.0.0.2:5678" ∧ seen (node p) = ∅ ∧
  get_peers (ChatService.peer_registry (chat_service (app p))) = [("10.0.0.3", 5678%Z)].
Proof.
  destruct (main_run (H := toy_crypto) (H0 := toy_laws) (H1 := toy_keyring) [] "a"%char _ _ None "a"%char no_route starts_fresh (saved_store_ok demo_a))
    as (p & kr & E & (Hk & Hpem & Hw) & Hip & Hs & hs & Ha).
  exists (with_carol p). unfold start. rewrite E. split; [reflexivity|]. split_and!; [|..|exact Hs|reflexivity].
  - split_and!; [exact Hk|exact Hpem|]. destruct Hw as (hs' & w & Hh & Hw). exists hs', w. split; [exact Hh|exact Hw].
  - rewrite laptop_ip in Hip. injection Hip as Hip. unfold own_address. change (node_host (with_carol p)) with (node_host p). rewrite <- Hip. reflexivity.
Qed.

Lemma post_reaches_everyone_witness : ∃ p page p', with_carol <$> (start []).1 = Ok p ∧
  send_from_page (H := toy_crypto) true string_of_Z_nat "" "u1" 7 [("message", " hello ")] p = (Ok page, p') ∧
  shown_content <$> drop (length (messages (chat_service (app p)))) (messages (chat_service (app p'))) = ["hello"] ∧
  to_host <$> drop (length (tasks (node p))) (tasks (node p')) = ["10.0.0.3"].
Proof.
  destruct carol_running as (p & E & Hp & Hown & Hs & Hpeers).
  destruct (post_reaches_everyone (H := toy_crypto) (H0 := toy_laws) string_of_Z_nat "" "u1" 7 [("message", " hello ")] p "a"%char _ Hp)
    as (m & p' & Es & Hc & _ & _ & _ & Hm & _ & _ & Ht & _); [rewrite Hs; apply not_elem_of_empty|discriminate|reflexivity|].
  eexists p, _, p'. split; [exact E|]. split; [exact Es|]. rewrite Hm, Ht, !drop_app_length, Hown, Hpeers. split.
  - unfold shown. cbn. by rewrite Hc.
  - reflexivity.
Defined.
End ProgramDemo.
