(* ===== verification/Terminal.v ===== *)
(** * The terminal client ([message_history/demo_history.py])

    A chat client for the terminal: a broadcast node over a fixed list of peers, with the
    history service, a prompt, and the commands [show], [vc], [list snapshots] and [quit].
    The node has no key.  The screen is the list of what is printed, piece by piece; the
    address of the node is the advertised one, and [zone] is the offset of local time. *)

From stdpp Require Import prelude gmap strings.
From Stdlib Require Import Ascii.
From S2P Require Import Prelude PyDict PyStr Json PyText Message Security PeerRegistry VectorClock BroadcastNode BroadcastFacts.
From S2P Require Import StoredMessage MessageStore MessageStoreFacts MessageHistory Recovery RecoveryFacts ChatFacts Program ProgramFacts Report.
Import InMemoryRegistry.

Local Open Scope string_scope.
Local Open Scope list_scope.

(** ** Arguments and text *)

(** [parse_peer] *)
Definition parse_peer (value : string) : result (string * Z) :=
  match rsplit1 ":" value with
  | None => Raise ValueError
  | Some (host, port_text) => port ← of_option ValueError (py_int port_text); mret (host, port)
  end.

Definition two_digits (n : Z) : string := if (n <? 10)%Z then "0" +:+ string_of_Z n else string_of_Z n.

Section Text.
Variable zone : time → time.

(** [time.strftime("%H:%M:%S", time.localtime(t))] *)
Definition clock_text (t : time) : string :=
  let s := ((t + zone t) / 1000000 mod 86400)%Z in
  two_digits (s / 3600) +:+ ":" +:+ two_digits (s / 60 mod 60) +:+ ":" +:+ two_digits (s mod 60).

(** [format_message]; a message of the node has the same fields. *)
Definition format_message (m : StoredMessage) : string :=
  "[" +:+ clock_text (st_timestamp m) +:+ "] " +:+ st_sender m +:+ "#" +:+
  string_of_Z (default 0%Z (st_vc m !! st_sender m)) +:+ ": " +:+ st_content m.

(** The lines of [print_recent_messages]. *)
Definition recent_lines (messages : list StoredMessage) : list string :=
  match messages with [] => ["(no messages)"] | _ => format_message <$> messages end.
End Text.

(** The keys of every object in order. *)
Fixpoint sort_json (j : json) : json :=
  match j with
  | JList l => JList (map sort_json l)
  | JObj d => JObj (sort_keys (map (λ kx, (kx.1, sort_json kx.2)) d))
  | _ => j
  end.

(** [print_json] *)
Definition json_text (j : json) : string := dumps (indented 2) (sort_json j).

Record TermArgs := mkTermArgs {
  t_host : string;
  t_port : Z;
  t_peers : list (string * Z);
  show_limit : Z;
}.

(** ** The client *)

(** What [on_message] and the commands work on. *)
Record View := mkView { v_history : HistoryService; v_screen : list string }.

Inductive command := CNothing | CQuit | CShow | CClock | CSnapshots | CSay (text : string).

Definition parse_command (line : string) : command :=
  let c := strip line in
  if decide (c = "") then CNothing
  else if decide (c = "quit") then CQuit
  else if decide (c = "show") then CShow
  else if decide (c = "vc") then CClock
  else if decide (c = "list snapshots") then CSnapshots
  else CSay c.

Definition line_break (s : string) : string := s +:+ String line_end "".

Section Client.
Context `{Crypto} `{Archive}.
Context (security_available : bool) (history_uuid : nat → string) (zone : time → time).
Variable args : TermArgs.

Record Terminal := mkTerminal { t_node : Node; t_view : View }.

Definition client_address : string := addr (t_host args) (t_port args).

Definition on_history {A} (m : M HistoryService A) : M View A := λ v,
  let '(r, hs) := m (v_history v) in (r, mkView hs (v_screen v)).
Definition put_text (s : string) : M View unit := modify (λ v, mkView (v_history v) (v_screen v ++ [s])).

(** [result.get("handled")] *)
Definition taken (r : storage_result) : bool := match r with Recovered _ => true | Chat _ => false end.

(** [on_message] *)
Definition on_message (now : time) (msg : Message) : M View unit :=
  r ← on_history (Recovery.handle_message history_uuid now msg);
  if taken r then mret ()
  else
    put_text (line_break (String line_end (format_message zone (_to_storage_message msg))));;
    if decide (sender msg = client_address) then mret () else put_text "> ".

Definition client_config (now : time) (v : View) : Config :=
  mkConfig (t_host args) (t_port args) false security_available (Some (λ m, (on_message now m v).1)) None.

(** A step of the node's loop: what it hands over goes through [on_message]. *)
Definition node_step (now : time) (e : event) (t : Terminal) : Terminal :=
  let n := (handle (client_config now (t_view t)) now e (t_node t)).2 in
  mkTerminal n (foldl (λ v m, (on_message now m v).2) (t_view t) (drop (length (delivered (t_node t))) (delivered n))).

(** [main] up to the prompt, with the directory [d]. *)
Definition start_terminal (now : time) (d : Disk) : result Terminal :=
  let registry := foldl (λ r hp, add_peer hp.1 hp.2 "" r) [] (t_peers args) in
  let n := init_node (mkKeys None ∅) registry in
  let '(r, hs) := Recovery.start (mkService (t_host args) (t_port args) false d None) in
  restored ← r;
  let n := set_causal (merge (vc n) restored) (hold_back n) n in
  let '(r, hs) := request_missing_history history_uuid now ((λ hp, JList [JStr hp.1; JInt hp.2]) <$> get_peers registry) JNull hs in
  _ ← r;
  mret (mkTerminal n (mkView hs ((line_break <$>
    ["Node: " +:+ client_address; "Commands: show | vc | list snapshots | quit"; "Type any other text to send a chat message."])
    ++ ["> "]))).

(** The commands; [true] goes on.  Broadcasting is a step of the loop. *)
Definition run_command (salt uid : string) (now : time) (c : command) : M Terminal bool := λ t,
  let view {A} (m : M View A) : M Terminal A :=
    λ t, let '(r, v) := m (t_view t) in (r, mkTerminal (t_node t) v) in
  match c with
  | CNothing => (Ok true, t)
  | CQuit => (Ok false, t)
  | CShow =>
    (messages ← view (on_history (started (λ _, w ← get; lift (get_recent (show_limit args) (MessageStore.disk (store w))))));
     view (forM (line_break <$> recent_lines zone messages) put_text);; mret true) t
  | CClock =>
    (clock ← view (on_history (started (λ _, on_store get_latest_vector_clock)));
     view (put_text (line_break (json_text (json_of_vc clock))));; mret true) t
  | CSnapshots =>
    (metas ← view (on_history (started (λ _, w ← get; mret (list_snapshots (snapshot_dir (MessageStore.disk (store w)))))));
     view (match metas with
           | [] => put_text (line_break "(no snapshots)")
           | _ => forM metas (λ meta, put_text (line_break (json_text (JObj meta))))
           end);; mret true) t
  | CSay text => (Ok true, node_step now (EBroadcast salt (new_message text client_address uid now)) t)
  end.

(** A line typed at the prompt, after which there is a new prompt, and steps of the
    node. *)
Inductive happening :=
  | Typed (salt uid line : string)
  | Loop (e : event).

Definition happen (now : time) (h : happening) : M Terminal bool :=
  match h with
  | Typed salt uid line =>
    go ← run_command salt uid now (parse_command line);
    (if (go : bool) then modify (λ t, mkTerminal (t_node t) (mkView (v_history (t_view t)) (v_screen (t_view t) ++ ["> "])))
     else mret ());;
    mret go
  | Loop e => modify (node_step now e);; mret true
  end.

(** The session is over with [quit] or an exception. *)
Fixpoint session (hs : list (time * happening)) : M Terminal bool :=
  match hs with
  | [] => mret true
  | (now, h) :: hs => go ← happen now h; if (go : bool) then session hs else mret false
  end.
End Client.

(** ** What the client shows and keeps *)

Section Facts.
Context `{!Crypto} `{!Archive} `{!ArchiveLaws}.
Context (security_available : bool) (history_uuid : nat → string) (zone : time → time).
Variable args : TermArgs.

Abbreviation shows := (on_message history_uuid zone args).
Abbreviation step := (node_step security_available history_uuid zone args).

(** The history service works on a store that holds [h]. *)
Definition keeping (v : View) (h : list StoredMessage) : Prop :=
  ∃ w, wiring (v_history v) = Some w ∧ store_ok (store w) h.

(** What one message puts on the screen. *)
Definition shown_text (m : Message) : list string :=
  line_break (String line_end (format_message zone (_to_storage_message m))) ::
  (if decide (sender m = client_address args) then [] else ["> "]).

Lemma shows_chat now m v h : chat_text (content m) = true → keeping v h →
  ∃ hs, shows now m v = (Ok (), mkView hs (v_screen v ++ shown_text m)) ∧
    keeping (mkView hs (v_screen v ++ shown_text m)) (remember (_to_storage_message m) h).
Proof.
  intros Hc (w & Hw & Hok). unfold on_message. rewrite bind_run. unfold on_history, Recovery.handle_message, started. rewrite Hw.
  unfold handle_storage_message. rewrite bind_run. destruct (chat_not_recovery (λ _, None) history_uuid now m w Hc) as (r & -> & ->).
  unfold try_except, on_store. rewrite bind_run. destruct (save_ok now (store w) h (_to_storage_message m) Hok) as (st & -> & Hst & _).
  cbn [mret M_ret taken]. rewrite bind_run. unfold put_text at 1. cbn [modify]. unfold shown_text. case_decide.
  - eexists. split; [reflexivity|]. eexists. split; [reflexivity|exact Hst].
  - unfold put_text, modify. cbn. rewrite <- app_assoc. eexists. split; [reflexivity|]. eexists. split; [reflexivity|exact Hst].
Qed.

Lemma shows_all now ms v h : Forall (λ m, chat_text (content m) = true) ms → keeping v h →
  ∃ hs, foldl (λ v m, (shows now m v).2) v ms = mkView hs (v_screen v ++ mjoin (shown_text <$> ms)) ∧
    keeping (foldl (λ v m, (shows now m v).2) v ms) (remember_all (_to_storage_message <$> ms) h).
Proof.
  intros Hms. revert v h. induction Hms as [|m ms Hm Hms IH]; intros v h Hv.
  { exists (v_history v). cbn. rewrite app_nil_r. split; [by destruct v|done]. }
  destruct (shows_chat now m v h Hm Hv) as (hs & E & Hv'). destruct (IH _ _ Hv') as (hs' & E' & Hk).
  exists hs'. cbn [foldl fmap list_fmap mjoin list_join]. rewrite E. cbn [snd]. split; [|exact Hk].
  rewrite E'. cbn [v_screen]. by rewrite <- app_assoc.
Qed.

(** What a step of the loop hands over, and what a run of it does. *)
Definition handed (now : time) (e : event) (t : Terminal) : list Message :=
  drop (length (delivered (t_node t))) (delivered (t_node (step now e t))).
Fixpoint handed_all (es : list (time * event)) (t : Terminal) : list Message :=
  match es with [] => [] | (now, e) :: es => handed now e t ++ handed_all es (step now e t) end.
Definition run_loop (es : list (time * event)) (t : Terminal) : Terminal := foldl (λ t te, step te.1 te.2 t) t es.

Lemma run_loop_shows es t h : Forall (λ m, chat_text (content m) = true) (handed_all es t) → keeping (t_view t) h →
  v_screen (t_view (run_loop es t)) = v_screen (t_view t) ++ mjoin (shown_text <$> handed_all es t) ∧
  keeping (t_view (run_loop es t)) (remember_all (_to_storage_message <$> handed_all es t) h).
Proof.
  revert t h. induction es as [|[now e] es IH]; intros t h Hms Hv; [split; [by rewrite app_nil_r|done]|].
  cbn [handed_all] in *. apply Forall_app in Hms as [Hm Hms].
  destruct (shows_all now (handed now e t) (t_view t) h Hm Hv) as (hs & E & Hk).
  destruct (IH (step now e t) _ Hms Hk) as [Hs Hk']. change (run_loop ((now, e) :: es) t) with (run_loop es (step now e t)).
  rewrite !fmap_app, remember_all_app. split; [|exact Hk']. rewrite Hs.
  change (t_view (step now e t)) with (foldl (λ v m, (shows now m v).2) (t_view t) (handed now e t)). rewrite E. cbn [v_screen].
  by rewrite join_app, <- app_assoc.
Qed.

Lemma put_all_run ls v : forM ls put_text v = (Ok (), mkView (v_history v) (v_screen v ++ ls)).
Proof.
  revert v. induction ls as [|l ls IH]; intros v; [cbn; rewrite app_nil_r; by destruct v|].
  rewrite forM_cons. unfold put_text at 1. cbn [modify]. rewrite IH. cbn. by rewrite <- app_assoc.
Qed.

(** The client starts over any directory that holds a store, asks its peers for the history
    it lacks, and greets. *)
Lemma terminal_starts now st h : store_ok st h → ∃ t,
  start_terminal history_uuid args now (MessageStore.disk st) = Ok t ∧ keeping (t_view t) h ∧
  delivered (t_node t) = [] ∧ keys (t_node t) = mkKeys None ∅ ∧ seen (t_node t) = ∅ ∧ length (v_screen (t_view t)) = 4 ∧
  peer_registry (t_node t) = foldl (λ r hp, add_peer hp.1 hp.2 "" r) [] (t_peers args).
Proof.
  intros Hok. destruct (reopen_ok DEFAULT_SNAPSHOT_THRESHOLD st h Hok) as (st' & Ho & Hok').
  destruct (latest_clock_ok st' h Hok') as (c & st2 & Hc & Hok2 & _).
  unfold start_terminal, Recovery.start, wire_node. cbn [wiring Recovery.root clean_storage configure_storage_root Recovery.host Recovery.port].
  rewrite Ho. cbn [mbind result_bind]. rewrite Hc. cbv zeta iota beta. cbn [mbind result_bind].
  unfold request_missing_history, started. cbn [wiring Recovery.host Recovery.port].
  edestruct (harmless_fanout history_uuid h now (t_host args) (t_port args)) as (a & w' & E & Hw'); [|rewrite E].
  - exact Hok2.
  - cbn [mbind result_bind]. eexists. split; [reflexivity|]. split_and!; try done. eexists. split; [reflexivity|exact Hw'].
Qed.

(** A chat text typed at the prompt is printed and kept, and goes unsigned to every peer but
    the node itself. *)
Lemma terminal_says salt uid now text t h : chat_text text = true → keeping (t_view t) h → uid ∉ seen (t_node t) →
  own_key (keys (t_node t)) = None →
  let m := with_clock (increment (client_address args) (vc (t_node t))) (new_message text (client_address args) uid now) in
  ∃ t', run_command security_available history_uuid zone args salt uid now (CSay text) t = (Ok true, t') ∧
    v_screen (t_view t') = v_screen (t_view t) ++ shown_text m ∧
    keeping (t_view t') (remember (_to_storage_message m) h) ∧
    tasks (t_node t') = tasks (t_node t) ++
      ((λ hp, mkTask hp.1 hp.2 m) <$> others (client_address args) (get_peers (peer_registry (t_node t)))).
Proof.
  intros Hc Hv Hu Hk m. eexists. split; [reflexivity|]. unfold node_step. cbn [t_view t_node handle].
  set (cfg := client_config _ _ _ _ _ _). set (n := t_node t) in *.
  destruct (shows_chat now m (t_view t) h Hc Hv) as (hs & Es & Hkeep).
  assert (_sign_outgoing cfg salt (new_message text (client_address args) uid now) (keys n) =
    Some (new_message text (client_address args) uid now)) as Hsign.
  { unfold _sign_outgoing, sign. rewrite Hk. by destruct (negb (security cfg)). }
  assert (∃ n', (_do_broadcast cfg salt now (new_message text (client_address args) uid now);; mret ()) n = (Ok (), n') ∧
    delivered n' = delivered n ++ [m] ∧
    tasks n' = tasks n ++ ((λ hp, mkTask hp.1 hp.2 m) <$> others (client_address args) (get_peers (peer_registry n)))) as (n' & -> & Hd & Ht).
  { unfold _do_broadcast. rewrite bind_run, bind_run, deduplicate_run, decide_False by done. cbn [negb]. rewrite bind_run. cbn [get].
    change (keys (set_seen _ n)) with (keys n). rewrite Hsign, bind_run. cbn [modify].
    set (n1 := set_causal _ _ _). change (with_clock _ _) with m. rewrite bind_run, call_one.
    change (BroadcastNode.on_message cfg) with (Some (λ m, (shows now m (t_view t)).1)). cbv iota beta. rewrite Es. cbn [fst].
    rewrite bind_run. change (0 <? ttl m)%Z with true. cbv iota.
    destruct (forward_run cfg m now (set_delivered (delivered n1 ++ [m]) n1)) as (peers & reg & Hg & ->). cbn in Hg. injection Hg as <- <-.
    eexists. split; [reflexivity|]. split; [reflexivity|]. cbn. f_equal. f_equal. apply (relay_target_others cfg). }
  cbn [snd t_node]. rewrite Hd, drop_app_length. cbn [foldl]. rewrite Es. split_and!; [done|exact Hkeep|exact Ht].
Qed.

Abbreviation ask_show := (session security_available history_uuid zone args [(0%Z, Typed "" "" "show")]).

(** C22: The terminal shows what it is handed and [show] what it keeps.  In any run of the
    node's loop in which only chat is handed to the client, every message is printed, in the
    order in which it was handed over, with a new prompt after the messages of others; and
    [show] then prints the newest messages of the history, in the order of time: those kept
    before and those handed over, each identifier once, up to the limit. *)
Theorem terminal_shows_chat es t h :
  Forall (λ m, chat_text (content m) = true) (handed_all es t) → keeping (t_view t) h → (0 < show_limit args)%Z →
  let t' := run_loop es t in
  let kept := remember_all (_to_storage_message <$> handed_all es t) h in
  v_screen (t_view t') = v_screen (t_view t) ++ mjoin (shown_text <$> handed_all es t) ∧
  keeping (t_view t') kept ∧
  ∃ older l t'', ask_show t' = (Ok true, t'') ∧
    v_screen (t_view t'') = v_screen (t_view t') ++ (line_break <$> recent_lines zone l) ++ ["> "] ∧
    older ++ l ≡ₚ kept ∧ sorted_on st_timestamp (older ++ l) ∧ length l = min (Z.to_nat (show_limit args)) (length kept).
Proof.
  intros Hms Hv Hlim t' kept. destruct (run_loop_shows es t h Hms Hv) as [Hs Hk]. split; [exact Hs|]. split; [exact Hk|].
  fold t' kept in Hk. destruct Hk as (w & Hw & Hok). destruct (get_recent_ok (show_limit args) (store w) kept Hok Hlim) as (older & l & El & Hp & Hsort & Hn).
  exists older, l. cbn [session]. rewrite bind_run. cbn [happen]. change (parse_command "show") with CShow.
  unfold run_command. rewrite bind_run. cbv beta zeta. rewrite bind_run. unfold on_history, started. rewrite Hw.
  rewrite bind_run. cbn [get]. unfold lift. rewrite El. cbn iota beta. rewrite bind_run. cbn [t_view]. rewrite put_all_run.
  cbn iota beta. eexists. split; [reflexivity|]. cbn [t_view v_screen modify]. split; [by rewrite <- app_assoc|done].
Qed.
End Facts.

(** ** Two peers at a terminal *)

Module TerminalDemo.
Import Toy.

Definition demo_args : TermArgs := mkTermArgs "10.0.0.2" 5678 [("10.0.0.3", 5678%Z)] 50.
Definition carol_says : Message :=
  mkMessage "hello" "10.0.0.3:5678" "m1" (seconds 100) "" 10 {["10.0.0.3:5678" := 1%Z]}.
Definition demo_events : list (time * event) :=
  [(seconds 100, EFrame "" (to_json carol_says)); (seconds 101, EReceive);
   (seconds 102, EBroadcast "" (new_message "hi" "10.0.0.2:5678" "m2" (seconds 102)))].
Definition utc (t : time) : time := 0.

Definition demo_terminal : result Terminal :=
  start_terminal string_of_Z_nat demo_args (seconds 99) (MessageStore.disk (saved_store demo_a)).

Lemma demo_handed t : demo_terminal = Ok t →
  (λ m, (sender m, content m)) <$> handed_all true string_of_Z_nat utc demo_args demo_events t =
    [("10.0.0.3:5678", "hello"); ("10.0.0.2:5678", "hi")].
Proof. intros E. vm_compute in E. injection E as <-. vm_compute. reflexivity. Qed.

Lemma terminal_shows_chat_witness : ∃ t older l t', demo_terminal = Ok t ∧
  session true string_of_Z_nat utc demo_args [(0%Z, Typed "" "" "show")] (run_loop true string_of_Z_nat utc demo_args demo_events t) =
    (Ok true, t') ∧
  v_screen (t_view t') = v_screen (t_view (run_loop true string_of_Z_nat utc demo_args demo_events t)) ++
    (line_break <$> recent_lines utc l) ++ ["> "] ∧
  length (older ++ l) = 4.
Proof.
  destruct (terminal_starts string_of_Z_nat demo_args (seconds 99) _ _ (saved_store_ok demo_a)) as (t & Et & Hk & _).
  pose proof (demo_handed t Et) as Hh.
  destruct (terminal_shows_chat true string_of_Z_nat utc demo_args demo_events t (remember_all demo_a [])) as (_ & _ & older & l & t' & Es & Hs & Hp & _);
    [|exact Hk|reflexivity|].
  - rewrite Forall_forall. intros m Hm. apply (list_elem_of_fmap_2 (λ m, (sender m, content m))) in Hm. rewrite Hh in Hm.
    apply elem_of_cons in Hm as [[= _ ->]|Hm]; [reflexivity|]. apply list_elem_of_singleton in Hm as [= _ ->]. reflexivity.
  - exists t, older, l, t'. split; [exact Et|]. split; [exact Es|]. split; [exact Hs|]. rewrite Hp. clear -Et. vm_compute in Et.
    injection Et as <-. vm_compute. reflexivity.
Defined.
End TerminalDemo.
